(* ===== verification/_CoqProject ===== *)
-Q . S2P
Prelude.v
GoStrings.v
Unstructured.v
MappingSpec.v
MappingEngine.v
JsonMeta.v
MappingWitness.v
MappingLoad.v
Version.v
InstallConfig.v
Release.v
HelmInstaller.v
HelmInstallerFacts.v
HelmMemory.v
Cleanup.v
CleanupFacts.v
Operator.v
Ensure.v
EnsureFacts.v
Conditions.v
ConditionsFacts.v
DeadFields.v
Controller.v
ControllerFacts.v
Translation.v
TranslationFacts.v
TranslationWitness.v
Discovery.v
DiscoveryFacts.v
AnnotatorFacts.v
PciScan.v
PciScanFacts.v
CelNative.v
Base64.v
HelmStorage.v
HelmCluster.v
HelmClusterFacts.v
HelmHistory.v
HelmHistoryWitness.v
Locks.v
LocksFacts.v
Vsp.v
VspFacts.v
ClusterClients.v
ClusterClientsFacts.v
Rbac.v
Watches.v
Commands.v
CommandsFacts.v
StatusTable.v
StatusMerge.v
SharedStatus.v
SharedStatusFacts.v
Documents.v
DocumentsFacts.v
Translators.v
Handoff.v
Wiring.v
TestUtils.v
Flags.v
FlagsFacts.v
Deployments.v
DeployedManager.v
Isolation.v
SharedRelease.v
