(* ===== verification/Prelude.v ===== *)
(** * Verification of the OPI to NVIDIA DPF adapter

    The adapter runs three controllers and a node agent between the OPI
    resources of the DPU operator and NVIDIA's DPF.

    - The _mapping interpreter_ (src/pkg/mapping) turns an OPI object into DPF
      objects by a declarative FieldMapping document.
    - The _translator_ (src/pkg/translation) runs the interpreter for each OPI
      source, applies and prunes the emitted children and mirrors their state
      back into the source's conditions.
    - The _lifecycle manager_ (src/pkg/lifecycle) installs, upgrades, observes
      and removes the vendor operator for a DpuOperatorConfig, and admits or
      rejects such configs.
    - _Discovery_ (src/pkg/discovery) scans the PCI bus of a node and stamps the
      identity of each card on a DataProcessingUnit.  The _vendor plugin_
      (src/pkg/vsp) serves that inventory to the _daemon_, which reports the
      Ready condition.
    - The commands (src/cmd) set these up; a generator (src/hack/gen-rbac)
      derives the manager's permissions from the mappings.

    They meet in shared objects.  The conditions of an OPI object have three
    writers (translator, lifecycle manager, daemon); the translator waits for
    the lifecycle manager's VendorOperatorReady condition; the annotations that
    discovery stamps are the input of the mappings; the admission webhook keeps
    out the configs that the install pass would refuse.  In one process they
    meet in locks too: a reconcile holds its config's lock, then the release's,
    then the claim's.

    ** How code is modelled

    Go functions are Rocq functions of the same name where the name is free.
    An error is a value of [err], a pair of value and error is a [result], with
    [let!] for the early return; [errors.Is] is [errors_is].  JSON-like
    unstructured objects are [value] trees over [gmap string].  Code that calls
    the cluster threads a world [W] through an interface, a type class whose
    operations are the calls: [HelmClient], [ResourceIndex], [KubeAPI],
    [TranslationAPI], [DPUAPI], [Sysfs], [SecretAPI], [ManifestAPI],
    [IndexAPI], [OLMAPI], [VspAPI], [Wire], [ManagerOS].  The safety theorems hold for every
    instance: a second instance logs the calls ([W * list Event]), and each call
    in the log is justified by what the calls before it returned
    ([justified_log]).  So no well-behaved API server, file system or Helm is
    assumed; other writers are answers that change between two calls.  The
    production clients are instances of the same interfaces
    ([HelmCluster.cluster_client] of [HelmClient], [ClusterClients.client_index]
    of [ResourceIndex], [cluster_olm] of [OLMClient]), and the composed theorems
    are about the calls that reach the API server through them.  Goroutines are
    threads of a step relation ([Locks]); processes that write to one object are
    interleaved at the grain of their reads and writes ([SharedStatus]), with the
    API server's rule that an update must be of the stored version.

    The libraries that the code relies on are interfaces too: cel-go
    ([CELEngine]), the metadata accessors ([MetaAPI], [EmittedAPI]),
    controllerutil and client-go's retry ([ControllerUtil], whose laws are the
    documented behaviour of adding and removing finalizers and of running a
    function again after a conflict), JSON and gzip ([StorageCodec], with the
    law that each inverts itself), CEL values ([RefVal]), map iteration and
    sorting in Go ([GoOrder]).  Witness files instantiate each of them by
    a concrete function.

    ** The files

    - [Prelude], [GoStrings]: errors, logs, tactics; the routines of [strings],
      [strconv] and [fmt] that the code uses.
    - [Unstructured] (path.go), [MappingSpec] (spec.go), [MappingEngine]
      (engine.go, cel.go), [MappingLoad] (load.go, condition_writers.go,
      schema_path.go); [JsonMeta], [MappingWitness]: concrete instances.
    - [Version] (version.go, policy.go), [InstallConfig] (config.go, intent.go,
      preflight.go, version_policy.go, webhook.go), [Release],
      [HelmInstaller], [HelmInstallerFacts], [HelmMemory] (helm_client.go),
      [Cleanup], [CleanupFacts] (cleanup.go), [Operator] (status.go,
      dependency_checker.go, dpu_observe.go, readiness.go), [Ensure],
      [EnsureFacts] (installer.go, olm_client.go, ensure.go).
    - [Conditions], [ConditionsFacts]: the three merges of conditions, from
      lifecycle_controller.go, ready.go and translation_controller.go.
    - [Controller], [ControllerFacts]: the lifecycle controller's reconcile.
    - [DeadFields] (dead_fields.go), [Translation], [TranslationFacts],
      [TranslationWitness] (translation_controller.go, readiness.go).
    - [Discovery], [DiscoveryFacts], [AnnotatorFacts] (types.go, inventory.go,
      annotator.go), [PciScan], [PciScanFacts] (pci.go, mock.go).
    - [CelNative]: the unwrapping of CEL values (cel.go).
    - [Base64], [HelmStorage] (secret_helm_client.go), [HelmCluster],
      [HelmClusterFacts], [HelmHistory], [HelmHistoryWitness]
      (cluster_helm_client.go): the production Helm client and its abstract
      specification, a history of charts.
    - [Locks], [LocksFacts]: ReleaseLocks (helm_client.go) and the lock order of
      a reconcile; [Isolation], [SharedRelease]: install passes among what
      others do to other releases, and install and cleanup passes of several configs in turn.
    - [ClusterClients], [ClusterClientsFacts]: ClientResourceIndex (cleanup.go),
      ClusterOLMClient (olm_client.go), the probe of the manager.
    - [Vsp], [VspFacts]: pkg/vsp.
    - [Rbac]: hack/gen-rbac.
    - [Watches]: the three SetupWithManager and the functions that enqueue
      requests; [Commands], [CommandsFacts]: the three main functions; [Flags],
      [FlagsFacts]: their command lines; [Deployments], [DeployedManager]: the pods
      of the manifests under config, and what the manager does in its own.
    - [StatusTable], [StatusMerge]: a list of conditions as a table by type, and
      what each merge does to it; [SharedStatus], [SharedStatusFacts]: the class
      [StatusWriter] of what a writer promises, its three instances, and their
      interleavings on one object; [Handoff]: from the lifecycle manager's
      condition to the translator's gate.
    - [Documents], [DocumentsFacts]: the documents under config and the generated
      markers (zz_generated_rbac.go); [Translators]: two translators of one source
      kind on a small API server for the deletion path.
    - [Wiring]: the LifecycleManager struct, its defaults and its locks;
      [TestUtils]: test/utils/utils.go.

    ** What is shown

    - _Mapping_: validation accepts exactly the well-formed documents; Apply
      emits one object per rule and kept item, in order, each with the kind of its
      rule, the labels, and the name, namespace and fields that resolve for its own
      item; the status roll-up keeps every condition whose type it does not declare
      and never writes Ready; loading a directory is all or nothing,
      and a loaded writer table gives each condition one writer; a successful
      Set is read back by Get.
    - _Installing_: against any Helm client the installer only ever sends the
      pinned settings, reports success exactly when it observed it, leaves
      releases alone that it reports as unmanaged, and sends a bounded number of
      calls; against the in-memory client it converges from no release or an owned older
      one, is then idle, and rolls back when every upgrade fails and the remembered
      version is the running one.  Passes of several configs that take the lock
      of the release in turn are passes one after the other whatever others do to
      other releases in between, and the first does the work of all.  Over the
      production client its only write is to the newest storage Secret of the pinned
      release, the claim, on request and after the release was seen at the pinned
      version; the same holds for OLM.  The install pass acts only behind all its
      gates; ready is only reported for what was observed.  Admission accepts
      exactly the configs without overrides that name no vendor, amd, or nvidia at
      the pin or unpinned, which the pass then never calls invalid.
    - _Helm storage_: an encoded release document is read back; on a server that
      keeps what it is given the client's calls are steps of a history of charts
      that change no other release, and succeed when such a step exists.
    - _Locks_: a key has one holder under every interleaving; reconciles over the
      production clients never deadlock and their locking ends.
    - _Removing_: cleanup deletes only what is verified as owned, twice, and
      allowed by policy, and never a referenced object; the plan is exact; over
      the production index it deletes only free objects it has listed.
    - _Reconciling_: writes follow reads and change only this controller's
      finalizer and conditions under any number of conflicts; nothing is
      installed before the finalizer is stored, and it is taken off only after a
      cleanup.  The translator applies only emitted objects behind the gate,
      deletes only its own stale children after a complete apply and where pruning
      is allowed, and has converged when it asks for no requeue.  It watches no kind that is not
      served, and what opens its gate wakes every source.
    - _Conditions_: each of the three writers keeps the others' conditions, in
      order, and is idempotent.  Interleaved on one object, with stale reads and
      conflicts, no update is lost, and writers that keep wanting the same come to rest after one write
      each.  The translator's gate is open exactly when the last install pass
      that was recorded saw the operator up.
    - _Documents_: the shipped mappings are valid and meet the side conditions of
      the engine's theorems; the writer table has exactly the rows of what the
      lifecycle manager upserts and the documents declare, and a row for whatever
      the daemon's report changes; the committed permission markers are the
      generator's output.
    - _Discovery_: a scan yields distinct serials of known DPU functions; a card
      serves one unit; a stamped unit keeps its card; a patch never leaves the
      identity of a card that is gone; the VPD and extended-capability parsers
      are exact.
    - _Vendor plugin_: the handshake names exactly the live cards; a network
      function is reported only when DPF holds its intent; the Ready report
      writes Ready alone; the retry loop ends with its context.
    - _Commands_: kinds are registered before they are watched; a manager runs
      only when every mapping has its controller; the generated permissions are
      exactly those that the mappings need.  The commands run on what their
      command line says, by a grammar of its own, and every setting of their flags
      is the reading of a command line; the shipped deployments start managers
      that elect a leader behind authenticated metrics, and a plugin and a daemon
      that meet at one socket of one volume; the deployed manager comes to run with
      a translator for each document of its ConfigMap.
    - Theorems that exhibit behaviour at odds with a comment or with the
      apparent intent are part of the files: [Stale_last_good_rollback_fails],
      [Cleanup_ignores_failed_relist], [Translator_drops_foreign_fields],
      [Failed_cleanup_releases_config], [ReportReady_shares_health],
      [index_hides_failed_listing], [render_tie], [lifecycle_watches_unserved],
      [shared_finalizer_leaks], [duplicate_type_never_settles],
      [dsc_reason_ignores_status], [UncommentCode_joins_lines],
      [deployed_manager_runs], [enabled_webhook_refuses_configs],
      [shared_release_flaps].

    ** Bounds and fuel

    Loops over data are structural.  The retry loops of the installer and of
    applyOne run over the source's own counts (MaxAttempts, eight).  The VPD
    loops carry one more unit of fuel than there are bytes, and each turn moves
    forward by a byte at least; the walk of the extended capabilities has 4096
    units, and each link moves forward within twelve bits, so [configDSN_iff]
    holds without mention of fuel.  Replacing in a template has one unit more
    than the text has characters, and each turn consumes one; unwrapping a CEL
    value has one more than its depth ([celNative_plain]); the daemon's retry
    loop has one more than the waits its context survives
    ([HandshakeUntil_terminates]).  [Retry] is any run that the relation
    [retried] allows: it is entered again only after a conflict.  Machine
    integers appear as [Z] with their masks (PCI identifiers, capability
    headers, version components).

    ** What is not modelled

    The insides of JSON, gzip, YAML, cel-go, gRPC, controller-runtime and the API
    server (interfaces above); logging, metrics, signals and usage texts.  The
    expressions of the mapping documents are text: their meaning is cel-go's.  Reconciles interleave in [Locks] at the grain of lock operations,
    in [SharedStatus] at the grain of reads and status updates of one object and in
    [Isolation] at the grain of Helm calls; what happens between them is one pass of
    the sequential models, for which other writers are answers that change.  Of the
    manifests, what the commands do not read (resources, tolerations, services) is
    left out.  What is left of the Go files are declarations: imports, log lines,
    interfaces and structs that the models hold as classes and records. *)

From stdpp Require Import base gmap strings list fin_maps.

(** ** Notations *)

Declare Scope go_scope.
Delimit Scope go_scope with go.
Open Scope go_scope.

(** Go's [==] on comparable values, as a boolean. *)
Notation "x == y" := (bool_decide (x = y)) (at level 70, no associativity) : go_scope.
Notation "x != y" := (negb (bool_decide (x = y))) (at level 70, no associativity) : go_scope.

(** ** Errors

    A Go [error] is nil or a value.  [ENew] is a package-level sentinel made
    by [errors.New] (two sentinels are the same error exactly when they are
    the same variable; every sentinel of this program has its own text).
    [EFmt] is an error made on the spot by [fmt.Errorf] without [%w]; it keeps
    the template and the arguments.  [EWrap] is [fmt.Errorf] with one [%w]. *)
Inductive err : Type :=
| ENew (msg : string)
| EFmt (template : string) (args : list string)
| EWrap (template : string) (args : list string) (inner : err).

#[global] Instance err_eq_dec : EqDecision err.
Proof. solve_decision. Defined.

(** [errors.Is]: the target is the error itself or one it wraps. *)
Fixpoint errors_is (e target : err) : bool :=
  (e == target) ||
  match e with
  | EWrap _ _ inner => errors_is inner target
  | _ => false
  end.

(** A call that returns a value and an error, exactly one of them useful. *)
Inductive result (A : Type) : Type :=
| Ok (a : A)
| Err (e : err).
Arguments Ok {A} a.
Arguments Err {A} e.

#[global] Instance result_eq_dec {A} `{EqDecision A} : EqDecision (result A).
Proof. solve_decision. Defined.

Definition is_ok {A} (r : result A) : bool :=
  match r with Ok _ => true | Err _ => false end.

Definition result_bind {A B} (r : result A) (f : A → result B) : result B :=
  match r with
  | Ok a => f a
  | Err e => Err e
  end.

(** [if err != nil { return fmt.Errorf("...: %w", err) }] *)
Definition wrap_err {A} (template : string) (args : list string) (r : result A) : result A :=
  match r with
  | Ok a => Ok a
  | Err e => Err (EWrap template args e)
  end.

Notation "'let!' x ':=' r 'in' k" := (result_bind r (fun x => k))
  (at level 200, x pattern, r at level 100, k at level 200) : go_scope.
Notation "r ';;!' k" := (result_bind r (fun _ => k))
  (at level 100, right associativity) : go_scope.

(** [if cond { return err }] *)
Definition reject_if (b : bool) (e : err) : result unit :=
  if b then Err e else Ok tt.

(** A loop that runs a fallible step on each element and stops at the first
    error, threading an accumulator. *)
Fixpoint fold_result {A B} (f : B → A → result B) (b : B) (l : list A) : result B :=
  match l with
  | [] => Ok b
  | x :: l' => let! b' := f b x in fold_result f b' l'
  end.

(** The indexed loop [for i, x := range l] of a checker that returns the first
    error. *)
Fixpoint first_error {A} (f : nat → A → result unit) (i : nat) (l : list A) : result unit :=
  match l with
  | [] => Ok tt
  | x :: l' => f i x ;;! first_error f (S i) l'
  end.

(** ** Automation *)

Create HintDb go.

(** Case analysis on the outermost test of the goal or of a hypothesis. *)
Ltac case_test :=
  match goal with
  | |- context [bool_decide ?P] => case_bool_decide
  | H : context [bool_decide ?P] |- _ => case_bool_decide
  | |- context [if ?b then _ else _] => destruct b eqn:?
  | H : context [if ?b then _ else _] |- _ => destruct b eqn:?
  end.

(** Split a boolean hypothesis into its atoms. *)
Ltac bool_hyps :=
  repeat match goal with
  | H : _ && _ = true |- _ => apply andb_true_iff in H as [? ?]
  | H : _ || _ = false |- _ => apply orb_false_iff in H as [? ?]
  | H : negb _ = true |- _ => apply negb_true_iff in H
  | H : negb _ = false |- _ => apply negb_false_iff in H
  | H : bool_decide _ = true |- _ => apply bool_decide_eq_true_1 in H
  | H : bool_decide _ = false |- _ => apply bool_decide_eq_false_1 in H
  end.

(** Take a monadic computation known to succeed apart. *)
Ltac inv_ok :=
  repeat match goal with
  | H : result_bind ?r _ = Ok _ |- _ =>
      let E := fresh "E" in destruct r eqn:E; simpl in H; [|discriminate H]
  | H : wrap_err _ _ ?r = Ok _ |- _ =>
      let E := fresh "E" in destruct r eqn:E; simpl in H; [|discriminate H]
  | H : reject_if ?b _ = Ok _ |- _ =>
      let E := fresh "E" in destruct b eqn:E; simpl in H; [discriminate H|clear H]
  | H : Ok _ = Ok _ |- _ => injection H as H; try subst
  | H : Err _ = Ok _ |- _ => discriminate H
  | H : Ok _ = Err _ |- _ => discriminate H
  end.

(** ** Shared lemmas *)

Lemma errors_is_refl e : errors_is e e = true.
Proof. destruct e; simpl; by rewrite bool_decide_true. Qed.

Lemma errors_is_new m e : errors_is (ENew m) e = true ↔ e = ENew m.
Proof. simpl. rewrite orb_false_r, bool_decide_eq_true. naive_solver. Qed.

Lemma wrap_err_ok {A} t args (r : result A) a : wrap_err t args r = Ok a ↔ r = Ok a.
Proof. destruct r; simpl; split; intros; simplify_eq; done. Qed.

Lemma result_bind_ok {A B} (r : result A) (f : A → result B) b :
  result_bind r f = Ok b ↔ ∃ a, r = Ok a ∧ f a = Ok b.
Proof. destruct r; simpl; naive_solver. Qed.

Lemma reject_if_ok b e : reject_if b e = Ok tt ↔ b = false.
Proof. destruct b; simpl; naive_solver. Qed.

Lemma seq_ok {A} (r : result unit) (k : result A) a :
  (r ;;! k) = Ok a ↔ r = Ok tt ∧ k = Ok a.
Proof. destruct r as [[]|]; simpl; naive_solver. Qed.

Lemma Ok_Some_inj {A} (x y : A) : Ok (Some x) = Ok (Some y) → x = y.
Proof. congruence. Qed.

Lemma first_error_ok {A} (f : nat → A → result unit) i l :
  first_error f i l = Ok tt ↔ ∀ j x, l !! j = Some x → f (i + j) x = Ok tt.
Proof.
  revert i. induction l as [|y l IH]; intros i; simpl; [by split|].
  rewrite result_bind_ok. split.
  - intros ([] & Hy & Hl) j x Hx. destruct j as [|j]; simpl in Hx.
    + simplify_eq. by rewrite Nat.add_0_r.
    + rewrite IH in Hl. rewrite <- Nat.add_succ_comm. by apply Hl.
  - intros H. exists tt. split; [rewrite <- (Nat.add_0_r i); by apply (H 0 y)|].
    apply IH. intros j x Hx. rewrite Nat.add_succ_comm. by apply (H (S j)).
Qed.

Lemma first_error_Forall {A} (f : nat → A → result unit) (P : A → Prop) l :
  (∀ i x, f i x = Ok tt ↔ P x) → first_error f 0 l = Ok tt ↔ Forall P l.
Proof.
  intros Hf. rewrite first_error_ok, Forall_lookup. split; intros H i x Hx.
  - by apply (Hf (0 + i) x), H.
  - by apply Hf, (H i).
Qed.

Lemma fold_result_app {A B} (f : B → A → result B) b l1 l2 :
  fold_result f b (l1 ++ l2) = (let! b' := fold_result f b l1 in fold_result f b' l2).
Proof.
  revert b. induction l1 as [|x l1 IH]; intros b; simpl; [done|].
  destruct (f b x); simpl; [apply IH|done].
Qed.

(** An invariant of the loop: it holds at the start and every step that
    succeeds keeps it. *)
Lemma fold_result_inv {A B} (P : B → Prop) (f : B → A → result B) b l b' :
  P b → (∀ c x c', x ∈ l → P c → f c x = Ok c' → P c') →
  fold_result f b l = Ok b' → P b'.
Proof.
  revert b. induction l as [|x l IH]; intros b Hb Hstep H; simpl in H.
  - by simplify_eq.
  - inv_ok. eapply (IH a); [|intros; eapply Hstep; eauto; by right|done].
    eapply Hstep; eauto. by left.
Qed.

(** ** Logs

    A log in which every event is justified by the events before it. *)
Definition justified_log {E : Type} (J : list E → E → Prop) (log : list E) : Prop :=
  ∀ pre op post, log = pre ++ op :: post → J pre op.

Lemma justified_nil {E} (J : list E → E → Prop) : justified_log J [].
Proof. intros pre op post Heq. by destruct pre. Qed.

Lemma justified_snoc {E} (J : list E → E → Prop) log op :
  justified_log J log → J log op → justified_log J (log ++ [op]).
Proof.
  intros Hl Hj pre op' post Heq. destruct post as [|x post _] using rev_ind.
  - apply app_inj_tail in Heq as [<- <-]. done.
  - rewrite app_comm_cons, app_assoc in Heq. apply app_inj_tail in Heq as [Heq _]. by apply (Hl _ _ post).
Qed.

Lemma justified_lookup {E} (J : list E → E → Prop) log i op :
  justified_log J log → log !! i = Some op → J (take i log) op.
Proof. intros Hl Hi. apply (Hl _ _ (drop (S i) log)). symmetry. by apply take_drop_middle. Qed.

#[export] Hint Rewrite @wrap_err_ok @result_bind_ok : go.
#[export] Hint Resolve errors_is_refl : go.
