(* ===== verification/GoStrings.v ===== *)
(** * Go's [strings], [strconv] and [slices] routines used by the adapter

    A Go string is a sequence of bytes; it is modelled by Stdlib's [string],
    whose characters are the 256 bytes.  Each routine below is the Go one on
    every byte string, with one documented limit: [ToLower] and [EqualFold]
    change the ASCII letters and the few non-ASCII runes whose case mapping
    meets ASCII, and leave every other rune as it is.  No other rune
    is mapped into or out of ASCII, so comparing a result with ASCII text, or
    scanning it for ASCII text, is exact.  One place compares two results with
    each other: the mapping engine, for the types of conditions.  There it is exact
    for types that are ASCII, and the API server admits no other: the pattern of
    metav1.Condition's type has only ASCII letters, digits and punctuation. *)

From Stdlib Require Import Ascii.
From stdpp Require Import base gmap strings list pretty sorting.
From S2P Require Import Prelude.

(** ** Prefixes, suffixes, substrings *)

Fixpoint strip_prefix (p s : string) : option string :=
  match p, s with
  | EmptyString, _ => Some s
  | String a p', String b s' => if decide (a = b) then strip_prefix p' s' else None
  | _, _ => None
  end.

Definition HasPrefix (s p : string) : bool := bool_decide (is_Some (strip_prefix p s)).
Definition TrimPrefix (s p : string) : string := default s (strip_prefix p s).

Definition strip_suffix (p s : string) : option string :=
  String.rev <$> strip_prefix (String.rev p) (String.rev s).

Definition HasSuffix (s p : string) : bool := bool_decide (is_Some (strip_suffix p s)).
Definition TrimSuffix (s p : string) : string := default s (strip_suffix p s).

Fixpoint Contains (s sub : string) : bool :=
  HasPrefix s sub ||
  match s with
  | EmptyString => false
  | String _ s' => Contains s' sub
  end.

Fixpoint char_in (c : ascii) (set : string) : bool :=
  match set with
  | EmptyString => false
  | String d set' => (c == d) || char_in c set'
  end.

(** [strings.ContainsAny] for an ASCII set. *)
Fixpoint ContainsAny (s set : string) : bool :=
  match s with
  | EmptyString => false
  | String c s' => char_in c set || ContainsAny s' set
  end.

(** [if i := strings.IndexAny(s, set); i >= 0 { s = s[:i] }] *)
Fixpoint before_any (s set : string) : string :=
  match s with
  | EmptyString => EmptyString
  | String c s' => if char_in c set then EmptyString else String c (before_any s' set)
  end.

(** ** White space

    The encodings of the runes for which [unicode.IsSpace] holds. *)
Definition utf8_spaces : list string :=
  [ String "009" ""; String "010" ""; String "011" ""; String "012" ""; String "013" "";
    " "; String "194" (String "133" ""); String "194" (String "160" "");
    String "225" (String "154" (String "128" "")) ] ++
  ((λ c, String "226" (String "128" (String c ""))) <$>
     ["128"; "129"; "130"; "131"; "132"; "133"; "134"; "135"; "136"; "137"; "138";
      "168"; "169"; "175"]%char) ++
  [ String "226" (String "129" (String "159" "")); String "227" (String "128" (String "128" "")) ].

Fixpoint strip_any (ps : list string) (s : string) : option string :=
  match ps with
  | [] => None
  | p :: ps' =>
      match strip_prefix p s with
      | Some s' => Some s'
      | None => strip_any ps' s
      end
  end.

Fixpoint strip_all (fuel : nat) (ps : list string) (s : string) : string :=
  match fuel with
  | O => s
  | S fuel' =>
      match strip_any ps s with
      | Some s' => strip_all fuel' ps s'
      | None => s
      end
  end.

Definition TrimLeftSpace (s : string) : string := strip_all (String.length s) utf8_spaces s.
Definition TrimRightSpace (s : string) : string :=
  String.rev (strip_all (String.length s) (String.rev <$> utf8_spaces) (String.rev s)).
Definition TrimSpace (s : string) : string := TrimRightSpace (TrimLeftSpace s).

(** [strings.Trim] for an ASCII cutset. *)
Fixpoint drop_chars (set s : string) : string :=
  match s with
  | EmptyString => EmptyString
  | String c s' => if char_in c set then drop_chars set s' else s
  end.
Definition Trim (s set : string) : string :=
  String.rev (drop_chars set (String.rev (drop_chars set s))).

(** ** Case *)

Definition lower_ascii (c : ascii) : ascii :=
  let n := Ascii.N_of_ascii c in
  if ((65 <=? n) && (n <=? 90))%N then Ascii.ascii_of_N (n + 32) else c.
Definition upper_ascii (c : ascii) : ascii :=
  let n := Ascii.N_of_ascii c in
  if ((97 <=? n) && (n <=? 122))%N then Ascii.ascii_of_N (n - 32) else c.

(** U+0130 (C4 B0) lowers to [i] and U+212A (E2 84 AA) to [k]. *)
Fixpoint ToLower (s : string) : string :=
  match s with
  | String "196" (String "176" s') => String "i" (ToLower s')
  | String "226" (String "132" (String "170" s')) => String "k" (ToLower s')
  | String c s' => String (lower_ascii c) (ToLower s')
  | EmptyString => EmptyString
  end.

(** The simple-folding orbits that meet ASCII: letters, U+017F (C5 BF) with
    [s], U+212A (E2 84 AA) with [k]. *)
Fixpoint fold_case (s : string) : string :=
  match s with
  | String "197" (String "191" s') => String "s" (fold_case s')
  | String "226" (String "132" (String "170" s')) => String "k" (fold_case s')
  | String c s' => String (lower_ascii c) (fold_case s')
  | EmptyString => EmptyString
  end.
Definition EqualFold (s t : string) : bool := fold_case s == fold_case t.

(** ** Splitting and joining *)

(** [strings.Split] with a one-byte separator: never empty. *)
Fixpoint Split (sep : ascii) (s : string) : list string :=
  match s with
  | EmptyString => [EmptyString]
  | String c s' =>
      if decide (c = sep) then EmptyString :: Split sep s'
      else match Split sep s' with
           | w :: ws => String c w :: ws
           | [] => [String c EmptyString]
           end
  end.

Fixpoint Join (sep : string) (l : list string) : string :=
  match l with
  | [] => ""
  | [w] => w
  | w :: l' => w +:+ sep +:+ Join sep l'
  end.

(** [strings.ReplaceAll] of one byte by one byte. *)
Fixpoint ReplaceByte (a b : ascii) (s : string) : string :=
  match s with
  | EmptyString => EmptyString
  | String c s' => String (if decide (c = a) then b else c) (ReplaceByte a b s')
  end.

(** The text before and after the last occurrence of a byte
    ([strings.LastIndex]). *)
Fixpoint cut_last (c : ascii) (s : string) : option (string * string) :=
  match s with
  | EmptyString => None
  | String d s' =>
      match cut_last c s' with
      | Some (b, a) => Some (String d b, a)
      | None => if decide (d = c) then Some (EmptyString, s') else None
      end
  end.

(** ** Numbers *)

Definition max_int64 : Z := 9223372036854775807.
Definition min_int64 : Z := -9223372036854775808.

Definition digit_val (base : Z) (c : ascii) : option Z :=
  let n := Z.of_N (Ascii.N_of_ascii c) in
  let d := if ((48 <=? n) && (n <=? 57))%Z then Some (n - 48)%Z
           else if ((97 <=? n) && (n <=? 122))%Z then Some (n - 87)%Z
           else if ((65 <=? n) && (n <=? 90))%Z then Some (n - 55)%Z
           else None in
  match d with
  | Some v => if (v <? base)%Z then Some v else None
  | None => None
  end.

Fixpoint digits (base acc : Z) (s : string) : option Z :=
  match s with
  | EmptyString => Some acc
  | String c s' =>
      match digit_val base c with
      | Some d => digits base (acc * base + d)%Z s'
      | None => None
      end
  end.

(** An unsigned literal: at least one digit, value at most [limit]. *)
Definition parse_uint (base limit : Z) (s : string) : option Z :=
  match s with
  | EmptyString => None
  | _ => match digits base 0 s with
         | Some v => if (v <=? limit)%Z then Some v else None
         | None => None
         end
  end.

(** [strconv.Atoi] on a 64-bit platform: an optional sign, decimal digits, and
    an error when the value does not fit an [int]. *)
Definition Atoi (s : string) : option Z :=
  match s with
  | String "-" s' => Z.opp <$> parse_uint 10 (- min_int64) s'
  | String "+" s' => parse_uint 10 max_int64 s'
  | _ => parse_uint 10 max_int64 s
  end.

(** [strconv.ParseUint(s, 16, 16)] *)
Definition ParseHex16 (s : string) : option Z := parse_uint 16 65535 s.

(** [%d] and [strconv.Itoa] *)
Definition Itoa (z : Z) : string := pretty z.

(** ** Error text *)

(** [%q] on a string: quoted, with Go's escapes for the quote, the backslash and
    the ASCII control characters.  Bytes above ASCII are copied: Go does the
    same for printable runes, and the adapter quotes strings in messages only. *)
Definition hex_digit (n : nat) : ascii := ascii_of_nat (if n <? 10 then 48 + n else 87 + n).

Definition quote_char (c : ascii) : string :=
  let n := nat_of_ascii c in
  if (n =? 34) || (n =? 92) then String "092" (String c "")
  else if (n <? 32) || (n =? 127) then
    match n with
    | 7 => String "092" "a" | 8 => String "092" "b" | 9 => String "092" "t" | 10 => String "092" "n"
    | 11 => String "092" "v" | 12 => String "092" "f" | 13 => String "092" "r"
    | _ => String "092" (String "x" (String (hex_digit (n / 16)) (String (hex_digit (n mod 16)) "")))
    end
  else String c "".

Fixpoint quote_body (s : string) : string :=
  match s with
  | EmptyString => String "034" ""
  | String c s' => quote_char c +:+ quote_body s'
  end.

Definition Quote (s : string) : string := String "034" (quote_body s).

(** [fmt.Sprintf] on string arguments: [%q] quotes the next argument, every other
    verb takes it as it is (numbers are rendered by the caller), and [%w] stands
    for the text of the wrapped error. *)
Fixpoint Sprintf (t : string) (args : list string) (w : string) : string :=
  match t with
  | String "%" (String "w" t') => w +:+ Sprintf t' args w
  | String "%" (String "q" t') =>
      match args with
      | a :: args' => Quote a +:+ Sprintf t' args' w
      | [] => Sprintf t' [] w
      end
  | String "%" (String _ t') =>
      match args with
      | a :: args' => a +:+ Sprintf t' args' w
      | [] => Sprintf t' [] w
      end
  | String c t' => String c (Sprintf t' args w)
  | EmptyString => EmptyString
  end.

Fixpoint Error (e : err) : string :=
  match e with
  | ENew m => m
  | EFmt t args => Sprintf t args ""
  | EWrap t args inner => Sprintf t args (Error inner)
  end.

(** These compute by [vm_compute] on concrete strings, not inside proofs. *)
#[global] Arguments TrimSpace : simpl never.
#[global] Arguments Trim : simpl never.
#[global] Arguments TrimPrefix : simpl never.
#[global] Arguments HasPrefix : simpl never.
#[global] Arguments HasSuffix : simpl never.
#[global] Arguments Contains : simpl never.
#[global] Arguments EqualFold : simpl never.
#[global] Arguments Sprintf : simpl never.
#[global] Arguments Itoa : simpl never.

(** ** Lemmas: concatenation and reversal *)

Lemma str_app_nil_l s : "" +:+ s = s.
Proof. done. Qed.
Lemma str_app_cons c s t : String c s +:+ t = String c (s +:+ t).
Proof. done. Qed.
Lemma str_app_nil_r s : s +:+ "" = s.
Proof. induction s as [|c s IH]; [done|]. by rewrite str_app_cons, IH. Qed.
Lemma str_app_assoc s t u : (s +:+ t) +:+ u = s +:+ (t +:+ u).
Proof. induction s as [|c s IH]; [done|]. by rewrite !str_app_cons, IH. Qed.
Lemma str_length_app s t : String.length (s +:+ t) = String.length s + String.length t.
Proof. induction s as [|c s IH]; [done|]. rewrite str_app_cons. simpl. by rewrite IH. Qed.

Lemma str_rev_app_app s t : String.rev_app s t = String.rev s +:+ t.
Proof.
  unfold String.rev. revert t. induction s as [|c s IH]; intros t; [done|]. simpl.
  rewrite IH, (IH (String c "")), str_app_assoc. done.
Qed.
Lemma str_rev_cons c s : String.rev (String c s) = String.rev s +:+ String c "".
Proof. unfold String.rev at 1. simpl. by rewrite str_rev_app_app. Qed.
Lemma str_rev_append s t : String.rev (s +:+ t) = String.rev t +:+ String.rev s.
Proof.
  induction s as [|c s IH]; [by rewrite str_app_nil_r|].
  by rewrite str_app_cons, !str_rev_cons, IH, str_app_assoc.
Qed.
Lemma str_rev_involutive s : String.rev (String.rev s) = s.
Proof. induction s as [|c s IH]; [done|]. by rewrite str_rev_cons, str_rev_append, IH. Qed.
Lemma str_length_rev s : String.length (String.rev s) = String.length s.
Proof. induction s as [|c s IH]; [done|]. rewrite str_rev_cons, str_length_app, IH. simpl. lia. Qed.

Lemma strip_prefix_Some p s t : strip_prefix p s = Some t ↔ s = p +:+ t.
Proof.
  revert s. induction p as [|a p IH]; intros s; simpl; [naive_solver|].
  rewrite str_app_cons. destruct s as [|b s]; [done|].
  case_decide; subst; [rewrite IH; naive_solver|naive_solver].
Qed.

Lemma HasPrefix_spec s p : HasPrefix s p = true ↔ ∃ t, s = p +:+ t.
Proof.
  unfold HasPrefix. rewrite bool_decide_eq_true. unfold is_Some.
  by setoid_rewrite strip_prefix_Some.
Qed.

Lemma strip_suffix_Some p s t : strip_suffix p s = Some t ↔ s = t +:+ p.
Proof.
  unfold strip_suffix. rewrite fmap_Some. setoid_rewrite strip_prefix_Some. split.
  - intros (u & Hu & ->). rewrite <- (str_rev_involutive s), Hu, str_rev_append. by rewrite str_rev_involutive.
  - intros ->. exists (String.rev t). by rewrite str_rev_append, str_rev_involutive.
Qed.

(** ** Lemmas: trimming *)

Lemma strip_any_Some ps s t :
  strip_any ps s = Some t → ∃ p, p ∈ ps ∧ s = p +:+ t.
Proof.
  induction ps as [|p ps IH]; simpl; [done|].
  destruct (strip_prefix p s) as [u|] eqn:E; intros; simplify_eq.
  - exists p. split; [by left|]. by apply strip_prefix_Some.
  - destruct IH as (q & ? & ?); [done|]. exists q. split; [by right|done].
Qed.

Lemma strip_any_None ps s :
  strip_any ps s = None ↔ ∀ p t, p ∈ ps → s ≠ p +:+ t.
Proof.
  induction ps as [|p ps IH]; simpl; [split; [by intros _ ?? ?%elem_of_nil|done]|].
  destruct (strip_prefix p s) as [u|] eqn:E.
  - split; [done|]. intros H. apply strip_prefix_Some in E. by destruct (H p u); [left|].
  - rewrite IH. split.
    + intros H q t [->|Hq]%elem_of_cons; [|by apply H].
      intros Hs. apply strip_prefix_Some in Hs. congruence.
    + intros H q t Hq. apply H. by right.
Qed.

Lemma strip_all_stop ps s n :
  strip_any ps s = None → strip_all n ps s = s.
Proof. intros H. destruct n; simpl; [done|]. by rewrite H. Qed.

Lemma strip_all_suffix ps s n : ∃ u, s = u +:+ strip_all n ps s.
Proof.
  revert s. induction n as [|n IH]; intros s; simpl; [by exists ""|].
  destruct (strip_any ps s) as [t|] eqn:E; [|by exists ""].
  apply strip_any_Some in E as (p & _ & ->). destruct (IH t) as [u Hu].
  exists (p +:+ u). rewrite str_app_assoc. by f_equal.
Qed.

(** Enough fuel: the loop stops because nothing is left to strip. *)
Lemma strip_all_done ps s n :
  "" ∉ ps → String.length s ≤ n → strip_any ps (strip_all n ps s) = None.
Proof.
  intros Hps. revert s. induction n as [|n IH]; intros s Hn; simpl.
  - apply strip_any_None. intros p t Hp ->. rewrite str_length_app in Hn.
    destruct p; [done|]. simpl in Hn. lia.
  - destruct (strip_any ps s) as [t|] eqn:E; [|done].
    apply IH. apply strip_any_Some in E as (p & Hp & ->). rewrite str_length_app in Hn.
    destruct p; [done|]. simpl in Hn. lia.
Qed.

Definition rev_spaces : list string := String.rev <$> utf8_spaces.

Lemma spaces_nonempty : "" ∉ utf8_spaces.
Proof. apply (bool_decide_unpack _). vm_compute. exact I. Qed.
Lemma rev_spaces_nonempty : "" ∉ rev_spaces.
Proof. apply (bool_decide_unpack _). vm_compute. exact I. Qed.

Definition no_left_space (s : string) : Prop := strip_any utf8_spaces s = None.
Definition no_right_space (s : string) : Prop := strip_any rev_spaces (String.rev s) = None.

Lemma TrimRight_prefix s : ∃ u, s = TrimRightSpace s +:+ u.
Proof.
  unfold TrimRightSpace. fold rev_spaces.
  destruct (strip_all_suffix rev_spaces (String.rev s) (String.length s)) as [u Hu].
  exists (String.rev u). rewrite <- str_rev_append, <- Hu. by rewrite str_rev_involutive.
Qed.

Lemma TrimSpace_no_space s : no_left_space (TrimSpace s) ∧ no_right_space (TrimSpace s).
Proof.
  unfold TrimSpace. set (t := TrimLeftSpace s).
  assert (Ht : no_left_space t) by (apply strip_all_done; [apply spaces_nonempty|done]).
  split.
  - destruct (TrimRight_prefix t) as [u Hu]. unfold no_left_space in *.
    rewrite strip_any_None in Ht |- *. intros p v Hp Hv.
    apply (Ht p (v +:+ u) Hp). rewrite Hu at 1. by rewrite Hv, str_app_assoc.
  - unfold no_right_space, TrimRightSpace. fold rev_spaces. rewrite str_rev_involutive.
    apply strip_all_done; [apply rev_spaces_nonempty|by rewrite str_length_rev].
Qed.

Lemma TrimSpace_id s : no_left_space s → no_right_space s → TrimSpace s = s.
Proof.
  intros Hl Hr. unfold TrimSpace, TrimLeftSpace. rewrite strip_all_stop; [|done].
  unfold TrimRightSpace. fold rev_spaces. rewrite strip_all_stop; [|done].
  apply str_rev_involutive.
Qed.

Lemma TrimSpace_idemp s : TrimSpace (TrimSpace s) = TrimSpace s.
Proof. destruct (TrimSpace_no_space s). by apply TrimSpace_id. Qed.

(** ** Lemmas: ASCII tokens

    Bytes that neither trimming nor lowering touches. *)
Definition is_token_char (c : ascii) : bool :=
  let n := Ascii.N_of_ascii c in
  ((97 <=? n) && (n <=? 122))%N || ((48 <=? n) && (n <=? 57))%N || (n =? 45)%N.

Fixpoint all_chars (P : ascii → bool) (s : string) : bool :=
  match s with
  | EmptyString => true
  | String c s' => P c && all_chars P s'
  end.

Lemma all_chars_app P s t : all_chars P (s +:+ t) = all_chars P s && all_chars P t.
Proof.
  induction s as [|c s IH]; [done|]. rewrite str_app_cons. simpl. by rewrite IH, andb_assoc.
Qed.

Lemma all_chars_rev P s : all_chars P (String.rev s) = all_chars P s.
Proof.
  induction s as [|c s IH]; [done|]. rewrite str_rev_cons, all_chars_app, IH. simpl.
  by rewrite andb_true_r, andb_comm.
Qed.

Lemma spaces_not_token p : p ∈ utf8_spaces → all_chars is_token_char p = false.
Proof.
  intros Hp. rewrite <- not_true_iff_false. intros H.
  assert (Hf : Forall (λ p, all_chars is_token_char p = false) utf8_spaces).
  { apply (bool_decide_unpack _). vm_compute. exact I. }
  rewrite Forall_forall in Hf. rewrite (Hf p Hp) in H. done.
Qed.

Lemma token_TrimSpace s : all_chars is_token_char s = true → TrimSpace s = s.
Proof.
  intros H. apply TrimSpace_id; apply strip_any_None; intros p t Hp E.
  - rewrite E, all_chars_app, (spaces_not_token p Hp) in H. done.
  - apply list_elem_of_fmap in Hp as (q & -> & Hq).
    rewrite <- all_chars_rev, E, all_chars_app, all_chars_rev, (spaces_not_token q Hq) in H. done.
Qed.

Lemma token_lower c : is_token_char c = true → lower_ascii c = c.
Proof. by destruct c as [[] [] [] [] [] [] [] []]. Qed.

Lemma token_ToLower s : all_chars is_token_char s = true → ToLower s = s.
Proof.
  induction s as [|c s IH]; [done|]. simpl. intros [Hc Hs]%andb_true_iff.
  specialize (IH Hs). destruct c as [[] [] [] [] [] [] [] []]; try discriminate Hc;
    cbn [ToLower]; by rewrite IH.
Qed.

(** ** Lemmas: lowering and folding agree on plain text

    [plain] text is ASCII without [i], [k] and [s], the letters that some
    non-ASCII rune lowers or folds to. *)
Definition plain_char (c : ascii) : bool :=
  (Ascii.N_of_ascii c <? 128)%N && negb (char_in c "iks").

Lemma lower_fold_step c s :
  (ToLower (String c s) = String (lower_ascii c) (ToLower s) ∧
   fold_case (String c s) = String (lower_ascii c) (fold_case s)) ∨
  (∃ d t d' t', ToLower (String c s) = String d t ∧ fold_case (String c s) = String d' t' ∧
     plain_char d = false ∧ plain_char d' = false).
Proof.
  assert (Hc : c ≠ "196"%char ∧ c ≠ "197"%char ∧ c ≠ "226"%char ∨
               c = "196"%char ∨ c = "197"%char ∨ c = "226"%char).
  { destruct (decide (c = "196"%char)); [by right; left|].
    destruct (decide (c = "197"%char)); [by right; right; left|].
    destruct (decide (c = "226"%char)); [by right; right; right|]. by left. }
  destruct Hc as [(H1 & H2 & H3)|[->|[->| ->]]].
  - left. by destruct c as [[] [] [] [] [] [] [] []].
  - destruct s as [|c s]; [by left|].
    destruct (decide (c = "176"%char)) as [->|]; [right; by repeat eexists|].
    left. by destruct c as [[] [] [] [] [] [] [] []].
  - destruct s as [|c s]; [by left|].
    destruct (decide (c = "191"%char)) as [->|]; [right; by repeat eexists|].
    left. by destruct c as [[] [] [] [] [] [] [] []].
  - destruct s as [|c s]; [by left|].
    destruct (decide (c = "132"%char)) as [->|];
      [|left; by destruct c as [[] [] [] [] [] [] [] []]].
    destruct s as [|c s]; [by left|].
    destruct (decide (c = "170"%char)) as [->|]; [right; by repeat eexists|].
    left. by destruct c as [[] [] [] [] [] [] [] []].
Qed.

Lemma ToLower_fold s t :
  all_chars plain_char t = true → ToLower s = t ↔ fold_case s = t.
Proof.
  revert s. induction t as [|d t IH]; intros s Ht.
  - destruct s as [|c s]; [done|].
    destruct (lower_fold_step c s) as [[-> ->]|(? & ? & ? & ? & -> & -> & _ & _)]; done.
  - simpl in Ht. apply andb_true_iff in Ht as [Hd Ht]. destruct s as [|c s]; [done|].
    destruct (lower_fold_step c s) as [[-> ->]|(e & ? & e' & ? & -> & -> & He & He')].
    + specialize (IH s Ht). split; intros [= -> E]; f_equal; by apply IH.
    + split; intros [= -> E]; congruence.
Qed.

(** ** Lemmas: visible text, separators, decimal numerals *)

Definition is_visible (c : ascii) : bool :=
  let n := Ascii.N_of_ascii c in ((33 <=? n) && (n <=? 126))%N.
Definition is_digit (c : ascii) : bool :=
  let n := Ascii.N_of_ascii c in ((48 <=? n) && (n <=? 57))%N.

Lemma all_chars_impl (P Q : ascii → bool) s :
  (∀ c, P c = true → Q c = true) → all_chars P s = true → all_chars Q s = true.
Proof.
  intros HPQ. induction s as [|c s IH]; [done|]. simpl. rewrite !andb_true_iff. naive_solver.
Qed.

Lemma spaces_not_visible p : p ∈ utf8_spaces → all_chars is_visible p = false.
Proof.
  intros Hp. rewrite <- not_true_iff_false. intros H.
  assert (Hf : Forall (λ p, all_chars is_visible p = false) utf8_spaces).
  { apply (bool_decide_unpack _). vm_compute. exact I. }
  rewrite Forall_forall in Hf. rewrite (Hf p Hp) in H. done.
Qed.

Lemma visible_TrimSpace s : all_chars is_visible s = true → TrimSpace s = s.
Proof.
  intros H. apply TrimSpace_id; apply strip_any_None; intros p t Hp E.
  - rewrite E, all_chars_app, (spaces_not_visible p Hp) in H. done.
  - apply list_elem_of_fmap in Hp as (q & -> & Hq).
    rewrite <- all_chars_rev, E, all_chars_app, all_chars_rev, (spaces_not_visible q Hq) in H. done.
Qed.

Lemma Split_none sep w : all_chars (λ c, c != sep) w = true → Split sep w = [w].
Proof.
  induction w as [|c w IH]; [done|]. simpl. intros [Hc Hw]%andb_true_iff.
  bool_hyps. by rewrite decide_False, IH.
Qed.

Lemma Split_app sep w rest :
  all_chars (λ c, c != sep) w = true → Split sep (w +:+ String sep rest) = w :: Split sep rest.
Proof.
  induction w as [|c w IH]; [simpl; by rewrite decide_True|].
  rewrite str_app_cons. simpl. intros [Hc Hw]%andb_true_iff.
  bool_hyps. by rewrite decide_False, IH.
Qed.

(** [before_any] keeps a text without separators and stops at the first one. *)
Lemma before_any_app set s t :
  all_chars (λ c, negb (char_in c set)) s = true → before_any (s +:+ t) set = s +:+ before_any t set.
Proof.
  induction s as [|c s IH]; [done|]. rewrite !str_app_cons. simpl.
  intros [Hc Hs]%andb_true_iff. apply negb_true_iff in Hc. by rewrite Hc, IH.
Qed.

Lemma digit_char d : (d < 10)%N →
  digit_val 10 (pretty_N_char d) = Some (Z.of_N d) ∧ is_digit (pretty_N_char d) = true.
Proof.
  intros Hd. assert (Hc : d ∈ N.of_nat <$> seq 0 10).
  { apply list_elem_of_fmap. exists (N.to_nat d). split; [lia|]. apply elem_of_seq. lia. }
  set (P := λ d, digit_val 10 (pretty_N_char d) = Some (Z.of_N d) ∧ is_digit (pretty_N_char d) = true).
  assert (Hall : Forall P (N.of_nat <$> seq 0 10)).
  { repeat constructor. }
  rewrite Forall_forall in Hall. by apply Hall.
Qed.

Lemma pretty_go_digits x s :
  (0 < x)%N → digits 10 0 (pretty_N_go x s) = digits 10 (Z.of_N x) s ∧
  (all_chars is_digit s = true → all_chars is_digit (pretty_N_go x s) = true) ∧
  pretty_N_go x s ≠ "".
Proof.
  revert s. induction x as [x IH] using (well_founded_induction N.lt_wf_0); intros s Hx.
  rewrite pretty_N_go_step by done.
  destruct (digit_char (x `mod` 10)%N) as [Hv Hd]; [apply N.mod_lt; lia|].
  pose proof (N.div_mod x 10 ltac:(lia)) as Hdm.
  destruct (decide (x `div` 10 = 0)%N) as [E|E].
  - rewrite E, pretty_N_go_0. cbn [digits all_chars]. rewrite Hv, Hd.
    split_and!; [f_equal; lia|done|done].
  - assert (Hlt : (x `div` 10 < x)%N) by (apply N.div_lt; lia).
    destruct (IH _ Hlt (String (pretty_N_char (x `mod` 10)) s)) as (H1 & H2 & H3);
      [by apply N.neq_0_lt_0|].
    split_and!; [|intros Hs; apply H2; cbn [all_chars]; by rewrite Hd|done].
    rewrite H1. cbn [digits]. rewrite Hv. f_equal. lia.
Qed.

(** A printed non-negative number is a non-empty run of digits that reads back. *)
Lemma Itoa_digits n : (0 ≤ n)%Z →
  digits 10 0 (Itoa n) = Some n ∧ all_chars is_digit (Itoa n) = true ∧ Itoa n ≠ "".
Proof.
  intros Hn. destruct n as [|p|p]; [done| |lia].
  change (Itoa (Z.pos p)) with (pretty_N_go (N.pos p) "").
  destruct (pretty_go_digits (N.pos p) "" ltac:(lia)) as (H1 & H2 & H3).
  split_and!; [by rewrite H1|by apply H2|done].
Qed.

Lemma parse_uint_bounds base limit s n : parse_uint base limit s = Some n → (n ≤ limit)%Z.
Proof.
  unfold parse_uint. destruct s; [done|]. destruct (digits _ _ _); [|done].
  destruct (Z.leb_spec z limit); [|done]. intros. by simplify_eq.
Qed.

Lemma digit_val_nonneg base c d : digit_val base c = Some d → (0 ≤ d)%Z.
Proof.
  unfold digit_val. cbv zeta. intros H.
  repeat match type of H with context [if ?b then _ else _] => destruct b eqn:? end;
    simplify_eq; bool_hyps; try lia.
  all: repeat match goal with H : (_ <=? _)%Z = true |- _ => apply Z.leb_le in H end; lia.
Qed.

Lemma digits_nonneg base acc s n :
  (0 ≤ base)%Z → (0 ≤ acc)%Z → digits base acc s = Some n → (0 ≤ n)%Z.
Proof.
  intros Hb. revert acc. induction s as [|c s IH]; intros acc Ha; cbn [digits];
    [intros; by simplify_eq|].
  destruct (digit_val base c) as [d|] eqn:E; [|done]. apply IH.
  apply digit_val_nonneg in E. nia.
Qed.

Lemma is_digit_sign c s : is_digit c = true → Atoi (String c s) = parse_uint 10 max_int64 (String c s).
Proof. by destruct c as [[] [] [] [] [] [] [] []]. Qed.

Lemma Atoi_Itoa n : (0 ≤ n ≤ max_int64)%Z → Atoi (Itoa n) = Some n.
Proof.
  intros [H0 H1]. destruct (Itoa_digits n H0) as (Hd & Hc & Hne).
  destruct (Itoa n) as [|c s] eqn:E; [done|]. cbn [all_chars] in Hc.
  apply andb_true_iff in Hc as [Hc _]. rewrite is_digit_sign by done.
  unfold parse_uint. rewrite Hd. by apply Z.leb_le in H1 as ->.
Qed.
