(* ===== verification/Unstructured.v ===== *)
(** * Unstructured objects and dotted paths (pkg/mapping/path.go)

    The adapter handles every Kubernetes object as the tree that JSON decodes
    to: Go's [map[string]any] whose leaves are nil, booleans, [int64],
    [float64] and strings.  [value] is that tree; a float is kept as its IEEE
    bit pattern since the program only moves floats around.  Maps are stdpp's
    [gmap]: they have no order, as in Go, and equality of maps is
    [reflect.DeepEqual]. *)

From Stdlib Require Import Ascii.
From stdpp Require Import base gmap strings list fin_maps.
From S2P Require Import Prelude GoStrings.

Inductive value : Type :=
| VNil
| VBool (b : bool)
| VInt (z : Z)
| VFloat (bits : Z)
| VString (s : string)
| VList (l : list value)
| VMap (m : gmap string value).

Abbreviation object := (gmap string value) (only parsing).

(** [reflect.DeepEqual] on such trees is Leibniz equality, and it is decidable. *)
#[global] Instance value_eq_dec : EqDecision value.
Proof.
  refine (fix go v1 v2 :=
    let _ : EqDecision value := @go in
    match v1, v2 with
    | VNil, VNil => left _
    | VBool b1, VBool b2 => cast_if (decide (b1 = b2))
    | VInt z1, VInt z2 => cast_if (decide (z1 = z2))
    | VFloat z1, VFloat z2 => cast_if (decide (z1 = z2))
    | VString s1, VString s2 => cast_if (decide (s1 = s2))
    | VList l1, VList l2 => cast_if (decide (l1 = l2))
    | VMap m1, VMap m2 => cast_if (decide (m1 = m2))
    | _, _ => right _
    end); abstract congruence.
Defined.

(** ** Type assertions *)

(** [v.(map[string]any)] *)
Definition asMap (v : value) : option (gmap string value) :=
  match v with VMap m => Some m | _ => None end.

(** [v.([]any)] *)
Definition asList (v : value) : option (list value) :=
  match v with VList l => Some l | _ => None end.

(** [v.(string)] *)
Definition asString (v : value) : option string :=
  match v with VString s => Some s | _ => None end.

(** [s, _ := m[k].(string)] on a possibly missing key: the zero value. *)
Definition str_at (m : gmap string value) (k : string) : string :=
  match m !! k with Some (VString s) => s | _ => "" end.

Definition isEmpty (v : value) : bool :=
  match v with
  | VNil => true
  | VString s => s == ""
  | _ => false
  end.

(** ** Get and Set *)

(** The three trims both functions start with. *)
Definition norm_path (path : string) : string :=
  TrimPrefix (Trim (TrimPrefix (TrimSpace path) "$.") "{}") ".".

Fixpoint get_parts (cur : value) (parts : list string) : option value :=
  match parts with
  | [] => Some cur
  | p :: ps =>
      match asMap cur with
      | Some m => match m !! p with
                  | Some next => get_parts next ps
                  | None => None
                  end
      | None => None
      end
  end.

Definition Get (obj : gmap string value) (path : string) : option value :=
  let path := norm_path path in
  if path == "" then Some (VMap obj)
  else get_parts (VMap obj) (Split "." path).

Fixpoint set_parts (path : string) (cur : gmap string value) (parts : list string)
    (val : value) : result (gmap string value) :=
  match parts with
  | [] => Ok cur
  | [p] => Ok (<[p := val]> cur)
  | p :: ps =>
      match cur !! p with
      | None =>
          let! child := set_parts path ∅ ps val in
          Ok (<[p := VMap child]> cur)
      | Some next =>
          match asMap next with
          | Some m =>
              let! child := set_parts path m ps val in
              Ok (<[p := VMap child]> cur)
          | None => Err (EFmt "path %q: %q is not an object" [path; p])
          end
      end
  end.

Definition Set_ (obj : gmap string value) (path : string) (val : value)
    : result (gmap string value) :=
  let path := norm_path path in
  if path == "" then Err (EFmt "empty destination path" [])
  else set_parts path obj (Split "." path) val.

#[global] Arguments norm_path : simpl never.
#[global] Arguments Get : simpl never.
#[global] Arguments Set_ : simpl never.

(** ** Laws *)

Lemma Split_cons c s : ∃ w ws, Split c s = w :: ws.
Proof.
  induction s as [|d s (w & ws & IH)]; simpl; [eauto|].
  case_decide; [eauto|]. rewrite IH. eauto.
Qed.

Lemma set_parts_get path obj ps v obj' :
  ps ≠ [] → set_parts path obj ps v = Ok obj' → get_parts (VMap obj') ps = Some v.
Proof.
  revert obj obj'. induction ps as [|p ps IH]; [done|]. intros obj obj' _ H.
  destruct ps as [|q ps]; cbn in H.
  - simplify_eq. cbn. by rewrite lookup_insert_eq.
  - change (get_parts (VMap obj') (p :: q :: ps)) with
      (match obj' !! p with Some n => get_parts n (q :: ps) | None => None end).
    fold (set_parts path ∅ (q :: ps) v) in H.
    destruct (obj !! p) as [next|]; [destruct (asMap next) as [m|]; [|done]|].
    + fold (set_parts path m (q :: ps) v) in H. inv_ok.
      rewrite lookup_insert_eq. by eapply IH.
    + inv_ok. rewrite lookup_insert_eq. by eapply IH.
Qed.

Lemma get_parts_empty ps : ps ≠ [] → get_parts (VMap ∅) ps = None.
Proof. destruct ps; [done|]. intros _. cbn. by rewrite lookup_empty. Qed.

Lemma get_parts_cons m p ps :
  get_parts (VMap m) (p :: ps) =
  match m !! p with Some n => get_parts n ps | None => None end.
Proof. done. Qed.

Lemma set_parts_cons2 path cur p q ps v :
  set_parts path cur (p :: q :: ps) v =
  match cur !! p with
  | None => let! child := set_parts path ∅ (q :: ps) v in Ok (<[p := VMap child]> cur)
  | Some (VMap m) => let! child := set_parts path m (q :: ps) v in Ok (<[p := VMap child]> cur)
  | Some _ => Err (EFmt "path %q: %q is not an object" [path; p])
  end.
Proof. cbn. destruct (cur !! p) as [[]|]; done. Qed.

(** A write leaves every path that is not comparable with the written one as
    it was. *)
Lemma set_parts_frame path obj ps qs v obj' :
  ¬ ps `prefix_of` qs → ¬ qs `prefix_of` ps →
  set_parts path obj ps v = Ok obj' →
  get_parts (VMap obj') qs = get_parts (VMap obj) qs.
Proof.
  revert qs obj obj'. induction ps as [|p ps IH]; intros qs obj obj' Hpq Hqp H.
  { by destruct Hpq; eexists. }
  destruct qs as [|q qs]; [by destruct Hqp; eexists|].
  rewrite !get_parts_cons. destruct (decide (p = q)) as [->|Hne].
  - assert (Hpq' : ¬ ps `prefix_of` qs) by (intros ?; apply Hpq; by apply prefix_cons).
    assert (Hqp' : ¬ qs `prefix_of` ps) by (intros ?; apply Hqp; by apply prefix_cons).
    destruct ps as [|p' ps]; [by destruct Hpq'; eexists|].
    rewrite set_parts_cons2 in H.
    destruct (obj !! q) as [next|] eqn:Eq.
    + destruct next; try done. inv_ok. rewrite lookup_insert_eq. by eapply IH.
    + inv_ok. rewrite lookup_insert_eq. erewrite IH by done.
      apply get_parts_empty. intros ->. destruct Hqp'. by eexists.
  - destruct ps as [|p' ps]; [cbn in H; simplify_eq; by rewrite lookup_insert_ne|].
    rewrite set_parts_cons2 in H.
    destruct (obj !! p) as [next|].
    + destruct next; try done. inv_ok. by rewrite lookup_insert_ne.
    + inv_ok. by rewrite lookup_insert_ne.
Qed.

(** Where a write fails: the walk meets a value that is not an object. *)
Fixpoint blocked (cur : gmap string value) (parts : list string) : bool :=
  match parts with
  | [] | [_] => false
  | p :: ps =>
      match cur !! p with
      | None => false
      | Some (VMap m) => blocked m ps
      | Some _ => true
      end
  end.

Lemma blocked_empty ps : blocked ∅ ps = false.
Proof. destruct ps as [|p [|q ps]]; cbn; [done..|]. by rewrite lookup_empty. Qed.

Lemma set_parts_ok_iff path obj ps v :
  (∃ obj', set_parts path obj ps v = Ok obj') ↔ blocked obj ps = false.
Proof.
  revert obj. induction ps as [|p ps IH]; intros obj; [naive_solver|].
  destruct ps as [|q ps]; [naive_solver|].
  rewrite set_parts_cons2.
  change (blocked obj (p :: q :: ps)) with
    (match obj !! p with None => false | Some (VMap m) => blocked m (q :: ps) | Some _ => true end).
  destruct (obj !! p) as [next|].
  - destruct next; try (split; [by intros [? ?]|done]). rewrite <- IH.
    split; [intros [? ?]; inv_ok; eauto|intros [? ->]; simpl; eauto].
  - split; [done|]. intros _.
    destruct (proj2 (IH ∅) (blocked_empty _)) as [? ->]. simpl; eauto.
Qed.

(** ** Properties *)

(** The components a path is split into. *)
Definition path_parts (path : string) : list string := Split "." (norm_path path).

Lemma Set_unfold obj path v obj' :
  Set_ obj path v = Ok obj' →
  norm_path path ≠ "" ∧ set_parts (norm_path path) obj (path_parts path) v = Ok obj'.
Proof. unfold Set_. case_bool_decide; [done|]. by split. Qed.

Lemma path_parts_nonempty path : path_parts path ≠ [].
Proof. unfold path_parts. destruct (Split_cons "." (norm_path path)) as (w & ws & ->). done. Qed.

(** Round trip: a successful [Set] at a path is read back by [Get] at any
    spelling of the same path ([$.a.b], [{.a.b}], padded). *)
Theorem Set_then_Get obj path path' v obj' :
  norm_path path' = norm_path path →
  Set_ obj path v = Ok obj' → Get obj' path' = Some v.
Proof.
  intros Hp [Hne Hset]%Set_unfold. unfold Get. rewrite Hp, bool_decide_false by done.
  eapply set_parts_get; [apply path_parts_nonempty|done].
Qed.

(** Frame: [Set] changes nothing that [Get] reads at a path that is
    neither a prefix nor an extension of the written one. *)
Theorem Set_frame obj path v obj' path' :
  ¬ path_parts path `prefix_of` path_parts path' →
  ¬ path_parts path' `prefix_of` path_parts path →
  Set_ obj path v = Ok obj' → norm_path path' ≠ "" → Get obj' path' = Get obj path'.
Proof.
  intros H1 H2 [Hne Hset]%Set_unfold Hne'. unfold Get. rewrite bool_decide_false by done.
  by eapply set_parts_frame.
Qed.

(** [Set] fails exactly when the destination path is empty or walks
    through a value that is not an object; missing intermediate objects are
    created. *)
Theorem Set_fails_iff obj path v :
  is_ok (Set_ obj path v) = false ↔ norm_path path = "" ∨ blocked obj (path_parts path) = true.
Proof.
  unfold Set_. case_bool_decide as Hn; simpl; [naive_solver|].
  pose proof (set_parts_ok_iff (norm_path path) obj (path_parts path) v) as Hiff.
  unfold path_parts in *. destruct (set_parts _ _ _ _) as [o|e]; simpl.
  - destruct (blocked _ _); [|naive_solver]. destruct Hiff as [Hiff _].
    discriminate Hiff; by eexists.
  - destruct (blocked _ _); [naive_solver|]. destruct Hiff as [_ Hiff].
    by destruct Hiff as [? ?].
Qed.

(** A destination with one existing branch and one scalar. *)
Definition sample_object : gmap string value :=
  <["spec" := VMap {["mode" := VString "dpu"]}]> {["kind" := VString "DPU"]}.

Lemma Set_then_Get_witness :
  ∃ o, Set_ sample_object "$.spec.nodeEffect.noEffect" (VBool true) = Ok o ∧
       Get o " {.spec.nodeEffect.noEffect} " = Some (VBool true).
Proof.
  eexists. split; [vm_compute; reflexivity|].
  eapply (Set_then_Get sample_object "$.spec.nodeEffect.noEffect"); [vm_compute|vm_compute]; reflexivity.
Defined.

Lemma Set_frame_witness :
  ∃ o, Set_ sample_object "spec.nodeEffect.noEffect" (VBool true) = Ok o ∧
       Get o "spec.mode" = Get sample_object "spec.mode".
Proof.
  eexists. split; [vm_compute; reflexivity|].
  eapply (Set_frame sample_object "spec.nodeEffect.noEffect").
  - apply (bool_decide_unpack _). vm_compute. exact I.
  - apply (bool_decide_unpack _). vm_compute. exact I.
  - vm_compute; reflexivity.
  - vm_compute; discriminate.
Defined.
