(* ===== verification/MappingSpec.v ===== *)
(** * FieldMapping documents (pkg/mapping/spec.go)

    The data-driven translation document and [Spec.Validate].  A Go pointer
    field that may be nil is an [option]; an [any] field that may be nil is a
    [value] with [VNil] for nil. *)

From Stdlib Require Import Ascii.
From stdpp Require Import base gmap strings list.
From S2P Require Import Prelude GoStrings Unstructured.

Definition APIVersion : string := "translation.opi.nvidia.com/v1alpha1".
Definition Kind : string := "FieldMapping".
Definition ReservedConditionType : string := "Ready".
Definition StatusSchemaConditions : string := "conditions".
Definition StatusSchemaPruned : string := "pruned".

Record ObjectRef := { Group : string; Version : string; RefKind : string }.

#[global] Instance ObjectRef_eq_dec : EqDecision ObjectRef.
Proof. solve_decision. Defined.

(** schema.GroupVersionKind has the same three parts. *)
Definition GVK (o : ObjectRef) : ObjectRef :=
  {| Group := Group o; Version := Version o; RefKind := RefKind o |}.

Record Metadata := { MetaName : string; Description : string }.

Record Field := {
  To : string;
  From : string;
  CEL : string;
  FieldValue : value;
  Default : value;
  Required : bool }.

(** The type [Value]: a name or namespace expression. *)
Record ValueExpr := {
  VFrom : string;
  VCEL : string;
  VLit : string;
  VDefault : value;
  VRequired : bool }.

Record ForEach := { In_ : string }.

Record Emit := {
  Target : ObjectRef;
  Name : ValueExpr;
  Namespace : ValueExpr;
  When : string;
  EmitForEach : option ForEach;
  Fields : list Field }.

Record Defaults := { DefaultNamespace : ValueExpr }.

Record StatusCondition := {
  CondType : string;
  CondStatus : string;
  CondReason : string;
  CondMessage : string }.

Record StatusMapping := {
  StatusWhen : string;
  StatusSchema : string;
  StatusFields : list Field;
  Conditions : list StatusCondition }.

Record Spec := {
  SpecAPIVersion : string;
  SpecKind : string;
  SpecMetadata : Metadata;
  Source : ObjectRef;
  SpecDefaults : option Defaults;
  SpecEmit : list Emit;
  Status : option StatusMapping;
  PruneWhen : string }.

(** ** Methods *)

Definition value_empty (v : ValueExpr) : bool :=
  (VFrom v == "") && (VCEL v == "") && (VLit v == "").

Definition nonEmpty (s : string) : value :=
  if s == "" then VNil else VString s.

Definition asField (v : ValueExpr) : Field :=
  {| To := ""; From := VFrom v; CEL := VCEL v; FieldValue := nonEmpty (VLit v);
     Default := VDefault v; Required := VRequired v |}.

Definition count_set (bs : list bool) : nat := length (filter (λ b, b = true) bs).

Definition exactly_one_msg : string := "%s: exactly one of from, cel, or value must be set".

Definition validateField (where_ : string) (f : Field) : result unit :=
  reject_if (To f == "") (EFmt "%s.to is required" [where_]) ;;!
  let n := count_set [From f != ""; CEL f != ""; FieldValue f != VNil] in
  reject_if (n != 1) (EFmt exactly_one_msg [where_]).

Definition valueSourcesOK (where_ : string) (v : ValueExpr) : result unit :=
  let n := count_set [VFrom v != ""; VCEL v != ""; VLit v != ""] in
  reject_if (n != 1) (EFmt exactly_one_msg [where_]).

Definition at_index (pre : string) (i : nat) (post : string) : string :=
  pre +:+ "[" +:+ Itoa (Z.of_nat i) +:+ "]" +:+ post.

Definition validateEmit (i : nat) (e : Emit) : result unit :=
  reject_if ((RefKind (Target e) == "") || (Version (Target e) == ""))
    (EFmt "emit[%d].target is incomplete" [Itoa (Z.of_nat i)]) ;;!
  reject_if (value_empty (Name e)) (EFmt "emit[%d].name is required" [Itoa (Z.of_nat i)]) ;;!
  valueSourcesOK (at_index "emit" i ".name") (Name e) ;;!
  (if negb (value_empty (Namespace e))
   then valueSourcesOK (at_index "emit" i ".namespace") (Namespace e) else Ok tt) ;;!
  first_error (λ j f, validateField (at_index (at_index "emit" i ".fields") j "") f) 0 (Fields e).

Definition validateCondition (i : nat) (c : StatusCondition) : result unit :=
  reject_if (TrimSpace (CondType c) == "")
    (EFmt "status.conditions[%d].type is required" [Itoa (Z.of_nat i)]) ;;!
  reject_if (TrimSpace (CondStatus c) == "")
    (EFmt "status.conditions[%d].status (CEL) is required" [Itoa (Z.of_nat i)]) ;;!
  reject_if (EqualFold (TrimSpace (CondType c)) ReservedConditionType)
    (EFmt "status.conditions[%d].type must not be %q: that condition is owned by the dpu-operator daemon; use a vendor-scoped type (e.g. DPFReady, DSCReady)"
       [Itoa (Z.of_nat i); ReservedConditionType]).

Definition validateStatus (st : StatusMapping) : result unit :=
  first_error (λ i f, validateField (at_index "status.fields" i "") f) 0 (StatusFields st) ;;!
  first_error validateCondition 0 (Conditions st) ;;!
  match Conditions st with
  | [] => Ok tt
  | _ =>
      if (StatusSchema st == StatusSchemaConditions) || (StatusSchema st == StatusSchemaPruned)
      then Ok tt
      else if StatusSchema st == ""
      then Err (EFmt "status.schema is required when status.conditions is set: %q (CRD keeps the write) or %q (CRD would prune it)"
                  [StatusSchemaConditions; StatusSchemaPruned])
      else Err (EFmt "status.schema %q is not %q or %q"
                  [StatusSchema st; StatusSchemaConditions; StatusSchemaPruned])
  end.

Definition Validate (s : Spec) : result unit :=
  reject_if (SpecAPIVersion s != APIVersion)
    (EFmt "apiVersion: want %s, got %q" [APIVersion; SpecAPIVersion s]) ;;!
  reject_if (SpecKind s != Kind) (EFmt "kind: want %s, got %q" [Kind; SpecKind s]) ;;!
  reject_if (TrimSpace (MetaName (SpecMetadata s)) == "") (EFmt "metadata.name is required" []) ;;!
  reject_if ((RefKind (Source s) == "") || (Version (Source s) == ""))
    (EFmt "source.group/version/kind is required" []) ;;!
  match SpecDefaults s with
  | Some d =>
      if negb (value_empty (DefaultNamespace d))
      then valueSourcesOK "defaults.namespace" (DefaultNamespace d) else Ok tt
  | None => Ok tt
  end ;;!
  reject_if (length (SpecEmit s) == 0) (EFmt "emit: at least one target is required" []) ;;!
  first_error validateEmit 0 (SpecEmit s) ;;!
  match Status s with
  | Some st => validateStatus st
  | None => Ok tt
  end.

(** ** What a valid document is, declaratively *)

(** Exactly one of three alternatives. *)
Definition one_of (P Q R : Prop) : Prop :=
  (P ∧ ¬ Q ∧ ¬ R) ∨ (¬ P ∧ Q ∧ ¬ R) ∨ (¬ P ∧ ¬ Q ∧ R).

Definition wf_field (f : Field) : Prop :=
  To f ≠ "" ∧ one_of (From f ≠ "") (CEL f ≠ "") (FieldValue f ≠ VNil).

Definition wf_value (v : ValueExpr) : Prop :=
  one_of (VFrom v ≠ "") (VCEL v ≠ "") (VLit v ≠ "").

Definition unset (v : ValueExpr) : Prop := VFrom v = "" ∧ VCEL v = "" ∧ VLit v = "".

Record wf_emit (e : Emit) : Prop := {
  we_target : RefKind (Target e) ≠ "" ∧ Version (Target e) ≠ "";
  we_name : wf_value (Name e);
  we_namespace : unset (Namespace e) ∨ wf_value (Namespace e);
  we_fields : Forall wf_field (Fields e) }.

Record wf_condition (c : StatusCondition) : Prop := {
  wc_type : TrimSpace (CondType c) ≠ "";
  wc_status : TrimSpace (CondStatus c) ≠ "";
  wc_not_reserved : fold_case (TrimSpace (CondType c)) ≠ fold_case ReservedConditionType }.

Record wf_status (st : StatusMapping) : Prop := {
  ws_fields : Forall wf_field (StatusFields st);
  ws_conditions : Forall wf_condition (Conditions st);
  ws_schema : Conditions st = [] ∨
    StatusSchema st = StatusSchemaConditions ∨ StatusSchema st = StatusSchemaPruned }.

Record wf_spec (s : Spec) : Prop := {
  wf_api : SpecAPIVersion s = APIVersion;
  wf_kind : SpecKind s = Kind;
  wf_name : TrimSpace (MetaName (SpecMetadata s)) ≠ "";
  wf_source : RefKind (Source s) ≠ "" ∧ Version (Source s) ≠ "";
  wf_defaults : ∀ d, SpecDefaults s = Some d →
    unset (DefaultNamespace d) ∨ wf_value (DefaultNamespace d);
  wf_nonempty : SpecEmit s ≠ [];
  wf_emits : Forall wf_emit (SpecEmit s);
  wf_stat : ∀ st, Status s = Some st → wf_status st }.

(** ** Validate decides well-formedness *)

Lemma count_one (P Q R : Prop) `{Decision P, Decision Q, Decision R} :
  count_set [negb (bool_decide P); negb (bool_decide Q); negb (bool_decide R)] = 1 ↔
  one_of (¬ P) (¬ Q) (¬ R).
Proof. unfold one_of. repeat case_bool_decide; simpl; naive_solver. Qed.

Lemma value_empty_spec v : value_empty v = true ↔ unset v.
Proof. unfold value_empty, unset. repeat case_bool_decide; simpl; naive_solver. Qed.

Lemma valueSourcesOK_spec w v : valueSourcesOK w v = Ok tt ↔ wf_value v.
Proof.
  unfold valueSourcesOK, wf_value. rewrite reject_if_ok, negb_false_iff, bool_decide_eq_true.
  apply count_one.
Qed.

Lemma validateField_spec w f : validateField w f = Ok tt ↔ wf_field f.
Proof.
  unfold validateField, wf_field.
  rewrite seq_ok, !reject_if_ok, bool_decide_eq_false, negb_false_iff, bool_decide_eq_true.
  by rewrite count_one.
Qed.

Lemma guarded_value_spec w v :
  (if negb (value_empty v) then valueSourcesOK w v else Ok tt) = Ok tt ↔ unset v ∨ wf_value v.
Proof.
  destruct (value_empty v) eqn:E; simpl.
  - apply value_empty_spec in E. naive_solver.
  - rewrite valueSourcesOK_spec. split; [by right|]. intros [U|]; [|done].
    apply value_empty_spec in U. congruence.
Qed.

Lemma wf_value_set v : wf_value v → value_empty v = false.
Proof.
  intros W. apply not_true_iff_false. rewrite value_empty_spec.
  unfold wf_value, one_of, unset in *. naive_solver.
Qed.

Lemma validateEmit_spec i e : validateEmit i e = Ok tt ↔ wf_emit e.
Proof.
  unfold validateEmit. rewrite !seq_ok, !reject_if_ok, orb_false_iff, !bool_decide_eq_false,
    valueSourcesOK_spec, guarded_value_spec.
  rewrite (first_error_Forall _ wf_field) by (intros; apply validateField_spec).
  split; [intros (? & _ & ? & ? & ?); by split|].
  intros []. split_and!; try done; [naive_solver..|]. by apply wf_value_set.
Qed.

Lemma validateCondition_spec i c : validateCondition i c = Ok tt ↔ wf_condition c.
Proof.
  unfold validateCondition, EqualFold. rewrite !seq_ok, !reject_if_ok, !bool_decide_eq_false.
  split; [intros (? & ? & ?); by split|by intros []].
Qed.

Lemma validateStatus_spec st : validateStatus st = Ok tt ↔ wf_status st.
Proof.
  unfold validateStatus. rewrite !seq_ok.
  rewrite (first_error_Forall _ wf_field) by (intros; apply validateField_spec).
  rewrite (first_error_Forall _ wf_condition) by (intros; apply validateCondition_spec).
  split.
  - intros (? & ? & H). split; [done..|]. destruct (Conditions st); [by left|right].
    repeat case_bool_decide; simpl in H; try done; naive_solver.
  - intros [? ? H]. split_and!; [done..|]. destruct (Conditions st); [done|].
    destruct H as [|[->| ->]]; done.
Qed.

Lemma Validate_spec s : Validate s = Ok tt ↔ wf_spec s.
Proof.
  unfold Validate. rewrite !seq_ok, !reject_if_ok, orb_false_iff, !negb_false_iff,
    !bool_decide_eq_false, !bool_decide_eq_true.
  rewrite (first_error_Forall _ wf_emit) by (intros; apply validateEmit_spec).
  split.
  - intros (? & ? & ? & ? & Hd & He & ? & Hs). split; [done..| |by intros E; rewrite E in He|done|].
    + intros d Ed. rewrite Ed in Hd. by apply guarded_value_spec in Hd.
    + intros st Est. rewrite Est in Hs. by apply validateStatus_spec.
  - intros [? ? ? [? ?] Hd He ? Hs]. split_and!; try done.
    + destruct (SpecDefaults s); [by apply guarded_value_spec, Hd|done].
    + by intros ?%nil_length_inv.
    + destruct (Status s); [by apply validateStatus_spec, Hs|done].
Qed.

(** [C34] [Spec.Validate] accepts exactly the well-formed documents: the right
    apiVersion and kind, a named mapping and source kind, at least one emit,
    exactly one of from/cel/value on every field, name and declared namespace,
    and status conditions that are typed, have a status expression, name a
    schema and never use the daemon's reserved type [Ready] in any case or
    padding. *)
Theorem Validate_iff_wf s : Validate s = Ok tt ↔ wf_spec s.
Proof. apply Validate_spec. Qed.
