(* ===== verification/MappingEngine.v ===== *)
(** * The mapping interpreter (pkg/mapping/engine.go and cel.go)

    [Apply] turns an OPI source object into the DPF objects to emit and
    [ApplyStatus] rolls the children's status back.  Two libraries the code
    calls are interfaces here: cel-go ([CELEngine], what [evalCEL] asks of it)
    and the metadata accessors of apimachinery's [Unstructured]
    ([MetaAPI], with the laws the engine relies on in [MetaLaws]).

    Objects are values: a map that is copied by reference in Go (a literal of
    the document, a subtree of the source) is copied by value here, so the
    results below are about the object a call returns. *)

From Stdlib Require Import Ascii.
From stdpp Require Import base gmap strings list fin_maps.
From S2P Require Import Prelude GoStrings Unstructured MappingSpec.

(** ** The libraries the engine calls *)

Record CelVars := {
  cv_source : gmap string value;
  cv_item : value;
  cv_children : list value }.

(** cel-go: building the environment, compiling, planning and evaluating an
    expression, and unwrapping the result ([celNative] drives its
    [ConvertToNative]). *)
Class CELEngine := {
  cel_ast : Type;
  cel_prg : Type;
  cel_val : Type;
  cel_env : result unit;
  cel_compile : string → result cel_ast;
  cel_plan : cel_ast → result cel_prg;
  cel_run : cel_prg → CelVars → result cel_val;
  cel_native : cel_val → value }.

(** apimachinery's [Unstructured]: the accessors on the object map. *)
Class MetaAPI := {
  SetGroupVersionKind : ObjectRef → gmap string value → gmap string value;
  SetName : string → gmap string value → gmap string value;
  SetNamespace : string → gmap string value → gmap string value;
  SetLabels : gmap string string → gmap string value → gmap string value;
  GetKind : gmap string value → string;
  GetName : gmap string value → string;
  GetNamespace : gmap string value → string;
  GetLabels : gmap string value → option (gmap string string) }.

(** The accessors work on [metadata] when it is absent or an object. *)
Definition well_meta (o : gmap string value) : Prop :=
  ∀ v, o !! "metadata" = Some v → is_Some (asMap v).

Class MetaLaws `{MetaAPI} : Prop := {
  gvk_kind : ∀ g o, RefKind g ≠ "" → GetKind (SetGroupVersionKind g o) = RefKind g;
  gvk_frame : ∀ g o k, k ≠ "apiVersion" → k ≠ "kind" →
    SetGroupVersionKind g o !! k = o !! k;
  gvk_labels : ∀ g o, GetLabels (SetGroupVersionKind g o) = GetLabels o;
  set_name_get : ∀ n o, well_meta o → n ≠ "" → GetName (SetName n o) = n;
  set_name_frame : ∀ n o k, k ≠ "metadata" → SetName n o !! k = o !! k;
  set_name_meta : ∀ n o, well_meta o → well_meta (SetName n o);
  set_name_labels : ∀ n o, well_meta o → GetLabels (SetName n o) = GetLabels o;
  set_ns_get : ∀ n o, well_meta o → n ≠ "" → GetNamespace (SetNamespace n o) = n;
  set_ns_frame : ∀ n o k, k ≠ "metadata" → SetNamespace n o !! k = o !! k;
  set_ns_meta : ∀ n o, well_meta o → well_meta (SetNamespace n o);
  set_ns_name : ∀ n o, well_meta o → GetName (SetNamespace n o) = GetName o;
  set_ns_labels : ∀ n o, well_meta o → GetLabels (SetNamespace n o) = GetLabels o;
  set_labels_get : ∀ l o, well_meta o → l ≠ ∅ → GetLabels (SetLabels l o) = Some l;
  set_labels_frame : ∀ l o k, k ≠ "metadata" → SetLabels l o !! k = o !! k;
  set_labels_name : ∀ l o, well_meta o → GetName (SetLabels l o) = GetName o;
  set_labels_ns : ∀ l o, well_meta o → GetNamespace (SetLabels l o) = GetNamespace o;
  kind_frame : ∀ o o', o !! "kind" = o' !! "kind" → GetKind o = GetKind o' }.

Definition labelSourceKind : string := "translation.opi.nvidia.com/source-kind".
Definition labelSourceName : string := "translation.opi.nvidia.com/source-name".
Definition labelMapping : string := "translation.opi.nvidia.com/mapping".

Section Engine.
Context `{CELEngine} `{MetaAPI}.

(** ** cel.go *)

Definition celVars (source : gmap string value) (item : value) (children : list value) : CelVars :=
  {| cv_source := source;
     cv_item := if item == VNil then VMap ∅ else item;
     cv_children := children |}.

Definition evalCEL (expr : string) (vars : CelVars) : result value :=
  cel_env ;;!
  let! ast := wrap_err "cel compile %q: %w" [expr] (cel_compile expr) in
  let! prg := wrap_err "cel program %q: %w" [expr] (cel_plan ast) in
  let! out := wrap_err "cel eval %q: %w" [expr] (cel_run prg vars) in
  Ok (cel_native out).

Definition evalBool (expr : string) (vars : CelVars) : result bool :=
  if expr == "" then Ok true
  else let! v := evalCEL expr vars in
       match v with
       | VBool b => Ok b
       | _ => Err (EFmt "cel %q: expected bool, got %T" [expr])
       end.

Definition evalString (expr : string) (vars : CelVars) : result string :=
  if expr == "" then Ok ""
  else if negb (Contains expr "?") then Ok expr
  else let! v := evalCEL expr vars in
       match v with
       | VString s => Ok s
       | _ => Err (EFmt "cel %q: expected string, got %T" [expr])
       end.

(** ** Field resolution *)

Definition resolveValue (f : Field) (source : gmap string value) (item : value)
    (children : list value) : result value :=
  if FieldValue f != VNil then Ok (FieldValue f)
  else if CEL f != "" then evalCEL (CEL f) (celVars source item children)
  else if From f != "" then
    let from_root (root : gmap string value) (path : string) : result value :=
      Ok (default VNil (Get root path)) in
    if (5 <? String.length (From f)) && HasPrefix (From f) "item."
    then match asMap item with
         | Some m => from_root m (TrimPrefix (From f) "item.")
         | None => Err (EFmt "from %q: item is not an object" [From f])
         end
    else from_root source (From f)
  else Ok VNil.

(** The value and whether to set it. *)
Definition fieldValue (f : Field) (source : gmap string value) (item : value)
    (children : list value) : result (value * bool) :=
  let! val := resolveValue f source item children in
  let val := if isEmpty val && (Default f != VNil) then Default f else val in
  if Required f && isEmpty val then Err (EFmt "required value is empty" [])
  else if isEmpty val then Ok (VNil, false)
  else Ok (val, true).

(** The loop over [fields] of [buildObject] and [ApplyStatus]. *)
Definition set_fields (what : string) (fs : list Field) (source : gmap string value)
    (item : value) (children : list value) : result (gmap string value) :=
  fold_result (λ dest f,
    let! (val, set) := wrap_err what [To f] (fieldValue f source item children) in
    if negb set then Ok dest else Set_ dest (To f) val) ∅ fs.

Definition resolveNamespace (spec : Spec) (emit : Emit) (source : gmap string value)
    (item : value) : result string :=
  let nsVal :=
    match SpecDefaults spec with
    | Some d => if value_empty (Namespace emit) && negb (value_empty (DefaultNamespace d))
                then DefaultNamespace d else Namespace emit
    | None => Namespace emit
    end in
  if value_empty nsVal then Ok ""
  else
    let! (v, set) := wrap_err "namespace: %w" [] (fieldValue (asField nsVal) source item []) in
    if negb set then Ok ""
    else match v with
         | VString s => Ok s
         | _ => Err (EFmt "namespace resolved to %v, want string" [])
         end.

(** ** Building one object *)

Definition resolveName (emit : Emit) (source : gmap string value) (item : value)
    : result string :=
  let! name := wrap_err "name: %w" [] (resolveValue (asField (Name emit)) source item []) in
  let name :=
    if match name with VString v => v == "" | _ => true end
    then if VDefault (Name emit) != VNil then VDefault (Name emit) else name
    else name in
  match name with
  | VString nameStr =>
      if nameStr == "" then Err (EFmt "name resolved to %v, want non-empty string" [])
      else Ok nameStr
  | _ => Err (EFmt "name resolved to %v, want non-empty string" [])
  end.

Definition source_labels (spec : Spec) (source : gmap string value)
    (labels : gmap string string) : gmap string string :=
  let labels := <[labelMapping := MetaName (SpecMetadata spec)]> labels in
  let labels := <[labelSourceKind := RefKind (Source spec)]> labels in
  match Get source "metadata.name" with
  | Some (VString s) => <[labelSourceName := s]> labels
  | _ => labels
  end.

Definition buildObject (spec : Spec) (emit : Emit) (source : gmap string value)
    (item : value) : result (gmap string value) :=
  let! nameStr := resolveName emit source item in
  let! ns := resolveNamespace spec emit source item in
  let! dest := set_fields "field %s: %w" (Fields emit) source item [] in
  let u := SetGroupVersionKind (GVK (Target emit)) dest in
  let u := SetName nameStr u in
  let u := if ns != "" then SetNamespace ns u else u in
  let labels := default ∅ (GetLabels u) in
  Ok (SetLabels (source_labels spec source labels) u).

(** ** Apply *)

Definition emit_items (emit : Emit) (source : gmap string value) : result (list value) :=
  match EmitForEach emit with
  | None => Ok [VNil]
  | Some fe =>
      match Get source (In_ fe) with
      | None => Ok []
      | Some raw =>
          match asList raw with
          | Some l => Ok l
          | None => Err (EFmt "forEach.in %q is not a list" [In_ fe])
          end
      end
  end.

Definition applyEmit (spec : Spec) (emit : Emit) (source : gmap string value)
    : result (list (gmap string value)) :=
  let! items := emit_items emit source in
  fold_result (λ out item,
    let! ok := evalBool (When emit) (celVars source item []) in
    if negb ok then Ok out
    else let! obj := buildObject spec emit source item in Ok (out ++ [obj])) [] items.

Definition Apply (spec : Spec) (source : gmap string value)
    : result (list (gmap string value)) :=
  Validate spec ;;!
  fold_result (λ out ie,
    let '(i, emit) := ie : nat * Emit in
    let! objs := wrap_err "emit[%d] %s: %w" [Itoa (Z.of_nat i); RefKind (Target emit)]
                   (applyEmit spec emit source) in
    Ok (out ++ objs)) [] (zip (seq 0 (length (SpecEmit spec))) (SpecEmit spec)).

Definition ShouldPrune (spec : Spec) (source : gmap string value) : result bool :=
  if PruneWhen spec == "" then Ok true
  else wrap_err "pruneWhen: %w" [] (evalBool (PruneWhen spec) (celVars source VNil [])).

(** ** ApplyStatus *)

(** The key under which conditions are compared for ownership. *)
Definition cond_key (t : string) : string := ToLower (TrimSpace t).

(** A source condition this mapping does not write. *)
Definition foreign_condition (writes : list string) (item : value) : bool :=
  match asMap item with
  | Some m =>
      let key := cond_key (str_at m "type") in
      negb ((key == "") || bool_decide (key ∈ writes))
  | None => false
  end.

Definition preservedStatusConditions (source : gmap string value)
    (owned : list StatusCondition) : list value :=
  match Get source "status.conditions" with
  | Some (VList l) =>
      let writes := (λ c, cond_key (CondType c)) <$> owned in
      filter (λ item, foreign_condition writes item = true) l
  | _ => []
  end.

Definition build_condition (source : gmap string value) (children : list value)
    (c : StatusCondition) : result value :=
  let vars := celVars source VNil children in
  let! ok := wrap_err "status condition %s: %w" [CondType c] (evalBool (CondStatus c) vars) in
  let cond : gmap string value :=
    <["status" := VString (if (ok : bool) then "True" else "False")]>
      {["type" := VString (CondType c)]} in
  let! cond :=
    if CondReason c != "" then
      let! reason := wrap_err "status condition %s reason: %w" [CondType c]
                       (evalString (CondReason c) vars) in
      Ok (<["reason" := VString reason]> cond)
    else Ok cond in
  let! cond :=
    if CondMessage c != "" then
      let! message := wrap_err "status condition %s message: %w" [CondType c]
                        (evalString (CondMessage c) vars) in
      Ok (<["message" := VString message]> cond)
    else Ok cond in
  Ok (VMap cond).

(** [None] is the nil map: nothing to mirror. *)
Definition ApplyStatus (spec : Spec) (source : gmap string value) (children : list value)
    : result (option (gmap string value)) :=
  Validate spec ;;!
  match Status spec with
  | None => Ok None
  | Some st =>
      let! owns := wrap_err "status when: %w" []
                     (evalBool (StatusWhen st) (celVars source VNil children)) in
      if negb owns then Ok None
      else
        let! obj := set_fields "status field %s: %w" (StatusFields st) source VNil children in
        let statusMap := match Get obj "status" with
                         | Some (VMap m) => m
                         | _ => ∅
                         end in
        let! conds := fold_result (λ conds c,
            let! cond := build_condition source children c in
            Ok (conds ++ [cond]))
          (preservedStatusConditions source (Conditions st)) (Conditions st) in
        let statusMap :=
          if 0 <? length conds then <["conditions" := VList conds]> statusMap else statusMap in
        if size statusMap == 0 then Ok None else Ok (Some statusMap)
  end.

(** ** Where fields land *)

(** The path a field writes, as its components. *)
Definition field_parts (f : Field) : list string := Split "." (norm_path (To f)).

(** No field's destination is inside another's. *)
Definition independent (fs : list Field) : Prop :=
  ∀ i j f g, fs !! i = Some f → fs !! j = Some g → i ≠ j →
    ¬ field_parts f `prefix_of` field_parts g.

Lemma Set_inv obj path v obj' :
  Set_ obj path v = Ok obj' →
  norm_path path ≠ "" ∧
  set_parts (norm_path path) obj (Split "." (norm_path path)) v = Ok obj'.
Proof. unfold Set_. case_bool_decide; [done|]. eauto. Qed.

Lemma Split_nonempty c s : Split c s ≠ [].
Proof. destruct (Split_cons c s) as (w & ws & ->). done. Qed.

Lemma set_fields_frame what fs source item children dest dest' qs :
  (∀ f, f ∈ fs → ¬ field_parts f `prefix_of` qs ∧ ¬ qs `prefix_of` field_parts f) →
  fold_result (λ dest f,
    let! (val, set) := wrap_err what [To f] (fieldValue f source item children) in
    if negb set then Ok dest else Set_ dest (To f) val) dest fs = Ok dest' →
  get_parts (VMap dest') qs = get_parts (VMap dest) qs.
Proof.
  intros Hq. revert dest dest'. induction fs as [|f fs IH]; intros dest dest' E; simpl in E.
  { by simplify_eq. }
  apply result_bind_ok in E as (mid & Ef & E).
  erewrite IH; [|intros; apply Hq; by right|done].
  apply result_bind_ok in Ef as ([v []] & _ & Ef); simpl in Ef; [|by simplify_eq].
  apply Set_inv in Ef as [_ Ef].
  destruct (Hq f) as [? ?]; [by left|]. by eapply set_parts_frame.
Qed.

(** A field that resolves is read back from the object built from
    independent fields. *)
Lemma set_fields_get what fs source item children dest i f v :
  independent fs → fs !! i = Some f →
  fieldValue f source item children = Ok (v, true) →
  set_fields what fs source item children = Ok dest →
  get_parts (VMap dest) (field_parts f) = Some v ∧ norm_path (To f) ≠ "".
Proof.
  intros Hind Hi Hv E. unfold set_fields in E.
  rewrite <- (take_drop_middle fs i f Hi), fold_result_app in E.
  apply result_bind_ok in E as (pre & _ & E). cbn [fold_result] in E.
  apply result_bind_ok in E as (mid & Ef & E). rewrite Hv in Ef. simpl in Ef.
  apply Set_inv in Ef as [Hn Hset]. split; [|done].
  erewrite set_fields_frame; [by eapply set_parts_get; [apply Split_nonempty|]| |done].
  intros g (j & Hj)%list_elem_of_lookup. rewrite lookup_drop in Hj.
  split; eapply Hind; eauto; lia.
Qed.
End Engine.

(** ** Emitted objects *)

Section EngineFacts.
Context `{CELEngine} `{Laws : MetaLaws}.

(** No field overwrites the whole [metadata] of what it emits. *)
Definition meta_safe (spec : Spec) : Prop :=
  ∀ e f, e ∈ SpecEmit spec → f ∈ Fields e → field_parts f ≠ ["metadata"].

Lemma set_parts_well_meta path obj ps v obj' :
  well_meta obj → ps ≠ [] → ps ≠ ["metadata"] →
  set_parts path obj ps v = Ok obj' → well_meta obj'.
Proof.
  intros Hw Hne Hps E w Hlk. destruct ps as [|p [|q ps]]; [done| |].
  - simpl in E. simplify_eq. rewrite lookup_insert_ne in Hlk by congruence. by apply Hw.
  - rewrite set_parts_cons2 in E.
    destruct (decide (p = "metadata")) as [->|Hp].
    + destruct (obj !! "metadata") as [[]|]; try done; inv_ok;
        rewrite lookup_insert_eq in Hlk; simplify_eq; by eexists.
    + destruct (obj !! p) as [[]|]; try done; inv_ok;
        rewrite lookup_insert_ne in Hlk by done; by apply Hw.
Qed.

Lemma set_fields_well_meta what fs source item children dest :
  (∀ f, f ∈ fs → field_parts f ≠ ["metadata"]) →
  set_fields what fs source item children = Ok dest → well_meta dest.
Proof.
  intros Hfs. apply fold_result_inv; [by intros v ?%lookup_empty_Some|].
  intros d f d' Hf Hd Ef.
  apply result_bind_ok in Ef as ([v []] & _ & Ef); simpl in Ef; [|by simplify_eq].
  apply Set_inv in Ef as [_ Ef].
  eapply set_parts_well_meta; [done|apply Split_nonempty|by apply (Hfs f)|done].
Qed.

(** The three translation labels. *)
Definition has_source_labels (spec : Spec) (source : gmap string value)
    (l : gmap string string) : Prop :=
  l !! labelMapping = Some (MetaName (SpecMetadata spec)) ∧
  l !! labelSourceKind = Some (RefKind (Source spec)) ∧
  ∀ s, Get source "metadata.name" = Some (VString s) → l !! labelSourceName = Some s.

Lemma source_labels_has spec source l : has_source_labels spec source (source_labels spec source l).
Proof.
  unfold has_source_labels, source_labels.
  destruct (Get source "metadata.name") as [[]|]; split_and!; intros; by simplify_map_eq.
Qed.

Lemma source_labels_nonempty spec source l : source_labels spec source l ≠ ∅.
Proof.
  intros E. destruct (source_labels_has spec source l) as [Hl _].
  rewrite E, lookup_empty in Hl. done.
Qed.

(** The object [buildObject] returns, in terms of the fields it set. *)
Lemma buildObject_inv spec emit source item o :
  buildObject spec emit source item = Ok o →
  ∃ name ns dest u, resolveName emit source item = Ok name ∧
    resolveNamespace spec emit source item = Ok ns ∧
    set_fields "field %s: %w" (Fields emit) source item [] = Ok dest ∧
    u = (let u := SetName name (SetGroupVersionKind (GVK (Target emit)) dest) in
         if ns != "" then SetNamespace ns u else u) ∧
    o = SetLabels (source_labels spec source (default ∅ (GetLabels u))) u.
Proof.
  unfold buildObject. intros E.
  apply result_bind_ok in E as (name & Hname & E).
  apply result_bind_ok in E as (ns & Hns & E).
  apply result_bind_ok in E as (dest & Hdest & E).
  eexists name, ns, dest, _. by simplify_eq.
Qed.

Lemma resolveName_nonempty emit source item n : resolveName emit source item = Ok n → n ≠ "".
Proof.
  unfold resolveName. intros E. apply result_bind_ok in E as (v & _ & E). simpl in E.
  repeat (case_match || case_bool_decide); simplify_eq; done.
Qed.

Lemma gvk_well_meta g o : well_meta o → well_meta (SetGroupVersionKind g o).
Proof. intros Hw v Hv. rewrite gvk_frame in Hv by done. by apply Hw. Qed.

(** Everything but the identity fields is what the fields set. *)
Lemma buildObject_frame spec emit source item o :
  buildObject spec emit source item = Ok o →
  ∃ dest, set_fields "field %s: %w" (Fields emit) source item [] = Ok dest ∧
    ∀ k, k ∉ ["apiVersion"; "kind"; "metadata"] → o !! k = dest !! k.
Proof.
  intros (name & ns & dest & u & _ & _ & Hd & -> & ->)%buildObject_inv.
  exists dest. split; [done|]. intros k Hk. rewrite !not_elem_of_cons in Hk.
  destruct Hk as (? & ? & ? & _).
  rewrite set_labels_frame by done.
  case_bool_decide; simpl; rewrite ?set_ns_frame, set_name_frame, gvk_frame by done; done.
Qed.

Lemma buildObject_identity spec emit source item o :
  (∀ f, f ∈ Fields emit → field_parts f ≠ ["metadata"]) →
  RefKind (Target emit) ≠ "" →
  buildObject spec emit source item = Ok o →
  GetKind o = RefKind (Target emit) ∧
  (∃ name, resolveName emit source item = Ok name ∧ GetName o = name ∧ name ≠ "") ∧
  ∃ l, GetLabels o = Some l ∧ has_source_labels spec source l.
Proof.
  intros Hsafe Hkind (name & ns & dest & u & Hname & Hns & Hd & Hu & Ho)%buildObject_inv.
  pose proof (resolveName_nonempty _ _ _ _ Hname) as Hne.
  pose proof (gvk_well_meta (GVK (Target emit)) _ (set_fields_well_meta _ _ _ _ _ _ Hsafe Hd)) as Hw0.
  pose proof (set_name_meta name _ Hw0) as Hw1.
  assert (Hw : well_meta u) by (subst u; case_bool_decide; simpl; [done|by apply set_ns_meta]).
  split_and!.
  - subst o. etrans; [|exact (gvk_kind (GVK (Target emit)) dest Hkind)]. apply kind_frame.
    rewrite set_labels_frame by done. subst u.
    case_bool_decide; simpl; rewrite ?set_ns_frame, set_name_frame by done; done.
  - exists name. split_and!; [done| |done]. subst o. rewrite set_labels_name by done. subst u.
    case_bool_decide; simpl; rewrite ?set_ns_name by done; by apply set_name_get.
  - eexists. subst o. rewrite set_labels_get; [|done|apply source_labels_nonempty].
    split; [done|apply source_labels_has].
Qed.

(** A field addressed outside apiVersion, kind and metadata. *)
Definition outside_identity (f : Field) : Prop :=
  ∀ k, head (field_parts f) = Some k → k ∉ ["apiVersion"; "kind"; "metadata"].

(** A field that resolves for the item is read back from the object. *)
Lemma buildObject_field spec emit source item o f v :
  independent (Fields emit) → buildObject spec emit source item = Ok o → f ∈ Fields emit →
  outside_identity f → fieldValue f source item [] = Ok (v, true) → Get o (To f) = Some v.
Proof.
  intros Hind Hb (i & Hi)%list_elem_of_lookup Hhead Hv.
  destruct (buildObject_frame _ _ _ _ _ Hb) as (dest & Hd & Hframe).
  destruct (set_fields_get _ _ _ _ _ _ _ _ _ Hind Hi Hv Hd) as [Hget Hpath].
  unfold Get. rewrite bool_decide_false by done.
  fold (field_parts f). unfold outside_identity in Hhead. destruct (field_parts f) as [|p ps] eqn:Ep;
    [by destruct (Split_nonempty "." (norm_path (To f)))|].
  rewrite get_parts_cons in Hget |- *. rewrite Hframe; [done|by apply Hhead].
Qed.

(** What is at the top of the object outside the identity was written by a field
    that resolved for the item. *)
Lemma buildObject_only spec emit source item o k w :
  buildObject spec emit source item = Ok o → k ∉ ["apiVersion"; "kind"; "metadata"] → o !! k = Some w →
  ∃ f v, f ∈ Fields emit ∧ head (field_parts f) = Some k ∧ fieldValue f source item [] = Ok (v, true).
Proof.
  intros Hb Hk. destruct (buildObject_frame _ _ _ _ _ Hb) as (dest & Hd & ->); [|done]. clear Hb o.
  revert w. revert Hd. apply (fold_result_inv (λ d : gmap string value, ∀ w, d !! k = Some w → _));
    [by intros w ?%lookup_empty_Some|].
  intros d f d' Hf IH E w Hw.
  apply result_bind_ok in E as ([v []] & Hv%wrap_err_ok & E); cbn [negb] in E; [|simplify_eq; by eapply IH].
  destruct (decide (head (field_parts f) = Some k)) as [|Hne]; [by exists f, v|].
  apply (IH w). rewrite <- Hw. apply Set_inv in E as [_ E].
  assert (Hg : get_parts (VMap d') [k] = get_parts (VMap d) [k]).
  { eapply set_parts_frame; [..|exact E]; fold (field_parts f); intros [t Ht]; apply Hne.
    - destruct (field_parts f) as [|q qs] eqn:Eq; [by destruct (Split_nonempty "." (norm_path (To f)))|].
      by simplify_eq/=.
    - by rewrite Ht. }
  rewrite !get_parts_cons in Hg. cbn in Hg. by destruct (d' !! k), (d !! k).
Qed.

Lemma buildObject_namespace spec emit source item o :
  (∀ f, f ∈ Fields emit → field_parts f ≠ ["metadata"]) → buildObject spec emit source item = Ok o →
  ∃ ns, resolveNamespace spec emit source item = Ok ns ∧ (ns ≠ "" → GetNamespace o = ns).
Proof.
  intros Hsafe (name & ns & dest & u & _ & Hns & Hd & -> & ->)%buildObject_inv. exists ns. split; [done|]. intros Hne.
  pose proof (gvk_well_meta (GVK (Target emit)) _ (set_fields_well_meta _ _ _ _ _ _ Hsafe Hd)) as Hw0.
  pose proof (set_name_meta name _ Hw0) as Hw1. cbv zeta. rewrite bool_decide_eq_false_2 by done. cbn [negb].
  rewrite set_labels_ns by (by apply set_ns_meta). by apply set_ns_get.
Qed.

(** ** Which items are emitted *)

(** One step of the loop of [applyEmit]: an item is kept when its guard
    holds, and the object is the one built from it. *)
Inductive emits (spec : Spec) (emit : Emit) (source : gmap string value)
  : list value → list (gmap string value) → Prop :=
| emits_nil : emits spec emit source [] []
| emits_skip item items objs :
    evalBool (When emit) (celVars source item []) = Ok false →
    emits spec emit source items objs → emits spec emit source (item :: items) objs
| emits_keep item items o objs :
    evalBool (When emit) (celVars source item []) = Ok true →
    buildObject spec emit source item = Ok o →
    emits spec emit source items objs → emits spec emit source (item :: items) (o :: objs).

Lemma applyEmit_loop spec emit source items acc objs :
  fold_result (λ out item,
    let! ok := evalBool (When emit) (celVars source item []) in
    if negb ok then Ok out
    else let! obj := buildObject spec emit source item in Ok (out ++ [obj])) acc items = Ok objs
  ↔ ∃ new, objs = acc ++ new ∧ emits spec emit source items new.
Proof.
  revert acc. induction items as [|item items IH]; intros acc; simpl.
  - split; [intros; simplify_eq; exists []; split; [by rewrite app_nil_r|constructor]|].
    intros (new & -> & Hn). inv Hn. by rewrite app_nil_r.
  - rewrite result_bind_ok. setoid_rewrite result_bind_ok. setoid_rewrite IH. split.
    + intros (mid & ([] & Hb & Hk) & new & -> & Hn); simpl in Hk.
      * apply result_bind_ok in Hk as (o & Ho & Hk). simplify_eq.
        exists (o :: new). rewrite <- app_assoc. split; [done|]. by econstructor.
      * simplify_eq. exists new. split; [done|]. by econstructor.
    + intros (new & -> & Hn). inv Hn as [|? ? ? Hb Hr|? ? o ? Hb Ho Hr].
      * exists acc. split; [exists false; by split|]. by eexists.
      * exists (acc ++ [o]). split; [exists true; simpl; by rewrite Hb, Ho|].
        eexists. rewrite <- app_assoc. by split.
Qed.

Lemma applyEmit_ok spec emit source objs :
  applyEmit spec emit source = Ok objs ↔
  ∃ items, emit_items emit source = Ok items ∧ emits spec emit source items objs.
Proof.
  unfold applyEmit. rewrite result_bind_ok. setoid_rewrite applyEmit_loop.
  simpl. naive_solver.
Qed.

Lemma Apply_loop spec source l acc objs :
  fold_result (λ out ie,
    let '(i, emit) := ie : nat * Emit in
    let! objs := wrap_err "emit[%d] %s: %w" [Itoa (Z.of_nat i); RefKind (Target emit)]
                   (applyEmit spec emit source) in
    Ok (out ++ objs)) acc l = Ok objs
  ↔ ∃ oss, objs = acc ++ mjoin oss ∧
      Forall2 (λ ie os, applyEmit spec ie.2 source = Ok os) l oss.
Proof.
  revert acc. induction l as [|[i e] l IH]; intros acc; simpl.
  - split; [intros; simplify_eq; exists []; split; [by rewrite app_nil_r|constructor]|].
    intros (oss & -> & Hn). inv Hn. by rewrite app_nil_r.
  - split.
    + intros E. apply result_bind_ok in E as (mid & Hm & E).
      apply result_bind_ok in Hm as (os & Hos%wrap_err_ok & Hm). simplify_eq.
      apply IH in E as (oss & -> & Hf).
      exists (os :: oss). simpl. rewrite <- app_assoc. split; [done|by constructor].
    + intros (oss & -> & Hf). inv Hf as [|? os ? oss' Hos Hr]. simpl in Hos.
      rewrite Hos. simpl. apply IH. exists oss'. by rewrite <- app_assoc.
Qed.

(** The whole of [Apply], relationally: the document is valid, and the
    objects are those of each emit rule, in order, one per kept item. *)
Lemma Apply_ok spec source objs :
  Apply spec source = Ok objs ↔
  Validate spec = Ok tt ∧
  ∃ oss, objs = mjoin oss ∧
    Forall2 (λ e os, ∃ items, emit_items e source = Ok items ∧ emits spec e source items os)
      (SpecEmit spec) oss.
Proof.
  unfold Apply. rewrite seq_ok, Apply_loop. simpl.
  assert (Hz : (zip (seq 0 (length (SpecEmit spec))) (SpecEmit spec)).*2 = SpecEmit spec)
    by (apply snd_zip; by rewrite length_seq).
  split; intros (HV & oss & -> & Hf); (split; [done|]); exists oss; (split; [done|]).
  - rewrite <- Hz. apply Forall2_fmap_l.
    eapply Forall2_impl; [exact Hf|]. intros [i e] os Hos. by apply applyEmit_ok.
  - rewrite <- Hz in Hf. apply Forall2_fmap_l in Hf.
    eapply Forall2_impl; [exact Hf|]. intros [i e] os Hos. by apply applyEmit_ok.
Qed.

Lemma emits_built spec emit source items objs o :
  emits spec emit source items objs → o ∈ objs →
  ∃ item, item ∈ items ∧ evalBool (When emit) (celVars source item []) = Ok true ∧
    buildObject spec emit source item = Ok o.
Proof.
  induction 1 as [|? ? ? ? ? IH|? ? ? ? ? ? ? IH].
  - by intros ?%elem_of_nil.
  - intros Ho. destruct (IH Ho) as (it & ? & ? & ?). exists it. split; [by right|done].
  - intros [->|Ho]%elem_of_cons; [eexists; split_and!; [by left|done..]|].
    destruct (IH Ho) as (it & ? & ? & ?). exists it. split; [by right|done].
Qed.

(** Every emitted object comes from one emit rule and one item whose guard
    held. *)
Lemma Apply_built spec source objs o :
  Apply spec source = Ok objs → o ∈ objs →
  ∃ e items item, e ∈ SpecEmit spec ∧ emit_items e source = Ok items ∧ item ∈ items ∧
    evalBool (When e) (celVars source item []) = Ok true ∧
    buildObject spec e source item = Ok o.
Proof.
  intros (_ & oss & -> & Hf)%Apply_ok Ho.
  apply list_elem_of_join in Ho as (os & Ho & Hos).
  apply list_elem_of_lookup in Hos as (i & Hi).
  destruct (Forall2_lookup_r _ _ _ _ _ Hf Hi) as (e & He & items & Hit & Hem).
  destruct (emits_built _ _ _ _ _ _ Hem Ho) as (item & ? & ? & ?).
  exists e, items, item. split; [|done]. by apply list_elem_of_lookup; eexists.
Qed.

(** ** The status roll-up *)

Lemma build_condition_shape source children c v :
  build_condition source children c = Ok v →
  ∃ m b, v = VMap m ∧ m !! "type" = Some (VString (CondType c)) ∧
    evalBool (CondStatus c) (celVars source VNil children) = Ok b ∧
    m !! "status" = Some (VString (if b : bool then "True" else "False")).
Proof.
  unfold build_condition. intros E.
  apply result_bind_ok in E as (b & Hb%wrap_err_ok & E).
  apply result_bind_ok in E as (m1 & H1 & E).
  apply result_bind_ok in E as (m2 & H2 & E). simplify_eq.
  exists m2, b. split; [done|]. split; [|split; [done|]].
  all: destruct (CondReason c != ""); [apply result_bind_ok in H1 as (? & _ & H1)|];
       (destruct (CondMessage c != ""); [apply result_bind_ok in H2 as (? & _ & H2)|]);
       simplify_eq; by simplify_map_eq.
Qed.

Lemma conds_loop source children cs acc l :
  fold_result (λ conds c,
    let! cond := build_condition source children c in Ok (conds ++ [cond])) acc cs = Ok l →
  ∃ own, l = acc ++ own ∧ Forall2 (λ c v, build_condition source children c = Ok v) cs own.
Proof.
  revert acc. induction cs as [|c cs IH]; intros acc E; simpl in E.
  - simplify_eq. exists []. split; [by rewrite app_nil_r|constructor].
  - apply result_bind_ok in E as (mid & Hm & E).
    apply result_bind_ok in Hm as (v & Hv & Hm). simplify_eq.
    apply IH in E as (own & -> & Hf). exists (v :: own).
    rewrite <- app_assoc. split; [done|by constructor].
Qed.

Lemma length_nonzero_iff {A} (l : list A) : 0 < length l ↔ l ≠ [].
Proof. destruct l; simpl; split; [lia|done|done|lia]. Qed.

(** What a successful, non-empty roll-up is made of. *)
Lemma ApplyStatus_inv spec source children st :
  ApplyStatus spec source children = Ok (Some st) →
  ∃ stm own, Validate spec = Ok tt ∧ Status spec = Some stm ∧
    evalBool (StatusWhen stm) (celVars source VNil children) = Ok true ∧
    Forall2 (λ c v, build_condition source children c = Ok v) (Conditions stm) own ∧
    let conds := preservedStatusConditions source (Conditions stm) ++ own in
    conds ≠ [] → st !! "conditions" = Some (VList conds).
Proof.
  unfold ApplyStatus. rewrite seq_ok. intros [HV E].
  destruct (Status spec) as [stm|]; [|done].
  apply result_bind_ok in E as ([] & Hw%wrap_err_ok & E); cbn [negb] in E; [|done].
  apply result_bind_ok in E as (obj & _ & E).
  apply result_bind_ok in E as (conds & Hc & E).
  apply conds_loop in Hc as (own & -> & Hf).
  exists stm, own. split_and!; [done..|]. cbv zeta. intros Hne.
  assert (Hl : (0 <? length (preservedStatusConditions source (Conditions stm) ++ own)) = true)
    by (apply Nat.ltb_lt, length_nonzero_iff; done).
  rewrite Hl in E. destruct (bool_decide _); [discriminate E|].
  apply Ok_Some_inj in E as <-.
  by rewrite lookup_insert_eq.
Qed.

(** A condition whose type is the reserved one, up to case and padding. *)
Definition is_reserved (v : value) : Prop :=
  ∃ m, v = VMap m ∧ EqualFold (TrimSpace (str_at m "type")) ReservedConditionType = true.

Lemma reserved_key t :
  EqualFold (TrimSpace t) ReservedConditionType = true ↔ cond_key t = "ready".
Proof.
  unfold EqualFold, cond_key. rewrite bool_decide_eq_true.
  change (fold_case ReservedConditionType) with "ready".
  by rewrite ToLower_fold by done.
Qed.

(** The conditions in the status of an object. *)
Definition source_conditions (source : gmap string value) : list value :=
  match Get source "status.conditions" with Some (VList l) => l | _ => [] end.

(** A condition with a type that is none of the declared ones, up to case and
    padding. *)
Definition of_another_writer (declared : list string) (v : value) : Prop :=
  match v with
  | VMap m =>
      match m !! "type" with
      | Some (VString t) => ToLower (TrimSpace t) ≠ "" ∧ Forall (λ d, ToLower (TrimSpace d) ≠ ToLower (TrimSpace t)) declared
      | _ => False
      end
  | _ => False
  end.

#[export] Instance of_another_writer_dec declared v : Decision (of_another_writer declared v).
Proof. destruct v; try apply _. cbn. destruct (_ !! _) as [[]|]; apply _. Defined.

Lemma foreign_of_another owned v :
  foreign_condition ((λ c, cond_key (CondType c)) <$> owned) v = true ↔ of_another_writer (CondType <$> owned) v.
Proof.
  unfold foreign_condition, of_another_writer, cond_key. destruct v as [| | | | | |m]; cbn [asMap]; try done.
  unfold str_at. rewrite negb_true_iff, orb_false_iff, !bool_decide_eq_false, list_elem_of_fmap.
  destruct (m !! "type") as [[]|]; cbn; rewrite ?Forall_fmap, ?Forall_forall; naive_solver.
Qed.

Lemma preserved_of_another source owned :
  preservedStatusConditions source owned = filter (of_another_writer (CondType <$> owned)) (source_conditions source).
Proof.
  unfold preservedStatusConditions, source_conditions. destruct (Get source "status.conditions") as [[]|]; try done.
  apply list_filter_iff. intros v. apply foreign_of_another.
Qed.

Lemma own_not_reserved spec stm source children own v :
  wf_spec spec → Status spec = Some stm →
  Forall2 (λ c v, build_condition source children c = Ok v) (Conditions stm) own →
  v ∈ own → ¬ is_reserved v.
Proof.
  intros Hwf Hst Hf (i & Hi)%list_elem_of_lookup (m & -> & Hr).
  destruct (Forall2_lookup_r _ _ _ _ _ Hf Hi) as (c & Hc & Hb).
  apply build_condition_shape in Hb as (m' & b & ? & Ht & _). simplify_eq.
  unfold str_at in Hr. rewrite Ht in Hr.
  destruct (wf_stat _ Hwf _ Hst) as [_ Hall _]. rewrite Forall_lookup in Hall.
  destruct (Hall _ _ Hc) as [_ _ Hn]. unfold EqualFold in Hr.
  by apply bool_decide_eq_true in Hr.
Qed.

Lemma reserved_foreign spec stm v :
  wf_spec spec → Status spec = Some stm → is_reserved v →
  foreign_condition ((λ c, cond_key (CondType c)) <$> Conditions stm) v = true.
Proof.
  intros Hwf Hst (m & -> & Hr). unfold foreign_condition. simpl.
  pose proof (proj1 (reserved_key _) Hr) as Hk. rewrite Hk.
  apply negb_true_iff, orb_false_iff. split; [done|].
  apply bool_decide_eq_false. intros (c & Hc & Hin)%list_elem_of_fmap.
  destruct (wf_stat _ Hwf _ Hst) as [_ Hall _]. rewrite Forall_forall in Hall.
  destruct (Hall _ Hin) as [_ _ Hn]. symmetry in Hc. apply reserved_key in Hc.
  unfold EqualFold in Hc. by apply bool_decide_eq_true in Hc.
Qed.

(** ** Properties *)

(** Every object [Apply] emits has the kind of its rule's target, a
    non-empty name, and the three translation labels (mapping, source kind,
    source name) that status mirroring and pruning select children by;
    labels a field put there do not displace them. *)
Theorem Apply_identity spec source objs :
  meta_safe spec → Apply spec source = Ok objs →
  ∀ o, o ∈ objs →
    (∃ e, e ∈ SpecEmit spec ∧ GetKind o = RefKind (Target e)) ∧
    GetName o ≠ "" ∧
    ∃ l, GetLabels o = Some l ∧ has_source_labels spec source l.
Proof.
  intros Hsafe Happ o Ho.
  pose proof (proj1 (Apply_ok _ _ _) Happ) as [HV _]. apply Validate_spec in HV.
  destruct (Apply_built _ _ _ _ Happ Ho) as (e & items & item & He & _ & _ & _ & Hb).
  destruct (proj1 (Forall_forall _ _) (wf_emits _ HV) e He) as [[Hk _] _ _ _].
  apply buildObject_identity in Hb as (? & (n & _ & <- & ?) & ?);
    [|by intros f; apply Hsafe|done].
  split_and!; [by exists e|done|done].
Qed.

(** What a rule iterates over: its [forEach] list, nothing when that is absent,
    or the single pass of a rule without [forEach]. *)
Definition rule_items (e : Emit) (source : gmap string value) (items : list value) : Prop :=
  match EmitForEach e with
  | None => items = [VNil]
  | Some fe => Get source (In_ fe) = Some (VList items) ∨ Get source (In_ fe) = None ∧ items = []
  end.

Lemma emit_items_rule e source items : emit_items e source = Ok items → rule_items e source items.
Proof.
  unfold emit_items, rule_items. destruct (EmitForEach e) as [fe|]; [|by intros [= <-]].
  destruct (Get source (In_ fe)) as [[]|]; intros [= <-]; [by left|by right].
Qed.

(** [o] is what rule [e] says of [item]: the target's kind, the name and the
    namespace that resolve for the item, the translation labels, the value of
    every field that resolves for the item, and no other top-level content. *)
Record emitted_for (spec : Spec) (source : gmap string value) (e : Emit) (item : value) (o : gmap string value) : Prop := {
  emitted_kind : GetKind o = RefKind (Target e);
  emitted_name : resolveName e source item = Ok (GetName o) ∧ GetName o ≠ "";
  emitted_namespace : ∃ ns, resolveNamespace spec e source item = Ok ns ∧ (ns ≠ "" → GetNamespace o = ns);
  emitted_labels : ∃ l, GetLabels o = Some l ∧ has_source_labels spec source l;
  emitted_fields : ∀ f v, f ∈ Fields e → outside_identity f → fieldValue f source item [] = Ok (v, true) →
    independent (Fields e) → Get o (To f) = Some v;
  emitted_nothing_else : ∀ k w, k ∉ ["apiVersion"; "kind"; "metadata"] → o !! k = Some w →
    ∃ f v, f ∈ Fields e ∧ head (field_parts f) = Some k ∧ fieldValue f source item [] = Ok (v, true) }.

Lemma buildObject_emitted spec e source item o :
  (∀ f, f ∈ Fields e → field_parts f ≠ ["metadata"]) → RefKind (Target e) ≠ "" →
  buildObject spec e source item = Ok o → emitted_for spec source e item o.
Proof.
  intros Hsafe Hk Hb. pose proof (buildObject_identity _ _ _ _ _ Hsafe Hk Hb) as (? & (n & ? & <- & ?) & ?).
  split; [done|done|by eapply buildObject_namespace|done| |intros k w Hkey Hw; by eapply buildObject_only].
  intros f v Hf Ho Hv Hind. by eapply buildObject_field.
Qed.

Lemma emits_emitted spec e source items os :
  (∀ f, f ∈ Fields e → field_parts f ≠ ["metadata"]) → RefKind (Target e) ≠ "" →
  emits spec e source items os →
  Forall2 (emitted_for spec source e) (filter (λ it, evalBool (When e) (celVars source it []) = Ok true) items) os.
Proof.
  intros Hsafe Hk. induction 1 as [|item items os Hb Hem IH|item items o os Hb Ho Hem IH]; [constructor| |].
  - by rewrite filter_cons_False by (rewrite Hb; done).
  - rewrite filter_cons_True by done. constructor; [by apply buildObject_emitted|done].
Qed.

(** [C31] [Apply] emits exactly one object per rule and kept item, in document
    order, and each is the object its rule describes for its own item: the plan
    is, rule after rule, the items of the rule whose [when] guard is true, in
    their order; the emitted objects match it one to one, each with the kind of
    its rule, the name and namespace resolved from its item, the translation
    labels, the value of every field that resolves for that item, and no
    top-level content that no such field wrote. *)
Theorem Apply_one_per_kept_item spec source objs :
  meta_safe spec → Apply spec source = Ok objs →
  ∃ plan, Forall2 (λ e part, ∃ items, rule_items e source items ∧
              part = (e,.) <$> filter (λ it, evalBool (When e) (celVars source it []) = Ok true) items)
            (SpecEmit spec) plan ∧
    Forall2 (λ ei o, emitted_for spec source ei.1 ei.2 o) (mjoin plan) objs.
Proof.
  intros Hsafe Happ.
  pose proof (proj1 (Apply_ok _ _ _) Happ) as (HV & oss & -> & Hf). apply Validate_spec in HV.
  pose proof (wf_emits _ HV) as Hwf. clear HV Happ. unfold meta_safe in Hsafe.
  induction Hf as [|e os es oss (items & Hit & Hem) Hf IH]; [exists []; by repeat constructor|].
  inv Hwf as [|? ? We Wes]. destruct We as [[Hk _] _ _ _].
  destruct IH as (plan & IH1 & IH2); [intros; eapply Hsafe; [by right|done]|done|].
  eexists (_ :: plan). split.
  - constructor; [|exact IH1]. exists items. split; [by apply emit_items_rule|reflexivity].
  - cbn. apply Forall2_app; [|done]. apply Forall2_fmap_l. change (_ ∘ _) with (emitted_for spec source e).
    apply emits_emitted; [intros; eapply Hsafe; [by left|done]|done|done].
Qed.

(** An emitted object never lacks a required field: when no two fields
    of a rule write into one another, each [required] field of the rule that
    is addressed outside apiVersion, kind and metadata is present in the
    object with a value that is neither null nor the empty string. *)
Theorem Apply_required_fields spec source objs o :
  (∀ e, e ∈ SpecEmit spec → independent (Fields e)) →
  Apply spec source = Ok objs → o ∈ objs →
  ∃ e, e ∈ SpecEmit spec ∧
    ∀ f, f ∈ Fields e → Required f = true → outside_identity f →
      ∃ v, Get o (To f) = Some v ∧ isEmpty v = false.
Proof.
  intros Hind Happ Ho.
  destruct (Apply_built _ _ _ _ Happ Ho) as (e & items & item & He & _ & _ & _ & Hb).
  exists e. split; [done|]. intros f Hfin Hreq Hhead.
  assert (Hfv : ∃ v, fieldValue f source item [] = Ok (v, true) ∧ isEmpty v = false).
  { destruct (buildObject_frame _ _ _ _ _ Hb) as (dest & Hd & _). apply list_elem_of_lookup in Hfin as [i Hi].
    unfold set_fields in Hd. rewrite <- (take_drop_middle _ _ _ Hi), fold_result_app in Hd.
    apply result_bind_ok in Hd as (pre & _ & Hd). cbn [fold_result] in Hd.
    apply result_bind_ok in Hd as (mid & Hf & _).
    apply result_bind_ok in Hf as (vs & Hv%wrap_err_ok & _).
    pose proof Hv as Hv'. unfold fieldValue in Hv. rewrite Hreq in Hv.
    apply result_bind_ok in Hv as (v0 & _ & Hv). simpl in Hv.
    destruct (isEmpty _) eqn:Ev in Hv; simplify_eq. eauto. }
  destruct Hfv as (v & Hv & Hne). exists v. split; [|done]. by eapply buildObject_field; [apply Hind|..].
Qed.

(** [C5] The single-writer rule of the status roll-up: the conditions
    [ApplyStatus] returns are every condition of the source's status whose type,
    up to case and padding, is not empty and not one that the mapping declares,
    unchanged and in order, followed by one condition per declared type, True or
    False as its expression says; a [Ready] condition (in any case) in the result
    is always one of the source's, and every [Ready] of the source is still
    there. *)
Theorem ApplyStatus_single_writer spec source children st :
  ApplyStatus spec source children = Ok (Some st) →
  ∃ stm own, Status spec = Some stm ∧
    Forall2 (λ c v, ∃ m b, v = VMap m ∧ m !! "type" = Some (VString (CondType c)) ∧
        evalBool (CondStatus c) (celVars source VNil children) = Ok b ∧
        m !! "status" = Some (VString (if b : bool then "True" else "False")))
      (Conditions stm) own ∧
    let conds := filter (of_another_writer (CondType <$> Conditions stm)) (source_conditions source) ++ own in
    (conds ≠ [] → st !! "conditions" = Some (VList conds)) ∧
    ∀ v, is_reserved v → (v ∈ conds ↔ v ∈ source_conditions source).
Proof.
  intros (stm & own & HV & Hst & _ & Hf & Hc)%ApplyStatus_inv.
  apply Validate_spec in HV. exists stm, own. rewrite preserved_of_another in Hc. split_and!; [done| |].
  { eapply Forall2_impl; [exact Hf|]. apply build_condition_shape. }
  cbv zeta. split; [done|]. intros v Hres. rewrite elem_of_app, list_elem_of_filter. split.
  - intros [[_ ?]|Hown]; [done|]. by destruct (own_not_reserved _ _ _ _ _ _ HV Hst Hf Hown).
  - intros Hin. left. split; [|done]. apply foreign_of_another. by eapply reserved_foreign.
Qed.
End EngineFacts.
