(* ===== verification/JsonMeta.v ===== *)
(** * A concrete reading of the two library interfaces

    [MappingEngine] is proved against any cel-go and any apimachinery that
    keep their contracts.  This file gives one concrete instance of each, so
    that the contracts are known to be satisfiable and the engine runs on
    concrete documents: the metadata accessors on the JSON tree, with the
    engine's laws proved, and an evaluator for constant expressions. *)

From Stdlib Require Import Ascii.
From stdpp Require Import base gmap strings list fin_maps.
From S2P Require Import Prelude GoStrings Unstructured MappingSpec MappingEngine.

(** ** Metadata accessors on the tree *)

Definition meta_of (o : gmap string value) : gmap string value :=
  match o !! "metadata" with Some (VMap m) => m | _ => ∅ end.

(** A nested set under [metadata] is ignored when [metadata] is not an object. *)
Definition set_meta (k : string) (v : value) (o : gmap string value) : gmap string value :=
  match o !! "metadata" with
  | Some (VMap m) => <["metadata" := VMap (<[k := v]> m)]> o
  | None => <["metadata" := VMap {[k := v]}]> o
  | Some _ => o
  end.

Definition del_meta (k : string) (o : gmap string value) : gmap string value :=
  match o !! "metadata" with
  | Some (VMap m) => <["metadata" := VMap (delete k m)]> o
  | _ => o
  end.

Definition set_meta_string (k s : string) (o : gmap string value) : gmap string value :=
  if decide (s = "") then del_meta k o else set_meta k (VString s) o.

Definition is_string (v : value) : bool := match v with VString _ => true | _ => false end.

(** A map whose values are all strings, or nil. *)
Definition string_map (v : value) : option (gmap string string) :=
  match v with
  | VMap m => if decide (map_Forall (λ _ x, is_string x = true) m)
              then Some (omap asString m) else None
  | _ => None
  end.

Definition api_version (g : ObjectRef) : string :=
  if decide (Group g = "") then Version g else Group g +:+ "/" +:+ Version g.

#[global] Instance json_meta : MetaAPI := {|
  SetGroupVersionKind g o :=
    <["kind" := VString (RefKind g)]> (<["apiVersion" := VString (api_version g)]> o);
  SetName := set_meta_string "name";
  SetNamespace := set_meta_string "namespace";
  SetLabels l o :=
    if decide (l = ∅) then del_meta "labels" o else set_meta "labels" (VMap (VString <$> l)) o;
  GetKind o := str_at o "kind";
  GetName o := str_at (meta_of o) "name";
  GetNamespace o := str_at (meta_of o) "namespace";
  GetLabels o := match meta_of o !! "labels" with
                 | Some v => string_map v
                 | None => None
                 end |}.

Lemma string_map_fmap l : string_map (VMap (VString <$> l)) = Some l.
Proof.
  unfold string_map. rewrite decide_True.
  - f_equal. apply map_eq. intros k. rewrite lookup_omap, lookup_fmap.
    by destruct (l !! k).
  - intros k x Hx. rewrite lookup_fmap in Hx. destruct (l !! k); by simplify_eq/=.
Qed.

Lemma meta_of_set k v o :
  well_meta o → meta_of (set_meta k v o) = <[k := v]> (meta_of o).
Proof.
  intros Hw. unfold meta_of, set_meta.
  destruct (o !! "metadata") as [x|] eqn:E; [|by rewrite lookup_insert_eq].
  destruct (Hw _ E) as [m Hm]. destruct x; simplify_eq/=. by rewrite lookup_insert_eq.
Qed.

Lemma meta_of_del k o : meta_of (del_meta k o) = delete k (meta_of o).
Proof.
  unfold meta_of, del_meta.
  destruct (o !! "metadata") as [[]|] eqn:E; rewrite ?E, ?lookup_insert_eq, ?delete_empty; done.
Qed.

Lemma set_meta_well k v o : well_meta o → well_meta (set_meta k v o).
Proof.
  intros Hw w. unfold set_meta. destruct (o !! "metadata") as [x|] eqn:E.
  - destruct x; rewrite ?lookup_insert_eq; intros; simplify_eq; eauto; by apply Hw.
  - rewrite lookup_insert_eq. intros; simplify_eq; by eexists.
Qed.

Lemma del_meta_well k o : well_meta o → well_meta (del_meta k o).
Proof.
  intros Hw w. unfold del_meta. destruct (o !! "metadata") as [x|] eqn:E.
  - destruct x; rewrite ?lookup_insert_eq; intros; simplify_eq; eauto; by apply Hw.
  - intros. by apply Hw.
Qed.

Lemma set_meta_frame k v o j : j ≠ "metadata" → set_meta k v o !! j = o !! j.
Proof.
  intros Hj. unfold set_meta. destruct (o !! "metadata") as [[]|]; rewrite ?lookup_insert_ne; done.
Qed.

Lemma del_meta_frame k o j : j ≠ "metadata" → del_meta k o !! j = o !! j.
Proof.
  intros Hj. unfold del_meta. destruct (o !! "metadata") as [[]|]; rewrite ?lookup_insert_ne; done.
Qed.

(** What [metadata] holds after a string set, key by key. *)
Lemma set_meta_string_other k s o j :
  well_meta o → j ≠ k → meta_of (set_meta_string k s o) !! j = meta_of o !! j.
Proof.
  intros Hw Hj. unfold set_meta_string. case_decide.
  - by rewrite meta_of_del, lookup_delete_ne.
  - by rewrite meta_of_set, lookup_insert_ne.
Qed.

Lemma set_meta_string_get k s o :
  well_meta o → s ≠ "" → str_at (meta_of (set_meta_string k s o)) k = s.
Proof.
  intros Hw Hs. unfold set_meta_string, str_at. rewrite decide_False by done.
  by rewrite meta_of_set, lookup_insert_eq.
Qed.

Lemma set_meta_string_well k s o : well_meta o → well_meta (set_meta_string k s o).
Proof.
  intros. unfold set_meta_string. case_decide; [by apply del_meta_well|by apply set_meta_well].
Qed.

Lemma set_meta_string_frame k s o j :
  j ≠ "metadata" → set_meta_string k s o !! j = o !! j.
Proof.
  intros. unfold set_meta_string. case_decide; [by apply del_meta_frame|by apply set_meta_frame].
Qed.

#[global] Instance json_meta_laws : MetaLaws.
Proof.
  split; simpl.
  - intros g o Hk. unfold str_at. by rewrite lookup_insert_eq.
  - intros g o k H1 H2. by rewrite !lookup_insert_ne.
  - intros g o. unfold meta_of. by rewrite !lookup_insert_ne.
  - intros. by apply set_meta_string_get.
  - intros. by apply set_meta_string_frame.
  - intros. by apply set_meta_string_well.
  - intros. by rewrite set_meta_string_other.
  - intros. by apply set_meta_string_get.
  - intros. by apply set_meta_string_frame.
  - intros. by apply set_meta_string_well.
  - intros. unfold str_at. by rewrite set_meta_string_other.
  - intros. by rewrite set_meta_string_other.
  - intros l o Hw Hl. rewrite decide_False by done.
    by rewrite meta_of_set, lookup_insert_eq, string_map_fmap.
  - intros l o k Hk. case_decide; [by apply del_meta_frame|by apply set_meta_frame].
  - intros l o Hw. case_decide; unfold str_at;
      [by rewrite meta_of_del, lookup_delete_ne|by rewrite meta_of_set, lookup_insert_ne].
  - intros l o Hw. case_decide; unfold str_at;
      [by rewrite meta_of_del, lookup_delete_ne|by rewrite meta_of_set, lookup_insert_ne].
  - intros o o' H. unfold str_at. by rewrite H.
Qed.

(** ** Constant expressions

    [true] and [false] are the booleans, any other text stands for itself. *)
#[global] Instance const_cel : CELEngine := {|
  cel_ast := string; cel_prg := string; cel_val := value;
  cel_env := Ok tt;
  cel_compile s := Ok s;
  cel_plan s := Ok s;
  cel_run s _ := Ok (if decide (s = "true") then VBool true
                     else if decide (s = "false") then VBool false else VString s);
  cel_native v := v |}.
