(* ===== verification/MappingWitness.v ===== *)
(** * The mapping interpreter on a concrete document

    A small FieldMapping in the style of config/mappings (one object per item
    of a list, a guard, a required field, a vendor condition) run through the
    interpreter with the concrete libraries of [JsonMeta]; the engine's
    theorems are applied to it. *)

From Stdlib Require Import Ascii.
From stdpp Require Import base gmap strings list fin_maps.
From S2P Require Import Prelude GoStrings Unstructured MappingSpec MappingEngine JsonMeta.

Definition unset_value : ValueExpr :=
  {| VFrom := ""; VCEL := ""; VLit := ""; VDefault := VNil; VRequired := false |}.

Definition demo_emit : Emit := {|
  Target := {| Group := "svc.dpu.nvidia.com"; Version := "v1alpha1"; RefKind := "DPUService" |};
  Name := {| VFrom := "item.name"; VCEL := ""; VLit := ""; VDefault := VNil; VRequired := true |};
  Namespace := {| VFrom := ""; VCEL := ""; VLit := "dpf-operator-system"; VDefault := VNil; VRequired := false |};
  When := "true";
  EmitForEach := Some {| In_ := "spec.networkFunctions" |};
  Fields :=
    [ {| To := "spec.image"; From := "item.image"; CEL := ""; FieldValue := VNil;
         Default := VNil; Required := true |};
      {| To := "metadata.labels"; From := ""; CEL := "";
         FieldValue := VMap {[ "team" := VString "net" ]}; Default := VNil; Required := false |} ] |}.

Definition demo_status : StatusMapping := {|
  StatusWhen := "true"; StatusSchema := "conditions"; StatusFields := [];
  Conditions := [ {| CondType := "DPFReady"; CondStatus := "true"; CondReason := "AllReady";
                     CondMessage := "" |} ] |}.

Definition demo_spec : Spec := {|
  SpecAPIVersion := APIVersion; SpecKind := Kind;
  SpecMetadata := {| MetaName := "sfc"; Description := "" |};
  Source := {| Group := "config.openshift.io"; Version := "v1"; RefKind := "ServiceFunctionChain" |};
  SpecDefaults := None; SpecEmit := [demo_emit]; Status := Some demo_status; PruneWhen := "" |}.

Definition nf (name image : string) : value :=
  VMap {[ "name" := VString name; "image" := VString image ]}.

Definition daemon_ready : value :=
  VMap {[ "type" := VString "Ready"; "status" := VString "True" ]}.

Definition demo_source : gmap string value :=
  {[ "metadata" := VMap {[ "name" := VString "chain" ]};
     "spec" := VMap {[ "networkFunctions" := VList [nf "a" "img:a"; nf "b" "img:b"] ]};
     "status" := VMap {[ "conditions" := VList
       [daemon_ready; VMap {[ "type" := VString " dpfready" ]}] ]} ]}.

Definition demo_objects : list (gmap string value) :=
  match Apply demo_spec demo_source with Ok os => os | Err _ => [] end.

Definition demo_result : gmap string value :=
  match ApplyStatus demo_spec demo_source [] with Ok (Some st) => st | _ => ∅ end.

Lemma demo_apply : Apply demo_spec demo_source = Ok demo_objects.
Proof. vm_compute. reflexivity. Qed.

Lemma demo_two_objects : GetName <$> demo_objects = ["a"; "b"].
Proof. vm_compute. reflexivity. Qed.

Lemma demo_meta_safe : meta_safe demo_spec.
Proof.
  intros e f He Hf.
  apply list_elem_of_singleton in He. subst e.
  repeat (apply elem_of_cons in Hf as [->|Hf]; [vm_compute; discriminate|]).
  by apply elem_of_nil in Hf.
Qed.

Lemma demo_independent e : e ∈ SpecEmit demo_spec → independent (Fields e).
Proof.
  intros ->%list_elem_of_singleton i j f g Hi Hj Hij.
  destruct i as [|[|i]]; destruct j as [|[|j]]; try done; simplify_eq/=;
    intros [k Hk]; vm_compute in Hk; done.
Qed.

(** [Apply_identity] on the two objects of the document. *)
Lemma Apply_identity_witness :
  Apply demo_spec demo_source = Ok demo_objects ∧
  ∀ o, o ∈ demo_objects →
      (∃ e, e ∈ SpecEmit demo_spec ∧ GetKind o = RefKind (Target e)) ∧
      GetName o ≠ "" ∧
      ∃ l, GetLabels o = Some l ∧ has_source_labels demo_spec demo_source l.
Proof.
  split; [exact demo_apply|].
  exact (Apply_identity demo_spec demo_source demo_objects demo_meta_safe demo_apply).
Defined.

Lemma Apply_one_per_kept_item_witness :
  ∃ plan, Forall2 (λ e part, ∃ items, rule_items e demo_source items ∧
              part = (e,.) <$> filter (λ it, evalBool (When e) (celVars demo_source it []) = Ok true) items)
            (SpecEmit demo_spec) plan ∧
    Forall2 (λ ei o, emitted_for demo_spec demo_source ei.1 ei.2 o) (mjoin plan) demo_objects.
Proof.
  exact (Apply_one_per_kept_item demo_spec demo_source demo_objects demo_meta_safe demo_apply).
Defined.

Definition demo_first : gmap string value := default ∅ (head demo_objects).

Lemma demo_first_in : demo_first ∈ demo_objects.
Proof. vm_compute. left. Qed.

Lemma Apply_required_fields_witness :
  ∃ e, e ∈ SpecEmit demo_spec ∧
    ∀ f, f ∈ Fields e → Required f = true → outside_identity f →
      ∃ v, Get demo_first (To f) = Some v ∧ isEmpty v = false.
Proof.
  exact (Apply_required_fields demo_spec demo_source demo_objects demo_first
           demo_independent demo_apply demo_first_in).
Defined.

Lemma demo_status_result : ApplyStatus demo_spec demo_source [] = Ok (Some demo_result).
Proof. vm_compute. reflexivity. Qed.

(** The daemon's [Ready] survives and the stale vendor condition is replaced. *)
Lemma ApplyStatus_single_writer_witness :
  ∃ stm own, Status demo_spec = Some stm ∧
    Forall2 (λ c v, ∃ m b, v = VMap m ∧ m !! "type" = Some (VString (CondType c)) ∧
        evalBool (CondStatus c) (celVars demo_source VNil []) = Ok b ∧
        m !! "status" = Some (VString (if b : bool then "True" else "False")))
      (Conditions stm) own ∧
    let conds := filter (of_another_writer (CondType <$> Conditions stm)) (source_conditions demo_source) ++ own in
    (conds ≠ [] → demo_result !! "conditions" = Some (VList conds)) ∧
    ∀ v, is_reserved v → (v ∈ conds ↔ v ∈ source_conditions demo_source).
Proof.
  exact (ApplyStatus_single_writer demo_spec demo_source [] demo_result demo_status_result).
Defined.
