(* ===== verification/MappingLoad.v ===== *)
(** * Loading documents (pkg/mapping/load.go, condition_writers.go, schema_path.go)

    What LoadFile, LoadDir and LoadConditionWriterTable accept, and the schema
    path test.  Reading files and decoding YAML (sigs.k8s.io/yaml) are inputs:
    [Files] answers for the directory, the bytes and the decoders. *)

From Stdlib Require Import Ascii.
From stdpp Require Import base gmap strings list fin_maps.
From S2P Require Import Prelude GoStrings Unstructured MappingSpec.

Definition ConditionWriterTableKind : string := "ConditionWriterTable".
Definition DaemonWriter : string := "vsp-opi-daemon".
Definition LifecycleWriter : string := "lifecycle".
Definition mappingWriterPrefix : string := "mapping:".

Record ConditionWriter := {
  Object_ : ObjectRef;
  WType : string;
  Writer : string;
  WSchema : string }.

Record ConditionWriterTable := {
  TableAPIVersion : string;
  TableKind : string;
  Writers : list ConditionWriter }.

Definition MappingWriter (name : string) : string := mappingWriterPrefix +:+ name.

(** The directory entries (name, is a directory), the bytes of a file, the two
    typed YAML decoders, and [filepath.Join]. *)
Class Files := {
  ReadDir : string → result (list (string * bool));
  ReadFile : string → result string;
  UnmarshalSpec : string → result Spec;
  UnmarshalTable : string → result ConditionWriterTable;
  PathJoin : string → string → string }.

(** ** Mapping documents *)

Definition isMappingFile (name : string) : bool :=
  let lower := ToLower name in
  if (lower == "kustomization.yaml") || (lower == "kustomization.yml") || (lower == "kustomize.yaml")
  then false
  else HasSuffix lower ".yaml" || HasSuffix lower ".yml".

Section Load.
Context `{Files}.

Definition LoadFile (path : string) : result Spec :=
  let! b := ReadFile path in
  let! s := wrap_err "%s: %w" [path] (UnmarshalSpec b) in
  wrap_err "%s: %w" [path] (Validate s) ;;!
  Ok s.

Definition LoadDir (dir : string) : result (list Spec) :=
  let! entries := ReadDir dir in
  let! specs := fold_result (λ specs '(name, isdir),
      if isdir : bool then Ok specs
      else if negb (isMappingFile name) then Ok specs
      else let! s := LoadFile (PathJoin dir name) in Ok (specs ++ [s])) [] entries in
  if length specs == 0 then Err (EFmt "no FieldMapping documents in %s" [dir])
  else Ok specs.

(** ** The condition-writer table *)

Definition writer_key (w : ConditionWriter) : string :=
  Group (Object_ w) +:+ "/" +:+ Version (Object_ w) +:+ "/" +:+ RefKind (Object_ w) +:+ ":" +:+ WType w.

(** One row, with the rows seen so far. *)
Definition checkWriter (path : string) (seen : gmap string string) (i : nat) (w : ConditionWriter)
    : result (gmap string string) :=
  reject_if ((WType w == "") || (Writer w == "") || (RefKind (Object_ w) == ""))
    (EFmt "%s writers[%d]: object, type, and writer are required" [path; Itoa (Z.of_nat i)]) ;;!
  reject_if (negb ((WSchema w == StatusSchemaConditions) || (WSchema w == StatusSchemaPruned)))
    (EFmt "%s writers[%d]: schema %q is not %q or %q"
       [path; Itoa (Z.of_nat i); WSchema w; StatusSchemaConditions; StatusSchemaPruned]) ;;!
  reject_if (EqualFold (WType w) ReservedConditionType && (Writer w != DaemonWriter))
    (EFmt "%s writers[%d]: Ready is owned by %s, not %s"
       [path; Itoa (Z.of_nat i); DaemonWriter; Writer w]) ;;!
  match seen !! writer_key w with
  | Some prev => Err (EFmt "%s: writers %q and %q both claim %s on %s; they would overwrite each other"
                        [path; prev; Writer w; WType w; RefKind (Object_ w)])
  | None => Ok (<[writer_key w := Writer w]> seen)
  end.

Fixpoint checkWriters (path : string) (seen : gmap string string) (i : nat)
    (ws : list ConditionWriter) : result unit :=
  match ws with
  | [] => Ok tt
  | w :: ws' => let! seen' := checkWriter path seen i w in checkWriters path seen' (S i) ws'
  end.

Definition LoadConditionWriterTable (path : string) : result ConditionWriterTable :=
  let! b := ReadFile path in
  let! t := wrap_err "%s: %w" [path] (UnmarshalTable b) in
  reject_if (TableKind t != ConditionWriterTableKind)
    (EFmt "%s: kind %q, want %s" [path; TableKind t; ConditionWriterTableKind]) ;;!
  reject_if (length (Writers t) == 0) (EFmt "%s: writers is empty" [path]) ;;!
  checkWriters path ∅ 0 (Writers t) ;;!
  Ok t.

End Load.

(** ** Paths of an OpenAPI schema *)

Definition map_at (m : gmap string value) (k : string) : option (gmap string value) :=
  match m !! k with Some v => asMap v | None => None end.

Fixpoint schema_walk (node : gmap string value) (parts : list string) : bool :=
  match parts with
  | [] => true
  | part :: parts' =>
      if part == "" then schema_walk node parts'
      else
        let isSlice := HasSuffix part "[]" in
        let name := TrimSuffix part "[]" in
        match map_at node "properties" with
        | None => false
        | Some props =>
            match map_at props name with
            | None => false
            | Some child =>
                if isSlice then
                  match map_at child "items" with
                  | None => false
                  | Some items => schema_walk items parts'
                  end
                else schema_walk child parts'
            end
        end
  end.

Definition SchemaHasPath (root : gmap string value) (dotted : string) : bool :=
  if (dotted == "metadata.labels") || (dotted == "metadata.annotations")
  then schema_walk root (Split "." "metadata")
  else schema_walk root (Split "." dotted).

(** ** Lemmas *)

Record row_ok (w : ConditionWriter) : Prop := {
  ro_named : WType w ≠ "" ∧ Writer w ≠ "" ∧ RefKind (Object_ w) ≠ "";
  ro_schema : WSchema w = StatusSchemaConditions ∨ WSchema w = StatusSchemaPruned;
  ro_ready : EqualFold (WType w) ReservedConditionType = true → Writer w = DaemonWriter }.

Lemma checkWriter_ok path seen i w seen' :
  checkWriter path seen i w = Ok seen' ↔
  row_ok w ∧ writer_key w ∉ dom seen ∧ seen' = <[writer_key w := Writer w]> seen.
Proof.
  unfold checkWriter. rewrite !seq_ok, !reject_if_ok, !orb_false_iff, !bool_decide_eq_false.
  rewrite not_elem_of_dom, negb_false_iff, orb_true_iff, !bool_decide_eq_true,
    andb_false_iff, negb_false_iff, bool_decide_eq_true.
  split.
  - intros ([[? ?] ?] & ? & Hr & Hs). destruct (seen !! writer_key w) eqn:E; [done|].
    simplify_eq. split_and!; [split; [done..|]|done..].
    intros Hf. destruct Hr as [Hr|]; [|done]. congruence.
  - intros ([[? [? ?]] ? Hr] & -> & ->). split_and!; try done.
    destruct (EqualFold (WType w) ReservedConditionType); [right; by apply Hr|by left].
Qed.

Lemma checkWriters_ok path seen i ws :
  checkWriters path seen i ws = Ok tt ↔
  Forall row_ok ws ∧ NoDup (writer_key <$> ws) ∧ (∀ w, w ∈ ws → writer_key w ∉ dom seen).
Proof.
  revert seen i. induction ws as [|w ws IH]; intros seen i; cbn [checkWriters fmap list_fmap].
  { split; [|done]. intros _. split_and!; [constructor..|]. by intros w ?%elem_of_nil. }
  rewrite result_bind_ok, Forall_cons, NoDup_cons. split.
  - intros (seen' & (Hw & Hk & ->)%checkWriter_ok & (Hf & Hn & Hd)%IH).
    split_and!; try done.
    + intros (w' & Heq & Hin)%list_elem_of_fmap. apply Hd in Hin. set_solver.
    + intros w' [->|Hin]%elem_of_cons; [done|]. apply Hd in Hin. set_solver.
  - intros ([Hw Hf] & [Hni Hn] & Hd). eexists. split.
    + apply checkWriter_ok. split_and!; [done| |done]. apply Hd. by left.
    + apply IH. split_and!; [done..|]. intros w' Hin. rewrite dom_insert, not_elem_of_union.
      split; [|apply Hd; by right]. rewrite not_elem_of_singleton. intros Heq.
      apply Hni. rewrite <- Heq. by apply list_elem_of_fmap_2.
Qed.

Section LoadFacts.
Context `{Files}.

Lemma LoadFile_ok path s :
  LoadFile path = Ok s ↔
  wf_spec s ∧ ∃ b, ReadFile path = Ok b ∧ UnmarshalSpec b = Ok s.
Proof.
  unfold LoadFile. rewrite result_bind_ok. setoid_rewrite result_bind_ok.
  setoid_rewrite wrap_err_ok. setoid_rewrite seq_ok. setoid_rewrite wrap_err_ok.
  setoid_rewrite Validate_spec. naive_solver.
Qed.

Definition is_document (e : string * bool) : Prop := e.2 = false ∧ isMappingFile e.1 = true.
#[global] Instance is_document_dec e : Decision (is_document e).
Proof. unfold is_document. apply _. Defined.

Lemma LoadDir_loop dir entries acc specs :
  fold_result (λ specs '(name, isdir),
      if isdir : bool then Ok specs
      else if negb (isMappingFile name) then Ok specs
      else let! s := LoadFile (PathJoin dir name) in Ok (specs ++ [s])) acc entries = Ok specs ↔
  ∃ new, specs = acc ++ new ∧
    Forall2 (λ e s, LoadFile (PathJoin dir e.1) = Ok s) (filter is_document entries) new.
Proof.
  revert acc. induction entries as [|[n d] es IH]; intros acc; cbn [fold_result].
  { split; [intros [= ->]; exists []; by rewrite app_nil_r|].
    intros (new & -> & Hf). inv Hf. by rewrite app_nil_r. }
  destruct (decide (is_document (n, d))) as [[Hd Hm]|Hnd].
  - simpl in Hd, Hm. subst d. rewrite Hm, filter_cons_True by done. simpl.
    destruct (LoadFile (PathJoin dir n)) as [s|e] eqn:E; simpl.
    + rewrite IH. split.
      * intros (new & -> & Hf). exists (s :: new). rewrite <- app_assoc. by split; [|constructor].
      * intros (new & -> & Hf). inv Hf as [|? s' ? new' Hs Hf']. cbn in Hs.
        assert (s' = s) as -> by congruence. exists new'. by rewrite <- app_assoc.
    + split; [done|]. intros (new & -> & Hf). inv Hf as [|? s' ? new' Hs Hf']. cbn in Hs. congruence.
  - rewrite filter_cons_False by done.
    assert ((if d then Ok acc
             else if negb (isMappingFile n) then Ok acc
             else let! s := LoadFile (PathJoin dir n) in Ok (acc ++ [s])) = Ok acc) as ->.
    { unfold is_document in Hnd. simpl in Hnd. destruct d; [done|].
      destruct (isMappingFile n); [|done]. by destruct Hnd. }
    apply IH.
Qed.

(** A directory loads exactly when it has a mapping document and every
    one of them reads, decodes and validates: LoadDir returns the well-formed
    documents of the .yaml and .yml files that are not kustomizations, in
    directory order, and never a partial set. *)
Theorem LoadDir_all_or_nothing dir specs :
  LoadDir dir = Ok specs ↔
  specs ≠ [] ∧ ∃ entries, ReadDir dir = Ok entries ∧
    Forall2 (λ e s, wf_spec s ∧
        ∃ b, ReadFile (PathJoin dir e.1) = Ok b ∧ UnmarshalSpec b = Ok s)
      (filter is_document entries) specs.
Proof.
  unfold LoadDir. setoid_rewrite result_bind_ok. setoid_rewrite result_bind_ok.
  setoid_rewrite LoadDir_loop. split.
  - intros (entries & Hd & specs' & (new & -> & Hf) & Hl).
    rewrite app_nil_l in Hl. case_bool_decide as Hn; simplify_eq.
    split; [by intros ->|]. exists entries. split; [done|].
    eapply Forall2_impl; [exact Hf|]. intros ? ? ?. by apply LoadFile_ok.
  - intros (Hne & entries & Hd & Hf). exists entries. split; [done|].
    exists specs. split.
    { exists specs. split; [done|]. eapply Forall2_impl; [exact Hf|]. intros ? ? ?. by apply LoadFile_ok. }
    rewrite bool_decide_false; [done|]. by intros ?%nil_length_inv.
Qed.

(** One writer per condition: in a table that loads, no two rows claim the
    same condition type of the same object kind, every row names a type, a
    writer and a kept or pruned schema, and a [Ready] row (in any case) belongs
    to the per-node daemon. *)
Theorem ConditionWriterTable_single_writer path t :
  LoadConditionWriterTable path = Ok t →
  Writers t ≠ [] ∧ Forall row_ok (Writers t) ∧
  ∀ i j v w, Writers t !! i = Some v → Writers t !! j = Some w →
    Object_ v = Object_ w → WType v = WType w → i = j.
Proof.
  unfold LoadConditionWriterTable. intros (b & Hb & (t' & _ & Ht)%result_bind_ok)%result_bind_ok.
  rewrite !seq_ok, !reject_if_ok, bool_decide_eq_false, checkWriters_ok in Ht.
  destruct Ht as (_ & Hne & (Hf & Hn & _) & [= <-]).
  split_and!; [by intros E; rewrite E in Hne|done|].
  intros i j v w Hi Hj Ho Ht. eapply (NoDup_lookup _ _ _ (writer_key v) Hn).
  - by rewrite list_lookup_fmap, Hi.
  - rewrite list_lookup_fmap, Hj. simpl. f_equal. unfold writer_key. by rewrite Ho, Ht.
Qed.
End LoadFacts.

(** ** A concrete directory *)

Definition demo_row (kind type writer : string) : ConditionWriter :=
  {| Object_ := {| Group := "config.openshift.io"; Version := "v1"; RefKind := kind |};
     WType := type; Writer := writer; WSchema := StatusSchemaConditions |}.

Definition demo_table : ConditionWriterTable :=
  {| TableAPIVersion := "v1"; TableKind := ConditionWriterTableKind;
     Writers := [demo_row "DataProcessingUnit" "Ready" DaemonWriter;
                 demo_row "DataProcessingUnit" "DPFReady" (MappingWriter "dpu")] |}.

Definition demo_files : Files := {|
  ReadDir _ := Ok [("dpu.yaml", false); ("sub", true); ("kustomization.yaml", false)];
  ReadFile p := Ok p;
  UnmarshalSpec _ := Err (EFmt "no document" []);
  UnmarshalTable _ := Ok demo_table;
  PathJoin d n := d +:+ "/" +:+ n |}.

Lemma ConditionWriterTable_single_writer_witness :
  Writers demo_table ≠ [] ∧ Forall row_ok (Writers demo_table) ∧
  ∀ i j v w, Writers demo_table !! i = Some v → Writers demo_table !! j = Some w →
    Object_ v = Object_ w → WType v = WType w → i = j.
Proof.
  apply (@ConditionWriterTable_single_writer demo_files "writers.yaml").
  vm_compute. reflexivity.
Defined.
