(* ===== verification/Version.v ===== *)
(** * Vendor tokens, versions and the support window
      (pkg/lifecycle/version.go and policy.go)

    A Go [int] is a [Z]; [Atoi] fails outside 64 bits, so every component of a
    parsed version is a non-negative 64-bit integer. *)

From Stdlib Require Import Ascii.
From stdpp Require Import base gmap strings list fin_maps.
From S2P Require Import Prelude GoStrings.

Inductive Skew :=
| SkewSupported
| SkewTooOld
| SkewTooNew
| SkewUnknown
| SkewUnpinned
| SkewUnknownVendor
| SkewInvalidConfig
| SkewBlocked
| SkewNone (* the zero value "" *).

#[global] Instance Skew_eq_dec : EqDecision Skew.
Proof. solve_decision. Defined.

(** The string the constant stands for. *)
Definition skew_string (k : Skew) : string :=
  match k with
  | SkewSupported => "Supported"
  | SkewTooOld => "TooOld"
  | SkewTooNew => "TooNew"
  | SkewUnknown => "Unknown"
  | SkewUnpinned => "Unpinned"
  | SkewUnknownVendor => "UnknownVendor"
  | SkewInvalidConfig => "InvalidConfig"
  | SkewBlocked => "Blocked"
  | SkewNone => ""
  end.

Record SupportedRange := { MinInclusive : string; MaxExclusive : string }.

#[global] Instance SupportedRange_eq_dec : EqDecision SupportedRange.
Proof. solve_decision. Defined.

Definition VendorNVIDIA : string := "nvidia".
Definition VendorAMD : string := "amd".
Definition nvidiaDPFMin : string := "v26.4.0".
Definition nvidiaDPFMax : string := "v27.0.0".

Definition supportedVersions : gmap string SupportedRange :=
  {[ VendorNVIDIA := {| MinInclusive := nvidiaDPFMin; MaxExclusive := nvidiaDPFMax |} ]}.

Definition KnownVendors : list string := [VendorNVIDIA; VendorAMD].
Definition maxVendorToken : nat := 16.

(** ** Vendor tokens *)

Definition is_lower (c : ascii) : bool :=
  let n := Ascii.N_of_ascii c in ((97 <=? n) && (n <=? 122))%N.

(** The loop over the token: [first] is [i == 0].  A byte outside ASCII is part
    of a rune the switch rejects. *)
Fixpoint token_chars (first : bool) (v : string) : bool :=
  match v with
  | EmptyString => true
  | String c v' =>
      (is_lower c || (negb first && (is_digit c || (c == "-"%char)))) && token_chars false v'
  end.

(** [None] is [ok = false]. *)
Definition SanitizeVendorToken (raw : string) : option string :=
  let v := ToLower (TrimSpace raw) in
  if v == "" then Some ""
  else if maxVendorToken <? String.length v then None
  else if token_chars true v then Some v
  else None.

Definition KnownVendor (vendor : string) : bool :=
  let v := ToLower (TrimSpace vendor) in
  (v == VendorNVIDIA) || (v == VendorAMD).

Definition SupportedRangeFor (vendor : string) : option SupportedRange :=
  supportedVersions !! ToLower (TrimSpace vendor).

(** ** Versions *)

Record version := { major : Z; minor : Z; patch : Z }.

#[global] Instance version_eq_dec : EqDecision version.
Proof. solve_decision. Defined.

Definition zero_version : version := {| major := 0; minor := 0; patch := 0 |}.

Fixpoint compare_parts (ps : list (Z * Z)) : Z :=
  match ps with
  | [] => 0
  | (a, b) :: ps' => if a != b then if (a <? b)%Z then -1 else 1 else compare_parts ps'
  end.

Definition compare (v o : version) : Z :=
  compare_parts [(major v, major o); (minor v, minor o); (patch v, patch o)].

(** [*dst[i] = n] *)
Definition set_part (i : nat) (n : Z) (v : version) : version :=
  match i with
  | 0 => {| major := n; minor := minor v; patch := patch v |}
  | 1 => {| major := major v; minor := n; patch := patch v |}
  | _ => {| major := major v; minor := minor v; patch := n |}
  end.

Fixpoint parse_parts (s : string) (i : nat) (parts : list string) (out : version) : result version :=
  match parts with
  | [] => Ok out
  | p :: parts' =>
      if p == "" then Err (EFmt "version %q has an empty component" [s])
      else match Atoi p with
           | None => Err (EFmt "version %q: component %q is not a number" [s; p])
           | Some n =>
               if (n <? 0)%Z then Err (EFmt "version %q: negative component" [s])
               else parse_parts s (S i) parts' (set_part i n out)
           end
  end.

Definition parseVersion (s : string) : result version :=
  let s := TrimSpace s in
  if s == "" then Err (EFmt "empty version" [])
  else
    let s := TrimPrefix (TrimPrefix s "v") "V" in
    let s := before_any s "-+" in
    let parts := Split "." s in
    if 3 <? length parts then Err (EFmt "version %q has more than three components" [s])
    else parse_parts s 0 parts zero_version.

Definition ClassifySkew (vendor installed : string) : Skew :=
  match SupportedRangeFor vendor with
  | None => SkewUnpinned
  | Some r =>
      match parseVersion installed with
      | Err _ => SkewUnknown
      | Ok v =>
          match parseVersion (MinInclusive r) with
          | Err _ => SkewUnknown
          | Ok min =>
              match parseVersion (MaxExclusive r) with
              | Err _ => SkewUnknown
              | Ok max =>
                  if (compare v min <? 0)%Z then SkewTooOld
                  else if (0 <=? compare v max)%Z then SkewTooNew
                  else SkewSupported
              end
          end
      end
  end.

(** ** policy.go *)

Record PolicyResult := {
  PSkew : Skew;
  PVersion : string;
  PRange : SupportedRange;
  PMessage : string }.

#[global] Instance PolicyResult_eq_dec : EqDecision PolicyResult.
Proof. solve_decision. Defined.

Definition zero_range : SupportedRange := {| MinInclusive := ""; MaxExclusive := "" |}.

Definition EvaluatePolicy (vendor installed : string) : PolicyResult :=
  {| PSkew := ClassifySkew vendor installed;
     PVersion := installed;
     PRange := default zero_range (SupportedRangeFor vendor);
     PMessage := "" |}.

(** ** Lemmas: order *)

(** The lexicographic order on the three components. *)
Definition version_lt (v o : version) : Prop :=
  (major v < major o ∨
   major v = major o ∧ (minor v < minor o ∨ minor v = minor o ∧ patch v < patch o))%Z.

Lemma compare_cases v o :
  (compare v o = -1 ∧ version_lt v o)%Z ∨ (compare v o = 0 ∧ v = o)%Z ∨
  (compare v o = 1 ∧ version_lt o v)%Z.
Proof.
  destruct v as [a b c], o as [a' b' c']. unfold compare, version_lt. cbn [compare_parts major minor patch].
  destruct (decide (a = a')) as [->|Ha].
  - rewrite (bool_decide_true (a' = a')) by done. cbn [negb].
    destruct (decide (b = b')) as [->|Hb].
    + rewrite (bool_decide_true (b' = b')) by done. cbn [negb].
      destruct (decide (c = c')) as [->|Hc].
      * rewrite bool_decide_true by done. right; left. done.
      * rewrite bool_decide_false by done. cbn [negb]. destruct (Z.ltb_spec c c'); naive_solver lia.
    + rewrite bool_decide_false by done. cbn [negb]. destruct (Z.ltb_spec b b'); naive_solver lia.
  - rewrite bool_decide_false by done. cbn [negb]. destruct (Z.ltb_spec a a'); naive_solver lia.
Qed.

Lemma version_lt_irrefl v : ¬ version_lt v v.
Proof. unfold version_lt. lia. Qed.
Lemma version_lt_trans u v w : version_lt u v → version_lt v w → version_lt u w.
Proof. unfold version_lt. lia. Qed.

Lemma version_lt_asym v w : version_lt v w → ¬ version_lt w v.
Proof. unfold version_lt. lia. Qed.

Lemma compare_lt v o : (compare v o < 0)%Z ↔ version_lt v o.
Proof.
  destruct (compare_cases v o) as [[-> ?]|[[-> ->]|[-> ?]]]; split; try done; try lia.
  - by intros ?%version_lt_irrefl.
  - intros Hlt. by destruct (version_lt_irrefl v (version_lt_trans _ _ _ Hlt H)).
Qed.

Lemma compare_eq v o : compare v o = 0%Z ↔ v = o.
Proof.
  destruct (compare_cases v o) as [[-> H]|[[-> ->]|[-> H]]]; split; try done;
    intros ->; by destruct (version_lt_irrefl _ H).
Qed.

Lemma compare_opp v o : compare o v = (- compare v o)%Z.
Proof.
  destruct (compare_cases v o) as [[-> H]|[[-> ->]|[-> H]]].
  - destruct (compare_cases o v) as [[-> H']|[[-> ->]|[-> H']]]; [|by destruct (version_lt_irrefl _ H)|done].
    by destruct (version_lt_irrefl _ (version_lt_trans _ _ _ H H')).
  - by apply compare_eq.
  - destruct (compare_cases o v) as [[-> H']|[[-> ->]|[-> H']]]; [done|by destruct (version_lt_irrefl _ H)|].
    by destruct (version_lt_irrefl _ (version_lt_trans _ _ _ H H')).
Qed.

(** ** Lemmas: parsing *)

Definition in_range (v : version) : Prop :=
  (0 ≤ major v ≤ max_int64 ∧ 0 ≤ minor v ≤ max_int64 ∧ 0 ≤ patch v ≤ max_int64)%Z.

Lemma Atoi_upper p n : Atoi p = Some n → (0 ≤ n)%Z → (n ≤ max_int64)%Z.
Proof.
  unfold Atoi. intros H Hn.
  assert (Hc : parse_uint 10 max_int64 p = Some n ∨ (∃ p', parse_uint 10 max_int64 p' = Some n) ∨
               ∃ p', Z.opp <$> parse_uint 10 (- min_int64) p' = Some n).
  { repeat case_match; eauto. }
  destruct Hc as [Hc|[[p' Hc]|[p' Hc]]]; [by eapply parse_uint_bounds..|].
  destruct (parse_uint 10 (- min_int64) p') as [m|] eqn:E; simplify_eq/=.
  unfold parse_uint in E. destruct p'; [done|].
  destruct (digits 10 0 _) as [d|] eqn:Ed; [|done].
  apply digits_nonneg in Ed; [|lia..]. destruct (Z.leb_spec d (- min_int64)); simplify_eq.
  unfold max_int64. lia.
Qed.

Lemma parse_parts_range s i parts out v :
  in_range out → parse_parts s i parts out = Ok v → in_range v.
Proof.
  revert i out. induction parts as [|p parts IH]; intros i out Ho; cbn [parse_parts].
  { by intros [= ->]. }
  case_bool_decide; [done|]. destruct (Atoi p) as [n|] eqn:E; [|done].
  destruct (Z.ltb_spec n 0); [done|]. apply IH.
  pose proof (Atoi_upper _ _ E). unfold in_range in *.
  destruct i as [|[|i]]; simpl; lia.
Qed.

Lemma token_chars_token first t : token_chars first t = true → all_chars is_token_char t = true.
Proof.
  revert first. induction t as [|c t IH]; intros first; [done|]. cbn [token_chars all_chars].
  intros [Hc Hr]%andb_true_iff. apply andb_true_iff. split; [|by eapply IH].
  destruct first; by destruct c as [[] [] [] [] [] [] [] []].
Qed.

Lemma SanitizeVendorToken_token raw t :
  SanitizeVendorToken raw = Some t → all_chars is_token_char t = true.
Proof.
  unfold SanitizeVendorToken. cbv zeta. case_bool_decide; [by intros [= <-]|].
  destruct (_ <? _); [done|]. destruct (token_chars true _) eqn:Ht; [|done].
  intros [= <-]. by eapply token_chars_token.
Qed.

(** ** Properties *)

(** [version.compare] is the three-way comparison of a total order, the
    lexicographic order of (major, minor, patch): it is negative exactly when
    the first version is smaller, zero exactly on equal versions, and swapping
    the arguments negates it. *)
Theorem compare_total_order v o :
  ((compare v o < 0)%Z ↔ version_lt v o) ∧
  (compare v o = 0%Z ↔ v = o) ∧
  compare o v = (- compare v o)%Z ∧
  (version_lt v o ∨ v = o ∨ version_lt o v) ∧
  ∀ w, (compare v o ≤ 0)%Z → (compare o w ≤ 0)%Z → (compare v w ≤ 0)%Z.
Proof.
  split_and!; [apply compare_lt|apply compare_eq|apply compare_opp| |].
  - destruct (compare_cases v o); naive_solver.
  - intros w. destruct (compare_cases v o) as [[-> H]|[[-> ->]|[-> H]]]; [|done|lia].
    destruct (compare_cases o w) as [[-> H']|[[-> <-]|[-> H']]]; [|by apply compare_lt in H; lia|lia].
    pose proof (version_lt_trans _ _ _ H H') as H3%compare_lt. lia.
Qed.

(** Printing and parsing agree: a version written with an optional v, up
    to 64-bit components and any pre-release or build suffix parses to its
    components. *)
Theorem parseVersion_roundtrip a b c pre suffix :
  (0 ≤ a ≤ max_int64)%Z → (0 ≤ b ≤ max_int64)%Z → (0 ≤ c ≤ max_int64)%Z →
  pre ∈ [""; "v"; "V"] →
  all_chars is_visible suffix = true → before_any suffix "-+" = "" →
  parseVersion (pre +:+ Itoa a +:+ "." +:+ Itoa b +:+ "." +:+ Itoa c +:+ suffix) =
  Ok {| major := a; minor := b; patch := c |}.
Proof.
  intros Ha Hb Hc Hpre Hvis Hsuf.
  destruct (Itoa_digits a ltac:(lia)) as (_ & Da & Na), (Itoa_digits b ltac:(lia)) as (_ & Db & Nb),
    (Itoa_digits c ltac:(lia)) as (_ & Dc & Nc).
  assert (Hv : ∀ s, all_chars is_digit s = true → all_chars is_visible s = true ∧
      all_chars (λ c, negb (char_in c "-+")) s = true ∧ all_chars (λ c, c != "."%char) s = true).
  { intros s Hs. split_and!; (eapply all_chars_impl; [|exact Hs]);
      by intros [[] [] [] [] [] [] [] []]. }
  destruct (Hv _ Da) as (Va & Sa & Pa), (Hv _ Db) as (Vb & Sb & Pb), (Hv _ Dc) as (Vc & Sc & Pc).
  unfold parseVersion. rewrite visible_TrimSpace.
  2:{ rewrite !all_chars_app, Va, Vb, Vc, Hvis.
      rewrite !elem_of_cons, elem_of_nil in Hpre. by destruct Hpre as [->|[->|[->|[]]]]. }
  cbv zeta.
  assert (Htrim : TrimPrefix (TrimPrefix (pre +:+ Itoa a +:+ "." +:+ Itoa b +:+ "." +:+ Itoa c +:+ suffix) "v") "V"
                  = Itoa a +:+ "." +:+ Itoa b +:+ "." +:+ Itoa c +:+ suffix).
  { destruct (Itoa a) as [|x s]; [done|]. cbn [all_chars] in Da. apply andb_true_iff in Da as [Dx _].
    rewrite !elem_of_cons, elem_of_nil in Hpre.
    destruct Hpre as [->|[->|[->|[]]]]; by destruct x as [[] [] [] [] [] [] [] []]. }
  rewrite bool_decide_false.
  2:{ intros Hn. rewrite Hn in Htrim. destruct (Itoa a); [done|]. discriminate. }
  rewrite Htrim, before_any_app by done.
  change ("." +:+ Itoa b +:+ "." +:+ Itoa c +:+ suffix) with (String "." (Itoa b +:+ String "." (Itoa c +:+ suffix))).
  cbn [before_any]. change (char_in "." "-+") with false. cbv iota. rewrite before_any_app by done.
  cbn [before_any]. change (char_in "." "-+") with false. cbv iota. rewrite before_any_app by done.
  rewrite Hsuf, str_app_nil_r, !Split_app, Split_none by done. cbn [length Nat.ltb Nat.leb parse_parts].
  rewrite !bool_decide_false by done. rewrite !Atoi_Itoa by done.
  assert (Hz : ∀ z, (0 ≤ z)%Z → (z <? 0)%Z = false) by (intros; apply Z.ltb_ge; lia).
  by rewrite !Hz by lia.
Qed.

Lemma parseVersion_roundtrip_witness :
  parseVersion ("v" +:+ Itoa 26 +:+ "." +:+ Itoa 4 +:+ "." +:+ Itoa 0 +:+ "-rc.1+build") =
  Ok {| major := 26; minor := 4; patch := 0 |}.
Proof.
  apply (parseVersion_roundtrip 26 4 0 "v" "-rc.1+build");
    [unfold max_int64; lia..|right; left|reflexivity|reflexivity].
Defined.

(** A parsed version never overflows: each component is between 0 and the
    largest 64-bit integer, whatever the text. *)
Theorem parseVersion_bounds s v : parseVersion s = Ok v → in_range v.
Proof.
  unfold parseVersion. cbv zeta. case_bool_decide; [done|].
  destruct (3 <? _); [done|]. apply parse_parts_range.
  unfold in_range, max_int64. simpl. lia.
Qed.

Lemma parseVersion_bounds_witness : in_range {| major := 9223372036854775807; minor := 0; patch := 1 |}.
Proof. apply (parseVersion_bounds "V9223372036854775807.0.1-beta"). vm_compute. reflexivity. Defined.

Definition window_min : version := {| major := 26; minor := 4; patch := 0 |}.
Definition window_max : version := {| major := 27; minor := 0; patch := 0 |}.

(** For NVIDIA the support window is half-open: below v26.4.0 is TooOld,
    from v26.4.0 up to but not including v27.0.0 is Supported, from there on
    TooNew, and an unreadable version is Unknown; a vendor without a window is
    Unpinned whatever its version. *)
Theorem ClassifySkew_window vendor installed :
  ClassifySkew vendor installed =
  if decide (ToLower (TrimSpace vendor) = VendorNVIDIA) then
    match parseVersion installed with
    | Err _ => SkewUnknown
    | Ok v => if decide (compare v window_min < 0)%Z then SkewTooOld
              else if decide (compare v window_max < 0)%Z then SkewSupported
              else SkewTooNew
    end
  else SkewUnpinned.
Proof.
  unfold ClassifySkew, SupportedRangeFor, supportedVersions.
  case_decide as Hv; [rewrite Hv, lookup_singleton_eq|by rewrite lookup_singleton_ne by congruence].
  cbn [MinInclusive MaxExclusive].
  replace (parseVersion nvidiaDPFMin) with (Ok window_min) by (vm_compute; reflexivity).
  replace (parseVersion nvidiaDPFMax) with (Ok window_max) by (vm_compute; reflexivity).
  destruct (parseVersion installed) as [v|]; [|done].
  case_decide; [by rewrite (proj2 (Z.ltb_lt _ _))|].
  rewrite (proj2 (Z.ltb_ge _ _)) by lia. case_decide.
  - by rewrite (proj2 (Z.leb_gt _ _)).
  - by rewrite (proj2 (Z.leb_le _ _)) by lia.
Qed.

(** A vendor token that is accepted is empty or a lower-case name of at
    most 16 letters, digits and dashes that starts with a letter: no path, URL
    or markup survives, and sanitizing again changes nothing. *)
Theorem SanitizeVendorToken_clean raw t :
  SanitizeVendorToken raw = Some t →
  String.length t ≤ maxVendorToken ∧ token_chars true t = true ∧
  all_chars is_token_char t = true ∧ SanitizeVendorToken t = Some t.
Proof.
  unfold SanitizeVendorToken. cbv zeta.
  case_bool_decide as He.
  { intros [= <-]. split_and!; [unfold maxVendorToken; simpl; lia|done..]. }
  destruct (Nat.ltb_spec maxVendorToken (String.length (ToLower (TrimSpace raw)))); [done|].
  destruct (token_chars true _) eqn:Ht; [|done]. intros [= <-]. set (t := ToLower (TrimSpace raw)) in *.
  pose proof (token_chars_token _ _ Ht) as Htok.
  rewrite (token_TrimSpace t) by done. rewrite (token_ToLower t) by done.
  rewrite bool_decide_false by done. rewrite (proj2 (Nat.ltb_ge _ _)) by done. by rewrite Ht.
Qed.

Lemma SanitizeVendorToken_clean_witness :
  SanitizeVendorToken " NVIDIA " = Some "nvidia" ∧
  (String.length "nvidia" ≤ maxVendorToken ∧ token_chars true "nvidia" = true ∧
   all_chars is_token_char "nvidia" = true ∧ SanitizeVendorToken "nvidia" = Some "nvidia").
Proof.
  assert (H : SanitizeVendorToken " NVIDIA " = Some "nvidia") by (vm_compute; reflexivity).
  split; [exact H|]. exact (SanitizeVendorToken_clean " NVIDIA " "nvidia" H).
Defined.
