(* ===== verification/InstallConfig.v ===== *)
(** * Install settings, intent, version policy and admission
      (pkg/lifecycle/config.go, intent.go, preflight.go, version_policy.go, webhook.go)

    The only settings an installer may use are the pinned ones of this file.
    A DpuOperatorConfig is seen through what the code reads of it: its name,
    its annotations ([GetAnnotations]; nil reads like the empty map) and the string
    at spec.vendor ([NestedString], empty when absent or not a string). *)

From Stdlib Require Import Ascii.
From stdpp Require Import base gmap strings list fin_maps.
From S2P Require Import Prelude GoStrings Version.

Definition DefaultNamespace : string := "dpf-operator-system".
Definition NVIDIAChartName : string := "dpf-operator".
Definition NVIDIAChartRepo : string := "https://helm.ngc.nvidia.com/nvidia/doca".
Definition NVIDIAChartVersion : string := nvidiaDPFMin.
Definition NVIDIAReleaseName : string := "dpf-operator".
Definition ReleaseOwner : string := "opi-nvidia-dpf-adapter".

Definition VendorAnnotation : string := "lifecycle.opi.nvidia.com/vendor".
Definition VersionAnnotation : string := "lifecycle.opi.nvidia.com/vendor-operator-version".
Definition AdoptExistingAnnotation : string := "lifecycle.opi.nvidia.com/adopt-existing".

Definition forbiddenOverrideKeys : list string :=
  [ "lifecycle.opi.nvidia.com/chart-url";
    "lifecycle.opi.nvidia.com/chart-repo";
    "lifecycle.opi.nvidia.com/chart-version";
    "lifecycle.opi.nvidia.com/helm-args";
    "lifecycle.opi.nvidia.com/helm-set";
    "lifecycle.opi.nvidia.com/release-namespace";
    "lifecycle.opi.nvidia.com/release-name";
    "lifecycle.opi.nvidia.com/olm-catalog";
    "lifecycle.opi.nvidia.com/olm-package";
    "lifecycle.opi.nvidia.com/subscription";
    "lifecycle.opi.nvidia.com/catalog-source" ].

Record InstallConfig := {
  Vendor : string;
  IcNamespace : string;
  ChartName : string;
  ChartRepo : string;
  ChartVersion : string;
  ReleaseName : string;
  IcReleaseOwner : string;
  HelmArgs : list string;
  OLMPublished : bool;
  OLMPackage : string;
  OLMChannel : string;
  OLMCatalog : string }.

#[global] Instance InstallConfig_eq_dec : EqDecision InstallConfig.
Proof. solve_decision. Defined.

(** What the code reads of a DpuOperatorConfig; [None] is a nil pointer. *)
Record ConfigObject := {
  CfgName : string;
  Annotations : gmap string string;
  SpecVendor : string }.

(** A lookup in a Go map of strings: the zero value when absent. *)
Definition ann (o : ConfigObject) (k : string) : string := default "" (Annotations o !! k).

(** ** config.go *)

Definition DefaultInstallConfig (vendor : string) : result InstallConfig :=
  let v := ToLower (TrimSpace vendor) in
  if v == VendorNVIDIA then
    Ok {| Vendor := VendorNVIDIA; IcNamespace := DefaultNamespace;
          ChartName := NVIDIAChartName; ChartRepo := NVIDIAChartRepo;
          ChartVersion := NVIDIAChartVersion; ReleaseName := NVIDIAReleaseName;
          IcReleaseOwner := ReleaseOwner; HelmArgs := []; OLMPublished := false;
          OLMPackage := ""; OLMChannel := ""; OLMCatalog := "" |}
  else if v == VendorAMD then
    Ok {| Vendor := VendorAMD; IcNamespace := DefaultNamespace;
          ChartName := ""; ChartRepo := ""; ChartVersion := ""; ReleaseName := "";
          IcReleaseOwner := ReleaseOwner; HelmArgs := []; OLMPublished := false;
          OLMPackage := ""; OLMChannel := ""; OLMCatalog := "" |}
  else Err (EFmt "vendor %q is not on the allow-list" [vendor]).

(** [url.Parse] as far as its two callers need it: they reach it with the
    pinned repository only.  The scheme and host of a plain
    scheme://host/path; other texts are reported as unparsable. *)
Definition url_Parse (raw : string) : option (string * string) :=
  match Split ":" raw with
  | [scheme; rest] =>
      match strip_prefix "//" rest with
      | Some auth =>
          if all_chars (λ c, is_token_char c || (c == "/"%char) || (c == "."%char)) auth
             && all_chars is_lower scheme
          then Some (scheme, before_any auth "/") else None
      | None => None
      end
  | _ => None
  end.

Definition approvedChartRepo (raw : string) : result unit :=
  match url_Parse raw with
  | Some (scheme, host) =>
      reject_if ((scheme != "https") || (host == "")) (EFmt "chart repo is not an approved https URL" []) ;;!
      reject_if (raw != NVIDIAChartRepo) (EFmt "chart repo is not on the allow-list" [])
  | None => Err (EFmt "chart repo is not an approved https URL" [])
  end.

Definition ValidateInstallConfig (c : InstallConfig) : result unit :=
  reject_if (negb (KnownVendor (Vendor c))) (EFmt "vendor is not approved" []) ;;!
  reject_if (IcNamespace c != DefaultNamespace)
    (EFmt "namespace is not the pinned release namespace" []) ;;!
  reject_if (IcReleaseOwner c != ReleaseOwner) (EFmt "release owner is not this adapter" []) ;;!
  reject_if (length (HelmArgs c) != 0) (EFmt "helm execution arguments are not allowed" []) ;;!
  reject_if (OLMPublished c || (OLMPackage c != "") || (OLMChannel c != "") || (OLMCatalog c != ""))
    (EFmt "olm package is not published" []) ;;!
  if Vendor c == VendorAMD then
    reject_if ((ChartName c != "") || (ChartRepo c != "") || (ChartVersion c != "") || (ReleaseName c != ""))
      (EFmt "amd has no pinned helm chart" [])
  else
    reject_if ((ChartName c != NVIDIAChartName) || (ChartRepo c != NVIDIAChartRepo) ||
               (ChartVersion c != NVIDIAChartVersion) || (ReleaseName c != NVIDIAReleaseName))
      (EFmt "helm chart settings are not the pinned nvidia defaults" []) ;;!
    approvedChartRepo (ChartRepo c).

Definition looksLikeChartURL (s : string) : bool :=
  let s := TrimSpace (ToLower s) in
  if s == "" then false
  else Contains s "://" || HasPrefix s "file:" || HasPrefix s "oci:" || HasPrefix s "--".

Definition override_key (k : string) : bool :=
  let lk := ToLower k in
  Contains lk "helm-args" || Contains lk "helm-set" || Contains lk "chart-url".

(** The second loop ranges over a Go map: any order.  The verdict does not
    depend on it, only which key the error names. *)
Definition RejectInstallOverrides (cfg : option ConfigObject) : result unit :=
  match cfg with
  | None => Ok tt
  | Some o =>
      first_error (λ _ k,
        reject_if (bool_decide (is_Some (Annotations o !! k)))
          (EFmt "install override %s is not allowed" [k])) 0 forbiddenOverrideKeys ;;!
      first_error (λ _ '(k, v),
        reject_if (override_key k) (EFmt "install override %s is not allowed" [k]) ;;!
        reject_if (looksLikeChartURL v && (k != VersionAnnotation) && (k != VendorAnnotation))
          (EFmt "install override %s is not allowed" [k])) 0 (map_to_list (Annotations o)) ;;!
      reject_if (looksLikeChartURL (ann o VersionAnnotation)) (EFmt "version pin is not a version" [])
  end.

(** ** intent.go *)

Inductive IntentSource := IntentNone | IntentSpec | IntentAnnotation.

Record Intent := {
  IVendor : string;
  PinnedVersion : string;
  ISource : IntentSource;
  Known : bool;
  AdoptExisting : bool }.

Definition invalidVendor : string := "invalid".

Definition zero_intent : Intent :=
  {| IVendor := ""; PinnedVersion := ""; ISource := IntentNone; Known := false; AdoptExisting := false |}.

Definition adoptExistingRequested (cfg : option ConfigObject) : bool :=
  match cfg with
  | None => false
  | Some o =>
      let v := ToLower (TrimSpace (ann o AdoptExistingAnnotation)) in
      (v == "true") || (v == "pin")
  end.

Definition sanitizedVendor (raw : string) : string :=
  match SanitizeVendorToken raw with
  | Some token => token
  | None => invalidVendor
  end.

Definition ParseIntent (cfg : option ConfigObject) : Intent :=
  match cfg with
  | None => zero_intent
  | Some o =>
      let with_vendor (src : IntentSource) (raw : string) : Intent :=
        let v := sanitizedVendor raw in
        {| IVendor := v; PinnedVersion := TrimSpace (ann o VersionAnnotation); ISource := src;
           Known := KnownVendor v; AdoptExisting := adoptExistingRequested cfg |} in
      if TrimSpace (SpecVendor o) != "" then with_vendor IntentSpec (SpecVendor o)
      else if TrimSpace (ann o VendorAnnotation) != "" then
        with_vendor IntentAnnotation (ann o VendorAnnotation)
      else
        {| IVendor := ""; PinnedVersion := TrimSpace (ann o VersionAnnotation); ISource := IntentNone;
           Known := false; AdoptExisting := adoptExistingRequested cfg |}
  end.

Definition ResolveVendor (cfg : option ConfigObject) : string := IVendor (ParseIntent cfg).

(** ** preflight.go *)

Record Preflight := {
  PfOK : bool;
  PfSkip : bool;
  PfReason : Skew;
  PfMessage : string }.

Definition RunPreflight (i : Intent) : Preflight :=
  if IVendor i == "" then
    {| PfOK := true; PfSkip := true; PfReason := SkewNone; PfMessage := "no vendor requested" |}
  else if negb (Known i) then
    {| PfOK := false; PfSkip := false; PfReason := SkewUnknownVendor;
       PfMessage := Sprintf "vendor %q is not known; allowed values are %s"
                      [IVendor i; Join ", " KnownVendors] "" |}
  else {| PfOK := true; PfSkip := false; PfReason := SkewNone; PfMessage := "vendor is on the allow-list" |}.

(** ** version_policy.go *)

Inductive Decision_ := DecisionUpgrade | DecisionNoop | DecisionDowngrade | DecisionReject.

#[global] Instance Decision__eq_dec : EqDecision Decision_.
Proof. solve_decision. Defined.

Definition ErrMalformedVersion : err := ENew "release version is malformed".
Definition ErrUnsupportedVersion : err := ENew "release version is not in the pinned window".
Definition ErrDowngradeForbidden : err := ENew "downgrade is not allowed by policy".
Definition ErrDisallowedArtifact : err := ENew "artifact reference is not the pinned immutable chart".

Record VersionDecision := {
  Action : Decision_;
  Installed : string;
  Desired : string;
  VMessage : string }.

Definition policy_skew (k : Skew) : PolicyResult :=
  {| PSkew := k; PVersion := ""; PRange := zero_range; PMessage := "" |}.

Definition ApplyVersionPolicy (i : Intent) (settings : InstallConfig) : InstallConfig * PolicyResult :=
  match ValidateInstallConfig settings with
  | Err _ => (settings, policy_skew SkewInvalidConfig)
  | Ok _ =>
      let installed := TrimSpace (PinnedVersion i) in
      if looksLikeChartURL installed then (settings, policy_skew SkewInvalidConfig)
      else (settings, EvaluatePolicy (IVendor i) installed)
  end.

(** Space, tab, newline, semicolon, bar, dollar and backquote. *)
Definition shell_chars : string := " " +:+ String "009" (String "010" ";|$`").

Definition ValidateReleaseVersion (ver : string) : result unit :=
  let ver := TrimSpace ver in
  reject_if (ver == "") ErrMalformedVersion ;;!
  reject_if (looksLikeChartURL ver) ErrMalformedVersion ;;!
  reject_if (ContainsAny ver shell_chars) ErrMalformedVersion ;;!
  reject_if (negb (is_ok (parseVersion ver))) ErrMalformedVersion.

Definition ValidateDesiredVersion (vendor desired : string) : result unit :=
  ValidateReleaseVersion desired ;;!
  reject_if (vendor == VendorAMD) (EFmt "amd has no pinned helm chart" []) ;;!
  reject_if (ClassifySkew vendor desired != SkewSupported) ErrUnsupportedVersion ;;!
  reject_if ((vendor == VendorNVIDIA) && (TrimSpace desired != NVIDIAChartVersion)) ErrUnsupportedVersion.

Definition ValidateArtifactRef (cfg : InstallConfig) : result unit :=
  reject_if (negb (is_ok (ValidateInstallConfig cfg))) ErrDisallowedArtifact ;;!
  reject_if (Vendor cfg == VendorAMD) (EFmt "amd has no pinned helm chart" []) ;;!
  ValidateDesiredVersion (Vendor cfg) (ChartVersion cfg) ;;!
  reject_if (negb (is_ok (approvedChartRepo (ChartRepo cfg)))) ErrDisallowedArtifact.

Definition compareReleaseVersions (a b : string) : result Z :=
  match parseVersion a with
  | Err _ => Err ErrMalformedVersion
  | Ok va =>
      match parseVersion b with
      | Err _ => Err ErrMalformedVersion
      | Ok vb => Ok (compare va vb)
      end
  end.

Definition DecideReleaseAction (vendor installed desired : string) (allowDowngrade : bool)
    : VersionDecision :=
  let out (a : Decision_) (msg : string) : VersionDecision :=
    {| Action := a; Installed := installed; Desired := desired; VMessage := msg |} in
  match ValidateDesiredVersion vendor desired with
  | Err e => out DecisionReject (Error e)
  | Ok _ =>
      match ValidateReleaseVersion installed with
      | Err e => out DecisionReject (Error e)
      | Ok _ =>
          match compareReleaseVersions installed desired with
          | Err e => out DecisionReject (Error e)
          | Ok cmp =>
              if cmp == 0%Z then out DecisionNoop "installed version is the pin"
              else if (cmp <? 0)%Z then out DecisionUpgrade "upgrade to the pinned release"
              else if allowDowngrade then out DecisionDowngrade "downgrade explicitly allowed"
              else out DecisionReject (Error ErrDowngradeForbidden)
          end
      end
  end.

Definition versionsEqual (a b : string) : bool :=
  match compareReleaseVersions a b with
  | Ok n => n == 0%Z
  | Err _ => false
  end.

(** ** webhook.go *)

Definition ValidateDpuOperatorAdmission (cfg : option ConfigObject) : result unit :=
  match cfg with
  | None => Err (EFmt "DpuOperatorConfig is empty" [])
  | Some _ =>
      RejectInstallOverrides cfg ;;!
      let i := ParseIntent cfg in
      if negb (Known i) then
        let raw := ResolveVendor cfg in
        if raw != "" then Err (EFmt "vendor %q is not nvidia or amd" [raw]) else Ok tt
      else if (IVendor i == VendorNVIDIA) && (PinnedVersion i != "") then
        ValidateDesiredVersion VendorNVIDIA (PinnedVersion i)
      else Ok tt
  end.

(** An admission request: is it a DELETE, and the raw new and old objects. *)
Record AdmissionRequest := {
  IsDelete : bool;
  ObjectRaw : string;
  OldObjectRaw : string }.

Inductive AdmissionResponse :=
| Allowed
| Denied (reason : string)
| Errored (code : nat) (e : err).

(** [decode] is [Unstructured.UnmarshalJSON]. *)
Definition Handle (decode : string → result ConfigObject) (req : AdmissionRequest) : AdmissionResponse :=
  if IsDelete req then Allowed
  else
    let raw := if String.length (ObjectRaw req) == 0 then OldObjectRaw req else ObjectRaw req in
    match decode raw with
    | Err e => Errored 400 e
    | Ok u =>
        match ValidateDpuOperatorAdmission (Some u) with
        | Err e => Denied (Error e)
        | Ok _ => Allowed
        end
    end.

(** ** Lemmas *)

Lemma parseVersion_trim s : parseVersion (TrimSpace s) = parseVersion s.
Proof. unfold parseVersion. by rewrite TrimSpace_idemp. Qed.

Lemma ClassifySkew_trim vendor s : ClassifySkew vendor (TrimSpace s) = ClassifySkew vendor s.
Proof. unfold ClassifySkew. by rewrite parseVersion_trim. Qed.

Lemma ValidateReleaseVersion_trim s : ValidateReleaseVersion (TrimSpace s) = ValidateReleaseVersion s.
Proof. unfold ValidateReleaseVersion. by rewrite TrimSpace_idemp. Qed.

Lemma desired_nvidia s :
  ValidateDesiredVersion VendorNVIDIA s = Ok tt ↔ TrimSpace s = NVIDIAChartVersion.
Proof.
  unfold ValidateDesiredVersion. rewrite !seq_ok, !reject_if_ok. split.
  - intros (_ & _ & _ & H). rewrite bool_decide_true in H by done. cbn [andb] in H. by bool_hyps.
  - intros E. rewrite <- ValidateReleaseVersion_trim, <- ClassifySkew_trim, E.
    split_and!; vm_compute; reflexivity.
Qed.

(** A desired version is only ever valid for a vendor with a window. *)
Lemma desired_vendor vendor s :
  ValidateDesiredVersion vendor s = Ok tt → ToLower (TrimSpace vendor) = VendorNVIDIA.
Proof.
  unfold ValidateDesiredVersion. rewrite !seq_ok, !reject_if_ok.
  intros (_ & _ & H & _). bool_hyps. unfold ClassifySkew, SupportedRangeFor, supportedVersions in H.
  destruct (decide (VendorNVIDIA = ToLower (TrimSpace vendor))); [done|].
  by rewrite lookup_singleton_ne in H.
Qed.

Definition pinned (vendor : string) : InstallConfig :=
  {| Vendor := vendor; IcNamespace := DefaultNamespace; ChartName := NVIDIAChartName;
     ChartRepo := NVIDIAChartRepo; ChartVersion := NVIDIAChartVersion; ReleaseName := NVIDIAReleaseName;
     IcReleaseOwner := ReleaseOwner; HelmArgs := []; OLMPublished := false;
     OLMPackage := ""; OLMChannel := ""; OLMCatalog := "" |}.

Definition unpinned : InstallConfig :=
  {| Vendor := VendorAMD; IcNamespace := DefaultNamespace; ChartName := ""; ChartRepo := "";
     ChartVersion := ""; ReleaseName := ""; IcReleaseOwner := ReleaseOwner; HelmArgs := [];
     OLMPublished := false; OLMPackage := ""; OLMChannel := ""; OLMCatalog := "" |}.

Lemma ValidateInstallConfig_ok c :
  ValidateInstallConfig c = Ok tt ↔
  c = unpinned ∨ (KnownVendor (Vendor c) = true ∧ Vendor c ≠ VendorAMD ∧ c = pinned (Vendor c)).
Proof.
  unfold ValidateInstallConfig. rewrite !seq_ok, !reject_if_ok, !orb_false_iff, !negb_false_iff,
    !bool_decide_eq_true. split.
  - intros (Hk & Hn & Ho & Ha & [[[? ?] ?] ?] & Hb).
    destruct c as [vendor ns cn cr cv rn ro ha op opk och oc]; cbn in *.
    apply nil_length_inv in Ha. case_bool_decide.
    + left. apply reject_if_ok in Hb. bool_hyps. by subst.
    + right. apply seq_ok in Hb as [Hb _]. apply reject_if_ok in Hb. bool_hyps. by subst.
  - intros [->|(Hk & Hv & ->)]; [split_and!; try done; vm_compute; reflexivity|].
    cbn [Vendor pinned] in *. split_and!; try done.
    rewrite bool_decide_false by done. vm_compute. reflexivity.
Qed.

Lemma ValidateArtifactRef_ok c :
  ValidateArtifactRef c = Ok tt →
  c = pinned (Vendor c) ∧ ToLower (TrimSpace (Vendor c)) = VendorNVIDIA.
Proof.
  unfold ValidateArtifactRef. rewrite !seq_ok, !reject_if_ok.
  intros (Hv & Ha & Hd & _). split; [|by eapply desired_vendor].
  destruct (ValidateInstallConfig c) as [[]|] eqn:E; [|done].
  apply ValidateInstallConfig_ok in E as [->|(_ & _ & ?)]; [|done]. by bool_hyps.
Qed.

Lemma ApplyVersionPolicy_cfg i cfg : (ApplyVersionPolicy i cfg).1 = cfg.
Proof. unfold ApplyVersionPolicy. by repeat case_match. Qed.

(** The only default that names an artifact is the NVIDIA pin. *)
Lemma Default_artifact vendor cfg :
  DefaultInstallConfig vendor = Ok cfg → ValidateArtifactRef cfg = Ok tt → cfg = pinned VendorNVIDIA.
Proof.
  unfold DefaultInstallConfig. intros Hd Ha. cbv zeta in Hd.
  destruct (bool_decide (_ = VendorNVIDIA)); [by injection Hd as <-|].
  destruct (bool_decide (_ = VendorAMD)); [injection Hd as <-|done].
  apply ValidateArtifactRef_ok in Ha as [Ha _]. discriminate Ha.
Qed.

(** No annotation tries to choose a chart, its arguments or its place. *)
Definition no_overrides (o : ConfigObject) : Prop :=
  ∀ k v, Annotations o !! k = Some v →
    k ∉ forbiddenOverrideKeys ∧ override_key k = false ∧
    (looksLikeChartURL v = true → k = VendorAnnotation).

Lemma RejectInstallOverrides_ok o :
  RejectInstallOverrides (Some o) = Ok tt ↔ no_overrides o.
Proof.
  unfold RejectInstallOverrides. rewrite !seq_ok, reject_if_ok.
  rewrite (first_error_Forall _ (λ k, Annotations o !! k = None)).
  2:{ intros _ k. rewrite reject_if_ok, bool_decide_eq_false. by rewrite eq_None_not_Some. }
  rewrite (first_error_Forall _ (λ kv, override_key kv.1 = false ∧
     (looksLikeChartURL kv.2 = true → kv.1 = VersionAnnotation ∨ kv.1 = VendorAnnotation))).
  2:{ intros _ [k v]. rewrite seq_ok, !reject_if_ok. simpl.
      rewrite !andb_false_iff, !negb_false_iff, !bool_decide_eq_true.
      destruct (looksLikeChartURL v); naive_solver. }
  rewrite !Forall_forall. unfold no_overrides. split.
  - intros (H1 & H2 & H3) k v Hk. destruct (H2 (k, v)) as [? Hu]; [by apply elem_of_map_to_list|].
    split_and!; [intros ?%H1; congruence|done|]. intros Hl. destruct (Hu Hl) as [Hver|]; [|done].
    simpl in Hver. subst k. unfold ann in H3. rewrite Hk in H3. simpl in H3. congruence.
  - intros H. split_and!.
    + intros k Hk. destruct (Annotations o !! k) as [v|] eqn:E; [|done].
      by destruct (H k v E).
    + intros [k v] Hk%elem_of_map_to_list. destruct (H k v Hk) as (_ & ? & ?). naive_solver.
    + unfold ann. destruct (Annotations o !! VersionAnnotation) as [v|] eqn:E; [|done].
      simpl. destruct (looksLikeChartURL v) eqn:El; [|done].
      by destruct (H _ _ E) as (_ & _ & Hc); apply Hc in El.
Qed.

(** The vendor of an intent is a sanitized token. *)
Lemma ParseIntent_known cfg :
  Known (ParseIntent cfg) = KnownVendor (IVendor (ParseIntent cfg)).
Proof. destruct cfg as [o|]; [|done]. unfold ParseIntent. by repeat case_match. Qed.

Lemma sanitized_clean raw :
  TrimSpace (sanitizedVendor raw) = sanitizedVendor raw ∧ ToLower (sanitizedVendor raw) = sanitizedVendor raw.
Proof.
  unfold sanitizedVendor. destruct (SanitizeVendorToken raw) as [t|] eqn:E.
  - apply SanitizeVendorToken_token in E. by rewrite token_TrimSpace, token_ToLower.
  - by vm_compute.
Qed.

Lemma ParseIntent_vendor_clean cfg :
  TrimSpace (IVendor (ParseIntent cfg)) = IVendor (ParseIntent cfg) ∧
  ToLower (IVendor (ParseIntent cfg)) = IVendor (ParseIntent cfg).
Proof.
  destruct cfg as [o|]; [|by vm_compute].
  unfold ParseIntent. repeat case_match; simpl; try apply sanitized_clean. by vm_compute.
Qed.

Lemma ParseIntent_known_iff cfg :
  Known (ParseIntent cfg) = true ↔
  IVendor (ParseIntent cfg) = VendorNVIDIA ∨ IVendor (ParseIntent cfg) = VendorAMD.
Proof.
  rewrite ParseIntent_known. unfold KnownVendor.
  destruct (ParseIntent_vendor_clean cfg) as [-> ->]. rewrite orb_true_iff, !bool_decide_eq_true. done.
Qed.

Lemma ParseIntent_pin_trim cfg :
  TrimSpace (PinnedVersion (ParseIntent cfg)) = PinnedVersion (ParseIntent cfg).
Proof.
  destruct cfg as [o|]; [|by vm_compute].
  unfold ParseIntent. repeat case_match; simpl; apply TrimSpace_idemp.
Qed.

(** ** Properties *)

(** [C14] The admission webhook admits exactly the safe configs: no annotation
    overrides the chart, its arguments, namespace, release or OLM source; the
    vendor is empty, nvidia or amd; and an nvidia version pin is absent or the
    one pinned chart version. *)
Theorem Admission_iff_safe o :
  ValidateDpuOperatorAdmission (Some o) = Ok tt ↔
  no_overrides o ∧
  let i := ParseIntent (Some o) in
  (IVendor i = "" ∨ IVendor i = VendorAMD ∨
   IVendor i = VendorNVIDIA ∧ (PinnedVersion i = "" ∨ PinnedVersion i = NVIDIAChartVersion)).
Proof.
  unfold ValidateDpuOperatorAdmission. rewrite seq_ok, RejectInstallOverrides_ok. cbv zeta.
  unfold ResolveVendor. pose proof (ParseIntent_known_iff (Some o)) as Hk.
  pose proof (ParseIntent_pin_trim (Some o)) as Hp. set (i := ParseIntent (Some o)) in *. clearbody i.
  destruct (Known i); cbn [negb].
  - destruct (proj1 Hk eq_refl) as [Hv|Hv]; rewrite Hv in *.
    + rewrite bool_decide_true by done. cbn [andb]. case_bool_decide as He; cbn [negb].
      * naive_solver.
      * rewrite desired_nvidia, Hp. naive_solver.
    + rewrite bool_decide_false by done. cbn [andb]. naive_solver.
  - case_bool_decide as He; cbn [negb]; [naive_solver|].
    split; [intros []; done|]. intros [_ [?|[?|[? _]]]]; naive_solver.
Qed.

(** The only settings validation accepts are the pinned ones: AMD's with
    no chart, or the NVIDIA chart, repository, version, release, namespace and
    owner, with no Helm arguments and no OLM source. *)
Theorem ValidateInstallConfig_only_pins c :
  ValidateInstallConfig c = Ok tt ↔
  c = unpinned ∨ (KnownVendor (Vendor c) = true ∧ Vendor c ≠ VendorAMD ∧ c = pinned (Vendor c)).
Proof. apply ValidateInstallConfig_ok. Qed.

Lemma compare_release a b n :
  compareReleaseVersions a b = Ok n ↔
  ∃ va vb, parseVersion a = Ok va ∧ parseVersion b = Ok vb ∧ n = compare va vb.
Proof. unfold compareReleaseVersions. destruct (parseVersion a), (parseVersion b); naive_solver. Qed.

(** Both versions are acceptable and the installed one relates to the desired
    one by [R]. *)
Definition releases_related (R : version → version → Prop) (vendor installed desired : string) : Prop :=
  ValidateDesiredVersion vendor desired = Ok tt ∧ ValidateReleaseVersion installed = Ok tt ∧
  ∃ vi vd, parseVersion installed = Ok vi ∧ parseVersion desired = Ok vd ∧ R vi vd.

(** The release decision follows the version order: upgrade exactly from
    an older release to the pin, no-op exactly at the pin, downgrade exactly
    from a newer release when it was allowed; anything malformed, unpinned or
    a forbidden downgrade is rejected. *)
Theorem DecideReleaseAction_spec vendor installed desired allow :
  let d := DecideReleaseAction vendor installed desired allow in
  (Action d = DecisionUpgrade ↔ releases_related version_lt vendor installed desired) ∧
  (Action d = DecisionNoop ↔ releases_related eq vendor installed desired) ∧
  (Action d = DecisionDowngrade ↔ allow = true ∧ releases_related (flip version_lt) vendor installed desired).
Proof.
  cbv zeta. unfold DecideReleaseAction, releases_related. cbv zeta.
  destruct (ValidateDesiredVersion vendor desired) as [[]|] eqn:Ed; [|cbn; naive_solver].
  destruct (ValidateReleaseVersion installed) as [[]|] eqn:Ei; [|cbn; naive_solver].
  destruct (compareReleaseVersions installed desired) as [n|e] eqn:Ec.
  2:{ cbn. assert (Hno : ¬ ∃ vi vd, parseVersion installed = Ok vi ∧ parseVersion desired = Ok vd).
      { intros (vi & vd & Hi & Hd). unfold compareReleaseVersions in Ec. by rewrite Hi, Hd in Ec. }
      naive_solver. }
  apply compare_release in Ec as (vi & vd & Hi & Hd & ->).
  assert (Hrel : ∀ R : version → version → Prop,
    (Ok tt = Ok tt ∧ Ok tt = Ok tt ∧ ∃ vi' vd', parseVersion installed = Ok vi' ∧ parseVersion desired = Ok vd' ∧ R vi' vd')
    ↔ R vi vd).
  { intros R. split; [intros (_ & _ & vi' & vd' & ? & ? & ?); congruence|]. eauto 10. }
  rewrite !Hrel. unfold flip.
  destruct (compare_cases vi vd) as [[-> H]|[[-> ->]|[-> H]]]; cbn.
  - pose proof (version_lt_asym _ _ H). assert (vi ≠ vd) by (intros ->; done). naive_solver.
  - pose proof (version_lt_irrefl vd). naive_solver.
  - pose proof (version_lt_asym _ _ H). assert (vi ≠ vd) by (intros ->; done).
    destruct allow; naive_solver.
Qed.

(** The webhook denies every create or update it cannot show safe: unless
    the request is a delete, it is allowed only when the object decodes and is
    safe in the sense of admission. *)
Theorem Handle_allows decode req :
  Handle decode req = Allowed ↔
  IsDelete req = true ∨
  ∃ o, decode (if ObjectRaw req == "" then OldObjectRaw req else ObjectRaw req) = Ok o ∧
       ValidateDpuOperatorAdmission (Some o) = Ok tt.
Proof.
  unfold Handle. destruct (IsDelete req); [naive_solver|]. cbv zeta.
  assert (Hl : bool_decide (String.length (ObjectRaw req) = 0) = bool_decide (ObjectRaw req = "")).
  { apply bool_decide_ext. split; [by destruct (ObjectRaw req)|by intros ->]. }
  rewrite Hl. destruct (decode _) as [o|]; [|naive_solver].
  destruct (ValidateDpuOperatorAdmission (Some o)) as [[]|] eqn:E.
  - split; [|done]. intros _. right. by exists o.
  - split; [done|]. intros [?|(o' & [= <-] & E')]; [done|]. congruence.
Qed.
