(* ===== verification/Release.v ===== *)
(** * Helm releases and the client interface
      (pkg/lifecycle/helm_client.go up to MemoryHelmClient, and the ownership
      classification of cleanup.go)

    [HelmClient] is the Go interface: each operation takes the state of the
    world and returns the new one with the Go pair (release, error); the
    release is also meaningful next to an error (Upgrade returns the existing
    one).  [MemoryHelmClient] is the in-process implementation. *)

From Stdlib Require Import Ascii.
From stdpp Require Import base gmap strings list fin_maps.
From S2P Require Import Prelude GoStrings Unstructured Version InstallConfig.

Definition ReleaseOwnerLabel : string := "lifecycle.opi.nvidia.com/owner".
Definition ReleaseModeLabel : string := "lifecycle.opi.nvidia.com/mode".
Definition HelmStatusDeployed : string := "deployed".
Definition redactedLogValue : string := "[redacted]".
Definition helmStorageOwnerLabel : string := "owner".
Definition helmStorageOwner : string := "helm".
Definition ReleaseModeInstalled : string := "installed".
Definition ReleaseModeAdopted : string := "adopted".
Definition releaseExternallyOwned : string := "release is externally owned".

Definition ErrReleaseNotFound : err := ENew "helm release not found".
Definition ErrReleaseExists : err := ENew "helm release already exists".
Definition ErrReleaseUnmanaged : err := ENew "helm release is not managed by this adapter".
Definition ErrReleaseTimeout : err := ENew "helm release operation timed out".
Definition ErrReleaseUnknown : err := ENew "helm release operation outcome is unknown".
Definition ErrRollbackFailed : err := ENew "rollback failed".
Definition ErrNoVendorChart : err := ENew "vendor has no pinned helm chart".

(** Package context's two errors. *)
Definition DeadlineExceeded : err := ENew "context deadline exceeded".
Definition Canceled : err := ENew "context canceled".

(** [Labels] may be nil ([None]). *)
Record HelmRelease := {
  RelName : string;
  RelNamespace : string;
  RelChartName : string;
  RelChartVersion : string;
  RelStatus : string;
  Revision : Z;
  LastKnownGood : string;
  Labels : option (gmap string string) }.

#[global] Instance HelmRelease_eq_dec : EqDecision HelmRelease.
Proof. solve_decision. Defined.

Definition zero_release : HelmRelease :=
  {| RelName := ""; RelNamespace := ""; RelChartName := ""; RelChartVersion := ""; RelStatus := "";
     Revision := 0; LastKnownGood := ""; Labels := None |}.

(** A lookup in a map of labels, nil included. *)
Definition label (ls : option (gmap string string)) (k : string) : string :=
  match ls with
  | Some m => default "" (m !! k)
  | None => ""
  end.

Definition Identity (r : HelmRelease) : string :=
  RelNamespace r +:+ "/" +:+ RelName r +:+ "@" +:+ RelChartVersion r.

Definition ManagedByAdapter (r : HelmRelease) : bool :=
  match Labels r with
  | None => false
  | Some _ => label (Labels r) ReleaseOwnerLabel == ReleaseOwner
  end.

(** ** Ownership (cleanup.go) *)

Inductive Ownership := OwnershipController | OwnershipAdopted | OwnershipExternal | OwnershipInvalid.

#[global] Instance Ownership_eq_dec : EqDecision Ownership.
Proof. solve_decision. Defined.

Record OwnershipClass := {
  OKind : Ownership;
  OOwner : string;
  OMode : string;
  OReason : string }.

Definition AllowsDelete (c : OwnershipClass) : bool :=
  (OKind c == OwnershipController) || (OKind c == OwnershipAdopted).

(** Space, tab, comma and semicolon. *)
Definition list_chars : string := " " +:+ String "009" ",;".

Definition ClassifyReleaseOwnership (rel : HelmRelease) : OwnershipClass :=
  let class k o m r := {| OKind := k; OOwner := o; OMode := m; OReason := r |} in
  if RelName rel == "" then class OwnershipInvalid "" "" "release identity is missing"
  else match Labels rel with
  | None => class OwnershipInvalid "" "" "ownership labels are missing"
  | Some _ =>
      let labels := Labels rel in
      let ours := TrimSpace (label labels ReleaseOwnerLabel) in
      let helmOwner := TrimSpace (label labels helmStorageOwnerLabel) in
      let mode := TrimSpace (label labels ReleaseModeLabel) in
      let helmOwner := if helmOwner == helmStorageOwner then "" else helmOwner in
      if ContainsAny ours list_chars || ContainsAny mode list_chars then
        class OwnershipInvalid ours mode "ownership metadata is conflicting or malformed"
      else if (ours == "") && (helmOwner == "") then
        if TrimSpace (label labels helmStorageOwnerLabel) == helmStorageOwner
        then class OwnershipExternal helmStorageOwner "" releaseExternallyOwned
        else class OwnershipInvalid "" "" "ownership labels are missing"
      else if (ours != "") && (helmOwner != "") && (ours != helmOwner) then
        class OwnershipInvalid ours mode "ownership labels conflict"
      else if (ours != "") && (ours != ReleaseOwner) then
        class OwnershipExternal ours mode releaseExternallyOwned
      else if ours == "" then class OwnershipExternal helmOwner "" releaseExternallyOwned
      else if mode == ReleaseModeInstalled then
        class OwnershipController ours mode "controller-owned release"
      else class OwnershipAdopted ours mode "adopted release"
  end.

(** ** Helpers of helm_client.go *)

(** [None] is the nil map. *)
Definition SafeHelmValues (cfg : InstallConfig) : option (gmap string value) :=
  match ValidateInstallConfig cfg with
  | Err _ => None
  | Ok _ =>
      if Vendor cfg != VendorNVIDIA then Some ∅
      else Some {[ "kamajiClusterManager" := VMap {[ "disable" := VBool true ]};
                   "monitoring" := VMap {[ "disable" := VBool true ]} ]}
  end.

Definition OwnedRelease (cfg : InstallConfig) : HelmRelease :=
  {| RelName := ReleaseName cfg; RelNamespace := IcNamespace cfg; RelChartName := ChartName cfg;
     RelChartVersion := ChartVersion cfg; RelStatus := HelmStatusDeployed; Revision := 1;
     LastKnownGood := "";
     Labels := Some {[ ReleaseOwnerLabel := IcReleaseOwner cfg; ReleaseModeLabel := ReleaseModeInstalled ]} |}.

Definition releaseKey (namespace name : string) : string := namespace +:+ "/" +:+ name.

Definition requirePinnedConfig (cfg : InstallConfig) : result unit :=
  ValidateArtifactRef cfg ;;!
  reject_if (Vendor cfg == VendorAMD) (EFmt "amd has no pinned helm chart" []).

Definition secret_words : list string :=
  ["password"; "token"; "secret"; "credential"; "kubeconfig"; "authorization"].

Definition SanitizeLogValue (key value : string) : string :=
  let k := ToLower (TrimSpace key) in
  if existsb (λ s, Contains k s) secret_words then redactedLogValue
  else
    let v := TrimSpace value in
    if Contains (ToLower v) "bearer " || Contains v "BEGIN " || Contains (ToLower v) "kubeconfig"
    then redactedLogValue
    else value.

Definition matchesPinnedRelease (rel : HelmRelease) (cfg : InstallConfig) : bool :=
  (RelName rel == ReleaseName cfg) && (RelNamespace rel == IcNamespace cfg) &&
  (RelChartName rel == ChartName cfg) && (RelStatus rel == HelmStatusDeployed) &&
  versionsEqual (RelChartVersion rel) (ChartVersion cfg).

Definition stampAdoptedLabels (labels : option (gmap string string)) : gmap string string :=
  <[ReleaseModeLabel := ReleaseModeAdopted]> (<[ReleaseOwnerLabel := ReleaseOwner]> (default ∅ labels)).

(** ** The client interface *)

(** What a Go call (HelmRelease, error) leaves behind. *)
Definition outcome (W : Type) : Type := W * (HelmRelease * option err).

(** [RememberLastKnownGood] and [LastKnownGood], when the client has them. *)
Record lastGoodStore (W : Type) := {
  RememberLastKnownGood : W → string → string → HelmRelease → W;
  LookupLastKnownGood : W → string → string → W * option HelmRelease }.
Arguments RememberLastKnownGood {W}.
Arguments LookupLastKnownGood {W}.

(** [CtxErr] is [ctx.Err()]: nil, DeadlineExceeded or Canceled; time passes
    with the calls, so it is read off the world.  [store] and [claimer] are
    the type assertions to the two optional interfaces. *)
Class HelmClient (W : Type) := {
  CtxErr : W → option err;
  GetRelease : W → string → string → outcome W;
  Install : W → InstallConfig → option (gmap string value) → outcome W;
  Upgrade : W → InstallConfig → option (gmap string value) → outcome W;
  Rollback : W → InstallConfig → string → outcome W;
  Uninstall : W → InstallConfig → outcome W;
  store : option (lastGoodStore W);
  claimer : option (W → InstallConfig → outcome W) }.

(** ** MemoryHelmClient *)

(** A Go [int] result of an addition, at 64 bits. *)
Definition wrap_int64 (z : Z) : Z := ((z + 2 ^ 63) mod 2 ^ 64 - 2 ^ 63)%Z.

Record MemoryHelmClient := {
  rels : gmap string HelmRelease;
  history : gmap string (list HelmRelease);
  lastGood : gmap string HelmRelease;
  inflight : gmap string Z;
  MaxInflight : Z;
  Upgrades : Z;
  Uninstalls : Z;
  Rollbacks : Z;
  UpgradeErr : option err;
  FailNUpgrades : Z;
  failed : Z;
  InstallErr : option err;
  FailNInstalls : Z;
  installFailed : Z;
  UninstallErr : option err;
  Timeout : bool;
  Unknown : bool;
  RollbackErr : option err;
  ctx : option err }.

Section Memory.
Implicit Type m : MemoryHelmClient.

Definition with_rels r m : MemoryHelmClient :=
  {| rels := r; history := history m; lastGood := lastGood m; inflight := inflight m;
     MaxInflight := MaxInflight m; Upgrades := Upgrades m; Uninstalls := Uninstalls m;
     Rollbacks := Rollbacks m; UpgradeErr := UpgradeErr m; FailNUpgrades := FailNUpgrades m;
     failed := failed m; InstallErr := InstallErr m; FailNInstalls := FailNInstalls m;
     installFailed := installFailed m; UninstallErr := UninstallErr m; Timeout := Timeout m;
     Unknown := Unknown m; RollbackErr := RollbackErr m; ctx := ctx m |}.

Definition with_lastGood l m : MemoryHelmClient :=
  {| rels := rels m; history := history m; lastGood := l; inflight := inflight m;
     MaxInflight := MaxInflight m; Upgrades := Upgrades m; Uninstalls := Uninstalls m;
     Rollbacks := Rollbacks m; UpgradeErr := UpgradeErr m; FailNUpgrades := FailNUpgrades m;
     failed := failed m; InstallErr := InstallErr m; FailNInstalls := FailNInstalls m;
     installFailed := installFailed m; UninstallErr := UninstallErr m; Timeout := Timeout m;
     Unknown := Unknown m; RollbackErr := RollbackErr m; ctx := ctx m |}.

Definition with_inflight i mx m : MemoryHelmClient :=
  {| rels := rels m; history := history m; lastGood := lastGood m; inflight := i;
     MaxInflight := mx; Upgrades := Upgrades m; Uninstalls := Uninstalls m;
     Rollbacks := Rollbacks m; UpgradeErr := UpgradeErr m; FailNUpgrades := FailNUpgrades m;
     failed := failed m; InstallErr := InstallErr m; FailNInstalls := FailNInstalls m;
     installFailed := installFailed m; UninstallErr := UninstallErr m; Timeout := Timeout m;
     Unknown := Unknown m; RollbackErr := RollbackErr m; ctx := ctx m |}.

(** The five counters. *)
Definition with_counts up un rb fl il m : MemoryHelmClient :=
  {| rels := rels m; history := history m; lastGood := lastGood m; inflight := inflight m;
     MaxInflight := MaxInflight m; Upgrades := up; Uninstalls := un;
     Rollbacks := rb; UpgradeErr := UpgradeErr m; FailNUpgrades := FailNUpgrades m;
     failed := fl; InstallErr := InstallErr m; FailNInstalls := FailNInstalls m;
     installFailed := il; UninstallErr := UninstallErr m; Timeout := Timeout m;
     Unknown := Unknown m; RollbackErr := RollbackErr m; ctx := ctx m |}.

Definition incr (z : Z) : Z := wrap_int64 (z + 1).

Definition count_upgrade m := with_counts (incr (Upgrades m)) (Uninstalls m) (Rollbacks m) (failed m) (installFailed m) m.
Definition count_uninstall m := with_counts (Upgrades m) (incr (Uninstalls m)) (Rollbacks m) (failed m) (installFailed m) m.
Definition count_rollback m := with_counts (Upgrades m) (Uninstalls m) (incr (Rollbacks m)) (failed m) (installFailed m) m.
Definition count_failed m := with_counts (Upgrades m) (Uninstalls m) (Rollbacks m) (incr (failed m)) (installFailed m) m.
Definition count_installFailed m := with_counts (Upgrades m) (Uninstalls m) (Rollbacks m) (failed m) (incr (installFailed m)) m.

Definition appendHistory (key : string) (rel : HelmRelease) m : MemoryHelmClient :=
  {| rels := rels m; history := <[key := default [] (history m !! key) ++ [rel]]> (history m);
     lastGood := lastGood m; inflight := inflight m;
     MaxInflight := MaxInflight m; Upgrades := Upgrades m; Uninstalls := Uninstalls m;
     Rollbacks := Rollbacks m; UpgradeErr := UpgradeErr m; FailNUpgrades := FailNUpgrades m;
     failed := failed m; InstallErr := InstallErr m; FailNInstalls := FailNInstalls m;
     installFailed := installFailed m; UninstallErr := UninstallErr m; Timeout := Timeout m;
     Unknown := Unknown m; RollbackErr := RollbackErr m; ctx := ctx m |}.

(** [m.rels[key] = rel; m.appendHistory(key, rel)] *)
Definition put (key : string) (rel : HelmRelease) m : MemoryHelmClient :=
  appendHistory key rel (with_rels (<[key := rel]> (rels m)) m).

Definition begin_ (key : string) m : MemoryHelmClient :=
  let n := incr (default 0%Z (inflight m !! key)) in
  with_inflight (<[key := n]> (inflight m)) (if (MaxInflight m <? n)%Z then n else MaxInflight m) m.

Definition end_ (key : string) m : MemoryHelmClient :=
  with_inflight (<[key := wrap_int64 (default 0%Z (inflight m !! key) - 1)]> (inflight m)) (MaxInflight m) m.

Definition mem_get m (namespace name : string) : outcome MemoryHelmClient :=
  match rels m !! releaseKey namespace name with
  | None => (m, (zero_release, Some ErrReleaseNotFound))
  | Some rel => (m, (rel, None))
  end.

(** [e != nil && (n == 0 || done < n)] *)
Definition injected (e : option err) (n done_ : Z) : option err :=
  if (n == 0%Z) || (done_ <? n)%Z then e else None.

Definition mem_install m (cfg : InstallConfig) (_ : option (gmap string value)) : outcome MemoryHelmClient :=
  match requirePinnedConfig cfg with
  | Err e => (m, (zero_release, Some e))
  | Ok _ =>
      let key := releaseKey (IcNamespace cfg) (ReleaseName cfg) in
      match rels m !! key with
      | Some _ => (m, (zero_release, Some ErrReleaseExists))
      | None =>
          match injected (InstallErr m) (FailNInstalls m) (installFailed m) with
          | Some e => (count_installFailed m, (zero_release, Some e))
          | None => let rel := OwnedRelease cfg in (put key rel m, (rel, None))
          end
      end
  end.

(** [Hold] only delays; the call is modelled as one step, taken under the
    release lock its callers hold. *)
Definition mem_upgrade m (cfg : InstallConfig) (_ : option (gmap string value)) : outcome MemoryHelmClient :=
  match requirePinnedConfig cfg with
  | Err e => (m, (zero_release, Some e))
  | Ok _ =>
      let key := releaseKey (IcNamespace cfg) (ReleaseName cfg) in
      let m := count_upgrade (begin_ key m) in
      match rels m !! key with
      | None => (end_ key m, (zero_release, Some ErrReleaseNotFound))
      | Some existing =>
          if negb (ManagedByAdapter existing) then (end_ key m, (zero_release, Some ErrReleaseUnmanaged))
          else
            let m := match lastGood m !! key with
                     | Some _ => m
                     | None => with_lastGood (<[key := existing]> (lastGood m)) m
                     end in
            match ctx m with
            | Some e => (end_ key m, (existing, Some e))
            | None =>
                if Timeout m then (end_ key m, (existing, Some ErrReleaseTimeout))
                else if Unknown m then (end_ key m, (existing, Some ErrReleaseUnknown))
                else match injected (UpgradeErr m) (FailNUpgrades m) (failed m) with
                | Some e => (end_ key (count_failed m), (existing, Some e))
                | None =>
                    let o := OwnedRelease cfg in
                    let rel := {| RelName := RelName o; RelNamespace := RelNamespace o;
                                  RelChartName := RelChartName o; RelChartVersion := RelChartVersion o;
                                  RelStatus := RelStatus o;
                                  Revision := wrap_int64 (Revision existing + 1);
                                  LastKnownGood := RelChartVersion existing; Labels := Labels o |} in
                    (end_ key (put key rel m), (rel, None))
                end
            end
      end
  end.

Definition mem_rollback m (cfg : InstallConfig) (toVersion : string) : outcome MemoryHelmClient :=
  match requirePinnedConfig cfg with
  | Err e => (m, (zero_release, Some e))
  | Ok _ =>
      match ValidateReleaseVersion toVersion with
      | Err e => (m, (zero_release, Some e))
      | Ok _ =>
          let key := releaseKey (IcNamespace cfg) (ReleaseName cfg) in
          let m := count_rollback m in
          match rels m !! key with
          | None => (m, (zero_release, Some ErrReleaseNotFound))
          | Some existing =>
              if negb (ManagedByAdapter existing) then (m, (zero_release, Some ErrReleaseUnmanaged))
              else match RollbackErr m with
              | Some _ => (m, (existing, Some ErrRollbackFailed))
              | None =>
                  match lastGood m !! key with
                  | None => (m, (existing, Some ErrRollbackFailed))
                  | Some prev =>
                      if negb (versionsEqual (RelChartVersion prev) toVersion)
                      then (m, (existing, Some ErrRollbackFailed))
                      else
                        let prev' := {| RelName := RelName prev; RelNamespace := RelNamespace prev;
                                        RelChartName := RelChartName prev;
                                        RelChartVersion := RelChartVersion prev;
                                        RelStatus := RelStatus prev;
                                        Revision := wrap_int64 (Revision existing + 1);
                                        LastKnownGood := RelChartVersion prev; Labels := Labels prev |} in
                        (put key prev' m, (prev', None))
                  end
              end
          end
      end
  end.

Definition mem_uninstall m (cfg : InstallConfig) : outcome MemoryHelmClient :=
  match requirePinnedConfig cfg with
  | Err e => (m, (zero_release, Some e))
  | Ok _ =>
      let key := releaseKey (IcNamespace cfg) (ReleaseName cfg) in
      let m := count_uninstall m in
      match rels m !! key with
      | None => (m, (zero_release, Some ErrReleaseNotFound))
      | Some existing =>
          if negb (AllowsDelete (ClassifyReleaseOwnership existing))
          then (m, (existing, Some ErrReleaseUnmanaged))
          else match UninstallErr m with
               | Some e => (m, (existing, Some e))
               | None => (with_rels (delete key (rels m)) m, (existing, None))
               end
      end
  end.

Definition mem_remember m (namespace name : string) (rel : HelmRelease) : MemoryHelmClient :=
  with_lastGood (<[releaseKey namespace name := rel]> (lastGood m)) m.

Definition mem_lastKnownGood m (namespace name : string) : MemoryHelmClient * option HelmRelease :=
  (m, lastGood m !! releaseKey namespace name).

Definition mem_claim m (cfg : InstallConfig) : outcome MemoryHelmClient :=
  match requirePinnedConfig cfg with
  | Err e => (m, (zero_release, Some e))
  | Ok _ =>
      let key := releaseKey (IcNamespace cfg) (ReleaseName cfg) in
      match rels m !! key with
      | None => (m, (zero_release, Some ErrReleaseNotFound))
      | Some existing =>
          if negb (matchesPinnedRelease existing cfg) then (m, (existing, Some ErrReleaseUnmanaged))
          else
            let claimed := {| RelName := RelName existing; RelNamespace := RelNamespace existing;
                              RelChartName := RelChartName existing;
                              RelChartVersion := RelChartVersion existing;
                              RelStatus := RelStatus existing; Revision := Revision existing;
                              LastKnownGood := LastKnownGood existing;
                              Labels := Some (stampAdoptedLabels (Labels existing)) |} in
            (with_rels (<[key := claimed]> (rels m)) m, (claimed, None))
      end
  end.

Definition count (m : MemoryHelmClient) : nat := size (rels m).

End Memory.

#[global] Instance memory_client : HelmClient MemoryHelmClient := {|
  CtxErr := ctx;
  GetRelease := mem_get;
  Install := mem_install;
  Upgrade := mem_upgrade;
  Rollback := mem_rollback;
  Uninstall := mem_uninstall;
  store := Some {| RememberLastKnownGood := mem_remember; LookupLastKnownGood := mem_lastKnownGood |};
  claimer := Some mem_claim |}.

Definition empty_memory : MemoryHelmClient :=
  {| rels := ∅; history := ∅; lastGood := ∅; inflight := ∅; MaxInflight := 0; Upgrades := 0;
     Uninstalls := 0; Rollbacks := 0; UpgradeErr := None; FailNUpgrades := 0; failed := 0;
     InstallErr := None; FailNInstalls := 0; installFailed := 0; UninstallErr := None;
     Timeout := false; Unknown := false; RollbackErr := None; ctx := None |}.
