(* ===== verification/HelmInstaller.v ===== *)
(** * The Helm installer (pkg/lifecycle/helm_client.go, HelmInstaller)

    [Ensure] is install, adopt, upgrade and rollback over any [HelmClient].
    The release lock is held from before the first client call to the return,
    so one call of [Ensure] is a sequence of client operations that no other
    call on the same release interleaves with. *)

From Stdlib Require Import Ascii.
From stdpp Require Import base gmap strings list fin_maps.
From S2P Require Import Prelude GoStrings Unstructured Version InstallConfig Release.

(** ** Results (installer.go) *)

Inductive InstallAction :=
| InstallDetected | InstallAbsent | InstallSkipped | InstallInstalled | InstallAdopted
| InstallUnmanaged | InstallNoop | InstallUpgraded | InstallRolledBack | InstallFailed
| InstallZero (* the zero value "" *).

#[global] Instance InstallAction_eq_dec : EqDecision InstallAction.
Proof. solve_decision. Defined.

Inductive OpStatus :=
| OpSucceeded | OpFailed | OpTimeout | OpUnknown | OpRolledBack | OpRollbackFailed | OpNoop
| OpZero (* the zero value "" *).

#[global] Instance OpStatus_eq_dec : EqDecision OpStatus.
Proof. solve_decision. Defined.

Record InstallResult := {
  RAction : InstallAction;
  RVersion : string;
  RPresent : bool;
  RObserved : string;
  RLastKnownGood : string;
  ROpStatus : OpStatus;
  RFailure : string }.

Definition failed_result (a : InstallAction) (s : OpStatus) (failure : string) : InstallResult :=
  {| RAction := a; RVersion := ""; RPresent := false; RObserved := ""; RLastKnownGood := "";
     ROpStatus := s; RFailure := failure |}.

Definition observedResult (action : InstallAction) (status : OpStatus) (rel : HelmRelease)
    (lastGood failure : string) : InstallResult :=
  {| RAction := action; RVersion := RelChartVersion rel; RPresent := RelName rel != "";
     RObserved := RelChartVersion rel; RLastKnownGood := lastGood; ROpStatus := status;
     RFailure := failure |}.

Definition defaultReleaseAttempts : Z := 2.

(** [errors.Is(err, target)], [err] possibly nil. *)
Definition is_err (e : option err) (target : err) : bool :=
  match e with Some e => errors_is e target | None => false end.

Definition err_text (e : option err) : string :=
  match e with Some e => Error e | None => "" end.

Section Installer.
Context {W : Type} `{HelmClient W}.

(** The fields of a [HelmInstaller]; [HasClient] is [Client != nil]. *)
Context (HasClient AllowDowngrade : bool) (MaxAttempts : Z).

Definition attempts : nat := Z.to_nat (if (0 <? MaxAttempts)%Z then MaxAttempts else defaultReleaseAttempts).

Definition remembered (w : W) (ns name : string) : W * option HelmRelease :=
  match store with
  | Some st => LookupLastKnownGood st w ns name
  | None => (w, None)
  end.

Definition remember (w : W) (ns name : string) (rel : HelmRelease) : W :=
  match store with
  | Some st => RememberLastKnownGood st w ns name rel
  | None => w
  end.

(** What a call of the installer returns. *)
Definition ensured : Type := W * (InstallResult * option err).

(** Deployed at the pinned version. *)
Definition at_pin (rel : HelmRelease) (cfg : InstallConfig) : bool :=
  versionsEqual (RelChartVersion rel) (ChartVersion cfg) && (RelStatus rel == HelmStatusDeployed).

(** A present result has a version already, so the method's last assignment
    changes nothing; it is kept as the code has it. *)
Definition reconcileAfterFailure (w : W) (cfg : InstallConfig) (actual : HelmRelease)
    (lastGood : string) (e : err) (status : OpStatus) : ensured :=
  if (RelName actual != "") && at_pin actual cfg
  then (w, (observedResult InstallUpgraded OpSucceeded actual lastGood "", None))
  else
    let out := observedResult InstallFailed status actual lastGood (Error e) in
    let out := if RPresent out && (RVersion out == "")
               then {| RAction := RAction out; RVersion := RelChartVersion actual; RPresent := RPresent out;
                       RObserved := RObserved out; RLastKnownGood := RLastKnownGood out;
                       ROpStatus := ROpStatus out; RFailure := RFailure out |}
               else out in
    (w, (out, Some e)).

Definition rollbackAfterFailure (w : W) (cfg : InstallConfig) (actual before : HelmRelease)
    (lastGood : string) (lastErr : option err) : ensured :=
  let to := if lastGood == "" then RelChartVersion before else lastGood in
  if (to == "") || versionsEqual to (ChartVersion cfg) then
    (w, (observedResult InstallFailed OpFailed actual lastGood (err_text lastErr), lastErr))
  else
    let '(w, (rb, e)) := Rollback w cfg to in
    match e with
    | Some e =>
        let '(w, (got, getErr)) := GetRelease w (IcNamespace cfg) (ReleaseName cfg) in
        let cur := match getErr with None => got | Some _ => actual end in
        let msg := match lastErr with
                   | Some le => Error le +:+ "; " +:+ Error e
                   | None => Error e
                   end in
        (w, (observedResult InstallFailed OpRollbackFailed cur lastGood msg, Some ErrRollbackFailed))
    | None =>
        if negb (versionsEqual (RelChartVersion rb) to) || (RelStatus rb != HelmStatusDeployed) then
          (w, (observedResult InstallFailed OpRollbackFailed rb lastGood
                 "rollback did not restore last-known-good", Some ErrRollbackFailed))
        else (w, (observedResult InstallRolledBack OpRolledBack rb lastGood (err_text lastErr), None))
    end.

(** The loop over the attempts: [n] are left, [lastErr] is the last error. *)
Fixpoint upgrade_loop (n : nat) (w : W) (cfg : InstallConfig) (values : option (gmap string value))
    (before : HelmRelease) (lastGood : string) (lastErr : option err) : ensured :=
  match n with
  | O =>
      let '(w, (actual, _)) := GetRelease w (IcNamespace cfg) (ReleaseName cfg) in
      rollbackAfterFailure w cfg actual before lastGood lastErr
  | S n' =>
      match CtxErr w with
      | Some e =>
          let '(w, (actual, _)) := GetRelease w (IcNamespace cfg) (ReleaseName cfg) in
          reconcileAfterFailure w cfg actual lastGood e OpTimeout
      | None =>
          let '(w, (rel, e)) := Upgrade w cfg values in
          match e with
          | None =>
              if negb (versionsEqual (RelChartVersion rel) (ChartVersion cfg)) ||
                 (RelStatus rel != HelmStatusDeployed)
              then upgrade_loop n' w cfg values before lastGood
                     (Some (EFmt "upgrade did not reach the pin" []))
              else (w, (observedResult InstallUpgraded OpSucceeded rel lastGood "", None))
          | Some e =>
              let '(w, (actual, getErr)) := GetRelease w (IcNamespace cfg) (ReleaseName cfg) in
              let got := match getErr with None => true | Some _ => false end in
              if got && versionsEqual (RelChartVersion actual) (ChartVersion cfg) &&
                 (RelStatus actual == HelmStatusDeployed)
              then (w, (observedResult InstallUpgraded OpSucceeded actual lastGood "", None))
              else if errors_is e ErrReleaseUnknown then
                if got then (w, (observedResult InstallFailed OpUnknown actual lastGood (Error e), Some e))
                else (w, ({| RAction := InstallFailed; RVersion := ""; RPresent := false; RObserved := "";
                             RLastKnownGood := lastGood; ROpStatus := OpUnknown; RFailure := Error e |}, Some e))
              else if errors_is e ErrReleaseTimeout || errors_is e DeadlineExceeded || errors_is e Canceled then
                if got then reconcileAfterFailure w cfg actual lastGood e OpTimeout
                else (w, ({| RAction := InstallFailed; RVersion := ""; RPresent := false; RObserved := "";
                             RLastKnownGood := lastGood; ROpStatus := OpTimeout; RFailure := Error e |}, Some e))
              else upgrade_loop n' w cfg values before lastGood (Some e)
          end
      end
  end.

Definition upgradeOrRollback (w : W) (cfg : InstallConfig) (values : option (gmap string value))
    (before : HelmRelease) (lastGood : string) : ensured :=
  upgrade_loop attempts w cfg values before lastGood None.

Definition claimOrLeaveUnmanaged (w : W) (i : Intent) (cfg : InstallConfig) (rel : HelmRelease) : ensured :=
  if negb (AdoptExisting i) || negb (matchesPinnedRelease rel cfg) then
    (w, (observedResult InstallUnmanaged OpSucceeded rel "" "", None))
  else match claimer with
  | None => (w, (observedResult InstallUnmanaged OpSucceeded rel "" "", None))
  | Some ClaimRelease =>
      let '(w, (claimed, e)) := ClaimRelease w cfg in
      match e with
      | Some e => (w, (observedResult InstallFailed OpFailed rel "" (Error e), Some e))
      | None =>
          if negb (ManagedByAdapter claimed) || negb (matchesPinnedRelease claimed cfg) then
            (w, (observedResult InstallFailed OpFailed claimed ""
                   "claim did not produce the pinned owned release", Some ErrReleaseUnmanaged))
          else (w, (observedResult InstallAdopted OpSucceeded claimed "" "", None))
      end
  end.

(** The body of [Ensure] under the lock. *)
Definition ensure_locked (w : W) (i : Intent) (cfg : InstallConfig) : ensured :=
  let values := SafeHelmValues cfg in
  let '(w, (rel, e)) := GetRelease w (IcNamespace cfg) (ReleaseName cfg) in
  if is_err e ErrReleaseNotFound then
    let '(w, (rel, e)) := Install w cfg values in
    match e with
    | Some e => (w, (failed_result InstallFailed OpFailed (Error e), Some e))
    | None => (w, (observedResult InstallInstalled OpSucceeded rel "" "", None))
    end
  else match e with
  | Some e => (w, (failed_result InstallFailed OpFailed (Error e), Some e))
  | None =>
      if negb (ManagedByAdapter rel) then claimOrLeaveUnmanaged w i cfg rel
      else
        let dec := DecideReleaseAction (IVendor i) (RelChartVersion rel) (ChartVersion cfg) AllowDowngrade in
        let '(w, saved) := remembered w (IcNamespace cfg) (ReleaseName cfg) in
        let lastGood := match saved with Some s => RelChartVersion s | None => RelChartVersion rel end in
        match Action dec with
        | DecisionNoop => (w, (observedResult InstallNoop OpNoop rel lastGood "", None))
        | DecisionReject =>
            let e := ErrUnsupportedVersion in
            let e := if Contains (VMessage dec) (Error ErrDowngradeForbidden) then ErrDowngradeForbidden else e in
            let e := if Contains (VMessage dec) (Error ErrMalformedVersion) then ErrMalformedVersion else e in
            (w, (observedResult InstallSkipped OpFailed rel lastGood (VMessage dec), Some e))
        | _ =>
            let w := remember w (IcNamespace cfg) (ReleaseName cfg) rel in
            upgradeOrRollback w cfg values rel lastGood
        end
  end.

Definition Ensure (w : W) (i : Intent) : ensured :=
  match CtxErr w with
  | Some e => (w, (failed_result InstallFailed OpTimeout (Error e), Some e))
  | None =>
      if negb HasClient then
        (w, (failed_result InstallFailed OpFailed "", Some (EFmt "helm client is required" [])))
      else if IVendor i == VendorAMD then
        (w, ({| RAction := InstallSkipped; RVersion := PinnedVersion i; RPresent := false; RObserved := "";
                RLastKnownGood := ""; ROpStatus := OpZero; RFailure := "" |}, Some ErrNoVendorChart))
      else match DefaultInstallConfig (IVendor i) with
      | Err e => (w, (failed_result InstallFailed OpFailed "", Some e))
      | Ok cfg =>
          let '(cfg, pol) := ApplyVersionPolicy i cfg in
          if PSkew pol == SkewInvalidConfig then
            let fail := "install config is not the pinned allow-list" in
            (w, (failed_result InstallSkipped OpFailed fail, Some (EFmt "%s" [fail])))
          else match ValidateArtifactRef cfg with
          | Err e => (w, (failed_result InstallSkipped OpFailed (Error e), Some e))
          | Ok _ => ensure_locked w i cfg
          end
      end
  end.

End Installer.
