(* ===== verification/HelmInstallerFacts.v ===== *)
(** * What the Helm installer does to the cluster

    The first part watches the calls: [logged] wraps any client and records
    every operation, and the theorems are about the recorded sequence whatever
    the client answers.  The second part is about the result the caller gets. *)

From Stdlib Require Import Ascii.
From stdpp Require Import base gmap strings list fin_maps.
From S2P Require Import Prelude GoStrings Unstructured Version InstallConfig Release HelmInstaller.

(** ** A client that records its calls *)

Inductive HelmOp :=
| OGet (ns name : string)
| OInstall (cfg : InstallConfig) (values : option (gmap string value))
| OUpgrade (cfg : InstallConfig) (values : option (gmap string value))
| ORollback (cfg : InstallConfig) (to : string)
| OUninstall (cfg : InstallConfig)
| OClaim (cfg : InstallConfig)
| OLookup
| ORemember.

Section Logged.
Context {W : Type} `{HelmClient W}.

Definition record {A} (op : HelmOp) (log : list HelmOp) (r : W * A) : (W * list HelmOp) * A :=
  ((r.1, log ++ [op]), r.2).

#[global] Instance logged : HelmClient (W * list HelmOp) := {|
  CtxErr wl := CtxErr wl.1;
  GetRelease wl ns n := record (OGet ns n) wl.2 (GetRelease wl.1 ns n);
  Install wl cfg v := record (OInstall cfg v) wl.2 (Install wl.1 cfg v);
  Upgrade wl cfg v := record (OUpgrade cfg v) wl.2 (Upgrade wl.1 cfg v);
  Rollback wl cfg to := record (ORollback cfg to) wl.2 (Rollback wl.1 cfg to);
  Uninstall wl cfg := record (OUninstall cfg) wl.2 (Uninstall wl.1 cfg);
  store := match store with
           | Some st => Some {|
               RememberLastKnownGood wl ns n rel :=
                 (RememberLastKnownGood st wl.1 ns n rel, wl.2 ++ [ORemember]);
               LookupLastKnownGood wl ns n :=
                 record OLookup wl.2 (LookupLastKnownGood st wl.1 ns n) |}
           | None => None
           end;
  claimer := match claimer with
             | Some cl => Some (λ wl cfg, record (OClaim cfg) wl.2 (cl wl.1 cfg))
             | None => None
             end |}.

End Logged.

(** The operations that may change the cluster. *)
Definition mutates (op : HelmOp) : bool :=
  match op with OGet _ _ | OLookup | ORemember => false | _ => true end.

Definition is_upgrade (op : HelmOp) : bool := match op with OUpgrade _ _ => true | _ => false end.
Definition is_rollback (op : HelmOp) : bool := match op with ORollback _ _ => true | _ => false end.

(** A call with the pinned settings and the fixed values, never an uninstall. *)
Definition op_pinned (cfg : InstallConfig) (op : HelmOp) : Prop :=
  match op with
  | OGet ns n => ns = IcNamespace cfg ∧ n = ReleaseName cfg
  | OInstall c v | OUpgrade c v => c = cfg ∧ v = SafeHelmValues cfg
  | ORollback c _ | OClaim c => c = cfg
  | OUninstall _ => False
  | OLookup | ORemember => True
  end.

Definition upgrades (l : list HelmOp) : nat := length (List.filter is_upgrade l).
Definition rollbacks (l : list HelmOp) : nat := length (List.filter is_rollback l).

(** The result reports that the cluster was left alone. *)
Definition quiet (a : InstallAction) : bool :=
  match a with InstallUnmanaged | InstallNoop | InstallSkipped => true | _ => false end.

(** What a run appends to the log: [l], with at most [u] upgrades and one
    rollback. *)
Record run_ok (cfg : InstallConfig) (u : nat) (r : InstallResult) (l : list HelmOp) : Prop := {
  ro_pinned : Forall (op_pinned cfg) l;
  ro_upgrades : upgrades l ≤ u;
  ro_rollbacks : rollbacks l ≤ 1;
  ro_quiet : quiet (RAction r) = true → Forall (λ op, mutates op = false) l;
  ro_length : length l ≤ 2 * u + 6 }.

Ltac destruct_lets :=
  repeat match goal with
  | |- context [let '(_, _) := ?x in _] => let E := fresh "E" in destruct x as [? ?] eqn:E
  end.

(** The obligations of [tail_ok] on a concrete list of calls. *)
Ltac tail_ok_concrete :=
  split; [by repeat (apply Forall_cons; split); try apply Forall_nil
         |unfold upgrades; cbn; lia|unfold rollbacks; cbn; lia|try done|cbn; lia].

Section Watch.
Context {W : Type} `{HelmClient W}.
Context (HasClient AllowDowngrade : bool) (MaxAttempts : Z).

(** The run of a logged computation appends [l] with the property [P]. *)
Definition appends (log : list HelmOp) (x : (W * list HelmOp) * (InstallResult * option err))
    (P : InstallResult → list HelmOp → Prop) : Prop :=
  ∃ l, x.1.2 = log ++ l ∧ P x.2.1 l.

(** Fewer obligations: what the upgrade path appends. *)
Record tail_ok (cfg : InstallConfig) (u k : nat) (r : InstallResult) (l : list HelmOp) : Prop := {
  to_pinned : Forall (op_pinned cfg) l;
  to_upgrades : upgrades l ≤ u;
  to_rollbacks : rollbacks l ≤ 1;
  to_loud : quiet (RAction r) = false;
  to_length : length l ≤ k }.

Lemma reconcile_tail wl log cfg actual lastGood e status u k :
  appends log (reconcileAfterFailure (W := W * list HelmOp) (wl, log) cfg actual lastGood e status)
    (tail_ok cfg u k).
Proof.
  exists []. unfold reconcileAfterFailure.
  destruct (_ && _); cbn; [|destruct (_ && _); cbn];
    (split; [by rewrite app_nil_r|]); tail_ok_concrete.
Qed.

Lemma rollback_tail wl log cfg actual before lastGood e :
  appends log (rollbackAfterFailure (W := W * list HelmOp) (wl, log) cfg actual before lastGood e)
    (tail_ok cfg 0 2).
Proof.
  unfold rollbackAfterFailure. cbv zeta. destruct (_ || _).
  { exists []. rewrite app_nil_r. split; [done|]. tail_ok_concrete. }
  set (to := if bool_decide (lastGood = "") then RelChartVersion before else lastGood).
  cbn [Rollback logged fst snd]. unfold record at 1. cbn [fst snd].
  destruct (Rollback wl cfg to) as [w1 [rb [e1|]]]; cbn [fst snd].
  - cbn [GetRelease logged fst snd]. unfold record at 1. cbn [fst snd].
    destruct (GetRelease w1 _ _) as [w2 [got ge]]; cbn [fst snd].
    exists [ORollback cfg to; OGet (IcNamespace cfg) (ReleaseName cfg)].
    split; [by destruct ge, e; cbn; rewrite <- app_assoc|].
    tail_ok_concrete; by destruct ge, e.
  - exists [ORollback cfg to].
    destruct (_ || _); (split; [done|]); tail_ok_concrete.
Qed.

Lemma tail_cons cfg u k r l ops :
  Forall (op_pinned cfg) ops → rollbacks ops = 0 →
  tail_ok cfg u k r l →
  tail_ok cfg (upgrades ops + u) (length ops + k) r (ops ++ l).
Proof.
  intros Hp Hr [H1 H2 H3 H4 H5]. split; [by apply Forall_app| | |done|rewrite length_app; lia].
  - unfold upgrades in *. rewrite List.filter_app, length_app. lia.
  - unfold rollbacks in *. rewrite List.filter_app, length_app. lia.
Qed.

Lemma tail_weaken cfg u u' k k' r l :
  u ≤ u' → k ≤ k' → tail_ok cfg u k r l → tail_ok cfg u' k' r l.
Proof. intros ? ? []. split; try done; lia. Qed.

Lemma appends_cons log ops x cfg u k u' k' :
  Forall (op_pinned cfg) ops → rollbacks ops = 0 →
  upgrades ops + u ≤ u' → length ops + k ≤ k' →
  appends (log ++ ops) x (tail_ok cfg u k) → appends log x (tail_ok cfg u' k').
Proof.
  intros Hp Hr Hu Hk (l & El & Ht). exists (ops ++ l). split; [by rewrite El, <- app_assoc|].
  eapply tail_weaken; [| |by apply tail_cons]; lia.
Qed.

Lemma upgrade_loop_tail n wl log cfg before lastGood le :
  appends log (upgrade_loop (W := W * list HelmOp) n (wl, log) cfg (SafeHelmValues cfg) before lastGood le)
    (tail_ok cfg n (2 * n + 3)).
Proof.
  revert wl log le. induction n as [|n IH]; intros wl log le; cbn [upgrade_loop].
  - cbn [GetRelease logged fst snd]. unfold record at 1. cbn [fst snd].
    destruct (GetRelease wl _ _) as [w1 [actual ge]]; cbn [fst snd].
    apply (appends_cons _ [OGet (IcNamespace cfg) (ReleaseName cfg)] _ _ 0 2); [by repeat constructor|done|done|done|].
    apply rollback_tail.
  - cbn [CtxErr logged fst]. destruct (CtxErr wl) as [e|].
    { cbn [GetRelease logged fst snd]. unfold record at 1. cbn [fst snd].
      destruct (GetRelease wl _ _) as [w1 [actual ge]]; cbn [fst snd].
      apply (appends_cons _ [OGet (IcNamespace cfg) (ReleaseName cfg)] _ _ 0 2);
        [by repeat constructor|done|unfold upgrades; cbn; lia|cbn; lia|].
      apply reconcile_tail. }
    cbn [Upgrade logged fst snd]. unfold record at 1. cbn [fst snd].
    destruct (Upgrade wl _ _) as [w1 [rel [e|]]]; cbn [fst snd].
    + cbn [GetRelease logged fst snd]. unfold record at 1. cbn [fst snd].
      destruct (GetRelease w1 _ _) as [w2 [actual ge]]; cbn [fst snd]. cbv zeta.
      rewrite <- app_assoc.
      apply (appends_cons _ [OUpgrade cfg (SafeHelmValues cfg); OGet (IcNamespace cfg) (ReleaseName cfg)]
               _ _ n (2 * n + 3)); [by repeat constructor|done|unfold upgrades; cbn; lia|cbn; lia|].
      assert (Hstop : ∀ r oe, quiet (RAction r) = false →
        appends (log ++ [OUpgrade cfg (SafeHelmValues cfg); OGet (IcNamespace cfg) (ReleaseName cfg)])
          (w2, log ++ [OUpgrade cfg (SafeHelmValues cfg); OGet (IcNamespace cfg) (ReleaseName cfg)], (r, oe))
          (tail_ok cfg n (2 * n + 3))).
      { intros r oe Hr. exists []. rewrite app_nil_r. split; [done|]. tail_ok_concrete. }
      destruct (_ && _ && _); [by apply Hstop|].
      destruct (errors_is e ErrReleaseUnknown); [by destruct ge; apply Hstop|].
      destruct (_ || _ || _); [|apply IH].
      destruct ge; [by apply Hstop|]. apply reconcile_tail.
    + apply (appends_cons _ [OUpgrade cfg (SafeHelmValues cfg)] _ _ n (2 * n + 3));
        [by repeat constructor|done|unfold upgrades; cbn; lia|cbn; lia|].
      destruct (_ || _); [apply IH|].
      exists []. rewrite app_nil_r. split; [done|]. tail_ok_concrete.
Qed.

(** A loud tail after calls that change nothing. *)
Lemma run_of_tail cfg u k r ops l :
  Forall (op_pinned cfg) ops → upgrades ops = 0 → rollbacks ops = 0 → length ops + k ≤ 2 * u + 6 →
  tail_ok cfg u k r l → run_ok cfg u r (ops ++ l).
Proof.
  intros Hp Hu Hr Hk Ht. destruct (tail_cons _ _ _ _ _ ops Hp Hr Ht) as [H1 H2 H3 H4 H5].
  split; [done|lia|done|by rewrite H4|lia].
Qed.

(** A run of one or two calls. *)
Ltac run_concrete l :=
  exists l; split; [cbn; by rewrite ?app_nil_r, <- ?app_assoc|];
  split; [by repeat (apply Forall_cons; split); try apply Forall_nil
         |unfold upgrades; cbn; lia|unfold rollbacks; cbn; lia
         |first [done | intros _; by repeat (apply Forall_cons; split); try apply Forall_nil]|cbn; lia].

Notation get_op cfg := (OGet (IcNamespace cfg) (ReleaseName cfg)).

Lemma claim_run w log0 i cfg rel :
  appends log0 (claimOrLeaveUnmanaged (W := W * list HelmOp) (w, log0 ++ [get_op cfg]) i cfg rel)
    (run_ok cfg (attempts MaxAttempts)).
Proof.
  unfold claimOrLeaveUnmanaged. destruct (_ || _); [run_concrete [get_op cfg]|].
  cbn [claimer logged]. destruct claimer as [cl|]; [|run_concrete [get_op cfg]].
  unfold record. cbn [fst snd]. destruct (cl w cfg) as [w1 [claimed [e|]]]; cbn [fst snd].
  - run_concrete [get_op cfg; OClaim cfg].
  - destruct (_ || _); run_concrete [get_op cfg; OClaim cfg].
Qed.

Lemma ensure_locked_run w log i cfg :
  appends log (ensure_locked (W := W * list HelmOp) AllowDowngrade MaxAttempts (w, log) i cfg)
    (run_ok cfg (attempts MaxAttempts)).
Proof.
  unfold ensure_locked. cbv zeta. cbn [GetRelease logged fst snd]. unfold record at 1. cbn [fst snd].
  destruct (GetRelease w _ _) as [w1 [rel ge]]; cbn [fst snd].
  destruct (is_err ge ErrReleaseNotFound).
  { cbn [Install logged fst snd]. unfold record at 1. cbn [fst snd].
    destruct (Install w1 _ _) as [w2 [rel' [e|]]]; cbn [fst snd];
      run_concrete [get_op cfg; OInstall cfg (SafeHelmValues cfg)]. }
  destruct ge as [e|]; [run_concrete [get_op cfg]|].
  destruct (negb (ManagedByAdapter rel)); [apply claim_run|].
  set (dec := DecideReleaseAction _ _ _ _). unfold remembered, remember, upgradeOrRollback.
  cbn [store logged]. destruct store as [st|].
  - cbn [LookupLastKnownGood RememberLastKnownGood fst snd]. unfold record. cbn [fst snd].
    destruct (LookupLastKnownGood st w1 _ _) as [w2 saved]; cbn [fst snd].
    set (lg := match saved with Some s => _ | None => _ end).
    destruct (Action dec); [| run_concrete [get_op cfg; OLookup] | | run_concrete [get_op cfg; OLookup]].
    all: rewrite <- !app_assoc.
    all: match goal with |- appends _ (upgrade_loop _ (?w', ?log') _ _ ?b ?g ?l) _ =>
           destruct (upgrade_loop_tail (attempts MaxAttempts) w' log' cfg b g l) as (t & Et & Ht) end.
    all: exists ([get_op cfg; OLookup; ORemember] ++ t); split; [by rewrite Et, <- app_assoc|].
    all: eapply run_of_tail; [by repeat (apply Forall_cons; split); try apply Forall_nil|done|done| |done]; cbn; lia.
  - destruct (Action dec); [| run_concrete [get_op cfg] | | run_concrete [get_op cfg]].
    all: match goal with |- appends _ (upgrade_loop _ (?w', ?log') _ _ ?b ?g ?l) _ =>
           destruct (upgrade_loop_tail (attempts MaxAttempts) w' log' cfg b g l) as (t & Et & Ht) end.
    all: exists ([get_op cfg] ++ t); split; [by rewrite Et, <- app_assoc|].
    all: eapply run_of_tail; [by repeat (apply Forall_cons; split); try apply Forall_nil|done|done| |done]; cbn; lia.
Qed.

(** Before the lock nothing is called. *)
Lemma Ensure_run w i :
  appends [] (Ensure (W := W * list HelmOp) HasClient AllowDowngrade MaxAttempts (w, []) i)
    (run_ok (pinned VendorNVIDIA) (attempts MaxAttempts)).
Proof.
  unfold Ensure. cbn [CtxErr logged fst].
  destruct (CtxErr w); [run_concrete (@nil HelmOp)|].
  destruct (negb HasClient); [run_concrete (@nil HelmOp)|].
  case_bool_decide; [run_concrete (@nil HelmOp)|].
  destruct (DefaultInstallConfig (IVendor i)) as [cfg|e] eqn:Ed; [|run_concrete (@nil HelmOp)].
  destruct (ApplyVersionPolicy i cfg) as [cfg' pol] eqn:Ep.
  apply (f_equal fst) in Ep. rewrite ApplyVersionPolicy_cfg in Ep. cbn in Ep. subst cfg'.
  case_bool_decide; [run_concrete (@nil HelmOp)|].
  destruct (ValidateArtifactRef cfg) as [[]|e] eqn:Ev; [|run_concrete (@nil HelmOp)].
  rewrite <- (Default_artifact _ _ Ed Ev). apply ensure_locked_run.
Qed.

End Watch.

(** ** What the result says *)

Definition op_ok (s : OpStatus) : bool :=
  match s with OpSucceeded | OpNoop | OpRolledBack => true | _ => false end.

(** A nil error means success and nothing else does; an upgrade is only
    reported on a release seen at the pin, a rollback only on one that is not. *)
Record honest (cfg : InstallConfig) (r : InstallResult) (e : option err) : Prop := {
  ho_err : e = None ↔ op_ok (ROpStatus r) = true;
  ho_upgraded : RAction r = InstallUpgraded → e = None ∧ versionsEqual (RObserved r) (ChartVersion cfg) = true;
  ho_rolled : RAction r = InstallRolledBack → e = None ∧ versionsEqual (RObserved r) (ChartVersion cfg) = false }.

Lemma versionsEqual_spec a b :
  versionsEqual a b = true ↔ ∃ v, parseVersion a = Ok v ∧ parseVersion b = Ok v.
Proof.
  unfold versionsEqual, compareReleaseVersions.
  destruct (parseVersion a) as [va|], (parseVersion b) as [vb|]; try naive_solver.
  rewrite bool_decide_eq_true, compare_eq. naive_solver.
Qed.

Lemma versionsEqual_trans a b c :
  versionsEqual a b = true → versionsEqual a c = true → versionsEqual b c = true.
Proof. rewrite !versionsEqual_spec. intros (v & ? & ?) (v' & ? & ?). exists v. split; congruence. Qed.

Ltac honest_concrete := split; cbn; [by split|done|done].

Section Honest.
Context {W : Type} `{HelmClient W}.
Context (HasClient AllowDowngrade : bool) (MaxAttempts : Z).

Lemma attempts_pos : attempts MaxAttempts ≠ 0.
Proof. unfold attempts, defaultReleaseAttempts. destruct (Z.ltb_spec 0 MaxAttempts); lia. Qed.

Lemma reconcile_honest (w : W) cfg actual lastGood e :
  let x := reconcileAfterFailure w cfg actual lastGood e OpTimeout in honest cfg x.2.1 x.2.2.
Proof.
  unfold reconcileAfterFailure. destruct (_ && _) eqn:E; cbn.
  - apply andb_true_iff in E as [_ E]. apply andb_true_iff in E as [E _]. by split.
  - destruct (bool_decide (RelName actual = "")), (bool_decide (RelChartVersion actual = ""));
      honest_concrete.
Qed.

Lemma rollback_honest (w : W) cfg actual before lastGood e :
  e ≠ None →
  let x := rollbackAfterFailure w cfg actual before lastGood e in honest cfg x.2.1 x.2.2.
Proof.
  intros He. unfold rollbackAfterFailure. cbv zeta.
  set (to := if bool_decide (lastGood = "") then RelChartVersion before else lastGood).
  destruct (_ || _) eqn:Eto; [by split; cbn|].
  apply orb_false_iff in Eto as [_ Eto].
  destruct (Rollback w cfg to) as [w1 [rb [e1|]]].
  - destruct (GetRelease w1 _ _) as [w2 [got ge]]. cbn. honest_concrete.
  - destruct (_ || _) eqn:Erb; cbn; [honest_concrete|].
    apply orb_false_iff in Erb as [Erb _]. apply negb_false_iff in Erb.
    split; cbn; [done|done|]. intros _. split; [done|].
    apply not_true_iff_false. intros Hpin.
    rewrite (versionsEqual_trans _ _ _ Erb Hpin) in Eto. done.
Qed.

Lemma upgrade_loop_honest n (w : W) cfg values before lastGood le :
  (n = 0 → le ≠ None) →
  let x := upgrade_loop n w cfg values before lastGood le in honest cfg x.2.1 x.2.2.
Proof.
  revert w le. induction n as [|n IH]; intros w le Hle; cbn [upgrade_loop].
  - destruct (GetRelease w _ _) as [w1 [actual ge]]. apply rollback_honest, Hle. done.
  - destruct (CtxErr w) as [e|].
    { destruct (GetRelease w _ _) as [w1 [actual ge]]. apply reconcile_honest. }
    destruct (Upgrade w cfg values) as [w1 [rel [e|]]].
    + destruct (GetRelease w1 _ _) as [w2 [actual ge]]. cbv zeta.
      destruct (_ && _ && _) eqn:Ea.
      { apply andb_true_iff in Ea as [Ea _]. apply andb_true_iff in Ea as [_ Ea]. by split. }
      destruct (errors_is e ErrReleaseUnknown); [destruct ge; honest_concrete|].
      destruct (_ || _ || _); [|by apply IH].
      destruct ge; [honest_concrete|apply reconcile_honest].
    + destruct (_ || _) eqn:Er; [by apply IH|]. apply orb_false_iff in Er as [Er _].
      apply negb_false_iff in Er. by split.
Qed.

Lemma ensure_locked_honest (w : W) i cfg :
  let x := ensure_locked AllowDowngrade MaxAttempts w i cfg in honest cfg x.2.1 x.2.2.
Proof.
  unfold ensure_locked, upgradeOrRollback, claimOrLeaveUnmanaged. cbv zeta.
  destruct (GetRelease w _ _) as [w1 [rel ge]].
  destruct (is_err ge ErrReleaseNotFound).
  { destruct (Install w1 _ _) as [w2 [rel' [e|]]]; honest_concrete. }
  destruct ge as [e|]; [honest_concrete|].
  destruct (negb (ManagedByAdapter rel)).
  { destruct (_ || _); [honest_concrete|]. destruct claimer as [cl|]; [|honest_concrete].
    destruct (cl w1 cfg) as [w2 [claimed [e|]]]; [honest_concrete|].
    destruct (_ || _); honest_concrete. }
  destruct (remembered w1 _ _) as [w2 saved].
  destruct (Action _); [|honest_concrete| |honest_concrete].
  all: apply upgrade_loop_honest; intros E0; by destruct attempts_pos.
Qed.

Lemma Ensure_honest_lemma (w : W) i :
  let x := Ensure HasClient AllowDowngrade MaxAttempts w i in honest (pinned VendorNVIDIA) x.2.1 x.2.2.
Proof.
  unfold Ensure. destruct (CtxErr w); [honest_concrete|].
  destruct (negb HasClient); [honest_concrete|].
  destruct (bool_decide (IVendor i = VendorAMD)); [honest_concrete|].
  destruct (DefaultInstallConfig (IVendor i)) as [cfg|e] eqn:Ed; [|honest_concrete].
  destruct (ApplyVersionPolicy i cfg) as [cfg' pol] eqn:Ep.
  apply (f_equal fst) in Ep. rewrite ApplyVersionPolicy_cfg in Ep. cbn in Ep. subst cfg'.
  destruct (bool_decide (PSkew pol = SkewInvalidConfig)); [honest_concrete|].
  destruct (ValidateArtifactRef cfg) as [[]|e] eqn:Ev; [|honest_concrete].
  rewrite <- (Default_artifact _ _ Ed Ev). apply ensure_locked_honest.
Qed.

(** Whatever the Helm client answers, a call of Ensure only ever acts on
    the one pinned release: every install, upgrade, rollback and claim it sends
    carries the pinned NVIDIA settings and the fixed values, and it never
    uninstalls. *)
Theorem Ensure_touches_only_pin (w : W) i :
  let x := Ensure (W := W * list HelmOp) HasClient AllowDowngrade MaxAttempts (w, []) i in
  Forall (op_pinned (pinned VendorNVIDIA)) x.1.2.
Proof.
  destruct (Ensure_run HasClient AllowDowngrade MaxAttempts w i) as (l & El & []).
  cbv zeta. by rewrite El.
Qed.

(** [C39] Ensure ends after a bounded number of calls: at most MaxAttempts
    upgrades (two by default), one rollback, and two calls per attempt plus six
    in all. *)
Theorem Ensure_bounded (w : W) i :
  let x := Ensure (W := W * list HelmOp) HasClient AllowDowngrade MaxAttempts (w, []) i in
  upgrades x.1.2 ≤ attempts MaxAttempts ∧ rollbacks x.1.2 ≤ 1 ∧
  length x.1.2 ≤ 2 * attempts MaxAttempts + 6.
Proof.
  destruct (Ensure_run HasClient AllowDowngrade MaxAttempts w i) as (l & El & []).
  cbv zeta. by rewrite El.
Qed.

(** A result that says the cluster was left alone (unmanaged, no-op,
    skipped) is true: no install, upgrade, rollback, uninstall or claim was
    sent.  In particular a release this adapter does not own and was not asked
    to adopt is not touched, and AMD never reaches Helm. *)
Theorem Ensure_quiet_untouched (w : W) i :
  let x := Ensure (W := W * list HelmOp) HasClient AllowDowngrade MaxAttempts (w, []) i in
  quiet (RAction x.2.1) = true → Forall (λ op, mutates op = false) x.1.2.
Proof.
  destruct (Ensure_run HasClient AllowDowngrade MaxAttempts w i) as (l & El & []).
  cbv zeta. by rewrite El.
Qed.

(** [C1] The result of Ensure is honest for every client: the error is nil
    exactly when the operation status is succeeded, noop or rolled_back (so a
    timeout, an unknown outcome or a failed rollback is never reported as
    success), an upgrade is only reported on a release observed at the pinned
    version, and a rollback only on one observed at another version. *)
Theorem Ensure_honest (w : W) i :
  let x := Ensure HasClient AllowDowngrade MaxAttempts w i in honest (pinned VendorNVIDIA) x.2.1 x.2.2.
Proof. apply Ensure_honest_lemma. Qed.

End Honest.
