(* ===== verification/HelmMemory.v ===== *)
(** * The installer over the in-process client

    [MemoryHelmClient] discharges the installer's interface: ownership
    classification, what the client refuses to touch, convergence to the pin,
    and rollback to the last-known-good release. *)

From Stdlib Require Import Ascii.
From stdpp Require Import base gmap strings list fin_maps.
From S2P Require Import Prelude GoStrings Unstructured Version InstallConfig Release HelmInstaller HelmInstallerFacts.

Definition pin : InstallConfig := pinned VendorNVIDIA.
Definition pin_key : string := releaseKey DefaultNamespace NVIDIAReleaseName.

Lemma pin_required : requirePinnedConfig pin = Ok tt.
Proof. vm_compute. reflexivity. Qed.

Lemma pin_cfg_key : releaseKey (IcNamespace pin) (ReleaseName pin) = pin_key.
Proof. done. Qed.

(** The client's operations work on the pinned configuration only. *)
Lemma required_is_pin cfg : requirePinnedConfig cfg = Ok tt → cfg = pinned (Vendor cfg).
Proof. unfold requirePinnedConfig. rewrite seq_ok. by intros [[? _]%ValidateArtifactRef_ok _]. Qed.

Lemma required_key cfg :
  requirePinnedConfig cfg = Ok tt → releaseKey (IcNamespace cfg) (ReleaseName cfg) = pin_key.
Proof. intros ->%required_is_pin. done. Qed.

(** ** Ownership *)

(** The label, trimmed as the classification does. *)
Definition trimmed (rel : HelmRelease) (k : string) : string := TrimSpace (label (Labels rel) k).

Lemma ownership_delete rel :
  AllowsDelete (ClassifyReleaseOwnership rel) = true ↔
  RelName rel ≠ "" ∧ Labels rel ≠ None ∧ trimmed rel ReleaseOwnerLabel = ReleaseOwner ∧
  trimmed rel helmStorageOwnerLabel ∈ [""; helmStorageOwner; ReleaseOwner] ∧
  ContainsAny (trimmed rel ReleaseModeLabel) list_chars = false.
Proof.
  unfold ClassifyReleaseOwnership. fold (trimmed rel ReleaseOwnerLabel) (trimmed rel helmStorageOwnerLabel)
    (trimmed rel ReleaseModeLabel).
  set (o := trimmed rel ReleaseOwnerLabel). set (h := trimmed rel helmStorageOwnerLabel).
  set (m := trimmed rel ReleaseModeLabel). clearbody o h m.
  destruct (bool_decide_reflect (RelName rel = "")) as [|Hn]; [cbn; naive_solver|].
  destruct (Labels rel) as [ls|]; [|cbn; naive_solver]. cbv zeta.
  rewrite !elem_of_cons, elem_of_nil.
  destruct (decide (o = ReleaseOwner)) as [->|Ho].
  - change (ContainsAny ReleaseOwner list_chars) with false. cbn [orb].
    destruct (ContainsAny m list_chars); [cbn; naive_solver|].
    rewrite (bool_decide_false (ReleaseOwner = "")) by done.
    rewrite (bool_decide_true (ReleaseOwner = ReleaseOwner)) by done. cbn [andb negb].
    destruct (decide (h = helmStorageOwner)) as [->|Hh].
    + rewrite bool_decide_true by done. cbn. destruct (bool_decide (m = _)); cbn; naive_solver.
    + rewrite (bool_decide_false (h = helmStorageOwner)) by done.
      destruct (decide (h = "")) as [->|He]; [cbn; destruct (bool_decide (m = _)); cbn; naive_solver|].
      rewrite (bool_decide_false (h = "")) by done. cbn [negb andb].
      destruct (decide (ReleaseOwner = h)) as [<-|Hr].
      * rewrite bool_decide_true by done. cbn. destruct (bool_decide (m = _)); cbn; naive_solver.
      * rewrite bool_decide_false by done. cbn. naive_solver.
  - destruct (_ || _); [cbn; naive_solver|].
    rewrite (bool_decide_false (o = ReleaseOwner)) by done.
    set (h' := if bool_decide (h = helmStorageOwner) then "" else h). clearbody h'.
    destruct (bool_decide_reflect (o = "")); cbn [andb negb].
    + destruct (bool_decide (h' = "")); [destruct (bool_decide (h = helmStorageOwner))|]; cbn; naive_solver.
    + destruct (_ && _); cbn; naive_solver.
Qed.

(** Verified ownership, exactly: a release may be deleted only if it is
    named, labelled with this adapter as its owner, has no other owner in
    Helm's storage label, and its mode label is a single word; then the class
    is controller-owned when the mode is [installed] and adopted otherwise. *)
Theorem Ownership_verified_iff rel :
  let c := ClassifyReleaseOwnership rel in
  (AllowsDelete c = true ↔
   RelName rel ≠ "" ∧ Labels rel ≠ None ∧ trimmed rel ReleaseOwnerLabel = ReleaseOwner ∧
   trimmed rel helmStorageOwnerLabel ∈ [""; helmStorageOwner; ReleaseOwner] ∧
   ContainsAny (trimmed rel ReleaseModeLabel) list_chars = false) ∧
  (OKind c = OwnershipController → trimmed rel ReleaseModeLabel = ReleaseModeInstalled) ∧
  (OKind c = OwnershipAdopted → trimmed rel ReleaseModeLabel ≠ ReleaseModeInstalled).
Proof.
  split; [apply ownership_delete|].
  unfold ClassifyReleaseOwnership. fold (trimmed rel ReleaseModeLabel). cbv zeta.
  repeat match goal with
  | |- context [match Labels rel with _ => _ end] => destruct (Labels rel)
  | |- context [if bool_decide (?x = ReleaseModeInstalled) then _ else _] =>
      destruct (bool_decide_reflect (x = ReleaseModeInstalled))
  | |- context [if ?b then ?x else ?y] =>
      match type of x with OwnershipClass => destruct b end
  end; cbn; by split.
Qed.

(** ** What the client leaves alone *)

Inductive mem_op :=
| MInstall (cfg : InstallConfig) | MUpgrade (cfg : InstallConfig) | MRollback (cfg : InstallConfig) (to : string)
| MUninstall (cfg : InstallConfig) | MRemember (ns name : string) (rel : HelmRelease)
| MClaim (cfg : InstallConfig) | MGet (ns name : string).

Definition mem_apply (m : MemoryHelmClient) (op : mem_op) : MemoryHelmClient :=
  match op with
  | MInstall cfg => (mem_install m cfg (SafeHelmValues cfg)).1
  | MUpgrade cfg => (mem_upgrade m cfg (SafeHelmValues cfg)).1
  | MRollback cfg to => (mem_rollback m cfg to).1
  | MUninstall cfg => (mem_uninstall m cfg).1
  | MRemember ns n rel => mem_remember m ns n rel
  | MClaim cfg => (mem_claim m cfg).1
  | MGet ns n => (mem_get m ns n).1
  end.

(** Owned by somebody else. *)
Definition external (rel : HelmRelease) : Prop := OKind (ClassifyReleaseOwnership rel) = OwnershipExternal.

Lemma external_not_deletable rel : external rel → AllowsDelete (ClassifyReleaseOwnership rel) = false.
Proof. intros E. unfold AllowsDelete. by rewrite E. Qed.

Lemma owner_TrimSpace : TrimSpace ReleaseOwner = ReleaseOwner.
Proof. vm_compute. reflexivity. Qed.

(** A release with our exact owner label is never classified as external. *)
Lemma managed_not_external rel : ManagedByAdapter rel = true → ¬ external rel.
Proof.
  unfold external, ClassifyReleaseOwnership, ManagedByAdapter. cbv zeta.
  destruct (Labels rel) as [ls|]; [|done]. rewrite bool_decide_eq_true. intros ->.
  rewrite owner_TrimSpace.
  rewrite (bool_decide_false (ReleaseOwner = "")), (bool_decide_true (ReleaseOwner = ReleaseOwner)) by done.
  cbn [andb negb].
  repeat match goal with
  | |- context [if ?b then ?x else ?y] => match type of x with OwnershipClass => destruct b end
  end; by cbn.
Qed.

Lemma external_not_managed rel : external rel → ManagedByAdapter rel = false.
Proof. intros He. destruct (ManagedByAdapter rel) eqn:E; [|done]. by apply managed_not_external in E. Qed.

(** One operation keeps an external release and everything off the pinned key. *)
Lemma mem_apply_keeps m op k rel :
  rels m !! k = Some rel →
  (k ≠ pin_key ∨ external rel ∧ ∀ cfg, op = MClaim cfg → matchesPinnedRelease rel cfg = false) →
  rels (mem_apply m op) !! k = Some rel.
Proof.
  intros Hk Hor. destruct op as [cfg|cfg|cfg to|cfg|ns n r|cfg|ns n]; cbn [mem_apply].
  - unfold mem_install. destruct (requirePinnedConfig cfg) as [[]|] eqn:Ep; [|done].
    rewrite (required_key _ Ep). destruct (rels m !! pin_key) eqn:E; [done|].
    destruct (injected _ _ _); [done|]. cbn. rewrite lookup_insert_ne; [done|]. congruence.
  - unfold mem_upgrade. destruct (requirePinnedConfig cfg) as [[]|] eqn:Ep; [|done].
    rewrite (required_key _ Ep). cbv zeta. cbn [rels count_upgrade begin_ with_counts with_inflight].
    destruct (rels m !! pin_key) as [ex|] eqn:E; [|done].
    destruct (ManagedByAdapter ex) eqn:Em; cbn [negb]; [|done].
    assert (k ≠ pin_key).
    { destruct Hor as [|[He _]]; [done|]. intros ->. simplify_eq. by rewrite external_not_managed in Em. }
    repeat case_match; cbn; rewrite ?lookup_insert_ne by done; done.
  - unfold mem_rollback. destruct (requirePinnedConfig cfg) as [[]|] eqn:Ep; [|done].
    destruct (ValidateReleaseVersion to); [|done].
    rewrite (required_key _ Ep). cbv zeta. cbn [rels count_rollback with_counts].
    destruct (rels m !! pin_key) as [ex|] eqn:E; [|done].
    destruct (ManagedByAdapter ex) eqn:Em; cbn [negb]; [|done].
    assert (k ≠ pin_key).
    { destruct Hor as [|[He _]]; [done|]. intros ->. simplify_eq. by rewrite external_not_managed in Em. }
    repeat case_match; cbn; rewrite ?lookup_insert_ne by done; done.
  - unfold mem_uninstall. destruct (requirePinnedConfig cfg) as [[]|] eqn:Ep; [|done].
    rewrite (required_key _ Ep). cbv zeta. cbn [rels count_uninstall with_counts].
    destruct (rels m !! pin_key) as [ex|] eqn:E; [|done].
    destruct (AllowsDelete (ClassifyReleaseOwnership ex)) eqn:Ea; cbn [negb]; [|done].
    assert (pin_key ≠ k).
    { destruct Hor as [|[He _]]; [done|]. intros <-. simplify_eq. by rewrite external_not_deletable in Ea. }
    case_match; [done|]. cbn. by rewrite lookup_delete_ne.
  - done.
  - unfold mem_claim. destruct (requirePinnedConfig cfg) as [[]|] eqn:Ep; [|done].
    rewrite (required_key _ Ep). destruct (rels m !! pin_key) as [ex|] eqn:E; [|done].
    destruct (matchesPinnedRelease ex cfg) eqn:Em; cbn [negb]; [|done].
    cbn. rewrite lookup_insert_ne; [done|]. intros <-. simplify_eq.
    destruct Hor as [|[_ Hc]]; [done|]. by rewrite (Hc cfg) in Em.
  - unfold mem_get. by case_match.
Qed.

(** Through any sequence of client operations, a release that belongs to
    another owner and is not a pinned release to be claimed stays exactly as
    it was, and so does every release other than the pinned one. *)
Theorem Memory_keeps_external m ops k rel :
  rels m !! k = Some rel →
  (k ≠ pin_key ∨ external rel ∧ ∀ cfg, MClaim cfg ∈ ops → matchesPinnedRelease rel cfg = false) →
  rels (foldl mem_apply m ops) !! k = Some rel.
Proof.
  revert m. induction ops as [|op ops IH]; intros m Hk Hor; [done|]. cbn [foldl].
  apply IH.
  - apply mem_apply_keeps; [done|]. destruct Hor as [?|[? Hc]]; [by left|right].
    split; [done|]. intros cfg ->. apply Hc. by left.
  - destruct Hor as [?|[? Hc]]; [by left|right]. split; [done|]. intros cfg Hin. apply Hc. by right.
Qed.

(** ** Convergence *)

(** No injected fault and a live context. *)
Record healthy (m : MemoryHelmClient) : Prop := {
  he_ctx : ctx m = None;
  he_timeout : Timeout m = false;
  he_unknown : Unknown m = false;
  he_upgrade : UpgradeErr m = None;
  he_install : InstallErr m = None }.

(** A usable request for the NVIDIA operator. *)
Definition wants_nvidia (i : Intent) : Prop :=
  IVendor i = VendorNVIDIA ∧ looksLikeChartURL (TrimSpace (PinnedVersion i)) = false.

Lemma ClassifySkew_not_invalid vendor v : ClassifySkew vendor v ≠ SkewInvalidConfig.
Proof. unfold ClassifySkew. by repeat case_match. Qed.

(** With a client, a live context and an NVIDIA request, Ensure is its locked
    body on the pins. *)
Lemma Ensure_pin `{HelmClient W} ad ma (w : W) i :
  CtxErr w = None → wants_nvidia i → Ensure true ad ma w i = ensure_locked ad ma w i pin.
Proof.
  intros Hc [Hv Hu]. unfold Ensure. rewrite Hc, Hv.
  change (DefaultInstallConfig VendorNVIDIA) with (Ok pin). cbn [negb].
  rewrite bool_decide_false by done. unfold ApplyVersionPolicy. rewrite Hu, Hv.
  replace (ValidateInstallConfig pin) with (@Ok unit tt) by (vm_compute; reflexivity).
  cbn [PSkew EvaluatePolicy]. rewrite bool_decide_false by apply ClassifySkew_not_invalid.
  replace (ValidateArtifactRef pin) with (@Ok unit tt) by (vm_compute; reflexivity). done.
Qed.

(** An owned release at the pinned version. *)
Definition converged (m : MemoryHelmClient) : Prop :=
  ∃ rel, rels m !! pin_key = Some rel ∧ ManagedByAdapter rel = true ∧
         RelChartVersion rel = NVIDIAChartVersion.

Lemma mem_install_healthy m v :
  healthy m → rels m !! pin_key = None →
  mem_install m pin v = (put pin_key (OwnedRelease pin) m, (OwnedRelease pin, None)).
Proof.
  intros [] Hk. unfold mem_install. rewrite pin_required, pin_cfg_key, Hk. unfold injected.
  rewrite he_install0. by destruct (_ || _).
Qed.

Lemma mem_upgrade_healthy m v ex :
  healthy m → rels m !! pin_key = Some ex → ManagedByAdapter ex = true →
  ∃ m' rel, mem_upgrade m pin v = (m', (rel, None)) ∧ healthy m' ∧
    rels m' = <[pin_key := rel]> (rels m) ∧ ManagedByAdapter rel = true ∧
    RelChartVersion rel = NVIDIAChartVersion ∧ RelStatus rel = HelmStatusDeployed.
Proof.
  intros [Hc Ht Hu Hup Hi] Hk Hm. unfold mem_upgrade. rewrite pin_required, pin_cfg_key. cbv zeta.
  cbn [rels count_upgrade begin_ with_counts with_inflight]. rewrite Hk, Hm. cbn [negb].
  destruct (lastGood _ !! pin_key); cbn [ctx Timeout Unknown UpgradeErr with_lastGood count_upgrade begin_ with_counts with_inflight];
    rewrite Hc, Ht, Hu, Hup; unfold injected;
    match goal with |- context [if ?b then None else None] =>
      replace (if b then @None err else None) with (@None err) by (by destruct b) end;
    (eexists _, _; split; [reflexivity|]); split_and!; try done; by split.
Qed.

Lemma decide_pin ad :
  Action (DecideReleaseAction VendorNVIDIA NVIDIAChartVersion NVIDIAChartVersion ad) = DecisionNoop.
Proof. destruct ad; vm_compute; reflexivity. Qed.

Lemma Ensure_converged ad ma m i :
  ctx m = None → wants_nvidia i → converged m →
  let y := Ensure true ad ma m i in y.1 = m ∧ RAction y.2.1 = InstallNoop ∧ y.2.2 = None.
Proof.
  intros Hc Hi (rel & Hk & Hm & Hv). cbv zeta. rewrite Ensure_pin by done. destruct Hi as [Hvd _].
  unfold ensure_locked. cbn [GetRelease memory_client]. unfold mem_get. rewrite pin_cfg_key, Hk.
  cbn [is_err]. rewrite Hm. cbn [negb remembered store memory_client LookupLastKnownGood mem_lastKnownGood].
  rewrite Hvd, Hv. change (ChartVersion pin) with NVIDIAChartVersion. by rewrite decide_pin.
Qed.

(** Older than the pin, at an acceptable version. *)
Definition upgradable (rel : HelmRelease) : Prop :=
  releases_related version_lt VendorNVIDIA (RelChartVersion rel) NVIDIAChartVersion.

Lemma decide_upgradable rel ad :
  upgradable rel →
  Action (DecideReleaseAction VendorNVIDIA (RelChartVersion rel) NVIDIAChartVersion ad) = DecisionUpgrade.
Proof.
  intros (Hd & Hr & vi & vd & Hi & Hdv & Hlt). unfold DecideReleaseAction.
  rewrite Hd, Hr. unfold compareReleaseVersions. rewrite Hi, Hdv.
  apply compare_lt in Hlt. rewrite bool_decide_false by lia. by apply Z.ltb_lt in Hlt as ->.
Qed.

Lemma mem_store_step m :
  healthy m → ∀ r, healthy (mem_remember m DefaultNamespace NVIDIAReleaseName r).
Proof. by intros []. Qed.

Lemma Ensure_reaches_pin ad ma m i :
  healthy m → wants_nvidia i →
  (∀ rel, rels m !! pin_key = Some rel → ManagedByAdapter rel = true ∧ upgradable rel) →
  let x := Ensure true ad ma m i in
  x.2.2 = None ∧ converged x.1 ∧ (∀ k, k ≠ pin_key → rels x.1 !! k = rels m !! k) ∧ ctx x.1 = None.
Proof.
  intros Hh Hi Hrel.
  cbv zeta. rewrite Ensure_pin by (by destruct Hh). destruct Hi as [Hvd _].
  unfold ensure_locked. cbn [GetRelease memory_client]. unfold mem_get. rewrite pin_cfg_key.
  destruct (rels m !! pin_key) as [rel|] eqn:Hk.
  - destruct (Hrel _ eq_refl) as [Hm Hup]. cbn [is_err]. rewrite Hm.
    cbn [negb remembered store memory_client LookupLastKnownGood mem_lastKnownGood].
    rewrite Hvd. change (ChartVersion pin) with NVIDIAChartVersion. rewrite decide_upgradable by done.
    unfold upgradeOrRollback. destruct (attempts ma) as [|n] eqn:Ea; [by destruct (attempts_pos ma)|].
    cbn [upgrade_loop remember store memory_client RememberLastKnownGood CtxErr Upgrade].
    pose proof (mem_store_step m Hh rel) as Hh'.
    change (mem_remember m (IcNamespace pin) (ReleaseName pin) rel)
      with (mem_remember m DefaultNamespace NVIDIAReleaseName rel).
    rewrite (he_ctx _ Hh').
    destruct (mem_upgrade_healthy _ (SafeHelmValues pin) rel Hh' Hk Hm)
      as (m' & r' & -> & Hh2 & Hr & Hm' & Hv & Hs).
    rewrite Hv, Hs. change (ChartVersion pin) with NVIDIAChartVersion.
    replace (versionsEqual NVIDIAChartVersion NVIDIAChartVersion) with true by (vm_compute; reflexivity).
    rewrite bool_decide_true by done. cbn [negb orb fst snd]. split_and!; [done| | |by destruct Hh2].
    + exists r'. by rewrite Hr, lookup_insert_eq.
    + intros k Hne. by rewrite Hr, lookup_insert_ne.
  - replace (is_err (Some ErrReleaseNotFound) ErrReleaseNotFound) with true by (vm_compute; reflexivity).
    cbn [Install memory_client]. rewrite mem_install_healthy by done. cbn [fst snd].
    split_and!; [done| | |by destruct Hh].
    + exists (OwnedRelease pin). cbn. by rewrite lookup_insert_eq.
    + intros k Hne. cbn. by rewrite lookup_insert_ne.
Qed.

(** Convergence: with a healthy cluster and an NVIDIA request, one Ensure
    installs the pinned release when there is none and upgrades an owned older
    one; afterwards the release is owned and at the pin, no other release has
    changed, and a second Ensure is a no-op that leaves everything as it is. *)
Theorem Ensure_converges ad ma m i :
  healthy m → wants_nvidia i →
  (∀ rel, rels m !! pin_key = Some rel → ManagedByAdapter rel = true ∧ upgradable rel) →
  let x := Ensure true ad ma m i in
  x.2.2 = None ∧ converged x.1 ∧ (∀ k, k ≠ pin_key → rels x.1 !! k = rels m !! k) ∧
  let y := Ensure true ad ma x.1 i in y.1 = x.1 ∧ RAction y.2.1 = InstallNoop ∧ y.2.2 = None.
Proof.
  intros Hh Hi Hrel. cbv zeta. destruct (Ensure_reaches_pin ad ma m i Hh Hi Hrel) as (He & Hc & Hf & Hctx).
  split_and!; [done..| | |]; by apply Ensure_converged.
Qed.

(** ** Rollback *)

(** Every upgrade fails with [e], which is neither a timeout nor unknown. *)
Record broken (e : err) (m : MemoryHelmClient) : Prop := {
  br_ctx : ctx m = None;
  br_timeout : Timeout m = false;
  br_unknown : Unknown m = false;
  br_upgrade : UpgradeErr m = Some e;
  br_always : FailNUpgrades m = 0%Z;
  br_rollback : RollbackErr m = None;
  br_plain : errors_is e ErrReleaseUnknown = false ∧ errors_is e ErrReleaseTimeout = false ∧
             errors_is e DeadlineExceeded = false ∧ errors_is e Canceled = false }.

Lemma mem_upgrade_broken e m v ex :
  broken e m → rels m !! pin_key = Some ex → ManagedByAdapter ex = true →
  lastGood m !! pin_key = Some ex →
  ∃ m', mem_upgrade m pin v = (m', (ex, Some e)) ∧ broken e m' ∧ rels m' = rels m ∧
        lastGood m' = lastGood m.
Proof.
  intros [Hc Ht Hu Hup Hn Hr Hp] Hk Hm Hl. unfold mem_upgrade. rewrite pin_required, pin_cfg_key. cbv zeta.
  cbn [rels count_upgrade begin_ with_counts with_inflight]. rewrite Hk, Hm. cbn [negb].
  cbn [lastGood ctx Timeout Unknown UpgradeErr FailNUpgrades failed count_upgrade begin_ with_counts with_inflight].
  rewrite Hl. cbn [ctx Timeout Unknown UpgradeErr FailNUpgrades failed count_upgrade begin_ with_counts with_inflight].
  rewrite Hc, Ht, Hu, Hup, Hn. unfold injected. rewrite bool_decide_true by done. cbn [orb].
  eexists. split; [reflexivity|]. split_and!; try done.
Qed.

Lemma upgrade_loop_broken n e m ex le :
  broken e m → rels m !! pin_key = Some ex → ManagedByAdapter ex = true →
  lastGood m !! pin_key = Some ex → versionsEqual (RelChartVersion ex) NVIDIAChartVersion = false →
  ∃ m' le', broken e m' ∧ rels m' = rels m ∧ lastGood m' = lastGood m ∧
    ∀ lg, upgrade_loop n m pin (SafeHelmValues pin) ex lg le =
          rollbackAfterFailure m' pin ex ex lg le'.
Proof.
  revert m le. induction n as [|n IH]; intros m le Hb Hk Hm Hl Hv.
  - exists m, le. split_and!; [done..|]. intros lg. cbn [upgrade_loop GetRelease memory_client].
    unfold mem_get. by rewrite pin_cfg_key, Hk.
  - destruct (mem_upgrade_broken e m (SafeHelmValues pin) ex Hb Hk Hm Hl) as (m1 & Hup & Hb1 & Hr1 & Hl1).
    destruct (IH m1 (Some e) Hb1 ltac:(congruence) Hm ltac:(congruence) Hv) as (m' & le' & Hb' & Hr' & Hl' & Heq).
    exists m', le'. split_and!; [done|congruence|congruence|]. intros lg.
    cbn [upgrade_loop CtxErr Upgrade GetRelease memory_client]. rewrite (br_ctx _ _ Hb), Hup.
    unfold mem_get. rewrite pin_cfg_key, Hr1, Hk. cbv zeta. cbn [andb].
    change (ChartVersion pin) with NVIDIAChartVersion. rewrite Hv. cbn [andb].
    destruct (br_plain _ _ Hb) as (-> & -> & -> & ->). apply Heq.
Qed.

Lemma upgradable_not_pin rel :
  upgradable rel → versionsEqual (RelChartVersion rel) NVIDIAChartVersion = false.
Proof.
  intros (_ & _ & vi & vd & Hi & Hd & Hlt). apply not_true_iff_false. rewrite versionsEqual_spec.
  intros (v & ? & ?). simplify_eq. assert (vi = vd) as -> by congruence. by apply version_lt_irrefl in Hlt.
Qed.

Lemma upgradable_valid rel :
  upgradable rel → ValidateReleaseVersion (RelChartVersion rel) = Ok tt ∧
  versionsEqual (RelChartVersion rel) (RelChartVersion rel) = true ∧ RelChartVersion rel ≠ "".
Proof.
  intros (_ & Hr & vi & vd & Hi & Hd & Hlt). split_and!; [done|apply versionsEqual_spec; eauto|].
  intros E. rewrite E in Hr. vm_compute in Hr. done.
Qed.

(** [C18] Rollback: when every attempt to upgrade an owned older release fails,
    and the remembered last-known-good release (if any) has the version that is
    running, Ensure ends with the release back at that version, deployed, with
    its labels and a new revision, and says so. *)
Theorem Ensure_rolls_back ad ma m i e rel :
  broken e m → wants_nvidia i →
  rels m !! pin_key = Some rel → ManagedByAdapter rel = true → upgradable rel →
  RelStatus rel = HelmStatusDeployed →
  (∀ saved, lastGood m !! pin_key = Some saved → RelChartVersion saved = RelChartVersion rel) →
  let x := Ensure true ad ma m i in
  x.2.2 = None ∧ RAction x.2.1 = InstallRolledBack ∧ RObserved x.2.1 = RelChartVersion rel ∧
  ∃ rel', rels x.1 !! pin_key = Some rel' ∧ RelChartVersion rel' = RelChartVersion rel ∧
    RelStatus rel' = HelmStatusDeployed ∧ Labels rel' = Labels rel ∧
    Revision rel' = wrap_int64 (Revision rel + 1).
Proof.
  intros Hb Hi Hk Hm Hup Hs Hsaved. cbv zeta. rewrite Ensure_pin by (by destruct Hb). destruct Hi as [Hvd _].
  unfold ensure_locked. cbn [GetRelease memory_client]. unfold mem_get. rewrite pin_cfg_key, Hk.
  cbn [is_err]. rewrite Hm.
  cbn [negb remembered store memory_client LookupLastKnownGood mem_lastKnownGood].
  rewrite Hvd. change (ChartVersion pin) with NVIDIAChartVersion. rewrite decide_upgradable by done.
  rewrite pin_cfg_key.
  replace (match lastGood m !! pin_key with Some s => RelChartVersion s | None => RelChartVersion rel end)
    with (RelChartVersion rel)
    by (destruct (lastGood m !! pin_key); [by rewrite (Hsaved _ eq_refl)|done]).
  unfold upgradeOrRollback. cbn [remember store memory_client RememberLastKnownGood].
  set (m0 := mem_remember m (IcNamespace pin) (ReleaseName pin) rel).
  assert (Hb0 : broken e m0) by (destruct Hb; by split).
  assert (Hl0 : lastGood m0 !! pin_key = Some rel) by (cbn; apply lookup_insert_eq).
  destruct (upgrade_loop_broken (attempts ma) e m0 rel None Hb0 Hk Hm Hl0 (upgradable_not_pin _ Hup))
    as (m' & le & Hb' & Hr' & Hl' & ->).
  destruct (upgradable_valid _ Hup) as (Hval & Hself & Hne).
  unfold rollbackAfterFailure. cbv zeta. rewrite (bool_decide_false (RelChartVersion rel = "")) by done.
  cbv iota. rewrite (bool_decide_false (RelChartVersion rel = "")) by done. cbn [orb]. change (ChartVersion pin) with NVIDIAChartVersion. rewrite (upgradable_not_pin _ Hup).
  cbn [Rollback memory_client]. unfold mem_rollback. rewrite pin_required, Hval, pin_cfg_key. cbv zeta.
  cbn [rels count_rollback with_counts RollbackErr lastGood]. rewrite Hr', Hl'.
  change (rels m0) with (rels m). rewrite Hk, Hm, (br_rollback _ _ Hb'), Hl0, Hself. cbn [negb].
  cbn [RelChartVersion RelStatus]. rewrite Hself, Hs.
  rewrite (bool_decide_true (HelmStatusDeployed = HelmStatusDeployed)) by done. cbn [negb orb fst snd].
  split_and!; [done..|]. eexists. split; [cbn; apply lookup_insert_eq|]. by split_and!.
Qed.

(** ** Concrete clusters *)

Definition demo_intent : Intent :=
  {| IVendor := VendorNVIDIA; PinnedVersion := ""; ISource := IntentSpec; Known := true; AdoptExisting := false |}.

Lemma demo_wants : wants_nvidia demo_intent.
Proof. split; vm_compute; reflexivity. Qed.

(** The pinned release at another version. *)
Definition release_at (v : string) (labels : gmap string string) : HelmRelease :=
  {| RelName := NVIDIAReleaseName; RelNamespace := DefaultNamespace; RelChartName := NVIDIAChartName;
     RelChartVersion := v; RelStatus := HelmStatusDeployed; Revision := 3; LastKnownGood := "";
     Labels := Some labels |}.

Definition owned_labels : gmap string string :=
  {[ ReleaseOwnerLabel := ReleaseOwner; ReleaseModeLabel := ReleaseModeInstalled ]}.

Definition old_release : HelmRelease := release_at "v25.10.0" owned_labels.
Definition foreign_release : HelmRelease := release_at "v25.10.0" {[ helmStorageOwnerLabel := helmStorageOwner ]}.

Definition memory_with (rel : HelmRelease) : MemoryHelmClient := with_rels {[ pin_key := rel ]} empty_memory.

(** A cluster whose upgrades fail. *)
Definition upgrade_error : err := ENew "boom".
Definition failing_with (rel : HelmRelease) (remembered : gmap string HelmRelease) : MemoryHelmClient :=
  {| rels := {[ pin_key := rel ]}; history := ∅; lastGood := remembered; inflight := ∅; MaxInflight := 0;
     Upgrades := 0; Uninstalls := 0; Rollbacks := 0; UpgradeErr := Some upgrade_error; FailNUpgrades := 0;
     failed := 0; InstallErr := None; FailNInstalls := 0; installFailed := 0; UninstallErr := None;
     Timeout := false; Unknown := false; RollbackErr := None; ctx := None |}.

Lemma old_upgradable : upgradable old_release.
Proof.
  split; [vm_compute; reflexivity|]. split; [vm_compute; reflexivity|].
  exists {| major := 25; minor := 10; patch := 0 |}, {| major := 26; minor := 4; patch := 0 |}.
  split; [vm_compute; reflexivity|]. split; [vm_compute; reflexivity|]. left. simpl. lia.
Qed.

Lemma Ensure_converges_witness :
  let x := Ensure true false 0 (memory_with old_release) demo_intent in
  x.2.2 = None ∧ converged x.1 ∧
  (∀ k, k ≠ pin_key → rels x.1 !! k = rels (memory_with old_release) !! k) ∧
  let y := Ensure true false 0 x.1 demo_intent in y.1 = x.1 ∧ RAction y.2.1 = InstallNoop ∧ y.2.2 = None.
Proof.
  apply (Ensure_converges false 0 (memory_with old_release) demo_intent).
  - by split.
  - exact demo_wants.
  - intros rel Hk. assert (rel = old_release) as -> by (vm_compute in Hk; vm_compute; congruence).
    split; [vm_compute; reflexivity|exact old_upgradable].
Defined.

Lemma Ensure_rolls_back_witness :
  let x := Ensure true false 0 (failing_with old_release ∅) demo_intent in
  x.2.2 = None ∧ RAction x.2.1 = InstallRolledBack ∧ RObserved x.2.1 = RelChartVersion old_release ∧
  ∃ rel', rels x.1 !! pin_key = Some rel' ∧ RelChartVersion rel' = RelChartVersion old_release ∧
    RelStatus rel' = HelmStatusDeployed ∧ Labels rel' = Labels old_release ∧
    Revision rel' = wrap_int64 (Revision old_release + 1).
Proof.
  apply (Ensure_rolls_back false 0 (failing_with old_release ∅) demo_intent upgrade_error old_release).
  - by split.
  - exact demo_wants.
  - vm_compute. reflexivity.
  - vm_compute. reflexivity.
  - exact old_upgradable.
  - reflexivity.
  - intros saved Hs. discriminate Hs.
Defined.

Lemma Memory_keeps_external_witness :
  rels (foldl mem_apply (memory_with foreign_release)
          [MInstall pin; MUpgrade pin; MRollback pin "v25.1.0"; MUninstall pin]) !! pin_key
  = Some foreign_release.
Proof.
  apply (Memory_keeps_external (memory_with foreign_release)
          [MInstall pin; MUpgrade pin; MRollback pin "v25.1.0"; MUninstall pin] pin_key foreign_release).
  - vm_compute. reflexivity.
  - right. split; [vm_compute; reflexivity|]. intros cfg Hin. exfalso.
    repeat (apply elem_of_cons in Hin as [Hin|Hin]; [discriminate Hin|]). by apply elem_of_nil in Hin.
Defined.

Lemma Ensure_quiet_untouched_witness :
  let x := Ensure (W := MemoryHelmClient * list HelmOp) true false 0 (memory_with foreign_release, []) demo_intent in
  RAction x.2.1 = InstallUnmanaged ∧ Forall (λ op, mutates op = false) x.1.2.
Proof.
  split; [vm_compute; reflexivity|].
  apply (Ensure_quiet_untouched true false 0 (memory_with foreign_release) demo_intent).
  vm_compute. reflexivity.
Defined.

(** The last-known-good store is overwritten before it is used: when the
    remembered release (v25.1.0) is not the running one (v25.10.0), Ensure
    stores the running release, then asks for a rollback to the remembered
    version, which the store no longer holds.  The rollback fails although the
    running release itself was healthy and could have been kept. *)
Theorem Stale_last_good_rollback_fails :
  let m := failing_with old_release {[ pin_key := release_at "v25.1.0" owned_labels ]} in
  let x := Ensure true false 0 m demo_intent in
  ROpStatus x.2.1 = OpRollbackFailed ∧ x.2.2 = Some ErrRollbackFailed ∧
  RLastKnownGood x.2.1 = "v25.1.0" ∧
  (RelChartVersion <$> lastGood x.1 !! pin_key) = Some "v25.10.0".
Proof. split_and!; vm_compute; reflexivity. Qed.
