(* ===== verification/Cleanup.v ===== *)
(** * Guarded cleanup (pkg/lifecycle/cleanup.go)

    What may be deleted when a DpuOperatorConfig goes away: the decision, the
    execution that re-reads the release before it deletes, and the two indexes
    of dependents.  The release lock is held during the execution. *)

From Stdlib Require Import Ascii.
From stdpp Require Import base gmap strings list fin_maps.
From S2P Require Import Prelude GoStrings Unstructured MappingSpec Version InstallConfig Release HelmInstaller.

Definition RemovalPolicyAnnotation : string := "lifecycle.opi.nvidia.com/removal-policy".
Definition AdoptionPolicyAnnotation : string := "lifecycle.opi.nvidia.com/adoption-policy".
Definition RemovalRetain : string := "retain".
Definition RemovalDeleteOwned : string := "delete-owned".
Definition alreadyGoneReason : string := "release is already gone".

Inductive CleanupAction :=
| CleanupDeleted | CleanupPreserved | CleanupSkipped | CleanupFailed | CleanupGone
| CleanupZero (* the zero value "" *).

#[global] Instance CleanupAction_eq_dec : EqDecision CleanupAction.
Proof. solve_decision. Defined.

Definition ErrCleanupOwnership : err := ENew "ownership is missing, conflicting, or not verified".
Definition ErrCleanupForbidden : err := ENew "destructive cleanup is not allowed".
Definition ErrCleanupChanged : err := ENew "ownership changed before deletion".

(** cleanup.go's ObjectRef. *)
Record CObject := {
  CGroup : string;
  CVersion : string;
  CKind : string;
  CNamespace : string;
  CName : string;
  COwner : string;
  CTenant : string;
  CReferenced : bool }.

#[global] Instance CObject_eq_dec : EqDecision CObject.
Proof. solve_decision. Defined.

Definition Key (o : CObject) : string := CNamespace o +:+ "/" +:+ CKind o +:+ "/" +:+ CName o.

Definition CObject_GVK (o : CObject) : ObjectRef :=
  {| Group := CGroup o; Version := CVersion o; RefKind := CKind o |}.

Record CleanupRefs := {
  OtherTenants : nat;
  OPI : list CObject;
  Dataplane : list CObject;
  CRDDependents : nat }.

Definition no_refs : CleanupRefs := {| OtherTenants := 0; OPI := []; Dataplane := []; CRDDependents := 0 |}.

Record CleanupPlan := {
  PlanOwnership : OwnershipClass;
  PlanRemoval : string;
  PlanAdoption : string;
  PlanAction : CleanupAction;
  PlanReason : string;
  DeleteRelease : bool;
  DeleteCRDs : bool;
  PlanDataplane : list CObject;
  PlanSkipped : list string }.

(** [Ownership] is empty ([None]) until the release was classified. *)
Record CleanupResult := {
  CrAction : CleanupAction;
  CrOwnership : option Ownership;
  CrReason : string;
  CrRelease : string;
  DeletedCRDs : bool;
  DeletedPlane : list string;
  CrSkipped : list string;
  CrFailure : string;
  CrOpStatus : OpStatus }.

(** ** Policies *)

(** The policy and the note about it. *)
Definition parsePolicy (raw defaultValue : string) : string * string :=
  let v := ToLower (TrimSpace raw) in
  if v == "" then (defaultValue, "")
  else if (v == RemovalRetain) || (v == RemovalDeleteOwned) then (v, "")
  else (RemovalRetain, "invalid removal policy; defaulting to retain").

(** (removal, adoption, note) *)
Definition policiesFrom (cfg : option ConfigObject) : string * string * string :=
  let a k := match cfg with Some o => ann o k | None => "" end in
  let '(removal, extra) := parsePolicy (a RemovalPolicyAnnotation) RemovalRetain in
  let '(adoption, note) := parsePolicy (a AdoptionPolicyAnnotation) RemovalRetain in
  (removal, adoption, if extra != "" then extra else note).

(** ** The decision *)

Definition referencedByOPI (d : CObject) (opi : list CObject) : bool :=
  CReferenced d ||
  existsb (λ o,
    ((CName o == CName d) && ((CNamespace o == "") || (CNamespace o == CNamespace d))) ||
    ((CName o != "") && EqualFold (CKind o) (CKind d) && (CNamespace o == CNamespace d) && (CName o == CName d))) opi.

Definition dataplaneStillRequired (refs : CleanupRefs) (ns : string) : bool :=
  existsb (λ d, (CNamespace d == ns) && (CReferenced d || referencedByOPI d (OPI refs))) (Dataplane refs).

(** The loop over the dataplane: what to delete and why the rest is skipped. *)
Fixpoint plan_dataplane (ns : string) (opi : list CObject) (ds : list CObject) (skipped : list string)
    : list CObject * list string :=
  match ds with
  | [] => ([], skipped)
  | d :: ds' =>
      if CNamespace d != ns then
        plan_dataplane ns opi ds' (skipped ++ ["dataplane " +:+ Key d +:+ ": different namespace"])
      else if (COwner d != "") && (COwner d != ReleaseOwner) then
        plan_dataplane ns opi ds' (skipped ++ ["dataplane " +:+ Key d +:+ ": not owned"])
      else if referencedByOPI d opi then
        plan_dataplane ns opi ds' (skipped ++ ["dataplane " +:+ Key d +:+ ": still referenced"])
      else
        let '(del, sk) := plan_dataplane ns opi ds' skipped in (d :: del, sk)
  end.

Definition keep_plan (removal adoption : string) (c : OwnershipClass) (a : CleanupAction)
    (reason : string) (skipped : list string) : CleanupPlan :=
  {| PlanOwnership := c; PlanRemoval := removal; PlanAdoption := adoption; PlanAction := a;
     PlanReason := reason; DeleteRelease := false; DeleteCRDs := false; PlanDataplane := [];
     PlanSkipped := skipped |}.

Definition policy_allows (k : Ownership) (removal adoption : string) : bool :=
  if k == OwnershipAdopted then adoption == RemovalDeleteOwned else removal == RemovalDeleteOwned.

Definition DecideCleanup (rel : HelmRelease) (removal adoption : string) (refs : CleanupRefs)
    (allowCRD : bool) : CleanupPlan :=
  if RelName rel == "" then
    keep_plan removal adoption
      {| OKind := OwnershipInvalid; OOwner := ""; OMode := ""; OReason := "release is absent" |}
      CleanupGone alreadyGoneReason []
  else
    let class := ClassifyReleaseOwnership rel in
    if OKind class == OwnershipInvalid then
      keep_plan removal adoption class CleanupFailed (OReason class) ["release: " +:+ OReason class]
    else if OKind class == OwnershipExternal then
      keep_plan removal adoption class CleanupPreserved (OReason class) ["release: externally owned"]
    else if negb (policy_allows (OKind class) removal adoption) then
      keep_plan removal adoption class CleanupPreserved "removal policy retains the release"
        ["release: policy is retain"]
    else
      let shared := (0 <? OtherTenants refs) || (0 <? CRDDependents refs) || negb (length (OPI refs) == 0) in
      let crds := allowCRD && negb shared && negb (dataplaneStillRequired refs (RelNamespace rel)) in
      let skipped := if crds then [] else ["crds: shared or still required"] in
      let '(del, skipped) := plan_dataplane (RelNamespace rel) (OPI refs) (Dataplane refs) skipped in
      {| PlanOwnership := class; PlanRemoval := removal; PlanAdoption := adoption;
         PlanAction := CleanupDeleted; PlanReason := "verified ownership and delete-owned policy";
         DeleteRelease := true; DeleteCRDs := crds; PlanDataplane := del; PlanSkipped := skipped |}.

Definition stillProtected (d : CObject) (refs : CleanupRefs) : bool :=
  existsb (λ cur, (Key cur == Key d) && referencedByOPI cur (OPI refs)) (Dataplane refs) ||
  referencedByOPI d (OPI refs).

(** ** The index of dependents *)

Class ResourceIndex (W : Type) := {
  Refs : W → string → string → W * (CleanupRefs * option err);
  DeleteDataplane : W → CObject → W * option err }.

(** MemoryResourceIndex *)
Record MemoryResourceIndex := {
  Tenants : list string;
  MOPI : list CObject;
  MDataplane : list CObject;
  MCRDDependents : nat;
  Deleted : list CObject;
  FlipReferenced : bool;
  looks : nat }.

Definition set_referenced (d : CObject) : CObject :=
  {| CGroup := CGroup d; CVersion := CVersion d; CKind := CKind d; CNamespace := CNamespace d;
     CName := CName d; COwner := COwner d; CTenant := CTenant d; CReferenced := true |}.

Definition mem_refs (m : MemoryResourceIndex) (exceptConfig releaseNamespace : string)
    : MemoryResourceIndex * (CleanupRefs * option err) :=
  let looks := S (looks m) in
  ({| Tenants := Tenants m; MOPI := MOPI m; MDataplane := MDataplane m;
      MCRDDependents := MCRDDependents m; Deleted := Deleted m;
      FlipReferenced := FlipReferenced m; looks := looks |},
   ({| OtherTenants := length (filter (λ n, n ≠ "" ∧ n ≠ exceptConfig) (Tenants m));
       OPI := MOPI m;
       Dataplane := (λ d, if FlipReferenced m && (1 <? looks) then set_referenced d else d) <$> MDataplane m;
       CRDDependents := MCRDDependents m |}, None)).

Definition mem_delete (m : MemoryResourceIndex) (ref : CObject) : MemoryResourceIndex * option err :=
  ({| Tenants := Tenants m; MOPI := MOPI m; MDataplane := filter (λ d, Key d ≠ Key ref) (MDataplane m);
      MCRDDependents := MCRDDependents m;
      Deleted := Deleted m ++ filter (λ d, Key d = Key ref) (MDataplane m);
      FlipReferenced := FlipReferenced m; looks := looks m |}, None).

(** ** The execution *)

Section Execute.
Context {W : Type} `{HelmClient W} `{ResourceIndex W}.

(** [HasHelm] is [r.Helm != nil]. *)
Context (HasHelm AllowCRDDeletion : bool).

Definition cleaned : Type := W * CleanupResult.

(** The result fields that the branches set. *)
Definition result_of (a : CleanupAction) (own : option Ownership) (reason release failure : string)
    (skipped : list string) (st : OpStatus) : CleanupResult :=
  {| CrAction := a; CrOwnership := own; CrReason := reason; CrRelease := release; DeletedCRDs := false;
     DeletedPlane := []; CrSkipped := skipped; CrFailure := failure; CrOpStatus := st |}.

(** The loop that deletes the dataplane objects. *)
Fixpoint delete_plane (w : W) (live : CleanupRefs) (ds : list CObject) (deleted skipped : list string)
    : W * (list string * list string) :=
  match ds with
  | [] => (w, (deleted, skipped))
  | d :: ds' =>
      if stillProtected d live then
        delete_plane w live ds' deleted (skipped ++ ["dataplane " +:+ Key d +:+ ": reference appeared"])
      else
        let '(w, e) := DeleteDataplane w d in
        match e with
        | Some e => delete_plane w live ds' deleted (skipped ++ ["dataplane " +:+ Key d +:+ ": " +:+ Error e])
        | None => delete_plane w live ds' (deleted ++ [Key d]) skipped
        end
  end.

(** From the second read of the release on. *)
Definition execute_plan (w : W) (install : InstallConfig) (except : string) (plan : CleanupPlan)
    (release : string) (skipped : list string) : cleaned :=
  let own := OKind (PlanOwnership plan) in
  let '(w, (actual, e)) := GetRelease w (IcNamespace install) (ReleaseName install) in
  if is_err e ErrReleaseNotFound then
    (w, result_of CleanupGone (Some own) "release disappeared before deletion" release "" skipped OpSucceeded)
  else match e with
  | Some e => (w, result_of CleanupFailed (Some own) (PlanReason plan) release (Error e) skipped OpFailed)
  | None =>
      let again := ClassifyReleaseOwnership actual in
      if (OKind again != own) || negb (AllowsDelete again) then
        (w, result_of CleanupFailed (Some (OKind again)) "ownership changed before deletion; preserving" release
              (Error ErrCleanupChanged) (skipped ++ ["release: ownership changed"]) OpFailed)
      else
        let '(w, (_, e)) := Uninstall w install in
        match e with
        | Some e =>
            if errors_is e ErrReleaseNotFound then
              (w, result_of CleanupGone (Some own) alreadyGoneReason release "" skipped OpSucceeded)
            else
              (w, result_of CleanupFailed (Some own) "uninstall failed; release preserved" release (Error e)
                    skipped OpFailed)
        | None =>
            let '(w, (liveRefs, _)) := Refs w except (IcNamespace install) in
            let '(w, (deleted, skipped)) := delete_plane w liveRefs (PlanDataplane plan) [] skipped in
            (w, {| CrAction := CleanupDeleted; CrOwnership := Some own; CrReason := PlanReason plan;
                   CrRelease := release; DeletedCRDs := DeleteCRDs plan; DeletedPlane := deleted;
                   CrSkipped := skipped; CrFailure := ""; CrOpStatus := OpSucceeded |})
        end
  end.

Definition CleanupInstallations (w : W) (cfg : option ConfigObject) : cleaned :=
  let '(removal, adoption, note) := policiesFrom cfg in
  let except := match cfg with Some o => CfgName o | None => "" end in
  if negb HasHelm then
    (w, result_of CleanupFailed (Some OwnershipInvalid)
          "ownership cannot be verified without a helm client" "" (Error ErrCleanupOwnership)
          ["release: helm client is not configured"] OpFailed)
  else match DefaultInstallConfig VendorNVIDIA with
  | Err e => (w, result_of CleanupFailed None "" "" (Error e) [] OpFailed)
  | Ok install =>
      let key := releaseKey (IcNamespace install) (ReleaseName install) in
      let '(w, (rel, getErr)) := GetRelease w (IcNamespace install) (ReleaseName install) in
      if is_err getErr ErrReleaseNotFound then
        (w, result_of CleanupGone None alreadyGoneReason key "" [] OpSucceeded)
      else match getErr with
      | Some e => (w, result_of CleanupFailed None "could not read the release" "" (Error e) [] OpFailed)
      | None =>
          let '(w, (refs, refErr)) := Refs w except (IcNamespace install) in
          match refErr with
          | Some e =>
              (w, result_of CleanupFailed (Some (OKind (ClassifyReleaseOwnership rel)))
                    "could not list dependents; preserving" "" (Error e)
                    ["dependents: lookup failed"] OpFailed)
          | None =>
              let plan := DecideCleanup rel removal adoption refs AllowCRDDeletion in
              let skipped := if note != "" then PlanSkipped plan ++ [note] else PlanSkipped plan in
              let release := RelNamespace rel +:+ "/" +:+ RelName rel in
              if negb (DeleteRelease plan) then
                let own := Some (OKind (PlanOwnership plan)) in
                if PlanAction plan == CleanupFailed then
                  (w, result_of CleanupFailed own (PlanReason plan) release (Error ErrCleanupOwnership)
                        skipped OpFailed)
                else (w, result_of (PlanAction plan) own (PlanReason plan) release "" skipped OpSucceeded)
              else execute_plan w install except plan release skipped
          end
      end
  end.

End Execute.
