(* ===== verification/CleanupFacts.v ===== *)
(** * What cleanup deletes

    The decision, exactly; then the execution, watched by a client that
    records every call with its answer. *)

From Stdlib Require Import Ascii.
From stdpp Require Import base gmap strings list fin_maps.
From S2P Require Import Prelude GoStrings Unstructured MappingSpec Version InstallConfig Release HelmInstaller HelmMemory Cleanup.

(** ** The decision *)

(** An object of the release's namespace, not owned by another, not referenced. *)
Definition deletable (ns : string) (opi : list CObject) (d : CObject) : Prop :=
  CNamespace d = ns ∧ (COwner d = "" ∨ COwner d = ReleaseOwner) ∧ referencedByOPI d opi = false.

#[global] Instance deletable_dec ns opi d : Decision (deletable ns opi d).
Proof. unfold deletable. apply _. Defined.

Lemma plan_dataplane_filter ns opi ds sk :
  (plan_dataplane ns opi ds sk).1 = filter (deletable ns opi) ds.
Proof.
  revert sk. induction ds as [|d ds IH]; intros sk; [done|]. cbn [plan_dataplane].
  destruct (bool_decide_reflect (CNamespace d = ns)) as [Hn|Hn]; cbn [negb].
  2:{ rewrite filter_cons_False by (by intros [? _]). apply IH. }
  destruct (_ && _) eqn:Eo.
  { bool_hyps. rewrite filter_cons_False by (by intros (_ & [?|?] & _)). apply IH. }
  destruct (referencedByOPI d opi) eqn:Er.
  { rewrite filter_cons_False by (intros (_ & _ & ?); congruence). apply IH. }
  rewrite filter_cons_True.
  - specialize (IH sk). destruct (plan_dataplane ns opi ds sk) as [del sk']. cbn in *. by rewrite IH.
  - split_and!; [done| |done]. apply andb_false_iff in Eo as [Eo|Eo]; bool_hyps; eauto.
Qed.

(** The ownership and the policy that authorize a deletion. *)
Definition authorized (rel : HelmRelease) (removal adoption : string) : Prop :=
  AllowsDelete (ClassifyReleaseOwnership rel) = true ∧
  policy_allows (OKind (ClassifyReleaseOwnership rel)) removal adoption = true.

Lemma classify_unnamed rel : RelName rel = "" → OKind (ClassifyReleaseOwnership rel) = OwnershipInvalid.
Proof. intros E. unfold ClassifyReleaseOwnership. by rewrite bool_decide_true. Qed.

Lemma DecideCleanup_release rel removal adoption refs crd :
  DeleteRelease (DecideCleanup rel removal adoption refs crd) = true ↔ authorized rel removal adoption.
Proof.
  unfold DecideCleanup, authorized, AllowsDelete. cbv zeta.
  destruct (bool_decide_reflect (RelName rel = "")) as [Hn|Hn].
  { rewrite (classify_unnamed _ Hn). cbn. naive_solver. }
  destruct (OKind (ClassifyReleaseOwnership rel)) eqn:Ek; cbn;
    try (destruct (policy_allows _ _ _); cbn;
         [destruct (plan_dataplane _ _ _ _); cbn; naive_solver|naive_solver]); naive_solver.
Qed.

Lemma DecideCleanup_dataplane rel removal adoption refs crd :
  let p := DecideCleanup rel removal adoption refs crd in
  PlanDataplane p = if DeleteRelease p then filter (deletable (RelNamespace rel) (OPI refs)) (Dataplane refs) else [].
Proof.
  unfold DecideCleanup. cbv zeta. destruct (bool_decide (RelName rel = "")); [done|].
  destruct (bool_decide (OKind _ = OwnershipInvalid)); [done|].
  destruct (bool_decide (OKind _ = OwnershipExternal)); [done|].
  destruct (negb (policy_allows _ _ _)); [done|].
  match goal with |- context [plan_dataplane ?a ?b ?c ?d] =>
    pose proof (plan_dataplane_filter a b c d) as Hp; destruct (plan_dataplane a b c d) end.
  exact Hp.
Qed.

Lemma DecideCleanup_ownership rel removal adoption refs crd :
  DeleteRelease (DecideCleanup rel removal adoption refs crd) = true →
  PlanOwnership (DecideCleanup rel removal adoption refs crd) = ClassifyReleaseOwnership rel.
Proof.
  unfold DecideCleanup. cbv zeta. destruct (bool_decide (RelName rel = "")); [done|].
  destruct (bool_decide (OKind _ = OwnershipInvalid)); [done|].
  destruct (bool_decide (OKind _ = OwnershipExternal)); [done|].
  destruct (negb (policy_allows _ _ _)); [done|]. by destruct (plan_dataplane _ _ _ _).
Qed.

(** Something else on the cluster still uses the CRDs. *)
Definition crds_shared (refs : CleanupRefs) (ns : string) : Prop :=
  0 < OtherTenants refs ∨ 0 < CRDDependents refs ∨ OPI refs ≠ [] ∨ dataplaneStillRequired refs ns = true.

Lemma DecideCleanup_crds rel removal adoption refs crd :
  let p := DecideCleanup rel removal adoption refs crd in
  DeleteCRDs p = true ↔ DeleteRelease p = true ∧ crd = true ∧ ¬ crds_shared refs (RelNamespace rel).
Proof.
  unfold DecideCleanup. cbv zeta. destruct (bool_decide (RelName rel = "")); [cbn; naive_solver|].
  destruct (bool_decide (OKind _ = OwnershipInvalid)); [cbn; naive_solver|].
  destruct (bool_decide (OKind _ = OwnershipExternal)); [cbn; naive_solver|].
  destruct (negb (policy_allows _ _ _)); [cbn; naive_solver|].
  destruct (plan_dataplane _ _ _ _). cbn [DeleteCRDs DeleteRelease]. unfold crds_shared.
  rewrite !andb_true_iff, !negb_true_iff, !orb_false_iff, !Nat.ltb_ge, negb_false_iff, bool_decide_eq_true.
  rewrite length_zero_iff_nil. destruct (dataplaneStillRequired _ _).
  - naive_solver.
  - split; [intros ((-> & (? & ?) & ?) & _)|intros (_ & -> & Hn)].
    + split_and!; [done..|]. intros [?|[?|[?|?]]]; [lia|lia|done|done].
    + split_and!; try done; [destruct (OtherTenants refs); [lia|]; destruct Hn; left; lia
        |destruct (CRDDependents refs); [lia|]; destruct Hn; right; left; lia|].
      destruct (OPI refs); [done|]. destruct Hn. by right; right; left.
Qed.


(** Deleting is opt-in: a removal or adoption policy is delete-owned only
    when its annotation says exactly that (up to case and spaces); missing or
    unreadable annotations retain. *)
Theorem policiesFrom_opt_in cfg removal adoption note :
  policiesFrom cfg = (removal, adoption, note) →
  let a k := match cfg with Some o => ann o k | None => "" end in
  (removal = RemovalDeleteOwned ↔ ToLower (TrimSpace (a RemovalPolicyAnnotation)) = RemovalDeleteOwned) ∧
  (adoption = RemovalDeleteOwned ↔ ToLower (TrimSpace (a AdoptionPolicyAnnotation)) = RemovalDeleteOwned) ∧
  (removal = RemovalDeleteOwned ∨ removal = RemovalRetain) ∧
  (adoption = RemovalDeleteOwned ∨ adoption = RemovalRetain).
Proof.
  assert (Hp : ∀ raw p n, parsePolicy raw RemovalRetain = (p, n) →
    (p = RemovalDeleteOwned ↔ ToLower (TrimSpace raw) = RemovalDeleteOwned) ∧
    (p = RemovalDeleteOwned ∨ p = RemovalRetain)).
  { intros raw p n. unfold parsePolicy. set (v := ToLower (TrimSpace raw)). clearbody v. cbv zeta.
    destruct (bool_decide_reflect (v = "")) as [->|].
    { intros [= <- <-]. split; [by split|by right]. }
    destruct (bool_decide_reflect (v = RemovalRetain)) as [->|]; cbn [orb].
    { intros [= <- <-]. split; [by split|by right]. }
    destruct (bool_decide_reflect (v = RemovalDeleteOwned)) as [->|].
    { intros [= <- <-]. split; [done|by left]. }
    intros [= <- <-]. split; [by split|by right]. }
  unfold policiesFrom. cbv zeta.
  destruct (parsePolicy (match cfg with Some o => _ | None => _ end) RemovalRetain) as [p1 n1] eqn:E1.
  destruct (parsePolicy (match cfg with Some o => ann o AdoptionPolicyAnnotation | None => _ end) RemovalRetain)
    as [p2 n2] eqn:E2.
  apply Hp in E1 as [? ?]. apply Hp in E2 as [? ?]. intros [= -> -> _]. done.
Qed.

(** ** The execution, watched *)

Inductive CleanOp :=
| CGet (rel : HelmRelease) (e : option err)
| CRefs (refs : CleanupRefs) (e : option err)
| CUninstall (cfg : InstallConfig) (e : option err)
| CDelete (d : CObject) (e : option err)
| COther.

Section Watched.
Context {W : Type} `{HelmClient W} `{ResourceIndex W}.

Definition note {A} (op : CleanOp) (log : list CleanOp) (r : W * A) : (W * list CleanOp) * A :=
  ((r.1, log ++ [op]), r.2).

#[global] Instance watched_helm : HelmClient (W * list CleanOp) := {|
  CtxErr wl := CtxErr wl.1;
  GetRelease wl ns n := let r := GetRelease wl.1 ns n in note (CGet r.2.1 r.2.2) wl.2 r;
  Install wl cfg v := note COther wl.2 (Install wl.1 cfg v);
  Upgrade wl cfg v := note COther wl.2 (Upgrade wl.1 cfg v);
  Rollback wl cfg to := note COther wl.2 (Rollback wl.1 cfg to);
  Uninstall wl cfg := let r := Uninstall wl.1 cfg in note (CUninstall cfg r.2.2) wl.2 r;
  store := None;
  claimer := None |}.

#[global] Instance watched_index : ResourceIndex (W * list CleanOp) := {|
  Refs wl ex ns := let r := Refs wl.1 ex ns in note (CRefs r.2.1 r.2.2) wl.2 r;
  DeleteDataplane wl d := let r := DeleteDataplane wl.1 d in note (CDelete d r.2) wl.2 r |}.

(** The deletions the loop performs, and those that succeeded. *)
Definition is_delete (op : CleanOp) : bool := match op with CDelete _ _ => true | _ => false end.
Definition deleted_key (op : CleanOp) : option string :=
  match op with CDelete d None => Some (Key d) | _ => None end.

Lemma delete_plane_log (w : W) log live ds del sk :
  let x := delete_plane (W := W * list CleanOp) (w, log) live ds del sk in
  ∃ l, x.1.2 = log ++ l ∧ x.2.1 = del ++ omap deleted_key l ∧
    ∀ op, op ∈ l → ∃ d e, op = CDelete d e ∧ d ∈ ds ∧ stillProtected d live = false.
Proof.
  revert w log del sk. induction ds as [|d ds IH]; intros w log del sk; cbn [delete_plane].
  { exists []. rewrite !app_nil_r. split_and!; [done..|]. by intros op ?%elem_of_nil. }
  destruct (stillProtected d live) eqn:Ep.
  { destruct (IH w log del (sk ++ ["dataplane " +:+ Key d +:+ ": reference appeared"])) as (l & H1 & H2 & H3).
    exists l. split_and!; [done..|]. intros op Hop. destruct (H3 op Hop) as (d' & e' & ? & ? & ?).
    exists d', e'. split_and!; [done|by right|done]. }
  cbn [DeleteDataplane watched_index]. cbv zeta. unfold note. cbn [fst snd].
  destruct (DeleteDataplane w d) as [w1 e]. cbn [fst snd].
  assert (Hstep : ∀ del' sk', del' = del ++ omap deleted_key [CDelete d e] →
    ∃ l, (delete_plane (W := W * list CleanOp) (w1, log ++ [CDelete d e]) live ds del' sk').1.2 = log ++ l ∧
      (delete_plane (W := W * list CleanOp) (w1, log ++ [CDelete d e]) live ds del' sk').2.1 = del ++ omap deleted_key l ∧
      ∀ op, op ∈ l → ∃ d' e', op = CDelete d' e' ∧ d' ∈ d :: ds ∧ stillProtected d' live = false).
  { intros del' sk' ->. edestruct (IH w1 (log ++ [CDelete d e])) as (l & H1 & H2 & H3).
    exists ([CDelete d e] ++ l). rewrite H1, H2, <- !app_assoc, omap_app. split_and!; [done|done|].
    intros op [->%list_elem_of_singleton|Hop]%elem_of_app.
    - exists d, e. split_and!; [done|by left|done].
    - destruct (H3 op Hop) as (d' & e' & ? & ? & ?). exists d', e'. split_and!; [done|by right|done]. }
  destruct e as [e|]; apply Hstep; cbn; by rewrite ?app_nil_r.
Qed.

(** What a guarded deletion looks like in the log. *)
Record guarded (removal adoption : string) (log : list CleanOp) (r : CleanupResult) : Prop := {
  gu_shape : ∃ r1 refs r2 ue rest,
    log = [CGet r1 None; CRefs refs None; CGet r2 None; CUninstall pin ue] ++ rest ∧
    authorized r1 removal adoption ∧ authorized r2 removal adoption ∧
    OKind (ClassifyReleaseOwnership r2) = OKind (ClassifyReleaseOwnership r1) ∧
    (ue ≠ None → rest = []) ∧
    (rest = [] ∨ ∃ live le dels, rest = CRefs live le :: dels ∧
       ∀ op, op ∈ dels → ∃ d e, op = CDelete d e ∧ d ∈ Dataplane refs ∧
         deletable (RelNamespace r1) (OPI refs) d ∧ stillProtected d live = false);
  gu_report : CrAction r = CleanupDeleted ↔ CUninstall pin None ∈ log;
  gu_plane : DeletedPlane r = omap deleted_key log }.

(** No destructive call, and none reported. *)
Record untouched (log : list CleanOp) (r : CleanupResult) : Prop := {
  un_calls : ∀ op, op ∈ log → (∃ rel e, op = CGet rel e) ∨ ∃ refs e, op = CRefs refs e;
  un_action : CrAction r ≠ CleanupDeleted;
  un_plane : DeletedPlane r = [] }.

Lemma untouched_reads log a own reason release failure sk st :
  Forall (λ op, match op with CGet _ _ | CRefs _ _ => True | _ => False end) log → a ≠ CleanupDeleted →
  untouched log (result_of a own reason release failure sk st).
Proof.
  intros Hl Ha. split; [|done|done]. intros op Hop. rewrite Forall_forall in Hl. specialize (Hl op Hop).
  destruct op; try done; eauto.
Qed.

Lemma authorized_same r1 r2 removal adoption :
  authorized r1 removal adoption → AllowsDelete (ClassifyReleaseOwnership r2) = true →
  OKind (ClassifyReleaseOwnership r2) = OKind (ClassifyReleaseOwnership r1) → authorized r2 removal adoption.
Proof. intros [_ Hp] Ha Hk. split; [done|]. by rewrite Hk. Qed.

Definition log_ok (removal adoption : string) (x : (W * list CleanOp) * CleanupResult) : Prop :=
  untouched x.1.2 x.2 ∨ guarded removal adoption x.1.2 x.2.

Lemma log_ok_reads removal adoption w log a own reason release failure sk st :
  Forall (λ op, match op with CGet _ _ | CRefs _ _ => True | _ => False end) log → a ≠ CleanupDeleted →
  log_ok removal adoption ((w, log), result_of a own reason release failure sk st).
Proof. intros. left. by apply untouched_reads. Qed.

Lemma execute_log (w : W) except removal adoption refs crd r1 release sk :
  let plan := DecideCleanup r1 removal adoption refs crd in
  DeleteRelease plan = true →
  log_ok removal adoption
    (execute_plan (W := W * list CleanOp) (w, [CGet r1 None; CRefs refs None]) pin except plan release sk).
Proof.
  cbv zeta. intros Hd. unfold execute_plan. cbv zeta.
  rewrite (DecideCleanup_ownership _ _ _ _ _ Hd).
  pose proof (proj1 (DecideCleanup_release _ _ _ _ _) Hd) as Hauth.
  cbn [GetRelease watched_helm]. cbv zeta. unfold note at 1. cbn [fst snd].
  destruct (GetRelease w _ _) as [w1 [r2 e]]. cbn [fst snd].
  destruct (is_err e ErrReleaseNotFound);
    [apply log_ok_reads; [by repeat constructor|done]|].
  destruct e as [e|]; [apply log_ok_reads; [by repeat constructor|done]|].
  destruct (_ || _) eqn:Eo; [apply log_ok_reads; [by repeat constructor|done]|].
  bool_hyps. rename H1 into Hkind, H2 into Hallow.
  pose proof (authorized_same _ _ _ _ Hauth Hallow Hkind) as Hauth2.
  cbn [Uninstall watched_helm]. cbv zeta. unfold note at 1. cbn [fst snd].
  destruct (Uninstall w1 _) as [w2 [r3 ue]]. cbn [fst snd].
  destruct ue as [ue|].
  { destruct (errors_is ue ErrReleaseNotFound).
    all: right; split; cbn [fst snd];
      [exists r1, refs, r2, (Some ue), []; split_and!; try done; by left
      |split; [done|]; intros Hin; exfalso;
       repeat (apply elem_of_cons in Hin as [Hin|Hin]; [discriminate Hin|]); by apply elem_of_nil in Hin
      |done]. }
  cbn [Refs watched_index]. cbv zeta. unfold note at 1. cbn [fst snd].
  destruct (Refs w2 _ _) as [w3 [live le]]. cbn [fst snd].
  match goal with |- context [delete_plane (?wa, ?lo) ?li ?ds ?de ?s] =>
    pose proof (delete_plane_log wa lo li ds de s) as Hl; cbv zeta in Hl;
    destruct (delete_plane (wa, lo) li ds de s) as [[w4 log'] [del sk']] end.
  destruct Hl as (l & H1 & H2 & H3). cbn [fst snd] in *. subst log' del.
  right. split; cbn [fst snd CrAction DeletedPlane].
  - exists r1, refs, r2, None, (CRefs live le :: l). split_and!; try done.
    right. exists live, le, l. split; [done|]. intros op (d & e' & -> & Hin & Hp)%H3.
    exists d, e'. rewrite DecideCleanup_dataplane, Hd in Hin.
    apply list_elem_of_filter in Hin as [? ?]. done.
  - split; [intros _|done]. do 3 right. left.
  - done.
Qed.

Lemma cleanup_log hh crd (w : W) cfg :
  log_ok (policiesFrom cfg).1.1 (policiesFrom cfg).1.2
    (CleanupInstallations (W := W * list CleanOp) hh crd (w, []) cfg).
Proof.
  unfold CleanupInstallations. destruct (policiesFrom cfg) as [[removal adoption] nt]. cbn [fst snd].
  destruct (negb hh); [apply log_ok_reads; [by constructor|done]|].
  change (DefaultInstallConfig VendorNVIDIA) with (Ok pin). cbv zeta.
  cbn [GetRelease watched_helm]. cbv zeta. unfold note at 1. cbn [fst snd].
  destruct (GetRelease w _ _) as [w1 [r1 e]]. cbn [fst snd].
  destruct (is_err e ErrReleaseNotFound);
    [apply log_ok_reads; [by repeat constructor|done]|].
  destruct e as [e|]; [apply log_ok_reads; [by repeat constructor|done]|].
  cbn [Refs watched_index]. cbv zeta. unfold note at 1. cbn [fst snd].
  destruct (Refs w1 _ _) as [w2 [refs re]]. cbn [fst snd].
  destruct re as [re|]; [apply log_ok_reads; [by repeat constructor|done]|].
  destruct (DeleteRelease _) eqn:Hd; cbn [negb]; [by apply execute_log|].
  destruct (bool_decide_reflect (PlanAction (DecideCleanup r1 removal adoption refs crd) = CleanupFailed));
    apply log_ok_reads; [by repeat constructor|done|by repeat constructor|].
  revert Hd. unfold DecideCleanup. cbv zeta. by repeat case_match.
Qed.

(** [C2] No deletion without a fresh proof of ownership: if cleanup calls
    Uninstall or deletes a dataplane object at all, then the calls were, in
    order, a read of the release, the listing of its dependents, a second read
    of the release, and one uninstall of the pinned release; both reads showed
    verified ownership of the same kind that the policy allows to delete; and
    every object deleted afterwards was listed, lies in the release's
    namespace, has no other owner and no OPI reference, and was not protected
    by the second listing. *)
Theorem Cleanup_guarded hh crd (w : W) cfg :
  let x := CleanupInstallations (W := W * list CleanOp) hh crd (w, []) cfg in
  (∃ c e, CUninstall c e ∈ x.1.2) ∨ (∃ d e, CDelete d e ∈ x.1.2) →
  ∃ r1 refs r2 ue rest,
    x.1.2 = [CGet r1 None; CRefs refs None; CGet r2 None; CUninstall pin ue] ++ rest ∧
    authorized r1 (policiesFrom cfg).1.1 (policiesFrom cfg).1.2 ∧
    authorized r2 (policiesFrom cfg).1.1 (policiesFrom cfg).1.2 ∧
    OKind (ClassifyReleaseOwnership r2) = OKind (ClassifyReleaseOwnership r1) ∧
    (ue ≠ None → rest = []) ∧
    (rest = [] ∨ ∃ live le dels, rest = CRefs live le :: dels ∧
       ∀ op, op ∈ dels → ∃ d e, op = CDelete d e ∧ d ∈ Dataplane refs ∧
         deletable (RelNamespace r1) (OPI refs) d ∧ stillProtected d live = false).
Proof.
  cbv zeta. intros Hcall. destruct (cleanup_log hh crd w cfg) as [[Hun _ _]|[Hg _ _]]; [|exact Hg].
  exfalso. destruct Hcall as [(c & e & Hin)|(d & e & Hin)];
    destruct (Hun _ Hin) as [(? & ? & ?)|(? & ? & ?)]; discriminate.
Qed.

(** The cleanup report is exact about the release and the dataplane: the
    action is deleted if and only if the pinned release was uninstalled without
    error, and the objects reported deleted are exactly those whose delete call
    succeeded. *)
Theorem Cleanup_report_exact hh crd (w : W) cfg :
  let x := CleanupInstallations (W := W * list CleanOp) hh crd (w, []) cfg in
  (CrAction x.2 = CleanupDeleted ↔ CUninstall pin None ∈ x.1.2) ∧
  DeletedPlane x.2 = omap deleted_key x.1.2.
Proof.
  cbv zeta. destruct (cleanup_log hh crd w cfg) as [[Hun Ha Hp]|[_ Hr Hp]]; [|done].
  split.
  - split; [done|]. intros [(? & ? & ?)|(? & ? & ?)]%Hun; discriminate.
  - rewrite Hp. symmetry. clear Ha Hp. revert Hun.
    generalize (CleanupInstallations (W := W * list CleanOp) hh crd (w, []) cfg).1.2.
    intros l. induction l as [|op l IH]; intros Hun; [done|].
    cbn [omap list_omap]. destruct (Hun op) as [(? & ? & ->)|(? & ? & ->)]; [by left| |];
      cbn [deleted_key]; apply IH; intros ? ?; apply Hun; by right.
Qed.

End Watched.

(** ** Concrete clusters *)

(** A Helm client and an index side by side. *)
Record Cluster := { helm_part : MemoryHelmClient; index_part : MemoryResourceIndex }.

Definition on_helm {A} (c : Cluster) (r : MemoryHelmClient * A) : Cluster * A :=
  ({| helm_part := r.1; index_part := index_part c |}, r.2).

#[global] Instance cluster_helm : HelmClient Cluster := {|
  CtxErr c := ctx (helm_part c);
  GetRelease c ns n := on_helm c (mem_get (helm_part c) ns n);
  Install c cfg v := on_helm c (mem_install (helm_part c) cfg v);
  Upgrade c cfg v := on_helm c (mem_upgrade (helm_part c) cfg v);
  Rollback c cfg to := on_helm c (mem_rollback (helm_part c) cfg to);
  Uninstall c cfg := on_helm c (mem_uninstall (helm_part c) cfg);
  store := None;
  claimer := None |}.

Definition on_index {A} (c : Cluster) (r : MemoryResourceIndex * A) : Cluster * A :=
  ({| helm_part := helm_part c; index_part := r.1 |}, r.2).

#[local] Instance cluster_index : ResourceIndex Cluster := {|
  Refs c ex ns := on_index c (mem_refs (index_part c) ex ns);
  DeleteDataplane c d := on_index c (mem_delete (index_part c) d) |}.

(** An index whose second listing fails, as a lost connection would make it. *)
Definition lost_connection : err := ENew "connection lost".
Definition flaky_index : ResourceIndex Cluster := {|
  Refs c ex ns :=
    let r := on_index c (mem_refs (index_part c) ex ns) in
    if 1 <? looks (index_part r.1) then (r.1, (no_refs, Some lost_connection)) else r;
  DeleteDataplane c d := on_index c (mem_delete (index_part c) d) |}.

Definition demo_plane : CObject :=
  {| CGroup := "svc.dpu.nvidia.com"; CVersion := "v1alpha1"; CKind := "DPUService";
     CNamespace := DefaultNamespace; CName := "svc"; COwner := ReleaseOwner; CTenant := "";
     CReferenced := false |}.

(** [flip]: the object is found referenced from the second listing on. *)
Definition demo_cluster (flip : bool) : Cluster :=
  {| helm_part := memory_with old_release;
     index_part := {| Tenants := ["cfg"]; MOPI := []; MDataplane := [demo_plane]; MCRDDependents := 0;
                      Deleted := []; FlipReferenced := flip; looks := 0 |} |}.

Definition demo_config : ConfigObject :=
  {| CfgName := "cfg"; Annotations := {[ RemovalPolicyAnnotation := " Delete-Owned " ]}; SpecVendor := "nvidia" |}.

Lemma policiesFrom_opt_in_witness :
  policiesFrom (Some demo_config) = (RemovalDeleteOwned, RemovalRetain, "") ∧
  let a k := ann demo_config k in
  (RemovalDeleteOwned = RemovalDeleteOwned ↔ ToLower (TrimSpace (a RemovalPolicyAnnotation)) = RemovalDeleteOwned) ∧
  (RemovalRetain = RemovalDeleteOwned ↔ ToLower (TrimSpace (a AdoptionPolicyAnnotation)) = RemovalDeleteOwned) ∧
  (RemovalDeleteOwned = RemovalDeleteOwned ∨ RemovalDeleteOwned = RemovalRetain) ∧
  (RemovalRetain = RemovalDeleteOwned ∨ RemovalRetain = RemovalRetain).
Proof.
  assert (H : policiesFrom (Some demo_config) = (RemovalDeleteOwned, RemovalRetain, "")) by (vm_compute; reflexivity).
  split; [exact H|]. exact (policiesFrom_opt_in (Some demo_config) RemovalDeleteOwned RemovalRetain "" H).
Defined.

Lemma Cleanup_guarded_witness :
  let x := CleanupInstallations (W := Cluster * list CleanOp) true true (demo_cluster false, []) (Some demo_config) in
  ∃ r1 refs r2 ue rest,
    x.1.2 = [CGet r1 None; CRefs refs None; CGet r2 None; CUninstall pin ue] ++ rest ∧
    authorized r1 (policiesFrom (Some demo_config)).1.1 (policiesFrom (Some demo_config)).1.2 ∧
    authorized r2 (policiesFrom (Some demo_config)).1.1 (policiesFrom (Some demo_config)).1.2 ∧
    OKind (ClassifyReleaseOwnership r2) = OKind (ClassifyReleaseOwnership r1) ∧
    (ue ≠ None → rest = []) ∧
    (rest = [] ∨ ∃ live le dels, rest = CRefs live le :: dels ∧
       ∀ op, op ∈ dels → ∃ d e, op = CDelete d e ∧ d ∈ Dataplane refs ∧
         deletable (RelNamespace r1) (OPI refs) d ∧ stillProtected d live = false).
Proof.
  apply (Cleanup_guarded true true (demo_cluster false) (Some demo_config)).
  left. exists pin, None. vm_compute. do 3 right. left.
Defined.

(** The second listing is not checked for errors: on a cluster where the
    object has become referenced, cleanup keeps it when the listing works; when
    the listing fails instead, it deletes the object and reports success. *)
Theorem Cleanup_ignores_failed_relist :
  (CleanupInstallations true false (demo_cluster true) (Some demo_config)).2.(DeletedPlane) = [] ∧
  let x := @CleanupInstallations Cluster cluster_helm flaky_index true false (demo_cluster true) (Some demo_config) in
  x.2.(DeletedPlane) = [Key demo_plane] ∧ x.2.(CrOpStatus) = OpSucceeded ∧
  Deleted (index_part x.1) = [demo_plane].
Proof. cbv zeta. split_and!; vm_compute; reflexivity. Qed.
