(* ===== verification/Operator.v ===== *)
(** * Observing the vendor operator
      (pkg/lifecycle/status.go, dependency_checker.go, dpu_observe.go, readiness.go)

    Read-only looks at the cluster and the verdicts drawn from them.  The
    cluster is an input: a [ClusterProbe] answers like the Go interface, a
    Deployment or DPU object is what the accessors of apimachinery return for
    the paths the code reads. *)

From Stdlib Require Import Ascii.
From stdpp Require Import base gmap strings list fin_maps.
From S2P Require Import Prelude GoStrings Unstructured MappingSpec Version InstallConfig Release HelmInstaller.

Definition nvidiaProvisioningGroup : string := "provisioning.dpu.nvidia.com".
Definition vendorAPIVersion : string := "v1alpha1".
Definition unknownVendorMsg : string := "unknown vendor".

Definition gvk (g v k : string) : ObjectRef := {| Group := g; Version := v; RefKind := k |}.

Definition nvidiaProbeGVK : ObjectRef := gvk nvidiaProvisioningGroup vendorAPIVersion "DPU".
Definition amdProbeGVK : ObjectRef := gvk "dpu.amd.com" vendorAPIVersion "DSCDevice".

(** ** status.go *)

Inductive OperatorPhase := OperatorInstalling | OperatorReady | OperatorDegraded | OperatorPhaseZero.

#[global] Instance OperatorPhase_eq_dec : EqDecision OperatorPhase.
Proof. solve_decision. Defined.

Definition phase_string (p : OperatorPhase) : string :=
  match p with
  | OperatorInstalling => "Installing"
  | OperatorReady => "Ready"
  | OperatorDegraded => "Degraded"
  | OperatorPhaseZero => ""
  end.

Record ResourceCheck := {
  RcName : string;
  RcPresent : bool;
  RcHealthy : bool;
  RcMessage : string }.

Record namedDeploy := { NdNamespace : string; NdName : string }.

Definition requiredDPFCRDs : list ObjectRef :=
  [ gvk nvidiaProvisioningGroup vendorAPIVersion "DPU";
    gvk nvidiaProvisioningGroup vendorAPIVersion "DPUDevice";
    gvk nvidiaProvisioningGroup vendorAPIVersion "BFB";
    gvk "svc.dpu.nvidia.com" vendorAPIVersion "DPUService";
    gvk "operator.dpu.nvidia.com" vendorAPIVersion "DPFOperatorConfig" ].

Definition requiredDPFControllers : list namedDeploy :=
  [ {| NdNamespace := DefaultNamespace; NdName := "dpf-operator-controller-manager" |};
    {| NdNamespace := DefaultNamespace; NdName := "dpf-provisioning-controller-manager" |};
    {| NdNamespace := DefaultNamespace; NdName := "dpuservice-controller-manager" |} ].

Definition argoDeployFallbacks : list namedDeploy :=
  [ {| NdNamespace := "argocd"; NdName := "argocd-server" |};
    {| NdNamespace := "argo-cd"; NdName := "argocd-server" |} ].

Record OperatorStatus := {
  OsPhase : OperatorPhase;
  OsReady : bool;
  CRDs : list ResourceCheck;
  Controllers : list ResourceCheck;
  Prerequisites : list ResourceCheck;
  OsMessage : string }.

Definition zero_status : OperatorStatus :=
  {| OsPhase := OperatorPhaseZero; OsReady := false; CRDs := []; Controllers := []; Prerequisites := [];
     OsMessage := "" |}.

Definition status_of (p : OperatorPhase) (msg : string) : OperatorStatus :=
  {| OsPhase := p; OsReady := false; CRDs := []; Controllers := []; Prerequisites := []; OsMessage := msg |}.

Record ClusterProbe := {
  ServerVersion : result string;
  HasAPI : string → string → string → bool;
  NeedsKamaji : bool;
  Deployment : string → string → ResourceCheck }.

Definition check_label (c : ResourceCheck) : string := if RcName c == "" then "resource" else RcName c.

(** The two lists the loops fill: absent, and present but unhealthy. *)
Definition absent_of (cs : list ResourceCheck) : list string :=
  check_label <$> filter (λ c, RcPresent c = false) cs.
Definition unhealthy_of (cs : list ResourceCheck) : list string :=
  check_label <$> filter (λ c, RcPresent c = true ∧ RcHealthy c = false) cs.

Definition classifyOperator (o : OperatorStatus) : OperatorStatus :=
  let cs := CRDs o ++ Controllers o ++ Prerequisites o in
  let absent := absent_of cs in
  let unhealthy := unhealthy_of cs in
  let out p r m := {| OsPhase := p; OsReady := r; CRDs := CRDs o; Controllers := Controllers o;
                      Prerequisites := Prerequisites o; OsMessage := m |} in
  if negb (length absent == 0) then
    out OperatorInstalling (OsReady o) ("installing: missing " +:+ Join ", " absent)
  else if negb (length unhealthy == 0) then
    out OperatorDegraded (OsReady o) ("degraded: " +:+ Join ", " unhealthy)
  else out OperatorReady true "DPF CRDs, controllers, and prerequisites are healthy".

Definition observePrereqs (p : ClusterProbe) : list ResourceCheck :=
  let cert := Deployment p "cert-manager" "cert-manager" in
  let argo := Deployment p DefaultNamespace "argo-cd-argocd-server" in
  let argo :=
    if negb (RcPresent argo) then
      default argo (head (filter (λ c, RcPresent c = true)
        ((λ fb, Deployment p (NdNamespace fb) (NdName fb)) <$> argoDeployFallbacks)))
    else argo in
  let argo := if RcName argo == ""
              then {| RcName := "argo-cd"; RcPresent := RcPresent argo; RcHealthy := RcHealthy argo;
                      RcMessage := RcMessage argo |} else argo in
  [cert; argo].

Definition observeNVIDIA (p : ClusterProbe) : OperatorStatus :=
  classifyOperator
    {| OsPhase := OperatorPhaseZero; OsReady := false;
       CRDs := (λ g, let present := HasAPI p (Group g) (RefKind g) (Version g) in
                     {| RcName := Group g +:+ "/" +:+ RefKind g; RcPresent := present;
                        RcHealthy := present; RcMessage := "" |}) <$> requiredDPFCRDs;
       Controllers := (λ d, Deployment p (NdNamespace d) (NdName d)) <$> requiredDPFControllers;
       Prerequisites := observePrereqs p; OsMessage := "" |}.

Definition observeAMD (p : ClusterProbe) : OperatorStatus :=
  let present := HasAPI p (Group amdProbeGVK) (RefKind amdProbeGVK) (Version amdProbeGVK) in
  let crd := {| RcName := "dpu.amd.com/DSCDevice"; RcPresent := present; RcHealthy := present; RcMessage := "" |} in
  {| OsPhase := if present then OperatorReady else OperatorInstalling; OsReady := present;
     CRDs := [crd]; Controllers := []; Prerequisites := [];
     OsMessage := if present then "AMD DSC API is present" else "AMD DSCDevice CRD is not installed" |}.

Definition ObserveOperator (ctxErr : option err) (probe : option ClusterProbe) (vendor : string)
    : OperatorStatus :=
  match ctxErr with
  | Some e => status_of OperatorDegraded (Error e)
  | None =>
      match probe with
      | None => status_of OperatorInstalling "no cluster probe"
      | Some p =>
          if vendor == VendorAMD then observeAMD p
          else if vendor != VendorNVIDIA then status_of OperatorDegraded unknownVendorMsg
          else observeNVIDIA p
      end
  end.

(** A condition: (status, reason, message). *)
Definition condition3 : Type := string * string * string.

Definition operatorCondition (st : OperatorStatus) : condition3 :=
  let reason := if phase_string (OsPhase st) == "" then phase_string OperatorInstalling
                else phase_string (OsPhase st) in
  let message := if OsMessage st == "" then "vendor operator is " +:+ ToLower reason else OsMessage st in
  if OsReady st && (OsPhase st == OperatorReady) then ("True", phase_string OperatorReady, message)
  else ("False", reason, message).

(** ** dependency_checker.go *)

Definition SupportedKubernetesVersion : string := "v1.36.4".
Definition DepCertManager : string := "cert-manager".
Definition DepArgoCD : string := "argo-cd".
Definition DepKamaji : string := "kamaji".
Definition DepCluster : string := "cluster".
Definition clusterAccessMsg : string := "cannot reach the Kubernetes API".

Record DependencyReport := {
  DepOK : bool;
  Kubernetes : string;
  Missing : list string;
  DepMessage : string }.

Definition apiKey (group kind : string) : string := group +:+ "/" +:+ kind.

Definition kubernetesMinorSupported (got : string) : bool :=
  match parseVersion got, parseVersion SupportedKubernetesVersion with
  | Ok have, Ok want => (major have == major want) && (minor have == minor want)
  | _, _ => false
  end.

Definition kubernetesMinor (v : string) : string :=
  match parseVersion v with
  | Ok p => "v" +:+ Itoa (major p) +:+ "." +:+ Itoa (minor p)
  | Err _ => v
  end.

(** The prerequisites that are missing, in the order they are checked. *)
Definition missing_deps (p : ClusterProbe) : list string :=
  (if negb (HasAPI p "cert-manager.io" "Certificate" "v1") then [DepCertManager] else []) ++
  (if negb (HasAPI p "argoproj.io" "Application" "v1alpha1") then [DepArgoCD] else []) ++
  (if NeedsKamaji p && negb (HasAPI p "kamaji.clastix.io" "TenantControlPlane" "v1alpha1")
   then [DepKamaji] else []).

Definition CheckDependencies (ctxErr : option err) (probe : option ClusterProbe) (vendor : string)
    : DependencyReport :=
  let report ok k m msg := {| DepOK := ok; Kubernetes := k; Missing := m; DepMessage := msg |} in
  match ctxErr with
  | Some e => report false "" [] (Error e)
  | None =>
      match probe with
      | None => report false "" [DepCluster] (clusterAccessMsg +:+ ": no cluster probe")
      | Some p =>
          match ServerVersion p with
          | Err _ => report false "" [DepCluster] clusterAccessMsg
          | Ok got =>
              if negb (kubernetesMinorSupported got) then
                report false got ["kubernetes"]
                  (Sprintf "Kubernetes %s is not the supported minor %s"
                     [got; kubernetesMinor SupportedKubernetesVersion] "")
              else if vendor != VendorNVIDIA then
                report true got [] "cluster access and Kubernetes version are acceptable"
              else
                let missing := missing_deps p in
                if negb (length missing == 0) then
                  report false got missing
                    (Sprintf "DPF %s is blocked: missing %s" [nvidiaDPFMin; Join ", " missing] "")
                else report true got [] "DPF prerequisites are present"
          end
      end
  end.

(** StaticProbe *)
Record StaticProbe := {
  SpVersion : string;
  SpVersionErr : option err;
  SpPresent : gmap string bool;
  KamajiNeed : bool;
  Deployments : option (gmap string ResourceCheck) }.

Definition static_probe (s : StaticProbe) : ClusterProbe := {|
  ServerVersion :=
    match SpVersionErr s with
    | Some e => Err e
    | None => if TrimSpace (SpVersion s) == "" then Err (EFmt "no kubernetes version" []) else Ok (SpVersion s)
    end;
  HasAPI group kind _ := default false (SpPresent s !! apiKey group kind);
  NeedsKamaji := KamajiNeed s;
  Deployment ns name :=
    match Deployments s with
    | None => {| RcName := name; RcPresent := false; RcHealthy := false; RcMessage := "deployment not observed" |}
    | Some ds =>
        match ds !! releaseKey ns name with
        | Some got => got
        | None => {| RcName := name; RcPresent := false; RcHealthy := false; RcMessage := "deployment not found" |}
        end
    end |}.

(** What reading one Deployment gives: spec.replicas when set, and the two
    status counters (0 when absent). *)
Inductive DeployRead :=
| DeployNotFound
| DeployError (e : err)
| DeployFound (replicas : option Z) (readyReplicas availableReplicas : Z).

Definition rest_deployment (namespace name : string) (read : option DeployRead) : ResourceCheck :=
  let check p h m := {| RcName := namespace +:+ "/" +:+ name; RcPresent := p; RcHealthy := h; RcMessage := m |} in
  match read with
  | None => check false false "no client"
  | Some DeployNotFound => check false false "not found"
  | Some (DeployError e) => check false false (Error e)
  | Some (DeployFound reps ready available) =>
      let replicas := default 1%Z reps in
      let healthy := (replicas <=? ready)%Z && ((replicas == 0%Z) || (0 <? available)%Z) in
      check true healthy (if healthy then "" else Sprintf "ready %d/%d" [Itoa ready; Itoa replicas] "")
  end.

(** RESTClusterProbe.ServerVersion: the discovery client, its answer (nil info
    is [None]). *)
Definition rest_server_version (discovery : option (result (option string))) : result string :=
  match discovery with
  | None => Err (EFmt "no discovery client" [])
  | Some (Err e) => Err e
  | Some (Ok None) => Err (EFmt "empty kubernetes version" [])
  | Some (Ok (Some v)) => if TrimSpace v == "" then Err (EFmt "empty kubernetes version" []) else Ok v
  end.

(** RESTClusterProbe.NeedsKamaji: the spec.type of every DPUCluster listed. *)
Definition rest_needs_kamaji (types : option (result (list string))) : bool :=
  match types with
  | Some (Ok ts) => existsb (λ t, t == DepKamaji) ts
  | _ => false
  end.

(** ** dpu_observe.go *)

Definition DPUPhaseRebooting : string := "Rebooting".
Definition hostPowerCycleRequiredKey : string := "provisioning.dpu.nvidia.com/host-power-cycle-required".

(** A DPU object: what NestedString and NestedSlice return for status.phase,
    status.status, status.agentStatus.rebootMethod, status.rebootStatus.phase
    and status.agentStatus.lastObservedPendingNvconfig.devices. *)
Record DPUObject := {
  DpuNamespace : string;
  DpuName : string;
  DpuAnnotations : gmap string string;
  DpuPhase : string;
  DpuStatusStatus : string;
  DpuRebootMethod : string;
  DpuRebootPhase : string;
  DpuPendingDevices : list value }.

Record DPUReport := {
  DrReady : bool;
  DrPhase : string;
  DrMethod : string;
  DrNames : list string;
  Rebooting : list string;
  Pending : string;
  DrMessage : string }.

Definition zero_dpu_report : DPUReport :=
  {| DrReady := false; DrPhase := ""; DrMethod := ""; DrNames := []; Rebooting := []; Pending := ""; DrMessage := "" |}.

Definition unknown_dpu (msg : string) : DPUReport :=
  {| DrReady := false; DrPhase := skew_string SkewUnknown; DrMethod := ""; DrNames := []; Rebooting := [];
     Pending := ""; DrMessage := msg |}.

(** The entries of one device; a wrong type reads as nothing. *)
Definition nvconfig_entries (raw : value) : list (gmap string value) :=
  match asMap raw with
  | Some dev =>
      match dev !! "entries" with
      | Some (VList es) => (λ e, default ∅ (asMap e)) <$> es
      | _ => []
      end
  | None => []
  end.

(** The loop with its set of seen keys. *)
Fixpoint nvconfig_parts (seen : list string) (es : list (gmap string value)) : list string :=
  match es with
  | [] => []
  | entry :: es' =>
      let name := str_at entry "name" in
      let cur := str_at entry "current" in
      let next := str_at entry "next_boot" in
      if name == "" then nvconfig_parts seen es'
      else
        let key := name +:+ "=" +:+ cur +:+ "→" +:+ next in
        if bool_decide (key ∈ seen) then nvconfig_parts seen es'
        else (name +:+ " " +:+ cur +:+ "→" +:+ next) :: nvconfig_parts (key :: seen) es'
  end.

Definition pendingNvconfigSummary (dpu : DPUObject) : string :=
  Join ", " (nvconfig_parts [] (mjoin (nvconfig_entries <$> DpuPendingDevices dpu))).

Definition nvidiaDPUStalled (phase method rebootPhase : string) (powerCycle : bool) : bool :=
  if powerCycle then true
  else if EqualFold (TrimSpace phase) "Ready" then false
  else
    let p := ToLower (TrimSpace phase) in
    if (p == "rebooting") || (p == "perform arm force restart") || (p == "checking host reboot required") then true
    else if (method == "SystemLevelReset") || (method == "FirmwareReset") || (method == "PowerCycle")
    then negb (EqualFold rebootPhase "Succeeded")
    else false.

(** One DPU of the list. *)
Definition observe_dpu (out : DPUReport) (dpu : DPUObject) : DPUReport :=
  let name := DpuNamespace dpu +:+ "/" +:+ DpuName dpu in
  let phase := if DpuPhase dpu == "" then DpuStatusStatus dpu else DpuPhase dpu in
  let method := DpuRebootMethod dpu in
  let pending := pendingNvconfigSummary dpu in
  let needsCycle := default "" (DpuAnnotations dpu !! hostPowerCycleRequiredKey) == "true" in
  let stalled := nvidiaDPUStalled phase method (DpuRebootPhase dpu) needsCycle in
  let firstPhase := if DrPhase out == "" then phase else DrPhase out in
  let firstMethod := if DrMethod out == "" then method else DrMethod out in
  {| DrReady := DrReady out;
     DrPhase := if stalled then DPUPhaseRebooting else firstPhase;
     DrMethod := if stalled && (method != "") then method else firstMethod;
     DrNames := DrNames out ++ [name];
     Rebooting := if stalled then Rebooting out ++ [name] else Rebooting out;
     Pending := if pending != "" then pending else Pending out;
     DrMessage := DrMessage out |}.

(** [dpus]: no client, or the answer of the list call. *)
Definition ObserveNVIDIADPUs (ctxErr : option err) (dpus : option (result (list DPUObject))) : DPUReport :=
  match dpus with
  | None => unknown_dpu "no client to list NVIDIA DPUs"
  | Some listed =>
      match ctxErr with
      | Some e => unknown_dpu (Error e)
      | None =>
          match listed with
          | Err e => unknown_dpu (SanitizeLogValue "dpu-list" (Error e))
          | Ok [] => unknown_dpu "no NVIDIA DPU objects observed"
          | Ok items =>
              let out := foldl observe_dpu zero_dpu_report items in
              if negb (length (Rebooting out) == 0) then
                {| DrReady := false; DrPhase := DrPhase out; DrMethod := DrMethod out; DrNames := DrNames out;
                   Rebooting := Rebooting out; Pending := Pending out;
                   DrMessage :=
                     "NVIDIA DPU " +:+ Join "," (Rebooting out) +:+ " is Rebooting" +:+
                     (if DrMethod out != "" then " (method " +:+ DrMethod out +:+ ")" else "") +:+
                     (if Pending out != "" then "; pending NVCONFIG " +:+ Pending out else "") +:+
                     "; DPF provisioning is waiting for the required reset. " +:+
                     "This adapter does not run mlxfwreset or reboot the host. " +:+
                     "Pending NVCONFIG is a DPF host-agent step, not an LCM install failure." |}
              else
                {| DrReady := true;
                   DrPhase := if DrPhase out == "" then phase_string OperatorReady else DrPhase out;
                   DrMethod := DrMethod out; DrNames := DrNames out; Rebooting := Rebooting out;
                   Pending := Pending out; DrMessage := "NVIDIA DPU objects are not in Rebooting" |}
          end
      end
  end.

Definition dpuNeedsRequeue (rep : DPUReport) : bool := negb (length (Rebooting rep) == 0).

Definition dpuCondition (rep : DPUReport) : condition3 :=
  let message := if DrMessage rep == "" then "NVIDIA DPU state was not observed" else DrMessage rep in
  if negb (length (Rebooting rep) == 0) || EqualFold (DrPhase rep) DPUPhaseRebooting then
    ("False", DPUPhaseRebooting, message)
  else if DrReady rep then ("True", phase_string OperatorReady, message)
  else ("Unknown", skew_string SkewUnknown, message).

(** ** readiness.go *)

Record Readiness := { RdReady : bool; RdMessage : string }.

Definition policy_rejects (k : Skew) : bool :=
  match k with
  | SkewTooOld | SkewTooNew | SkewUnknownVendor | SkewInvalidConfig | SkewBlocked => true
  | _ => false
  end.

Definition AssessReadiness (i : Intent) (inst : InstallResult) (pol : PolicyResult) (st : OperatorStatus)
    : Readiness :=
  if negb (Known i) then {| RdReady := false; RdMessage := unknownVendorMsg |}
  else if policy_rejects (PSkew pol) then
    {| RdReady := false; RdMessage := "version policy rejected this install" |}
  else if negb (RPresent inst) then {| RdReady := false; RdMessage := "vendor operator API not detected" |}
  else if negb (OsReady st) || (OsPhase st != OperatorReady) then
    {| RdReady := false;
       RdMessage := if OsMessage st == "" then "vendor operator CRDs or controllers are not healthy"
                    else OsMessage st |}
  else {| RdReady := true; RdMessage := OsMessage st |}.
