(* ===== verification/Ensure.v ===== *)
(** * The install pass (pkg/lifecycle/installer.go, olm_client.go, ensure.go)

    [EnsureInstalled] chains intent, preflight, settings, dependencies, the
    installer and the observation.  Installers are functions of the world, so
    Helm, OLM and detection compose like the Go interface values. *)

From Stdlib Require Import Ascii.
From stdpp Require Import base gmap strings list fin_maps.
From S2P Require Import Prelude GoStrings Unstructured MappingSpec Version InstallConfig Release HelmInstaller Operator.

(** ** Sentinels *)

Definition ErrHelmMutationNotConfigured : err := ENew "helm mutation is not configured".
Definition ErrOLMNotPresent : err := ENew "olm apis are not present".
Definition ErrOLMMutationNotConfigured : err := ENew "olm mutation is not configured".
Definition ErrOLMPackageNotPublished : err := ENew "olm package is not published".
Definition ErrSubscriptionNotFound : err := ENew "olm subscription not found".
Definition ErrSubscriptionUnmanaged : err := ENew "olm subscription is not managed by this adapter".

Definition NVIDIAOLMPublished : bool := false.

(** ** Detection (installer.go) *)

Definition vendorProbeGVK (vendor : string) : option ObjectRef :=
  if vendor == VendorNVIDIA then Some nvidiaProbeGVK
  else if vendor == VendorAMD then Some amdProbeGVK
  else None.

(** [mapper] is the REST mapper: does the kind have a mapping. *)
Definition vendorAPIPresent (mapper : option (ObjectRef → bool)) (vendor : string) : bool :=
  match mapper with
  | None => false
  | Some has => match vendorProbeGVK vendor with Some g => has g | None => false end
  end.

Definition zero_install : InstallResult := failed_result InstallZero OpZero "".

Definition detect (ctxErr : option err) (mapper : option (ObjectRef → bool)) (i : Intent)
    : InstallResult * option err :=
  match ctxErr with
  | Some e => (zero_install, Some e)
  | None =>
      let present := vendorAPIPresent mapper (IVendor i) in
      ({| RAction := if present then InstallDetected else InstallAbsent; RVersion := PinnedVersion i;
          RPresent := present; RObserved := ""; RLastKnownGood := ""; ROpStatus := OpZero; RFailure := "" |}, None)
  end.

(** ** OLM (olm_client.go) *)

Record OLMSubscription := {
  SubName : string;
  SubNamespace : string;
  SubPackage : string;
  SubChannel : string;
  SubCatalog : string;
  SubCSV : string;
  SubVersion : string;
  SubLabels : option (gmap string string) }.

Definition zero_subscription : OLMSubscription :=
  {| SubName := ""; SubNamespace := ""; SubPackage := ""; SubChannel := ""; SubCatalog := ""; SubCSV := "";
     SubVersion := ""; SubLabels := None |}.

Definition sub_Identity (s : OLMSubscription) : string :=
  SubNamespace s +:+ "/" +:+ SubName s +:+ "@" +:+ SubVersion s.

Definition sub_ManagedByAdapter (s : OLMSubscription) : bool :=
  match SubLabels s with
  | None => false
  | Some _ => label (SubLabels s) ReleaseOwnerLabel == ReleaseOwner
  end.

(** The text after the last occurrence of [p] in [s], when there is one
    ([strings.LastIndex]). *)
Fixpoint after_last (p s : string) : option string :=
  match s with
  | EmptyString => strip_prefix p ""
  | String _ s' =>
      match after_last p s' with
      | Some a => Some a
      | None => strip_prefix p s
      end
  end.

Definition versionFromCSVRef (csv : string) : string :=
  let csv := TrimSpace csv in
  if csv == "" then ""
  else match after_last ".v" csv with
  | Some rest => "v" +:+ rest
  | None =>
      let whole := if is_ok (parseVersion csv) then csv else "" in
      match after_last "." csv with
      | Some rest => if is_ok (parseVersion rest) then rest else whole
      | None => whole
      end
  end.

(** subscriptionFromUnstructured: the object's name, namespace and labels, and
    the strings at spec.name, spec.channel, spec.source, status.installedCSV
    and status.currentCSV. *)
Record SubscriptionObject := {
  SoName : string; SoNamespace : string; SoLabels : option (gmap string string);
  SoPackage : string; SoChannel : string; SoSource : string;
  SoInstalledCSV : string; SoCurrentCSV : string }.

Definition subscriptionFromUnstructured (o : SubscriptionObject) : OLMSubscription :=
  let csv := if SoInstalledCSV o == "" then SoCurrentCSV o else SoInstalledCSV o in
  {| SubName := SoName o; SubNamespace := SoNamespace o; SubPackage := SoPackage o; SubChannel := SoChannel o;
     SubCatalog := SoSource o; SubCSV := csv; SubVersion := versionFromCSVRef csv; SubLabels := SoLabels o |}.

Definition matchesPinnedOLM (sub : OLMSubscription) (cfg : InstallConfig) : bool :=
  (SubName sub == ReleaseName cfg) && (SubNamespace sub == IcNamespace cfg) &&
  versionsEqual (SubVersion sub) (ChartVersion cfg).

Definition observedOLMResult (action : InstallAction) (status : OpStatus) (sub : OLMSubscription)
    (failure : string) : InstallResult :=
  {| RAction := action; RVersion := SubVersion sub; RPresent := SubName sub != "";
     RObserved := SubVersion sub; RLastKnownGood := ""; ROpStatus := status; RFailure := failure |}.

Class OLMClient (W : Type) := {
  APIsPresent : W → bool;
  GetSubscription : W → string → string → W * (OLMSubscription * option err);
  Subscribe : W → InstallConfig → W * (OLMSubscription * option err);
  ClaimSubscription : W → InstallConfig → W * (OLMSubscription * option err) }.

Section OLM.
Context {W : Type} `{HelmClient W} `{OLMClient W}.

(** The type assertion to [subscriptionClaimer] always succeeds: the interface
    includes the method. *)
Definition olm_claimOrLeaveUnmanaged (w : W) (i : Intent) (cfg : InstallConfig) (sub : OLMSubscription)
    : W * (InstallResult * option err) :=
  if negb (AdoptExisting i) || negb (matchesPinnedOLM sub cfg) then
    (w, (observedOLMResult InstallUnmanaged OpSucceeded sub "", None))
  else
    let '(w, (claimed, e)) := ClaimSubscription w cfg in
    match e with
    | Some e => (w, (observedOLMResult InstallFailed OpFailed sub (Error e), Some e))
    | None =>
        if negb (sub_ManagedByAdapter claimed) || negb (matchesPinnedOLM claimed cfg) then
          (w, (observedOLMResult InstallFailed OpFailed claimed
                 "claim did not produce the pinned owned subscription", Some ErrSubscriptionUnmanaged))
        else (w, (observedOLMResult InstallAdopted OpSucceeded claimed "", None))
    end.

(** [HasOLM] is [o.Client != nil]. *)
Definition olm_Ensure (HasOLM : bool) (w : W) (i : Intent) : W * (InstallResult * option err) :=
  match CtxErr w with
  | Some e => (w, (failed_result InstallFailed OpTimeout (Error e), Some e))
  | None =>
      if negb HasOLM then (w, (failed_result InstallFailed OpFailed "", Some ErrOLMNotPresent))
      else if IVendor i == VendorAMD then
        (w, ({| RAction := InstallSkipped; RVersion := PinnedVersion i; RPresent := false; RObserved := "";
                RLastKnownGood := ""; ROpStatus := OpZero; RFailure := "" |}, Some ErrNoVendorChart))
      else if negb (APIsPresent w) then (w, (zero_install, Some ErrOLMNotPresent))
      else match DefaultInstallConfig (IVendor i) with
      | Err e => (w, (failed_result InstallFailed OpFailed "", Some e))
      | Ok cfg =>
          let '(cfg, pol) := ApplyVersionPolicy i cfg in
          if PSkew pol == SkewInvalidConfig then
            (w, (failed_result InstallSkipped OpFailed "install config is not the pinned allow-list",
                 Some ErrOLMPackageNotPublished))
          else
            let '(w, (sub, e)) := GetSubscription w (IcNamespace cfg) (ReleaseName cfg) in
            match e with
            | Some e =>
                if errors_is e ErrOLMNotPresent then (w, (zero_install, Some e))
                else if errors_is e ErrSubscriptionNotFound then
                  (w, (zero_install, Some (if negb NVIDIAOLMPublished then ErrOLMPackageNotPublished
                                           else ErrOLMMutationNotConfigured)))
                else (w, (failed_result InstallFailed OpFailed (Error e), Some e))
            | None =>
                if negb (sub_ManagedByAdapter sub) then olm_claimOrLeaveUnmanaged w i cfg sub
                else (w, (observedOLMResult InstallNoop OpNoop sub "", None))
            end
      end
  end.

End OLM.

(** MemoryOLMClient *)
Record MemoryOLMClient := {
  OlmPresent : bool;
  subs : gmap string OLMSubscription;
  SubscribeCalls : Z }.

Definition with_subs (s : gmap string OLMSubscription) (m : MemoryOLMClient) : MemoryOLMClient :=
  {| OlmPresent := OlmPresent m; subs := s; SubscribeCalls := SubscribeCalls m |}.

Definition olm_Put (m : MemoryOLMClient) (sub : OLMSubscription) : MemoryOLMClient :=
  with_subs (<[releaseKey (SubNamespace sub) (SubName sub) := sub]> (subs m)) m.

Definition olm_get (m : MemoryOLMClient) (namespace name : string)
    : MemoryOLMClient * (OLMSubscription * option err) :=
  if negb (OlmPresent m) then (m, (zero_subscription, Some ErrOLMNotPresent))
  else match subs m !! releaseKey namespace name with
  | None => (m, (zero_subscription, Some ErrSubscriptionNotFound))
  | Some sub => (m, (sub, None))
  end.

Definition olm_subscribe (m : MemoryOLMClient) (cfg : InstallConfig)
    : MemoryOLMClient * (OLMSubscription * option err) :=
  ({| OlmPresent := OlmPresent m; subs := subs m; SubscribeCalls := wrap_int64 (SubscribeCalls m + 1) |},
   (zero_subscription, Some ErrOLMMutationNotConfigured)).

Definition olm_claim (m : MemoryOLMClient) (cfg : InstallConfig)
    : MemoryOLMClient * (OLMSubscription * option err) :=
  if negb (OlmPresent m) then (m, (zero_subscription, Some ErrOLMNotPresent))
  else
    let key := releaseKey (IcNamespace cfg) (ReleaseName cfg) in
    match subs m !! key with
    | None => (m, (zero_subscription, Some ErrSubscriptionNotFound))
    | Some existing =>
        if negb (matchesPinnedOLM existing cfg) then (m, (existing, Some ErrSubscriptionUnmanaged))
        else
          let claimed := {| SubName := SubName existing; SubNamespace := SubNamespace existing;
                            SubPackage := SubPackage existing; SubChannel := SubChannel existing;
                            SubCatalog := SubCatalog existing; SubCSV := SubCSV existing;
                            SubVersion := SubVersion existing;
                            SubLabels := Some (stampAdoptedLabels (SubLabels existing)) |} in
          (with_subs (<[key := claimed]> (subs m)) m, (claimed, None))
    end.

(** ** ensure.go *)

Definition fallbackInstallErr (e : option err) : bool :=
  is_err e ErrHelmMutationNotConfigured || is_err e ErrOLMNotPresent ||
  is_err e ErrOLMMutationNotConfigured || is_err e ErrOLMPackageNotPublished || is_err e ErrNoVendorChart.

Section Chain.
Context {W : Type}.

(** The interface [Installer]. *)
Definition Installer : Type := W → Intent → W * (InstallResult * option err).

(** helmWithDetect and olmWithDetect: on a fallback error, the next one. *)
Definition with_fallback (first next : Installer) : Installer := λ w i,
  let '(w, (got, e)) := first w i in
  if fallbackInstallErr e then next w i else (w, (got, e)).

End Chain.
Arguments Installer : clear implicits.

Record Result := {
  ResIntent : Intent;
  ResPreflight : Preflight;
  Settings : option InstallConfig;
  Dependencies : option DependencyReport;
  ResInstall : InstallResult;
  ResPolicy : PolicyResult;
  ResOperator : OperatorStatus;
  ResDPU : DPUReport;
  ResReadiness : Readiness }.

Definition zero_policy : PolicyResult := policy_skew SkewNone.
Definition zero_readiness : Readiness := {| RdReady := false; RdMessage := "" |}.

Section Pass.
Context {W : Type}.

(** What the manager reads of the world during the pass, and its installer. *)
Context (ctxErr : W → option err) (probe : W → option ClusterProbe)
  (dpus : W → option (result (list DPUObject))) (install : Installer W).

(** A pass that stops before the installer. *)
Definition stop (i : Intent) (pf : Preflight) (settings : option InstallConfig)
    (deps : option DependencyReport) (inst : InstallResult) (pol : PolicyResult) (st : OperatorStatus) : Result :=
  {| ResIntent := i; ResPreflight := pf; Settings := settings; Dependencies := deps; ResInstall := inst;
     ResPolicy := pol; ResOperator := st; ResDPU := zero_dpu_report;
     ResReadiness := AssessReadiness i inst pol st |}.

Definition skipped_install (version : string) : InstallResult :=
  {| RAction := InstallSkipped; RVersion := version; RPresent := false; RObserved := ""; RLastKnownGood := "";
     ROpStatus := OpZero; RFailure := "" |}.

Definition EnsureInstalled (w : W) (cfg : option ConfigObject) : W * (Result * option err) :=
  let i := ParseIntent cfg in
  let pf := RunPreflight i in
  if PfSkip pf then
    (w, ({| ResIntent := i; ResPreflight := pf; Settings := None; Dependencies := None;
            ResInstall := skipped_install ""; ResPolicy := zero_policy; ResOperator := zero_status;
            ResDPU := zero_dpu_report; ResReadiness := zero_readiness |}, None))
  else if negb (PfOK pf) then
    let pol := {| PSkew := PfReason pf; PVersion := PinnedVersion i; PRange := zero_range; PMessage := "" |} in
    (w, (stop i pf None None (skipped_install (PinnedVersion i)) pol zero_status, None))
  else match RejectInstallOverrides cfg with
  | Err _ => (w, (stop i pf None None (skipped_install "") (policy_skew SkewInvalidConfig) zero_status, None))
  | Ok _ =>
      match DefaultInstallConfig (IVendor i) with
      | Err _ => (w, (stop i pf None None (skipped_install "") (policy_skew SkewUnknownVendor) zero_status, None))
      | Ok settings =>
          let '(settings, pol) := ApplyVersionPolicy i settings in
          if PSkew pol == SkewInvalidConfig then
            (w, (stop i pf (Some settings) None (skipped_install "") pol zero_status, None))
          else
            let deps := CheckDependencies (ctxErr w) (probe w) (IVendor i) in
            if negb (DepOK deps) then
              let pol := {| PSkew := SkewBlocked; PVersion := PinnedVersion i; PRange := zero_range;
                            PMessage := DepMessage deps |} in
              (w, (stop i pf (Some settings) (Some deps) (skipped_install (PinnedVersion i)) pol
                     (status_of OperatorInstalling (DepMessage deps)), None))
            else
              let '(w, (inst, e)) := install w i in
              match e with
              | Some e =>
                  (w, ({| ResIntent := i; ResPreflight := pf; Settings := Some settings;
                          Dependencies := Some deps; ResInstall := zero_install; ResPolicy := pol;
                          ResOperator := zero_status; ResDPU := zero_dpu_report;
                          ResReadiness := zero_readiness |}, Some e))
              | None =>
                  let pol := if (PinnedVersion i == "") && (RVersion inst != "")
                             then EvaluatePolicy (IVendor i) (RVersion inst) else pol in
                  let st := ObserveOperator (ctxErr w) (probe w) (IVendor i) in
                  (w, ({| ResIntent := i; ResPreflight := pf; Settings := Some settings;
                          Dependencies := Some deps; ResInstall := inst; ResPolicy := pol; ResOperator := st;
                          ResDPU := if IVendor i == VendorNVIDIA then ObserveNVIDIADPUs (ctxErr w) (dpus w)
                                    else zero_dpu_report;
                          ResReadiness := AssessReadiness i inst pol st |}, None))
              end
      end
  end.

End Pass.
