(* ===== verification/EnsureFacts.v ===== *)
(** * What the install pass guarantees *)

From Stdlib Require Import Ascii.
From stdpp Require Import base gmap strings list fin_maps.
From S2P Require Import Prelude GoStrings Unstructured MappingSpec Version InstallConfig Release HelmInstaller HelmMemory Operator Ensure.

(** ** The operator's health *)

Definition healthy_check (c : ResourceCheck) : Prop := RcPresent c = true ∧ RcHealthy c = true.

(** Everything the observation looked at. *)
Definition checks (o : OperatorStatus) : list ResourceCheck := CRDs o ++ Controllers o ++ Prerequisites o.

Lemma labels_nil (P : ResourceCheck → Prop) `{∀ c, Decision (P c)} cs :
  check_label <$> filter P cs = [] ↔ Forall (λ c, ¬ P c) cs.
Proof.
  induction cs as [|c cs IH]; [by split|]. rewrite Forall_cons, <- IH.
  destruct (decide (P c)); [rewrite filter_cons_True by done|rewrite filter_cons_False by done]; cbn; naive_solver.
Qed.

Lemma absent_nil cs : absent_of cs = [] ↔ Forall (λ c, RcPresent c = true) cs.
Proof.
  unfold absent_of. rewrite labels_nil, !Forall_forall.
  split; intros H c Hc; specialize (H c Hc); destruct (RcPresent c); naive_solver.
Qed.

Lemma unhealthy_nil cs :
  Forall (λ c, RcPresent c = true) cs → unhealthy_of cs = [] ↔ Forall healthy_check cs.
Proof.
  intros Hp. unfold unhealthy_of. rewrite labels_nil, !Forall_forall.
  rewrite Forall_forall in Hp. unfold healthy_check.
  split; intros H c Hc; specialize (H c Hc); specialize (Hp c Hc); destruct (RcHealthy c); naive_solver.
Qed.

(** The operator's phase, exactly: Ready when every CRD, controller and
    prerequisite is present and healthy; Installing when one is absent;
    Degraded when all are present but one is unhealthy.  Ready is claimed in
    the first case only. *)
Theorem classifyOperator_exact o :
  OsReady o = false →
  let r := classifyOperator o in
  (OsPhase r = OperatorReady ↔ Forall healthy_check (checks o)) ∧
  (OsReady r = true ↔ Forall healthy_check (checks o)) ∧
  (OsPhase r = OperatorInstalling ↔ ∃ c, c ∈ checks o ∧ RcPresent c = false) ∧
  (OsPhase r = OperatorDegraded ↔
     Forall (λ c, RcPresent c = true) (checks o) ∧ ¬ Forall healthy_check (checks o)).
Proof.
  intros Ho. cbv zeta. unfold classifyOperator. fold (checks o). cbv zeta.
  set (cs := checks o). rewrite Ho.
  assert (Hh : Forall healthy_check cs → Forall (λ c, RcPresent c = true) cs).
  { intros Hf. eapply Forall_impl; [exact Hf|]. by intros c []. }
  assert (Ha : (∃ c, c ∈ cs ∧ RcPresent c = false) ↔ ¬ Forall (λ c, RcPresent c = true) cs).
  { rewrite Forall_forall. split.
    - intros (c & Hc & Hp) H. specialize (H c Hc). congruence.
    - intros Hn. destruct (decide (Exists (λ c, RcPresent c = false) cs)) as [He|He].
      + apply Exists_exists in He as (c & ? & ?). eauto.
      + destruct Hn. intros c Hc. rewrite Exists_exists in He.
        destruct (RcPresent c) eqn:E; [done|]. destruct He. eauto. }
  rewrite Ha. destruct (bool_decide_reflect (length (absent_of cs) = 0)) as [E|E]; cbn [negb].
  - apply nil_length_inv, absent_nil in E.
    destruct (bool_decide_reflect (length (unhealthy_of cs) = 0)) as [E'|E']; cbn.
    + apply nil_length_inv, (unhealthy_nil _ E) in E'. naive_solver.
    + assert (¬ Forall healthy_check cs) by (intros ?%(unhealthy_nil _ E); by rewrite H in E').
      naive_solver.
  - assert (Hn : ¬ Forall (λ c, RcPresent c = true) cs) by (intros H%absent_nil; by rewrite H in E).
    cbn. naive_solver.
Qed.

Definition good_check (n : string) : ResourceCheck :=
  {| RcName := n; RcPresent := true; RcHealthy := true; RcMessage := "" |}.

Definition demo_status : OperatorStatus :=
  {| OsPhase := OperatorPhaseZero; OsReady := false; CRDs := [good_check "crd"];
     Controllers := [{| RcName := "ctl"; RcPresent := true; RcHealthy := false; RcMessage := "" |}];
     Prerequisites := []; OsMessage := "" |}.

Lemma classifyOperator_exact_witness :
  OsPhase (classifyOperator demo_status) = OperatorDegraded ∧
  (let r := classifyOperator demo_status in
   (OsPhase r = OperatorReady ↔ Forall healthy_check (checks demo_status)) ∧
   (OsReady r = true ↔ Forall healthy_check (checks demo_status)) ∧
   (OsPhase r = OperatorInstalling ↔ ∃ c, c ∈ checks demo_status ∧ RcPresent c = false) ∧
   (OsPhase r = OperatorDegraded ↔
      Forall (λ c, RcPresent c = true) (checks demo_status) ∧ ¬ Forall healthy_check (checks demo_status))).
Proof.
  split; [vm_compute; reflexivity|]. apply (classifyOperator_exact demo_status). reflexivity.
Defined.

(** ** Dependencies *)

(** The dependency gate opens exactly when the context is live, the API
    server answers with the supported Kubernetes minor, and, for NVIDIA,
    cert-manager, Argo CD and (when a cluster asks for it) Kamaji are present. *)
Theorem CheckDependencies_iff ctxErr probe vendor :
  DepOK (CheckDependencies ctxErr probe vendor) = true ↔
  ctxErr = None ∧ ∃ p got, probe = Some p ∧ ServerVersion p = Ok got ∧
    (∃ v, parseVersion got = Ok v ∧ major v = 1%Z ∧ minor v = 36%Z) ∧
    (vendor = VendorNVIDIA →
       HasAPI p "cert-manager.io" "Certificate" "v1" = true ∧
       HasAPI p "argoproj.io" "Application" "v1alpha1" = true ∧
       (NeedsKamaji p = true → HasAPI p "kamaji.clastix.io" "TenantControlPlane" "v1alpha1" = true)).
Proof.
  unfold CheckDependencies. cbv zeta. destruct ctxErr; [cbn; naive_solver|].
  destruct probe as [p|]; [|cbn; naive_solver].
  destruct (ServerVersion p) as [got|e] eqn:Es.
  2:{ cbn. split; [done|]. intros (_ & p' & got' & [= <-] & Hg & _). congruence. }
  assert (Hk : kubernetesMinorSupported got = true ↔ ∃ v, parseVersion got = Ok v ∧ major v = 1%Z ∧ minor v = 36%Z).
  { unfold kubernetesMinorSupported.
    replace (parseVersion SupportedKubernetesVersion)
      with (Ok {| major := 1; minor := 36; patch := 4 |}) by (vm_compute; reflexivity).
    destruct (parseVersion got) as [v|]; [|split; [done|by intros (? & ? & _)]]. cbn [major minor].
    rewrite andb_true_iff, !bool_decide_eq_true. split; [by exists v|]. by intros (v' & [= <-] & ?). }
  destruct (kubernetesMinorSupported got); cbn [negb].
  2:{ cbn. split; [done|]. intros (_ & p' & got' & [= <-] & Hg & Hv & _). rewrite Es in Hg. injection Hg as <-.
      by apply Hk in Hv. }
  pose proof (proj1 Hk eq_refl) as Hv.
  destruct (bool_decide_reflect (vendor = VendorNVIDIA)) as [Hn|Hn]; cbn [negb].
  2:{ cbn. split; [|done]. intros _. split; [done|]. exists p, got. split_and!; [done..|by intros ?]. }
  unfold missing_deps.
  destruct (HasAPI p "cert-manager.io" "Certificate" "v1") eqn:E1;
  destruct (HasAPI p "argoproj.io" "Application" "v1alpha1") eqn:E2;
  destruct (NeedsKamaji p) eqn:E3;
  destruct (HasAPI p "kamaji.clastix.io" "TenantControlPlane" "v1alpha1") eqn:E4; cbn [andb negb app length].
  all: first [rewrite bool_decide_true by done | rewrite bool_decide_false by done]; cbn [negb DepOK].
  all: split; try done.
  all: try (intros _; split; [done|]; exists p, got; split_and!; [done..|intros _; split_and!; intros; congruence]).
  all: intros Hall; exfalso; destruct Hall as (_ & p' & got' & Hp & Hg & _ & H); injection Hp as <-;
    specialize (H Hn); destruct H as (? & ? & H'); try congruence.
  all: specialize (H' E3); congruence.
Qed.

(** ** The pass *)

Section Pass.
Context {W : Type}.
Context (ctxErr : W → option err) (probe : W → option ClusterProbe)
  (dpus : W → option (result (list DPUObject))) (install : Installer W).

(** All gates before the installer are open. *)
Record gates (w : W) (cfg : option ConfigObject) : Prop := {
  ga_known : Known (ParseIntent cfg) = true;
  ga_overrides : RejectInstallOverrides cfg = Ok tt;
  ga_deps : DepOK (CheckDependencies (ctxErr w) (probe w) (IVendor (ParseIntent cfg))) = true }.

(** Every pass either stops before the installer, not ready, or is one call of
    the installer behind open gates. *)
Lemma EnsureInstalled_cases w cfg :
  let x := EnsureInstalled ctxErr probe dpus install w cfg in
  let i := ParseIntent cfg in
  (x.1 = w ∧ x.2.2 = None ∧ RdReady (ResReadiness x.2.1) = false ∧ RAction (ResInstall x.2.1) = InstallSkipped) ∨
  (gates w cfg ∧ x.1 = (install w i).1 ∧ x.2.2 = (install w i).2.2 ∧
   (x.2.2 = None → ResInstall x.2.1 = (install w i).2.1 ∧
      ResReadiness x.2.1 = AssessReadiness i (ResInstall x.2.1) (ResPolicy x.2.1) (ResOperator x.2.1) ∧
      ResOperator x.2.1 = ObserveOperator (ctxErr x.1) (probe x.1) (IVendor i)) ∧
   (x.2.2 ≠ None → RdReady (ResReadiness x.2.1) = false)).
Proof.
  cbv zeta. unfold EnsureInstalled, stop. set (i := ParseIntent cfg). cbv zeta.
  unfold RunPreflight. destruct (bool_decide_reflect (IVendor i = "")) as [Hv|Hv]; [by left|].
  destruct (Known i) eqn:Hk; cbn [negb PfSkip PfOK].
  2:{ left. split_and!; try done. cbn. unfold AssessReadiness. by rewrite Hk. }
  destruct (RejectInstallOverrides cfg) as [[]|] eqn:Ho.
  2:{ left. split_and!; try done. cbn. unfold AssessReadiness. by rewrite Hk. }
  destruct (DefaultInstallConfig (IVendor i)) as [settings|].
  2:{ left. split_and!; try done. cbn. unfold AssessReadiness. by rewrite Hk. }
  destruct (ApplyVersionPolicy i settings) as [settings' pol] eqn:Ea.
  destruct (bool_decide_reflect (PSkew pol = SkewInvalidConfig)) as [Hs|Hs].
  { left. split_and!; try done. cbn. unfold AssessReadiness. by rewrite Hk, Hs. }
  destruct (DepOK _) eqn:Hd; cbn [negb].
  2:{ left. split_and!; try done. cbn. unfold AssessReadiness. by rewrite Hk. }
  right. split; [by split|]. destruct (install w i) as [w' [inst [e|]]]; cbn; naive_solver.
Qed.

(** [C23] The installer runs only behind every gate: if the pass changes the
    world at all, or returns an error, then the vendor is known, the config
    carries no install override, the dependency check passed, and the change is
    exactly one call of the installer. *)
Theorem EnsureInstalled_gated w cfg :
  let x := EnsureInstalled ctxErr probe dpus install w cfg in
  x.1 ≠ w ∨ x.2.2 ≠ None → gates w cfg ∧ x.1 = (install w (ParseIntent cfg)).1.
Proof.
  cbv zeta. intros Hc. destruct (EnsureInstalled_cases w cfg) as [(Hw & He & _)|(Hg & Hw & _)]; [|done].
  destruct Hc; congruence.
Qed.

(** [C24] Readiness is earned: a pass that reports the operator ready has passed
    every gate, its installer returned no error and saw the vendor API, the
    version policy does not reject the install, and the observation after it
    found the operator ready. *)
Theorem EnsureInstalled_ready_sound w cfg :
  let x := EnsureInstalled ctxErr probe dpus install w cfg in
  RdReady (ResReadiness x.2.1) = true →
  gates w cfg ∧ x.2.2 = None ∧ (install w (ParseIntent cfg)).2.2 = None ∧
  RPresent (install w (ParseIntent cfg)).2.1 = true ∧ policy_rejects (PSkew (ResPolicy x.2.1)) = false ∧
  OsReady (ObserveOperator (ctxErr x.1) (probe x.1) (IVendor (ParseIntent cfg))) = true ∧
  OsPhase (ObserveOperator (ctxErr x.1) (probe x.1) (IVendor (ParseIntent cfg))) = OperatorReady.
Proof.
  cbv zeta. intros Hr. destruct (EnsureInstalled_cases w cfg) as [(_ & _ & Hf & _)|(Hg & Hw & He & Hn & Hs)];
    [congruence|].
  destruct (EnsureInstalled ctxErr probe dpus install w cfg).2.2 as [e|] eqn:Ee.
  { rewrite Hs in Hr by done. done. }
  destruct (Hn eq_refl) as (Hi & Hrd & Ho). rewrite Hrd, Ho, Hi in Hr. unfold AssessReadiness in Hr.
  destruct (negb (Known _)); [done|]. destruct (policy_rejects _); [done|].
  destruct (RPresent _); [|done]. cbn [negb] in Hr.
  destruct (_ || _) eqn:E in Hr; [done|]. apply orb_false_iff in E as [E1 E2]. bool_hyps.
  split_and!; done.
Qed.

(** The reported skew of an admitted NVIDIA config. *)
Lemma admitted_policy o settings :
  ValidateDpuOperatorAdmission (Some o) = Ok tt → IVendor (ParseIntent (Some o)) = VendorNVIDIA →
  DefaultInstallConfig VendorNVIDIA = Ok settings →
  PSkew (ApplyVersionPolicy (ParseIntent (Some o)) settings).2 ≠ SkewInvalidConfig ∧
  PSkew (ApplyVersionPolicy (ParseIntent (Some o)) settings).2 ≠ SkewUnknownVendor.
Proof.
  intros Ha Hv [= <-].
  assert (Hpin : PinnedVersion (ParseIntent (Some o)) = "" ∨
                 PinnedVersion (ParseIntent (Some o)) = NVIDIAChartVersion).
  { revert Ha. unfold ValidateDpuOperatorAdmission. rewrite seq_ok. intros [_ Ha]. cbv zeta in Ha.
    rewrite (proj2 (ParseIntent_known_iff (Some o))) in Ha by (by left). cbn [negb] in Ha.
    rewrite bool_decide_true in Ha by done. cbn [andb] in Ha.
    destruct (bool_decide_reflect (PinnedVersion (ParseIntent (Some o)) = "")); [by left|right].
    cbn [negb] in Ha. apply desired_nvidia in Ha. by rewrite ParseIntent_pin_trim in Ha. }
  unfold ApplyVersionPolicy. rewrite Hv.
  destruct Hpin as [-> | ->]; split; vm_compute; discriminate.
Qed.

(** The webhook and the reconciler agree: a config the webhook admits is
    never reported as an invalid config or an unknown vendor by the install
    pass, whatever the cluster looks like. *)
Theorem Admitted_never_invalid w o :
  ValidateDpuOperatorAdmission (Some o) = Ok tt → IVendor (ParseIntent (Some o)) = VendorNVIDIA →
  let x := EnsureInstalled ctxErr probe dpus install w (Some o) in
  PSkew (ResPolicy x.2.1) ≠ SkewInvalidConfig ∧ PSkew (ResPolicy x.2.1) ≠ SkewUnknownVendor.
Proof.
  intros Ha Hv. cbv zeta.
  assert (Ho : RejectInstallOverrides (Some o) = Ok tt).
  { revert Ha. unfold ValidateDpuOperatorAdmission. rewrite seq_ok. by intros [? _]. }
  pose proof (admitted_policy o pin Ha Hv eq_refl) as Hp.
  unfold EnsureInstalled, stop. cbv zeta. unfold RunPreflight.
  pose proof (proj2 (ParseIntent_known_iff (Some o)) (or_introl Hv)) as Hk.
  set (i := ParseIntent (Some o)) in *. rewrite Hk, Hv, Ho. cbn [negb].
  rewrite bool_decide_false by done. cbn [PfSkip PfOK negb].
  change (DefaultInstallConfig VendorNVIDIA) with (Ok pin). cbv iota beta.
  destruct (ApplyVersionPolicy i pin) as [s pol]. cbn [snd] in Hp.
  cbv iota. rewrite (bool_decide_false (PSkew pol = SkewInvalidConfig)) by apply Hp. destruct (negb (DepOK _)); [cbn; by split|].
  destruct (install w i) as [w' [inst [e|]]]; cbn; [done|].
  destruct (_ && _); [|done]. cbn [PSkew EvaluatePolicy].
  split; [apply ClassifySkew_not_invalid|]. unfold ClassifySkew. by repeat case_match.
Qed.

End Pass.

(** ** A concrete cluster *)

Definition good_probe : ClusterProbe :=
  {| ServerVersion := Ok "v1.36.4+k3s1"; HasAPI _ _ _ := true; NeedsKamaji := false;
     Deployment ns n := good_check n |}.

Definition demo_install : Installer MemoryHelmClient := Ensure true false 0.

Definition demo_object : ConfigObject :=
  {| CfgName := "cfg"; Annotations := {[ VersionAnnotation := " v26.4.0 " ]}; SpecVendor := "NVIDIA" |}.

Definition demo_pass := EnsureInstalled ctx (λ _, Some good_probe) (λ _, None) demo_install empty_memory (Some demo_object).

Lemma EnsureInstalled_gated_witness :
  gates ctx (λ _, Some good_probe) empty_memory (Some demo_object) ∧
  demo_pass.1 = (demo_install empty_memory (ParseIntent (Some demo_object))).1.
Proof.
  apply (EnsureInstalled_gated ctx (λ _, Some good_probe) (λ _, None) demo_install empty_memory (Some demo_object)).
  left. intros E. apply (f_equal (λ m, rels m !! pin_key)) in E. vm_compute in E. discriminate E.
Defined.

Lemma EnsureInstalled_ready_sound_witness :
  RdReady (ResReadiness demo_pass.2.1) = true ∧
  gates ctx (λ _, Some good_probe) empty_memory (Some demo_object) ∧ demo_pass.2.2 = None ∧
  (demo_install empty_memory (ParseIntent (Some demo_object))).2.2 = None ∧
  RPresent (demo_install empty_memory (ParseIntent (Some demo_object))).2.1 = true ∧
  policy_rejects (PSkew (ResPolicy demo_pass.2.1)) = false ∧
  OsReady (ObserveOperator (ctx demo_pass.1) (Some good_probe) (IVendor (ParseIntent (Some demo_object)))) = true ∧
  OsPhase (ObserveOperator (ctx demo_pass.1) (Some good_probe) (IVendor (ParseIntent (Some demo_object)))) = OperatorReady.
Proof.
  assert (H : RdReady (ResReadiness demo_pass.2.1) = true) by (vm_compute; reflexivity).
  split; [exact H|].
  exact (EnsureInstalled_ready_sound ctx (λ _, Some good_probe) (λ _, None) demo_install empty_memory
           (Some demo_object) H).
Defined.

Lemma Admitted_never_invalid_witness :
  PSkew (ResPolicy demo_pass.2.1) ≠ SkewInvalidConfig ∧ PSkew (ResPolicy demo_pass.2.1) ≠ SkewUnknownVendor.
Proof.
  apply (Admitted_never_invalid ctx (λ _, Some good_probe) (λ _, None) demo_install empty_memory demo_object);
    vm_compute; reflexivity.
Defined.
