(* ===== verification/Conditions.v ===== *)
(** * Status conditions and their writers
      (pkg/lifecycle/lifecycle_controller.go, pkg/vsp/ready.go,
       pkg/translation/translation_controller.go)

    Three components write conditions into the same status list: the lifecycle
    manager, the per-node daemon (type Ready) and the translator.  A list of
    conditions is what [NestedSlice] returns: JSON values, a condition being an
    object with a type.  Go's comparison of two interface values panics when both
    hold maps or slices; the compared fields (status, reason, message, time) are
    strings in every stored condition, and the model compares any two values. *)

From Stdlib Require Import Ascii.
From stdpp Require Import base gmap strings list fin_maps.
From S2P Require Import Prelude GoStrings Unstructured MappingSpec.

(** A JSON string field of a condition: [c["k"] == s]. *)
Definition field_is (c : gmap string value) (k s : string) : bool := c !! k == Some (VString s).

(** ** The lifecycle manager *)

Record ownedCondition := {
  OcType : string;
  OcStatus : string;
  OcReason : string;
  OcMessage : string }.

Definition condition_item (next : ownedCondition) (time : value) : gmap string value :=
  {[ "type" := VString (OcType next); "status" := VString (OcStatus next);
     "reason" := VString (OcReason next); "message" := VString (OcMessage next);
     "lastTransitionTime" := time ]}.

(** The inner loop: the first condition of the wanted type, if any, is replaced
    unless it already says the same.  [None]: there is none. *)
Fixpoint replace_owned (now : string) (next : ownedCondition) (conds : list value)
    : option (list value * bool) :=
  match conds with
  | [] => None
  | raw :: rest =>
      match raw with
      | VMap c =>
          if negb (field_is c "type" (OcType next)) then
            match replace_owned now next rest with
            | Some (rest', ch) => Some (raw :: rest', ch)
            | None => None
            end
          else if field_is c "status" (OcStatus next) && field_is c "reason" (OcReason next) &&
                  field_is c "message" (OcMessage next)
          then Some (conds, false)
          else
            let time := if field_is c "status" (OcStatus next)
                        then default VNil (c !! "lastTransitionTime") else VString now in
            Some (VMap (condition_item next time) :: rest, true)
      | _ =>
          match replace_owned now next rest with
          | Some (rest', ch) => Some (raw :: rest', ch)
          | None => None
          end
      end
  end.

Definition upsert_owned (now : string) (next : ownedCondition) (conds : list value) : list value * bool :=
  match replace_owned now next conds with
  | Some r => r
  | None => (conds ++ [VMap (condition_item next (VString now))], true)
  end.

(** [nows] are the successive readings of the clock, one per wanted condition. *)
Fixpoint merge_owned (conds : list value) (want : list (ownedCondition * string)) : list value * bool :=
  match want with
  | [] => (conds, false)
  | (next, now) :: want' =>
      let '(conds, c1) := upsert_owned now next conds in
      let '(conds, c2) := merge_owned conds want' in
      (conds, c1 || c2)
  end.

(** [conds] is what [NestedSlice] answered; [Ok None] is "not changed". *)
Definition mergeOwnedConditions (conds : result (list value)) (want : list (ownedCondition * string))
    : result (option (list value)) :=
  let! conds := wrap_err "reading status.conditions: %w" [] conds in
  let '(conds, changed) := merge_owned conds want in
  Ok (if changed then Some conds else None).

(** ** The daemon *)

Definition condStatusTrue : string := "True".
Definition condStatusFalse : string := "False".
Definition readyReasonHealthy : string := "DeviceHealthy".
Definition readyReasonUnhealthy : string := "DeviceUnhealthy".
Definition readyMsgHealthy : string := "VSP handshake enumerated a healthy device".
Definition readyMsgUnhealthy : string := "VSP handshake reported no healthy device".

(** (status, reason, message) of the handshake's outcome. *)
Definition ready_want (healthy : bool) : string * string * string :=
  if healthy then (condStatusTrue, readyReasonHealthy, readyMsgHealthy)
  else (condStatusFalse, readyReasonUnhealthy, readyMsgUnhealthy).

(** [next["k"] == nil || next["k"] == ""] *)
Definition no_time (c : gmap string value) : bool :=
  match c !! "lastTransitionTime" with
  | None | Some VNil => true
  | Some v => v == VString ""
  end.

(** One existing Ready condition. *)
Definition refresh_ready (healthy : bool) (now : string) (m : gmap string value) : gmap string value * bool :=
  let '(st, reason, message) := ready_want healthy in
  if negb (field_is m "status" st) || negb (field_is m "reason" reason) || negb (field_is m "message" message) then
    let next := <["message" := VString message]> (<["reason" := VString reason]> (<["status" := VString st]> m)) in
    (if negb (field_is m "status" st) || no_time next then <["lastTransitionTime" := VString now]> next else next, true)
  else (m, false).

(** The loop: (out, found, changed). *)
Fixpoint ready_loop (healthy : bool) (now : string) (raw : list value) : list value * bool * bool :=
  match raw with
  | [] => ([], false, false)
  | item :: raw' =>
      let '(out, found, changed) := ready_loop healthy now raw' in
      match item with
      | VMap m =>
          if negb (field_is m "type" ReservedConditionType) then (item :: out, found, changed)
          else let '(next, ch) := refresh_ready healthy now m in (VMap next :: out, true, ch || changed)
      | _ => (item :: out, found, changed)
      end
  end.

(** The new conditions, or [None] when nothing changed. *)
Definition upsertReadyCondition (healthy : bool) (now : string) (raw : list value) : option (list value) :=
  let '(out, found, changed) := ready_loop healthy now raw in
  if found then if changed then Some out else None
  else
    let '(st, reason, message) := ready_want healthy in
    Some (out ++ [VMap {[ "type" := VString ReservedConditionType; "status" := VString st;
                          "reason" := VString reason; "message" := VString message;
                          "lastTransitionTime" := VString now ]}]).

(** ** The translator *)

Record merge_state := {
  byType : gmap string (gmap string value);
  order : list string;
  m_changed : bool }.

Definition merge_init (existing : list value) : merge_state :=
  foldl (λ s e,
    match e with
    | VMap m =>
        let t := str_at m "type" in
        {| byType := <[t := m]> (byType s); order := order s ++ [t]; m_changed := m_changed s |}
    | _ => s
    end) {| byType := ∅; order := []; m_changed := false |} existing.

(** [hasStatus && st != nil && st != ""] *)
Definition has_status (dm : gmap string value) : option value :=
  match dm !! "status" with
  | None | Some VNil => None
  | Some v => if v == VString "" then None else Some v
  end.

(** [if v, ok := dm[k]; ok { next[k] = v }] *)
Definition copy_key (k : string) (dm next : gmap string value) : gmap string value :=
  match dm !! k with
  | Some v => <[k := v]> next
  | None => next
  end.

Definition merge_step (now : string) (s : merge_state) (d : value) : merge_state :=
  match d with
  | VMap dm =>
      let t := str_at dm "type" in
      if (t == "") || EqualFold t ReservedConditionType then s
      else match has_status dm with
      | None => s
      | Some st =>
          let next := copy_key "message" dm (copy_key "reason" dm
                        {[ "type" := VString t; "status" := st ]}) in
          let prev := byType s !! t in
          let next :=
            match prev with
            | Some p => if p !! "status" == Some st then copy_key "lastTransitionTime" p next
                        else <["lastTransitionTime" := VString now]> next
            | None => <["lastTransitionTime" := VString now]> next
            end in
          {| byType := <[t := next]> (byType s);
             order := match prev with Some _ => order s | None => order s ++ [t] end;
             m_changed := match prev with
                          | Some p => if p != next then true else m_changed s
                          | None => true
                          end |}
      end
  | _ => s
  end.

Definition mergeConditions (now : string) (existing desired : list value) : list value * bool :=
  let s := foldl (merge_step now) (merge_init existing) desired in
  ((λ t, VMap (default ∅ (byType s !! t))) <$> order s, m_changed s).

(** [desired] is the subtree from ApplyStatus, [cur] the current status; [None]
    when nothing changed.  Two values are compared with [reflect.DeepEqual]. *)
Definition applyStatus (now : string) (cur desired : gmap string value) : option (gmap string value) :=
  let step := λ (s : gmap string value * bool) '(k, v),
    if k == "conditions" then s
    else if default VNil (s.1 !! k) == v then s else (<[k := v]> s.1, true) in
  let '(cur, changed) := foldl step (cur, false) (map_to_list desired) in
  let '(cur, changed) :=
    match desired !! "conditions" with
    | Some (VList (d :: ds)) =>
        let existing := match cur !! "conditions" with Some (VList l) => l | _ => [] end in
        let '(merged, ch) := mergeConditions now existing (d :: ds) in
        if ch then (<["conditions" := VList merged]> cur, true) else (cur, changed)
    | _ => (cur, changed)
    end in
  if changed then Some cur else None.
