(* ===== verification/ConditionsFacts.v ===== *)
(** * Single-writer status: each writer keeps the others' conditions *)

From Stdlib Require Import Ascii.
From stdpp Require Import base gmap strings list fin_maps.
From S2P Require Import Prelude GoStrings Unstructured MappingSpec Conditions.

(** An object of condition type [t]. *)
Definition is_type (t : string) (v : value) : bool :=
  match v with VMap c => field_is c "type" t | _ => false end.

Definition says (next : ownedCondition) (c : gmap string value) : Prop :=
  c !! "type" = Some (VString (OcType next)) ∧ c !! "status" = Some (VString (OcStatus next)) ∧
  c !! "reason" = Some (VString (OcReason next)) ∧ c !! "message" = Some (VString (OcMessage next)).

Lemma field_is_true c k s : field_is c k s = true ↔ c !! k = Some (VString s).
Proof. unfold field_is. apply bool_decide_eq_true. Qed.

Lemma field_is_false c k s : field_is c k s = false ↔ c !! k ≠ Some (VString s).
Proof. unfold field_is. apply bool_decide_eq_false. Qed.

(** The time a replaced condition carries: kept while the status is the same. *)
Definition kept_time (now : string) (next : ownedCondition) (c : gmap string value) : value :=
  if field_is c "status" (OcStatus next) then default VNil (c !! "lastTransitionTime") else VString now.

Lemma condition_item_says next time :
  says next (condition_item next time) ∧ condition_item next time !! "lastTransitionTime" = Some time.
Proof. unfold says, condition_item. by simplify_map_eq. Qed.

(** The inner loop: nothing of the type, or the first one in place. *)
Lemma replace_owned_spec now next conds :
  (replace_owned now next conds = None ∧ Forall (λ v, is_type (OcType next) v = false) conds) ∨
  ∃ pre c post ch c', conds = pre ++ VMap c :: post ∧
    Forall (λ v, is_type (OcType next) v = false) pre ∧ is_type (OcType next) (VMap c) = true ∧
    replace_owned now next conds = Some (pre ++ VMap c' :: post, ch) ∧
    (ch = false ∧ c' = c ∧ says next c ∨
     ch = true ∧ ¬ says next c ∧ c' = condition_item next (kept_time now next c)).
Proof.
  induction conds as [|raw rest IH]; [by left|].
  destruct (is_type (OcType next) raw) eqn:Et.
  - right. destruct raw as [| | | | | |c]; try discriminate Et.
    pose proof Et as Et'. cbn [is_type] in Et'. cbn [replace_owned]. rewrite Et'. cbn [negb].
    destruct (_ && _) eqn:Es.
    + apply andb_true_iff in Es as [Es Hm]. apply andb_true_iff in Es as [Hs Hr].
      exists [], c, rest, false, c. split_and!; [done|constructor|done|done|]. left.
      split_and!; [done..|]. unfold says. rewrite field_is_true in Hm, Hs, Hr, Et'. done.
    + exists [], c, rest, true, (condition_item next (kept_time now next c)).
      split_and!; [done|constructor|done|done|]. right. split_and!; [done| |done].
      intros (_ & Hs & Hr & Hm). rewrite <- field_is_true in Hs, Hr, Hm. by rewrite Hs, Hr, Hm in Es.
  - assert (Hstep : replace_owned now next (raw :: rest) =
      match replace_owned now next rest with Some (rest', ch) => Some (raw :: rest', ch) | None => None end).
    { destruct raw; try done. cbn [is_type] in Et. cbn [replace_owned]. by rewrite Et. }
    rewrite Hstep. destruct IH as [[-> Hf]|(pre & c & post & ch & c' & -> & Hp & Ht & -> & Hc)].
    + left. split; [done|]. by constructor.
    + right. exists (raw :: pre), c, post, ch, c'. split_and!; [done|by constructor|done|done|done].
Qed.

(** One upsert. *)
Lemma upsert_owned_spec now next conds :
  let '(conds', ch) := upsert_owned now next conds in
  (ch = false → conds' = conds) ∧
  (∀ P : value → Prop, (∀ v, is_type (OcType next) v = true → ¬ P v) → ∀ `{∀ v, Decision (P v)},
     filter P conds' = filter P conds) ∧
  (∃ c, VMap c ∈ conds' ∧ says next c) ∧
  (∀ v, v ∈ conds' → v ∈ conds ∨ is_type (OcType next) v = true).
Proof.
  unfold upsert_owned.
  destruct (replace_owned_spec now next conds) as
    [[-> Hf]|(pre & c & post & ch & c' & -> & Hp & Ht & -> & Hc)].
  - pose proof (condition_item_says next (VString now)) as [Hs _]. split_and!; [done| | |].
    + intros P HP HD. rewrite filter_app, filter_cons_False; [by rewrite filter_nil, app_nil_r|].
      apply HP. cbn. apply field_is_true. by destruct Hs.
    + eexists. split; [|exact Hs]. rewrite elem_of_app. right. by left.
    + intros v [?|Hv]%elem_of_app; [by left|right]. apply list_elem_of_singleton in Hv as ->.
      cbn. apply field_is_true. by destruct Hs.
  - assert (Hc' : is_type (OcType next) (VMap c') = true ∧ says next c').
    { destruct Hc as [(_ & -> & Hs)|(_ & _ & ->)]; [done|].
      pose proof (condition_item_says next (kept_time now next c)) as [Hs _].
      split; [|done]. cbn. apply field_is_true. by destruct Hs. }
    destruct Hc' as [Ht' Hs']. split_and!.
    + intros ->. destruct Hc as [(_ & -> & _)|(? & _)]; done.
    + intros P HP HD. rewrite !filter_app, !filter_cons_False by (by apply HP). done.
    + exists c'. split; [|done]. rewrite elem_of_app. right. by left.
    + intros v [?|[->|?]%elem_of_cons]%elem_of_app; [left|by right|left];
        rewrite elem_of_app; [by left|right; by right].
Qed.

(** What the lifecycle manager owns in a list of wanted conditions. *)
Definition owned_by (want : list (ownedCondition * string)) (v : value) : Prop :=
  ∃ w, w ∈ want ∧ is_type (OcType w.1) v = true.

#[global] Instance owned_by_dec want v : Decision (owned_by want v).
Proof.
  refine (cast_if (decide (Exists (λ w, is_type (OcType w.1) v = true) want))); unfold owned_by;
    [by apply Exists_exists|by rewrite Exists_exists in *].
Defined.

Lemma is_type_inj t u v : is_type t v = true → is_type u v = true → t = u.
Proof.
  destruct v; try done. cbn. rewrite !field_is_true. congruence.
Qed.

Lemma merge_owned_spec conds want :
  NoDup ((λ w, OcType w.1) <$> want) →
  let '(conds', ch) := merge_owned conds want in
  (ch = false → conds' = conds) ∧
  filter (λ v, ¬ owned_by want v) conds' = filter (λ v, ¬ owned_by want v) conds ∧
  (∀ w, w ∈ want → ∃ c, VMap c ∈ conds' ∧ says w.1 c).
Proof.
  revert conds. induction want as [|[next now] want IH]; intros conds Hnd; cbn [merge_owned].
  { split_and!; [done..|]. by intros w ?%elem_of_nil. }
  cbn [fmap list_fmap] in Hnd. apply NoDup_cons in Hnd as [Hni Hnd]. cbn [fst] in Hni.
  pose proof (upsert_owned_spec now next conds) as Hu.
  destruct (upsert_owned now next conds) as [c1 ch1]. destruct Hu as (Hu1 & Hu2 & Hu3 & _).
  specialize (IH c1 Hnd). pose proof IH as IH'. revert IH'.
  destruct (merge_owned c1 want) as [c2 ch2]. intros (H1 & H2 & H3).
  split_and!.
  - intros [-> ->]%orb_false_iff. rewrite H1 by done. by apply Hu1.
  - assert (Hsub : ∀ l l' : list value,
        filter (λ v, ¬ owned_by want v) l = filter (λ v, ¬ owned_by want v) l' →
        filter (λ v, ¬ owned_by ((next, now) :: want) v) l = filter (λ v, ¬ owned_by ((next, now) :: want) v) l').
    { intros l l' Hl. assert (Hf : ∀ k : list value, filter (λ v, ¬ owned_by ((next, now) :: want) v) k =
        filter (λ v, is_type (OcType next) v = false) (filter (λ v, ¬ owned_by want v) k)).
      { intros k. rewrite list_filter_filter. apply list_filter_iff. intros v. unfold owned_by. split.
        - intros Hn. split; [|by intros (w & ? & ?); apply Hn; exists w; split; [right|]].
          destruct (is_type (OcType next) v) eqn:E; [|done]. destruct Hn. exists (next, now). split; [left|done].
        - intros [E Hn] (w & [->|Hw]%elem_of_cons & Ht); [cbn in Ht; congruence|]. apply Hn. eauto. }
      by rewrite !Hf, Hl. }
    rewrite (Hsub _ _ H2). apply Hu2. intros v Ht Hn. apply Hn. exists (next, now). split; [left|done].
  - intros w [->|Hw]%elem_of_cons; [|by apply H3].
    destruct Hu3 as (c & Hc & Hs). exists c. split; [|done].
    assert (Hk : VMap c ∈ filter (λ v, ¬ owned_by want v) c1).
    { apply list_elem_of_filter. split; [|done]. intros (w & Hw & Ht). apply Hni.
      assert (E : OcType next = OcType w.1).
      { eapply is_type_inj; [|exact Ht]. cbn. apply field_is_true. by destruct Hs. }
      rewrite E. by apply (list_elem_of_fmap_2 (λ w, OcType w.1)). }
    rewrite <- H2 in Hk. by apply list_elem_of_filter in Hk as [_ ?].
Qed.

(** The first condition of the type is the wanted one. *)
Definition first_says (next : ownedCondition) (conds : list value) : Prop :=
  ∃ c l, filter (λ v, is_type (OcType next) v = true) conds = VMap c :: l ∧ says next c.

Lemma filter_first t (pre : list value) v post :
  Forall (λ v, is_type t v = false) pre → is_type t v = true →
  filter (λ v, is_type t v = true) (pre ++ v :: post) = v :: filter (λ v, is_type t v = true) post.
Proof.
  intros Hp Hv. rewrite filter_app, filter_cons_True by done.
  replace (filter (λ v, is_type t v = true) pre) with (@nil value); [done|].
  induction Hp as [|x pre Hx Hp IH]; [done|]. rewrite filter_cons_False by congruence. exact IH.
Qed.

Lemma filter_none t (l : list value) :
  Forall (λ v, is_type t v = false) l → filter (λ v, is_type t v = true) l = [].
Proof. induction 1 as [|x l Hx Hl IH]; [done|]. by rewrite filter_cons_False by congruence. Qed.

Lemma upsert_first_says now next conds : first_says next (upsert_owned now next conds).1.
Proof.
  unfold upsert_owned, first_says.
  destruct (replace_owned_spec now next conds) as
    [[-> Hf]|(pre & c & post & ch & c' & -> & Hp & Ht & -> & Hc)]; cbn [fst].
  - pose proof (condition_item_says next (VString now)) as [Hs _].
    eexists _, _. split; [|exact Hs]. apply filter_first; [done|].
    cbn. apply field_is_true. by destruct Hs.
  - assert (Hs : says next c').
    { destruct Hc as [(_ & -> & Hs)|(_ & _ & ->)]; [done|]. by apply condition_item_says. }
    eexists _, _. split; [|exact Hs]. apply filter_first; [done|].
    cbn. apply field_is_true. by destruct Hs.
Qed.

Lemma first_says_noop now next conds :
  first_says next conds → upsert_owned now next conds = (conds, false).
Proof.
  intros (c0 & l & Hf & Hs). unfold upsert_owned.
  destruct (replace_owned_spec now next conds) as
    [[-> Hn]|(pre & c & post & ch & c' & -> & Hp & Ht & -> & Hc)].
  - by rewrite filter_none in Hf.
  - rewrite filter_first in Hf by done. injection Hf as -> _.
    destruct Hc as [(-> & -> & _)|(_ & Hn & _)]; [done|]. by destruct Hn.
Qed.

Lemma merge_first_says conds want next now :
  NoDup ((λ w, OcType w.1) <$> want) → (next, now) ∈ want → first_says next (merge_owned conds want).1.
Proof.
  revert conds. induction want as [|[n1 now1] want IH]; intros conds Hnd Hin; [by apply elem_of_nil in Hin|].
  cbn [fmap list_fmap] in Hnd. apply NoDup_cons in Hnd as [Hni Hnd]. cbn [fst] in Hni.
  cbn [merge_owned]. pose proof (upsert_first_says now1 n1 conds) as Hf.
  destruct (upsert_owned now1 n1 conds) as [c1 ch1]. cbn [fst] in Hf.
  assert (Hfst : (let '(c2, ch2) := merge_owned c1 want in (c2, ch1 || ch2)).1 = (merge_owned c1 want).1)
    by (by destruct (merge_owned c1 want)).
  rewrite Hfst. apply elem_of_cons in Hin as [[= -> ->]|Hin]; [|by apply IH].
  clear IH Hfst. revert c1 Hf Hni. induction want as [|[n2 now2] want IH]; intros c1 Hf Hni; [done|].
  cbn [fmap list_fmap] in Hnd, Hni. apply NoDup_cons in Hnd as [_ Hnd]. cbn [merge_owned].
  pose proof (upsert_owned_spec now2 n2 c1) as Hu. destruct (upsert_owned now2 n2 c1) as [c2 ch2].
  destruct Hu as (_ & Hu & _).
  assert (Hfst : (let '(c3, ch3) := merge_owned c2 want in (c3, ch2 || ch3)).1 = (merge_owned c2 want).1)
    by (by destruct (merge_owned c2 want)).
  rewrite Hfst. apply IH; [done| |set_solver].
  destruct Hf as (c & l & Hf & Hs). exists c, l. split; [|done]. rewrite <- Hf. apply Hu.
  intros v Hv1 Hv2. assert (OcType n2 = OcType n1) by (by eapply is_type_inj). cbn in Hni. set_solver.
Qed.

Lemma merge_owned_noop conds want :
  (∀ w, w ∈ want → first_says w.1 conds) → merge_owned conds want = (conds, false).
Proof.
  induction want as [|[next now] want IH]; intros Hall; [done|]. cbn [merge_owned].
  rewrite (first_says_noop now next conds); [|apply (Hall (next, now)); left].
  rewrite IH; [done|]. intros w Hw. apply Hall. by right.
Qed.

(** The lifecycle manager writes only its own conditions: after a merge
    every condition of another type is still there, unchanged and in order,
    each wanted condition is present with its status, reason and message, and
    merging again (at any later time) changes nothing. *)
Theorem LCM_conditions_single_writer conds want want' :
  NoDup ((λ w, OcType w.1) <$> want) → want'.*1 = want.*1 →
  let '(conds', _) := merge_owned conds want in
  filter (λ v, ¬ owned_by want v) conds' = filter (λ v, ¬ owned_by want v) conds ∧
  (∀ w, w ∈ want → ∃ c, VMap c ∈ conds' ∧ says w.1 c) ∧
  merge_owned conds' want' = (conds', false).
Proof.
  intros Hnd Hw. pose proof (merge_owned_spec conds want Hnd) as Hm.
  assert (Hall : ∀ next, next ∈ want'.*1 → first_says next (merge_owned conds want).1).
  { intros next Hin. rewrite Hw in Hin. apply list_elem_of_fmap in Hin as ([n now] & -> & Hin).
    by eapply merge_first_says. }
  destruct (merge_owned conds want) as [conds' ch]. destruct Hm as (_ & H2 & H3). cbn [fst] in Hall.
  split_and!; [done..|]. apply merge_owned_noop. intros w Hin. apply Hall. by apply list_elem_of_fmap_2.
Qed.

(** The three conditions the lifecycle manager writes in one pass. *)
Definition demo_want (now : string) : list (ownedCondition * string) :=
  [({| OcType := "VendorOperatorSupported"; OcStatus := "True"; OcReason := "Supported"; OcMessage := "" |}, now);
   ({| OcType := "VendorOperatorReady"; OcStatus := "False"; OcReason := "Installing"; OcMessage := "" |}, now)].

Definition demo_conds : list value :=
  [VMap {[ "type" := VString "Ready"; "status" := VString "True" ]};
   VMap {[ "type" := VString "VendorOperatorReady"; "status" := VString "False";
           "lastTransitionTime" := VString "t0" ]}].

Lemma LCM_conditions_single_writer_witness :
  let '(conds', _) := merge_owned demo_conds (demo_want "t1") in
  filter (λ v, ¬ owned_by (demo_want "t1") v) conds' = filter (λ v, ¬ owned_by (demo_want "t1") v) demo_conds ∧
  (∀ w, w ∈ demo_want "t1" → ∃ c, VMap c ∈ conds' ∧ says w.1 c) ∧
  merge_owned conds' (demo_want "t2") = (conds', false).
Proof.
  apply (LCM_conditions_single_writer demo_conds (demo_want "t1") (demo_want "t2")); [|reflexivity].
  apply (bool_decide_unpack _). vm_compute. exact I.
Defined.

(** ** The daemon *)

Definition ready_says (healthy : bool) (m : gmap string value) : Prop :=
  let '(st, reason, message) := ready_want healthy in
  m !! "status" = Some (VString st) ∧ m !! "reason" = Some (VString reason) ∧
  m !! "message" = Some (VString message).

Lemma refresh_ready_spec healthy now m m' ch :
  refresh_ready healthy now m = (m', ch) →
  ready_says healthy m' ∧ (∀ k, k ∉ ["status"; "reason"; "message"; "lastTransitionTime"] → m' !! k = m !! k) ∧
  (ch = false ↔ ready_says healthy m) ∧ (ch = false → m' = m).
Proof.
  unfold refresh_ready, ready_says. destruct (ready_want healthy) as [[st reason] message].
  destruct (_ || _) eqn:E.
  - intros [= <- <-]. split; [|split; [|split]].
    + match goal with |- context [if ?b then _ else _] => destruct b end;
        split_and!; repeat (rewrite lookup_insert_ne by done); apply lookup_insert_eq.
    + intros k Hk. rewrite !elem_of_cons in Hk.
      match goal with |- context [if ?b then _ else _] => destruct b end; rewrite !lookup_insert_ne by naive_solver; done.
    + split; [done|]. intros (H1 & H2 & H3). rewrite <- field_is_true in H1, H2, H3.
      by rewrite H1, H2, H3 in E.
    + done.
  - intros [= <- <-]. apply orb_false_iff in E as [E H3]. apply orb_false_iff in E as [H1 H2].
    apply negb_false_iff in H1, H2, H3. rewrite field_is_true in H1, H2, H3. by split_and!.
Qed.

(** A Ready condition in the list. *)
Definition is_ready (v : value) : bool := is_type ReservedConditionType v.

Definition ready_done (healthy : bool) (l : list value) : Prop :=
  ∀ m, VMap m ∈ l → is_ready (VMap m) = true → ready_says healthy m.

Lemma ready_loop_spec healthy now raw :
  let '(out, found, changed) := ready_loop healthy now raw in
  filter (λ v, is_ready v = false) out = filter (λ v, is_ready v = false) raw ∧
  ready_done healthy out ∧
  (found = true ↔ Exists (λ v, is_ready v = true) out) ∧
  (changed = false ↔ ready_done healthy raw) ∧ (changed = false → out = raw).
Proof.
  unfold ready_done. induction raw as [|item raw IH]; cbn [ready_loop].
  { split_and!; [done|by intros ? ?%elem_of_nil|split; [done|by intros ?%Exists_nil]| |done].
    split; [|done]. intros _ m Hm. by apply elem_of_nil in Hm. }
  destruct (ready_loop healthy now raw) as [[out found] changed]. destruct IH as (H1 & H2 & H3 & H4 & H5).
  destruct (is_ready item) eqn:Er.
  - destruct item as [| | | | | |m]; try discriminate Er. pose proof Er as Er'. unfold is_ready in Er'. cbn in Er'.
    rewrite Er'. cbn [negb]. destruct (refresh_ready healthy now m) as [m' ch] eqn:Em.
    apply refresh_ready_spec in Em as (Hs & Hfr & Hch & Hid).
    assert (Er2 : is_ready (VMap m') = true).
    { unfold is_ready. cbn. unfold field_is. rewrite Hfr; [exact Er'|]. by rewrite !elem_of_cons, elem_of_nil; naive_solver. }
    split_and!.
    + rewrite !filter_cons_False by congruence. done.
    + intros m0 [[= ->]|Hm]%elem_of_cons Hr; [done|by apply H2].
    + split; [|done]. intros _. by apply Exists_cons_hd.
    + rewrite orb_false_iff, H4, Hch. split.
      * intros [Ha Hb] m0 [[= ->]|Hm]%elem_of_cons Hr; [done|by apply Hb].
      * intros Ha. split; [apply Ha; [left|done]|]. intros m0 Hm Hr. apply Ha; [by right|done].
    + intros [-> ->]%orb_false_iff. by rewrite Hid, H5.
  - assert (Hstep : (match item with
        | VMap m => if negb (field_is m "type" ReservedConditionType) then (item :: out, found, changed)
                    else let '(next, ch) := refresh_ready healthy now m in (VMap next :: out, true, ch || changed)
        | _ => (item :: out, found, changed) end) = (item :: out, found, changed)).
    { destruct item; try done. unfold is_ready in Er. cbn in Er. by rewrite Er. }
    rewrite Hstep. split_and!.
    + rewrite !filter_cons_True by done. by f_equal.
    + intros m0 [->|Hm]%elem_of_cons Hr; [congruence|by apply H2].
    + rewrite H3, Exists_cons. naive_solver congruence.
    + rewrite H4. split.
      * intros Ha m0 [->|Hm]%elem_of_cons Hr; [congruence|by apply Ha].
      * intros Ha m0 Hm Hr. apply Ha; [by right|done].
    + intros ->. by rewrite H5.
Qed.

Lemma upsertReady_spec healthy now raw out :
  upsertReadyCondition healthy now raw = Some out →
  filter (λ v, is_ready v = false) out = filter (λ v, is_ready v = false) raw ∧
  Exists (λ v, is_ready v = true) out ∧ ready_done healthy out.
Proof.
  unfold upsertReadyCondition. pose proof (ready_loop_spec healthy now raw) as Hl.
  destruct (ready_loop healthy now raw) as [[o found] changed]. destruct Hl as (H1 & H2 & H3 & _).
  destruct found.
  - destruct changed; [|done]. intros [= <-]. split_and!; [done|by apply H3|done].
  - destruct (ready_want healthy) as [[st reason] message] eqn:Ew. intros [= <-]. split_and!.
    + rewrite filter_app, filter_cons_False by done. by rewrite filter_nil, app_nil_r.
    + apply Exists_app. right. by apply Exists_cons_hd.
    + intros m [Hm|Hm]%elem_of_app Hr; [by apply H2|]. apply list_elem_of_singleton in Hm as [= ->].
      unfold ready_says. rewrite Ew. by simplify_map_eq.
Qed.

(** The daemon writes only Ready: the conditions of every other type stay,
    unchanged and in order; afterwards there is a Ready condition and each one
    has the status, reason and message of the handshake; and a second report of
    the same health changes nothing. *)
Theorem Ready_single_writer healthy now raw out :
  upsertReadyCondition healthy now raw = Some out →
  filter (λ v, is_ready v = false) out = filter (λ v, is_ready v = false) raw ∧
  Exists (λ v, is_ready v = true) out ∧ ready_done healthy out ∧
  ∀ now', upsertReadyCondition healthy now' out = None.
Proof.
  intros (H1 & H2 & H3)%upsertReady_spec. split_and!; [done..|]. intros now'.
  unfold upsertReadyCondition. pose proof (ready_loop_spec healthy now' out) as Hl.
  destruct (ready_loop healthy now' out) as [[o found] changed]. destruct Hl as (_ & _ & Hf & Hc & Hid).
  apply Hc in H3 as ->. rewrite (Hid eq_refl) in Hf. by apply Hf in H2 as ->.
Qed.

Lemma Ready_single_writer_witness :
  let raw := [VMap {[ "type" := VString "DPFReady"; "status" := VString "True" ]}] in
  let out := default [] (upsertReadyCondition true "t1" raw) in
  filter (λ v, is_ready v = false) out = filter (λ v, is_ready v = false) raw ∧
  Exists (λ v, is_ready v = true) out ∧ ready_done true out ∧
  ∀ now', upsertReadyCondition true now' out = None.
Proof.
  cbv zeta.
  apply (Ready_single_writer true "t1" [VMap {[ "type" := VString "DPFReady"; "status" := VString "True" ]}]).
  vm_compute. reflexivity.
Defined.

(** ** The translator *)

(** A key that is not in a list is not one of its elements. *)
Ltac ne_key := solve [intros ->; set_solver | intros <-; set_solver | set_solver].

(** An object whose type is Ready in any case. *)
Definition ready_like (v : value) : Prop :=
  ∃ m, v = VMap m ∧ EqualFold (str_at m "type") ReservedConditionType = true.

(** Every type of the order has its condition. *)
Definition merge_inv (s : merge_state) : Prop :=
  ∀ t, t ∈ order s → ∃ m, byType s !! t = Some m ∧ str_at m "type" = t.

Lemma copy_key_lookup k dm next j :
  copy_key k dm next !! j = if decide (j = k) then (match dm !! k with Some v => Some v | None => next !! j end)
                            else next !! j.
Proof.
  unfold copy_key. destruct (decide (j = k)) as [->|Hne]; destruct (dm !! k); try done.
  - apply lookup_insert_eq.
  - by apply lookup_insert_ne.
Qed.

(** One step, on a desired condition that counts. *)
Definition upsertable (dm : gmap string value) (st : value) : Prop :=
  str_at dm "type" ≠ "" ∧ EqualFold (str_at dm "type") ReservedConditionType = false ∧ has_status dm = Some st.

Lemma merge_step_upsert now s dm st :
  upsertable dm st →
  ∃ next, byType (merge_step now s (VMap dm)) = <[str_at dm "type" := next]> (byType s) ∧
    order (merge_step now s (VMap dm)) =
      match byType s !! str_at dm "type" with Some _ => order s | None => order s ++ [str_at dm "type"] end ∧
    m_changed (merge_step now s (VMap dm)) =
      match byType s !! str_at dm "type" with
      | Some p => if p != next then true else m_changed s
      | None => true
      end ∧
    next !! "type" = Some (VString (str_at dm "type")) ∧ next !! "status" = Some st ∧
    next !! "reason" = dm !! "reason" ∧ next !! "message" = dm !! "message" ∧
    (∀ k, k ∉ ["type"; "status"; "reason"; "message"; "lastTransitionTime"] → next !! k = None).
Proof.
  intros (E1 & E2 & Es). unfold merge_step. cbv zeta. rewrite bool_decide_false by done. rewrite E2, Es. cbn [orb].
  set (t := str_at dm "type") in *. set (base := copy_key "message" dm (copy_key "reason" dm _)).
  assert (Hbase : base !! "type" = Some (VString t) ∧ base !! "status" = Some st ∧
    base !! "reason" = dm !! "reason" ∧ base !! "message" = dm !! "message" ∧
    (∀ k, k ∉ ["type"; "status"; "reason"; "message"; "lastTransitionTime"] → base !! k = None)).
  { unfold base. split_and!; rewrite ?copy_key_lookup; cbn.
    - by simplify_map_eq.
    - by simplify_map_eq.
    - destruct (dm !! "reason"); [done|]. by simplify_map_eq.
    - destruct (dm !! "message"); [done|]. by simplify_map_eq.
    - intros k Hk. rewrite !copy_key_lookup.
      rewrite !decide_False by ne_key. rewrite lookup_insert_ne, lookup_singleton_ne by ne_key. done. }
  assert (Htime : ∀ next, (next = base ∨ ∃ v, next = <["lastTransitionTime" := v]> base) →
    next !! "type" = Some (VString t) ∧ next !! "status" = Some st ∧
    next !! "reason" = dm !! "reason" ∧ next !! "message" = dm !! "message" ∧
    (∀ k, k ∉ ["type"; "status"; "reason"; "message"; "lastTransitionTime"] → next !! k = None)).
  { intros next [->|[v ->]]; [done|]. destruct Hbase as (? & ? & ? & ? & Hk).
    split_and!; try (by rewrite lookup_insert_ne).
    intros k Hn. rewrite lookup_insert_ne; [by apply Hk|]. ne_key. }
  eexists. split; [reflexivity|]. split; [reflexivity|]. split; [reflexivity|].
  apply Htime. destruct (byType s !! t) as [p|]; [|right; eexists; reflexivity].
  destruct (bool_decide (p !! "status" = Some st)); [|right; eexists; reflexivity]. unfold copy_key.
  case_match; [right; eexists; reflexivity|left; reflexivity].
Qed.

Lemma merge_step_cases now s d :
  merge_step now s d = s ∨
  ∃ dm st next, d = VMap dm ∧ upsertable dm st ∧
    byType (merge_step now s d) = <[str_at dm "type" := next]> (byType s) ∧
    (order (merge_step now s d) = order s ∨ order (merge_step now s d) = order s ++ [str_at dm "type"]) ∧
    next !! "type" = Some (VString (str_at dm "type")).
Proof.
  destruct d as [| | | | | |dm]; try (by left).
  destruct (has_status dm) as [st|] eqn:Es.
  2: { left. unfold merge_step. cbv zeta. rewrite Es. by destruct (_ || _). }
  destruct (str_at dm "type" == "") eqn:E1.
  { left. unfold merge_step. cbv zeta. by rewrite E1. }
  destruct (EqualFold (str_at dm "type") ReservedConditionType) eqn:E2.
  { left. unfold merge_step. cbv zeta. by rewrite E2, orb_true_r. }
  right. assert (Hu : upsertable dm st) by (split_and!; by bool_hyps).
  destruct (merge_step_upsert now s dm st Hu) as (next & Hb & Ho & _ & Ht & _).
  exists dm, st, next. split_and!; try done. rewrite Ho. case_match; auto.
Qed.

Lemma merge_inv_step now s d : merge_inv s → merge_inv (merge_step now s d).
Proof.
  intros Hi. destruct (merge_step_cases now s d) as [->|(dm & st & next & -> & Hu & Hb & Ho & Ht)]; [done|].
  intros t Hin. rewrite Hb. destruct (decide (t = str_at dm "type")) as [->|Hne].
  - exists next. rewrite lookup_insert_eq. split; [done|]. unfold str_at at 1. by rewrite Ht.
  - rewrite lookup_insert_ne by done. apply Hi. destruct Ho as [Ho|Ho]; rewrite Ho in Hin; [done|].
    apply elem_of_app in Hin as [?|?%list_elem_of_singleton]; [done|congruence].
Qed.

Lemma merge_inv_steps now s ds : merge_inv s → merge_inv (foldl (merge_step now) s ds).
Proof. revert s. induction ds as [|d ds IH]; intros s Hi; [done|]. cbn. apply IH. by apply merge_inv_step. Qed.

(** The steps never touch a Ready type. *)
Lemma merge_steps_ready now s ds t :
  EqualFold t ReservedConditionType = true →
  byType (foldl (merge_step now) s ds) !! t = byType s !! t ∧
  (t ∈ order (foldl (merge_step now) s ds) ↔ t ∈ order s).
Proof.
  intros Ht. revert s. induction ds as [|d ds IH]; intros s; [done|]. cbn.
  destruct (IH (merge_step now s d)) as [-> ->].
  destruct (merge_step_cases now s d) as [->|(dm & st & next & -> & (_ & Hn & _) & Hb & Ho & _)]; [done|].
  assert (t ≠ str_at dm "type") by congruence. rewrite Hb, lookup_insert_ne by done. split; [done|].
  destruct Ho as [-> | ->]; [done|]. rewrite elem_of_app, list_elem_of_singleton. naive_solver.
Qed.

(** The types of the existing conditions, and the table they make. *)
Definition types_of (l : list value) : list string :=
  omap (λ v, match v with VMap m => Some (str_at m "type") | _ => None end) l.

Lemma merge_init_snoc l e :
  merge_init (l ++ [e]) =
  match e with
  | VMap m => {| byType := <[str_at m "type" := m]> (byType (merge_init l));
                 order := order (merge_init l) ++ [str_at m "type"]; m_changed := m_changed (merge_init l) |}
  | _ => merge_init l
  end.
Proof. unfold merge_init. by rewrite foldl_snoc. Qed.

Lemma merge_init_spec l :
  merge_inv (merge_init l) ∧ order (merge_init l) = types_of l ∧
  (∀ t m, byType (merge_init l) !! t = Some m → VMap m ∈ l ∧ str_at m "type" = t) ∧
  (NoDup (types_of l) → ∀ m, VMap m ∈ l → byType (merge_init l) !! str_at m "type" = Some m).
Proof.
  induction l as [|e l (Hi & Ho & Hb & Hn)] using rev_ind.
  { split_and!; [by intros t ?%elem_of_nil|done|done|]. intros _ m Hm. by apply elem_of_nil in Hm. }
  rewrite merge_init_snoc. unfold types_of in *. rewrite omap_app.
  destruct e as [| | | | | |m]; cbn [omap list_omap]; rewrite ?app_nil_r.
  1-6: split_and!; [done|done|intros t m' Hm; destruct (Hb t m' Hm); split; [rewrite elem_of_app; by left|done]|
    intros Hnd m' [Hm|Hm]%elem_of_app; [by apply Hn|by apply list_elem_of_singleton in Hm]].
  split_and!; cbn [order byType].
  - intros t Hin. cbn [order byType] in *. destruct (decide (t = str_at m "type")) as [->|Hne].
    + exists m. by rewrite lookup_insert_eq.
    + rewrite lookup_insert_ne by done. apply Hi. rewrite elem_of_app, list_elem_of_singleton in Hin. naive_solver.
  - by rewrite Ho.
  - intros t m' Hm. destruct (decide (t = str_at m "type")) as [->|Hne].
    + rewrite lookup_insert_eq in Hm. injection Hm as <-. split; [|done]. rewrite elem_of_app. right. left.
    + rewrite lookup_insert_ne in Hm by done. destruct (Hb t m' Hm). split; [|done]. rewrite elem_of_app. by left.
  - intros (Hnd & Hdis & _)%NoDup_app m' [Hm|Hm]%elem_of_app.
    + assert (str_at m' "type" ≠ str_at m "type").
      { intros Heq. apply (Hdis (str_at m' "type")); [|rewrite Heq; left].
        apply list_elem_of_omap. exists (VMap m'). done. }
      rewrite lookup_insert_ne by done. by apply Hn.
    + apply list_elem_of_singleton in Hm as [= ->]. by rewrite lookup_insert_eq.
Qed.

(** The translator never writes the daemon's Ready: whatever a mapping
    asks for, a Ready condition (in any case) in the merged list is one of the
    existing ones, unchanged, and no existing one is lost when types are
    unique. *)
Theorem Translator_keeps_ready now existing desired v :
  ready_like v →
  (v ∈ (mergeConditions now existing desired).1 → v ∈ existing) ∧
  (NoDup (types_of existing) → v ∈ existing → v ∈ (mergeConditions now existing desired).1).
Proof.
  intros (m & -> & Hr). unfold mergeConditions. cbn [fst].
  destruct (merge_init_spec existing) as (Hi & Ho & Hb & Hn).
  pose proof (merge_inv_steps now _ desired Hi) as Hinv.
  set (s := foldl (merge_step now) (merge_init existing) desired) in *. split.
  - intros (t & Heq & Hin)%list_elem_of_fmap. destruct (Hinv t Hin) as (m' & Hm & Ht).
    rewrite Hm in Heq. injection Heq as ->. cbn in Ht.
    destruct (merge_steps_ready now (merge_init existing) desired t) as [Hby _]; [by rewrite <- Ht|].
    fold s in Hby. rewrite Hby in Hm. by destruct (Hb t m' Hm).
  - intros Hnd Hin. apply list_elem_of_fmap. exists (str_at m "type").
    destruct (merge_steps_ready now (merge_init existing) desired _ Hr) as [Hby Hord].
    fold s in Hby, Hord. rewrite Hby, (Hn Hnd m Hin). split; [done|]. apply Hord. rewrite Ho.
    apply list_elem_of_omap. by exists (VMap m).
Qed.

Lemma Translator_keeps_ready_witness :
  let r := VMap {[ "type" := VString "READY"; "status" := VString "True" ]} in
  let d := VMap {[ "type" := VString "Ready"; "status" := VString "False" ]} in
  (r ∈ (mergeConditions "t" [r] [d; d]).1 → r ∈ [r]) ∧
  (NoDup (types_of [r]) → r ∈ [r] → r ∈ (mergeConditions "t" [r] [d; d]).1).
Proof.
  cbv zeta. apply Translator_keeps_ready. eexists. split; [reflexivity|]. vm_compute. reflexivity.
Defined.

(** A foreign condition does not survive the merge unchanged: when the
    desired list carries over an existing condition as it is (which the mapping
    engine does for every condition the mapping does not own), any field other
    than type, status, reason, message and lastTransitionTime, such as
    observedGeneration, is dropped and the status is reported as changed. *)
Theorem Translator_drops_foreign_fields now c st k v :
  upsertable c st → c !! k = Some v →
  k ∉ ["type"; "status"; "reason"; "message"; "lastTransitionTime"] →
  ∃ c', mergeConditions now [VMap c] [VMap c] = ([VMap c'], true) ∧ c' !! k = None.
Proof.
  intros Hu Hk Hn. unfold mergeConditions. cbn [foldl].
  destruct (merge_step_upsert now (merge_init [VMap c]) c st Hu) as (next & Hb & Ho & Hc & _ & _ & _ & _ & Hkeys).
  exists next. split; [|by apply Hkeys].
  assert (Hinit : byType (merge_init [VMap c]) !! str_at c "type" = Some c ∧
                  order (merge_init [VMap c]) = [str_at c "type"]).
  { unfold merge_init. cbn [foldl byType order app]. by rewrite lookup_insert_eq. }
  destruct Hinit as [Hi Hord]. rewrite Hi in Ho, Hc. rewrite Ho, Hc, Hord. cbn [fmap list_fmap].
  rewrite Hb, lookup_insert_eq. cbn [default]. f_equal. rewrite bool_decide_false; [done|].
  intros ->. rewrite Hkeys in Hk by done. done.
Qed.

Definition foreign_condition_demo : gmap string value :=
  {[ "type" := VString "Degraded"; "status" := VString "False"; "observedGeneration" := VInt 7 ]}.

Lemma Translator_drops_foreign_fields_witness :
  ∃ c', mergeConditions "t" [VMap foreign_condition_demo] [VMap foreign_condition_demo] = ([VMap c'], true) ∧
        c' !! "observedGeneration" = None.
Proof.
  apply (Translator_drops_foreign_fields "t" foreign_condition_demo (VString "False") "observedGeneration" (VInt 7)).
  - split; [vm_compute; discriminate|]. split; vm_compute; reflexivity.
  - vm_compute. reflexivity.
  - apply (bool_decide_unpack _). vm_compute. exact I.
Defined.
