(* ===== verification/DeadFields.v ===== *)
(** * Fields the live CRD does not declare (pkg/translation/dead_fields.go)

    Pruning an emitted object against the OpenAPI schema of the live CRD, and
    reading the path of a refused field out of an API server's error text.  The
    source edits the object's maps in place; here the edited object is returned.
    Go ranges over a map in no fixed order, so the order of the reported paths
    is not part of the model's contract (they are only logged). *)

From Stdlib Require Import Ascii.
From stdpp Require Import base gmap strings list fin_maps.
From S2P Require Import Prelude GoStrings Unstructured.

(** ** Schemas *)

(** [props, _ := s["properties"].(map[string]any)] *)
Definition properties (s : gmap string value) : option (gmap string value) :=
  match s !! "properties" with Some (VMap p) => Some p | _ => None end.

(** [props[k].(map[string]any)] *)
Definition property (props : gmap string value) (k : string) : option (gmap string value) :=
  match props !! k with Some (VMap c) => Some c | _ => None end.

Definition nestedSchema (root : gmap string value) (name : string) : option (gmap string value) :=
  match properties root with Some p => property p name | None => None end.

Definition preserveUnknown (s : gmap string value) : bool :=
  (s !! "x-kubernetes-preserve-unknown-fields" == Some (VBool true)) ||
  bool_decide (is_Some (s !! "additionalProperties")).

(** The properties to prune against; [None]: nothing is pruned here. *)
Definition closed_props (s : gmap string value) : option (gmap string value) :=
  if preserveUnknown s then None else properties s.

(** ** pruneMap *)

(** The pruned value: [pruneMap] on an object, the value itself otherwise. *)
Fixpoint pruneMap (v : value) (s : gmap string value) : value :=
  match v with
  | VMap m =>
      match closed_props s with
      | None => v
      | Some props =>
          VMap (map_imap (λ k w, match property props k with
                                 | Some c => Some (pruneMap w c)
                                 | None => None
                                 end) m)
      end
  | _ => v
  end.

(** The paths it reports. *)
Fixpoint pruned_paths (v : value) (s : gmap string value) (prefix : string) : list string :=
  match v with
  | VMap m =>
      match closed_props s with
      | None => []
      | Some props =>
          map_fold (λ k w acc,
            acc ++ match property props k with
                   | Some c => pruned_paths w c (prefix +:+ "." +:+ k)
                   | None => [prefix +:+ "." +:+ k]
                   end) [] m
      end
  | _ => []
  end.

Definition pruneUnknownSpec (obj : gmap string value) (crdSchema : gmap string value)
    : gmap string value * list string :=
  match obj !! "spec" with
  | Some (VMap spec) =>
      match nestedSchema crdSchema "spec" with
      | Some s => (<["spec" := pruneMap (VMap spec) s]> obj, pruned_paths (VMap spec) s "spec")
      | None => (obj, [])
      end
  | _ => (obj, [])
  end.

(** ** dropField *)

Fixpoint dropNestedMap (m : gmap string value) (parts : list string) : option (gmap string value) :=
  match parts with
  | [] => None
  | [p] => match m !! p with Some _ => Some (delete p m) | None => None end
  | p :: ps =>
      match m !! p with
      | Some (VMap child) =>
          match dropNestedMap child ps with
          | Some child' => Some (<[p := VMap child']> m)
          | None => None
          end
      | _ => None
      end
  end.

(** [None] is the answer false. *)
Definition dropField (obj : gmap string value) (dotted : string) : option (gmap string value) :=
  match Split "." dotted with
  | [] => None
  | p :: ps => if p == "" then None else dropNestedMap obj (p :: ps)
  end.

(** ** The error text *)

Definition is_word (c : ascii) : bool :=
  let n := nat_of_ascii c in
  ((48 <=? n) && (n <=? 57)) || ((65 <=? n) && (n <=? 90)) || ((97 <=? n) && (n <=? 122)) || (n =? 95).

Definition is_letter (c : ascii) : bool :=
  let n := nat_of_ascii c in ((65 <=? n) && (n <=? 90)) || ((97 <=? n) && (n <=? 122)).

(** [\s] *)
Definition is_re_space (c : ascii) : bool :=
  let n := nat_of_ascii c in (n =? 9) || (n =? 10) || (n =? 12) || (n =? 13) || (n =? 32).

Definition path_char (c : ascii) : bool := is_word c || bool_decide (c = "."%char).

(** The longest prefix of characters in the class, and the rest. *)
Fixpoint span (f : ascii → bool) (s : string) : string * string :=
  match s with
  | String c s' => if f c then let '(a, b) := span f s' in (String c a, b) else ("", s)
  | EmptyString => ("", "")
  end.

(** A prefix that matches up to ASCII case; the rest. *)
Fixpoint strip_fold (p s : string) : option string :=
  match p, s with
  | EmptyString, _ => Some s
  | String a p', String b s' => if lower_ascii a == lower_ascii b then strip_fold p' s' else None
  | _, _ => None
  end.

(** The pattern [undeclaredPath] after its first group, at the start of the
    string: an optional dot, a letter, word characters and dots (these are the
    captured group), spaces, a colon, spaces, and the text.  No shorter run of
    word characters and dots can be followed by a space or a colon, so the
    greedy run is the only candidate. *)
Definition match_undeclared (s : string) : option string :=
  let '(dot, s1) := match s with String "." s' => (".", s') | _ => ("", s) end in
  match s1 with
  | String c s2 =>
      if is_letter c then
        let '(name, s3) := span path_char s2 in
        match (span is_re_space s3).2 with
        | String ":" s4 =>
            match strip_fold "field not declared in schema" (span is_re_space s4).2 with
            | Some _ => Some (dot +:+ String c name)
            | None => None
            end
        | _ => None
        end
      else None
  | EmptyString => None
  end.

(** The first match after a character that is neither a word character nor a dot. *)
Fixpoint search_undeclared (s : string) : option string :=
  match s with
  | EmptyString => None
  | String c s' =>
      if path_char c then search_undeclared s'
      else match match_undeclared s' with
           | Some p => Some p
           | None => search_undeclared s'
           end
  end.

(** [undeclaredPath]: at the start of the text, or after such a character. *)
Definition find_undeclared (s : string) : option string :=
  match match_undeclared s with
  | Some p => Some p
  | None => search_undeclared s
  end.

Definition not_quote (c : ascii) : bool := negb (bool_decide (c = "034"%char)).

(** The pattern [unknownQuoted] at the start of the string: the text, then a
    non-empty quoted name (the captured group). *)
Definition match_unknown (s : string) : option string :=
  match strip_fold ("unknown field " +:+ String "034" "") s with
  | Some s' =>
      let '(name, rest) := span not_quote s' in
      match name, rest with
      | String _ _, String _ _ => Some name
      | _, _ => None
      end
  | None => None
  end.

Fixpoint find_unknown (s : string) : option string :=
  match match_unknown s with
  | Some p => Some p
  | None => match s with String _ s' => find_unknown s' | EmptyString => None end
  end.

(** [strings.ReplaceAll(p, "/", ".")] *)
Fixpoint slashes_to_dots (s : string) : string :=
  match s with
  | EmptyString => EmptyString
  | String c s' => String (if bool_decide (c = "/"%char) then "."%char else c) (slashes_to_dots s')
  end.

Definition normalizeFieldPath (p : string) : string :=
  slashes_to_dots (TrimPrefix (TrimPrefix (TrimSpace p) ".") "/").

Definition undeclaredFieldPath (e : err) : string :=
  let s := Error e in
  match find_undeclared s with
  | Some p => normalizeFieldPath p
  | None =>
      match find_unknown s with
      | Some p => normalizeFieldPath p
      | None => ""
      end
  end.

Definition omitLiveUnknownFields (obj : gmap string value) (e : err) : result (gmap string value * string) :=
  let path := undeclaredFieldPath e in
  if path == "" then Err e
  else match dropField obj path with
       | None => Err (EWrap "%w (could not drop %s)" [path] e)
       | Some obj' => Ok (obj', path)
       end.

(** ** The CRD *)

Fixpoint storage_version (versions : list value) : option (gmap string value) :=
  match versions with
  | [] => None
  | raw :: rest =>
      let v := match raw with VMap v => v | _ => ∅ end in
      if v !! "storage" != Some (VBool true) then storage_version rest
      else match v !! "schema" with
           | Some (VMap sch) => property sch "openAPIV3Schema"
           | _ => None
           end
  end.

Definition storageOpenAPI (crd : gmap string value) : option (gmap string value) :=
  let spec := match crd !! "spec" with Some (VMap s) => s | _ => ∅ end in
  storage_version (match spec !! "versions" with Some (VList l) => l | _ => [] end).

(** ** What the schema declares *)

(** The path is declared, or lies under an open schema. *)
Fixpoint declared (s : gmap string value) (parts : list string) : bool :=
  match parts with
  | [] => true
  | p :: ps =>
      match closed_props s with
      | None => true
      | Some props => match property props p with
                      | Some c => declared c ps
                      | None => false
                      end
      end
  end.

Definition is_map (v : value) : bool := match v with VMap _ => true | _ => false end.

Lemma pruneMap_lookup m s props k :
  closed_props s = Some props →
  ∃ m', pruneMap (VMap m) s = VMap m' ∧
    m' !! k = match m !! k, property props k with
              | Some w, Some c => Some (pruneMap w c)
              | _, _ => None
              end.
Proof.
  intros Hp. eexists. split; [cbn [pruneMap]; rewrite Hp; reflexivity|].
  rewrite map_lookup_imap. by destruct (m !! k).
Qed.

Lemma pruneMap_leaf v s : is_map v = false → pruneMap v s = v.
Proof. by destruct v. Qed.

Lemma pruneMap_is_map v s : is_map (pruneMap v s) = is_map v.
Proof. destruct v; try done. cbn. by destruct (closed_props s). Qed.

(** A value that is not an object is found after pruning exactly where it was
    found before and the schema declares it. *)
Lemma pruneMap_get v s parts leaf :
  is_map leaf = false →
  get_parts (pruneMap v s) parts = Some leaf ↔ get_parts v parts = Some leaf ∧ declared s parts = true.
Proof.
  intros Hleaf. revert v s. induction parts as [|p ps IH]; intros v s.
  - cbn. split; [|intros [[= ->] _]; by rewrite pruneMap_leaf].
    intros [= H]. split; [|done]. pose proof (pruneMap_is_map v s) as Hm. rewrite H, Hleaf in Hm.
    rewrite pruneMap_leaf in H by done. congruence.
  - destruct (is_map v) eqn:Hv; [|rewrite pruneMap_leaf by done; destruct v; naive_solver].
    destruct v as [| | | | | |m]; try discriminate. cbn [declared].
    destruct (closed_props s) as [props|] eqn:Hp; [|cbn [pruneMap]; rewrite Hp; tauto].
    destruct (pruneMap_lookup m s props p Hp) as (m' & -> & Hm'). cbn. rewrite Hm'.
    destruct (m !! p) as [w|]; [|split; [done|by intros [? _]]].
    destruct (property props p) as [c|]; [apply IH|split; [done|by intros [_ ?]]].
Qed.

(** ** Induction on values *)

Fixpoint vsize (v : value) : nat :=
  match v with
  | VMap m => S (map_fold (λ _ w n, vsize w + n) 0 m)
  | _ => 0
  end.

Lemma vsize_lookup m k w : m !! k = Some w → vsize w < vsize (VMap m).
Proof.
  intros Hk. cbn. rewrite (map_fold_delete_L _ _ k w m); [lia| |done].
  intros j1 j2 z1 z2 y _ _ _. lia.
Qed.

(** Nothing is reported exactly when every key is declared, all the way down. *)
Lemma pruned_paths_nil m s prefix props :
  closed_props s = Some props →
  pruned_paths (VMap m) s prefix = [] ↔
  map_Forall (λ k w, ∃ c, property props k = Some c ∧ pruned_paths w c (prefix +:+ "." +:+ k) = []) m.
Proof.
  intros Hp. cbn [pruned_paths]. rewrite Hp.
  apply (map_fold_weak_ind (λ acc m, acc = [] ↔ map_Forall (λ k w, ∃ c, property props k = Some c ∧
    pruned_paths w c (prefix +:+ "." +:+ k) = []) m)); [split; [intros _; apply map_Forall_empty|done]|].
  intros k w m' acc Hk IH. rewrite map_Forall_insert, <- IH, app_nil by done.
  destruct (property props k) as [c|]; split.
  - intros [-> Hw]. split; [by exists c|done].
  - intros [(c' & [= <-] & Hw) ->]. done.
  - by intros [_ ?].
  - by intros [(c' & ? & _) _].
Qed.

Lemma pruned_paths_prune v s prefix : pruned_paths (pruneMap v s) s prefix = [].
Proof.
  remember (vsize v) as n eqn:Hn. revert v s prefix Hn.
  induction n as [n IH] using lt_wf_ind. intros v s prefix ->. destruct v as [| | | | | |m]; try done.
  destruct (closed_props s) as [props|] eqn:Hp; [|cbn; rewrite Hp; cbn; by rewrite Hp].
  assert (Hm' : ∃ m', pruneMap (VMap m) s = VMap m') by (cbn; rewrite Hp; eauto).
  destruct Hm' as [m' Hm']. rewrite Hm'. apply (pruned_paths_nil _ _ _ props Hp).
  intros k w Hk. destruct (pruneMap_lookup m s props k Hp) as (m'' & Heq & Hl). rewrite Hm' in Heq.
  injection Heq as <-. rewrite Hl in Hk.
  destruct (m !! k) as [w0|] eqn:Hw0; [|done]. destruct (property props k) as [c|]; [|done].
  injection Hk as <-. exists c. split; [done|]. apply (IH (vsize w0)); [|done]. by apply vsize_lookup in Hw0.
Qed.

(** When nothing is reported, nothing was changed. *)
Lemma pruneMap_id v s prefix : pruned_paths v s prefix = [] → pruneMap v s = v.
Proof.
  remember (vsize v) as n eqn:Hn. revert v s prefix Hn.
  induction n as [n IH] using lt_wf_ind. intros v s prefix -> Hnil. destruct v as [| | | | | |m]; try done.
  destruct (closed_props s) as [props|] eqn:Hp; [|cbn; by rewrite Hp].
  apply (pruned_paths_nil _ _ _ props Hp) in Hnil.
  cbn [pruneMap]. rewrite Hp. f_equal. apply map_eq. intros k. rewrite map_lookup_imap.
  destruct (m !! k) as [w|] eqn:Hk; [|done]. cbn. destruct (Hnil k w Hk) as (c & -> & Hw). f_equal.
  apply (IH (vsize w) (vsize_lookup m k w Hk) w c _ eq_refl Hw).
Qed.

(** [C35] Pruning removes exactly the undeclared fields: outside spec nothing
    changes; a value under spec is still there if and only if the live schema
    declares its path (or leaves it open); nothing is reported only when nothing
    was removed; and pruning the result again removes nothing. *)
Theorem pruneUnknownSpec_exact obj sch s :
  nestedSchema sch "spec" = Some s →
  let '(obj', dropped) := pruneUnknownSpec obj sch in
  (∀ k, k ≠ "spec" → obj' !! k = obj !! k) ∧
  (∀ parts leaf, is_map leaf = false → is_map (default VNil (obj !! "spec")) = true →
     get_parts (VMap obj') ("spec" :: parts) = Some leaf ↔
     get_parts (VMap obj) ("spec" :: parts) = Some leaf ∧ declared s parts = true) ∧
  (dropped = [] → obj' = obj) ∧
  pruneUnknownSpec obj' sch = (obj', []).
Proof.
  intros Hs. unfold pruneUnknownSpec. destruct (obj !! "spec") as [[| | | | | |spec]|] eqn:Hspec;
    try (split; [done|]; split; [done|]; split; [done|by rewrite Hspec]).
  rewrite Hs. split; [|split; [|split]].
  - intros k Hk. by rewrite lookup_insert_ne.
  - intros parts leaf Hleaf _. cbn [get_parts asMap]. rewrite lookup_insert_eq, Hspec. by apply pruneMap_get.
  - intros Hnil%pruneMap_id. rewrite Hnil. by apply insert_id.
  - rewrite lookup_insert_eq.
    assert (Hm : ∃ m', pruneMap (VMap spec) s = VMap m') by (cbn; destruct (closed_props s); eauto).
    destruct Hm as [m' Hm]. pose proof (pruned_paths_prune (VMap spec) s "spec") as Hnil. rewrite Hm in *.
    rewrite Hnil. f_equal. rewrite (pruneMap_id _ _ _ Hnil). apply insert_insert_eq.
Qed.

Definition demo_spec_schema : gmap string value := {[ "properties" := VMap {[ "a" := VMap ∅ ]} ]}.
Definition demo_schema : gmap string value :=
  {[ "properties" := VMap {[ "spec" := VMap demo_spec_schema ]} ]}.
Definition demo_emitted : gmap string value :=
  {[ "kind" := VString "DPUService"; "spec" := VMap {[ "a" := VInt 1; "vendor" := VString "x" ]} ]}.

Lemma pruneUnknownSpec_exact_witness :
  let '(obj', dropped) := pruneUnknownSpec demo_emitted demo_schema in
  dropped = ["spec.vendor"] ∧ pruneUnknownSpec obj' demo_schema = (obj', []).
Proof.
  pose proof (pruneUnknownSpec_exact demo_emitted demo_schema demo_spec_schema
    ltac:(vm_compute; reflexivity)) as Hx.
  destruct (pruneUnknownSpec demo_emitted demo_schema) as [obj' dropped] eqn:E.
  split; [|exact (proj2 (proj2 (proj2 Hx)))].
  apply (f_equal snd) in E. vm_compute in E. symmetry. exact E.
Defined.
