(* ===== verification/Controller.v ===== *)
(** * The lifecycle controller (pkg/lifecycle/lifecycle_controller.go)

    One reconcile of a DpuOperatorConfig: the finalizer, the install pass, the
    cleanup pass on deletion, and the conditions it reports.  Reconciles of one
    config are serialized by its lock, so a reconcile is a sequential program
    over the world [W]; other writers show up as conflicts and as changed
    objects on the next read.

    The API server, controllerutil's finalizer helpers and
    [retry.RetryOnConflict] are not part of this repository: they are the
    interfaces [KubeAPI] and [ControllerUtil]. *)

From Stdlib Require Import Ascii ZArith.
From stdpp Require Import base gmap strings list fin_maps.
From S2P Require Import Prelude GoStrings Unstructured MappingSpec Version InstallConfig Release HelmInstaller Cleanup Operator Ensure Conditions.

Definition CleanupFinalizer : string := "lifecycle.opi.nvidia.com/cleanup".
Definition CleanupConditionType : string := "VendorOperatorCleanup".
Definition SupportedConditionType : string := "VendorOperatorSupported".
Definition OperatorReadyConditionType : string := "VendorOperatorReady".
Definition DPUReadyConditionType : string := "VendorDPUReady".

(** [5 * time.Second], in nanoseconds. *)
Definition DPURequeueAfter : Z := 5 * 10 ^ 9.

(** What the controller reads and writes of a DpuOperatorConfig; the conditions
    are what [NestedSlice] answers on them. *)
Record LiveConfig := {
  LcNamespace : string;
  LcConfig : ConfigObject;
  LcDeleting : bool;
  LcFinalizers : list string;
  LcConditions : result (list value) }.

Definition LcName (c : LiveConfig) : string := CfgName (LcConfig c).

Definition with_finalizers (fs : list string) (c : LiveConfig) : LiveConfig :=
  {| LcNamespace := LcNamespace c; LcConfig := LcConfig c; LcDeleting := LcDeleting c;
     LcFinalizers := fs; LcConditions := LcConditions c |}.

Definition with_conditions (l : list value) (c : LiveConfig) : LiveConfig :=
  {| LcNamespace := LcNamespace c; LcConfig := LcConfig c; LcDeleting := LcDeleting c;
     LcFinalizers := LcFinalizers c; LcConditions := Ok l |}.

(** ** The interfaces *)

(** The client: a read, an update of the object and an update of its status.
    An update answers with the stored object. *)
Class KubeAPI (W : Type) := {
  kube_get : W → string → string → W * result LiveConfig;
  kube_update : W → LiveConfig → W * result LiveConfig;
  kube_update_status : W → LiveConfig → W * result LiveConfig;
  IsNotFound : err → bool;
  IsConflict : err → bool }.

(** The runs of a function under a retry: it is run, and run again only after a
    retriable error. *)
Inductive retried {S : Type} (retriable : err → bool) (f : S → S * option err) : S → S * option err → Prop :=
| retried_last s : retried retriable f s (f s)
| retried_again s s' e r :
    f s = (s', Some e) → retriable e = true → retried retriable f s' r → retried retriable f s r.

(** controllerutil and client-go's retry, with what they document. *)
Class ControllerUtil := {
  AddFinalizer : string → list string → list string;
  RemoveFinalizer : string → list string → list string;
  Retry : ∀ S, (err → bool) → (S → S * option err) → S → S * option err;
  AddFinalizer_spec f l : ∀ g, g ∈ AddFinalizer f l ↔ g = f ∨ g ∈ l;
  RemoveFinalizer_spec f l : ∀ g, g ∈ RemoveFinalizer f l ↔ g ∈ l ∧ g ≠ f;
  Retry_spec S retriable (f : S → S * option err) s : retried retriable f s (Retry S retriable f s) }.

(** The two passes that the controller runs. *)
Class Passes (W : Type) := {
  ensurePass : W → option ConfigObject → W * (Result * option err);
  cleanupPass : W → option ConfigObject → W * CleanupResult }.

Definition ContainsFinalizer (c : LiveConfig) : bool := bool_decide (CleanupFinalizer ∈ LcFinalizers c).

(** ** Conditions *)

Definition ConditionTrue : string := "True".
Definition ConditionFalse : string := "False".
Definition ConditionUnknown : string := "Unknown".

Definition skewStatus (vendor installed : string) (skew : Skew) : string * string :=
  let r := default zero_range (SupportedRangeFor vendor) in
  let window := [vendor; installed; MinInclusive r; MaxExclusive r] in
  match skew with
  | SkewSupported =>
      (ConditionTrue, Sprintf "%s operator %s is within the supported range [%s, %s)" window "")
  | SkewTooOld =>
      (ConditionFalse, Sprintf ("%s operator %s predates the supported range [%s, %s); " +:+
         "expect fields this adapter writes to be missing") window "")
  | SkewTooNew =>
      (ConditionFalse, Sprintf ("%s operator %s is newer than the supported range [%s, %s); " +:+
         "its CRD schema may have moved since this adapter was tested") window "")
  | SkewUnpinned =>
      (ConditionUnknown, Sprintf "no supported version range is pinned for vendor %q" [vendor] "")
  | SkewUnknownVendor =>
      (ConditionFalse, Sprintf "vendor %q is not known; allowed values are %s" [vendor; Join ", " KnownVendors] "")
  | SkewInvalidConfig =>
      (ConditionFalse, "install settings are not the pinned vendor/version/namespace; " +:+
         "chart URLs and helm arguments are rejected")
  | SkewBlocked =>
      (ConditionFalse, "cluster access, Kubernetes version, or a DPF prerequisite is missing")
  | SkewUnknown | SkewNone =>
      if TrimSpace installed == "" then
        (ConditionUnknown, Sprintf "the installed %s operator version is unknown; set the %s annotation"
                             [vendor; VersionAnnotation] "")
      else (ConditionUnknown, Sprintf "could not parse the installed %s operator version %q" [vendor; installed] "")
  end.

Definition cleanup_action_string (a : CleanupAction) : string :=
  match a with
  | CleanupDeleted => "deleted"
  | CleanupPreserved => "preserved"
  | CleanupSkipped => "skipped"
  | CleanupFailed => "failed"
  | CleanupGone => "already-gone"
  | CleanupZero => ""
  end.

Definition cleanupConditionStatus (got : CleanupResult) : string :=
  if CrOpStatus got == OpFailed then ConditionFalse else ConditionTrue.

Definition cleanupConditionMessage (got : CleanupResult) : string :=
  let msg := if CrFailure got != "" then CrReason got +:+ ": " +:+ CrFailure got else CrReason got in
  let msg := match CrSkipped got with
             | [] => msg
             | sk => msg +:+ "; skipped " +:+ Join "; " sk
             end in
  SanitizeLogValue "message" msg.

Definition cleanup_condition (got : CleanupResult) : ownedCondition :=
  {| OcType := CleanupConditionType; OcStatus := cleanupConditionStatus got;
     OcReason := cleanup_action_string (CrAction got); OcMessage := cleanupConditionMessage got |}.

(** The conditions that [setOwnedConditions] wants. *)
Definition owned_conditions (out : Result) : list ownedCondition :=
  let skew := PSkew (ResPolicy out) in
  let '(status, message) := skewStatus (IVendor (ResIntent out)) (PVersion (ResPolicy out)) skew in
  let message := if PMessage (ResPolicy out) != "" then PMessage (ResPolicy out) else message in
  let '(readyStatus, readyReason, readyMsg) := operatorCondition (ResOperator out) in
  let '(dpuStatus, dpuReason, dpuMsg) := dpuCondition (ResDPU out) in
  [ {| OcType := SupportedConditionType; OcStatus := status; OcReason := skew_string skew; OcMessage := message |};
    {| OcType := OperatorReadyConditionType; OcStatus := readyStatus; OcReason := readyReason;
       OcMessage := readyMsg |};
    {| OcType := DPUReadyConditionType; OcStatus := dpuStatus; OcReason := dpuReason; OcMessage := dpuMsg |} ].

(** ** The controller *)

Section Controller.
Context {W : Type} `{KubeAPI W} `{ControllerUtil} `{Passes W}.

(** [now w i] is the clock's i-th reading while conditions are merged. *)
Context (now : W → nat → string).

(** [client.Client] may be nil. *)
Context (HasClient : bool).

Definition RetryOnConflict {S} (f : S → S * option err) (s : S) : S * option err := Retry S IsConflict f s.

Definition stamped (w : W) (want : list ownedCondition) : list (ownedCondition * string) :=
  imap (λ i c, (c, now w i)) want.

(** One attempt of [upsertConditions]: read, merge, write; [cfg] is replaced by
    what was read or stored. *)
Definition upsert_attempt (ns name : string) (want : list ownedCondition) (s : W * LiveConfig)
    : (W * LiveConfig) * option err :=
  let '(w, cfg) := s in
  let '(w, got) := kube_get w ns name in
  match got with
  | Err e => ((w, cfg), Some e)
  | Ok fresh =>
      match mergeOwnedConditions (LcConditions fresh) (stamped w want) with
      | Err e => ((w, cfg), Some e)
      | Ok None => ((w, fresh), None)
      | Ok (Some conds) =>
          let '(w, stored) := kube_update_status w (with_conditions conds fresh) in
          match stored with
          | Err e => ((w, cfg), Some e)
          | Ok fresh => ((w, fresh), None)
          end
      end
  end.

Definition upsertConditions (w : W) (cfg : LiveConfig) (want : list ownedCondition)
    : (W * LiveConfig) * option err :=
  if negb HasClient then
    match mergeOwnedConditions (LcConditions cfg) (stamped w want) with
    | Err e => ((w, cfg), Some e)
    | Ok None => ((w, cfg), None)
    | Ok (Some conds) => ((w, with_conditions conds cfg), None)
    end
  else RetryOnConflict (upsert_attempt (LcNamespace cfg) (LcName cfg) want) (w, cfg).

Definition setOwnedConditions (w : W) (cfg : LiveConfig) (out : Result) : (W * LiveConfig) * option err :=
  upsertConditions w cfg (owned_conditions out).

Definition vendor_known (c : LiveConfig) : bool := KnownVendor (ResolveVendor (Some (LcConfig c))).

Definition add_finalizer_attempt (ns name : string) (s : W * LiveConfig) : (W * LiveConfig) * option err :=
  let '(w, cfg) := s in
  let '(w, got) := kube_get w ns name in
  match got with
  | Err e => ((w, cfg), Some e)
  | Ok fresh =>
      if negb (vendor_known fresh) || ContainsFinalizer fresh then ((w, fresh), None)
      else
        let '(w, stored) := kube_update w (with_finalizers (AddFinalizer CleanupFinalizer (LcFinalizers fresh)) fresh) in
        match stored with
        | Err e => ((w, cfg), Some e)
        | Ok fresh => ((w, fresh), None)
        end
  end.

Definition ensureCleanupFinalizer (w : W) (ns name : string) (cfg : LiveConfig) : (W * LiveConfig) * option err :=
  if negb (vendor_known cfg) then ((w, cfg), None)
  else if ContainsFinalizer cfg then ((w, cfg), None)
  else RetryOnConflict (add_finalizer_attempt ns name) (w, cfg).

Definition remove_finalizer_attempt (ns name : string) (w : W) : W * option err :=
  let '(w, got) := kube_get w ns name in
  match got with
  | Err e => (w, Some e)
  | Ok fresh =>
      if negb (ContainsFinalizer fresh) then (w, None)
      else
        let '(w, stored) :=
          kube_update w (with_finalizers (RemoveFinalizer CleanupFinalizer (LcFinalizers fresh)) fresh) in
        (w, match stored with Err e => Some e | Ok _ => None end)
  end.

Definition removeCleanupFinalizer (w : W) (ns name : string) : W * option err :=
  RetryOnConflict (remove_finalizer_attempt ns name) w.

Definition is_not_found (e : option err) : bool := match e with Some e => IsNotFound e | None => false end.

(** [got.OpStatus == OpFailed && got.Action == CleanupFailed && ...] *)
Definition ownership_changed (got : CleanupResult) : bool :=
  (CrOpStatus got == OpFailed) && (CrAction got == CleanupFailed) && (CrFailure got == Error ErrCleanupChanged).

(** From the check of the cleanup's outcome on. *)
Definition finish_cleanup (w : W) (cfg : LiveConfig) (got : CleanupResult) : W * option err :=
  if ownership_changed got then (w, Some (EWrap "%w" [] ErrCleanupChanged))
  else
    let '(w, e) := removeCleanupFinalizer w (LcNamespace cfg) (LcName cfg) in
    (w, if is_not_found e then None else e).

Definition reconcileCleanup (w : W) (cfg : LiveConfig) : W * option err :=
  if negb (ContainsFinalizer cfg) then (w, None)
  else
    let '(w, got) := cleanupPass w (Some (LcConfig cfg)) in
    let '((w, cfg), e) := upsertConditions w cfg [cleanup_condition got] in
    match e with
    | Some e => if IsNotFound e then finish_cleanup w cfg got else (w, Some e)
    | None => finish_cleanup w cfg got
    end.

Definition Reconcile (w : W) (ns name : string) : W * (Z * option err) :=
  let '(w, got) := kube_get w ns name in
  match got with
  | Err e => (w, (0%Z, if IsNotFound e then None else Some e))
  | Ok cfg =>
      if LcDeleting cfg then
        let '(w, e) := reconcileCleanup w cfg in (w, (0%Z, e))
      else
        let '((w, cfg), e) := ensureCleanupFinalizer w ns name cfg in
        match e with
        | Some e => (w, (0%Z, Some e))
        | None =>
            let '(w, (out, e)) := ensurePass w (Some (LcConfig cfg)) in
            match e with
            | Some e => (w, (0%Z, Some e))
            | None =>
                if PfSkip (ResPreflight out) then (w, (0%Z, None))
                else
                  let '((w, _), e) := setOwnedConditions w cfg out in
                  match e with
                  | Some e => (w, (0%Z, Some e))
                  | None =>
                      (w, (if negb (RdReady (ResReadiness out)) || dpuNeedsRequeue (ResDPU out)
                           then DPURequeueAfter else 0%Z, None))
                  end
            end
        end
  end.

End Controller.

(** ** The passes of the lifecycle manager *)

(** [installer]: an injected one, or Helm, then OLM, then detection. *)
Definition installer {W} (injected : option (Installer W)) (helm olm : option (Installer W)) (detect : Installer W)
    : Installer W :=
  match injected with
  | Some i => i
  | None =>
      let next := match olm with Some o => with_fallback o detect | None => detect end in
      match helm with Some h => with_fallback h next | None => next end
  end.

Definition lifecycle_passes {W} `{HelmClient W} `{ResourceIndex W}
    (ctxErr : W → option err) (probe : W → option ClusterProbe) (dpus : W → option (result (list DPUObject)))
    (install : Installer W) (HasHelm AllowCRDDeletion : bool) : Passes W := {|
  ensurePass := EnsureInstalled ctxErr probe dpus install;
  cleanupPass := CleanupInstallations HasHelm AllowCRDDeletion |}.
