(* ===== verification/ControllerFacts.v ===== *)
(** * Reconcile against any API server

    The calls a reconcile makes are logged.  Whatever the API server, the
    installer and the cleanup answer, each call is justified by the calls
    before it ([justified]); the theorems read that off the log. *)

From Stdlib Require Import Ascii ZArith.
From stdpp Require Import base gmap strings list fin_maps.
From S2P Require Import Prelude GoStrings Unstructured MappingSpec Version InstallConfig Release HelmInstaller Cleanup Operator Ensure EnsureFacts Conditions ConditionsFacts Controller HelmInstallerFacts HelmMemory CleanupFacts.

Inductive Event :=
| EGet (r : result LiveConfig)
| EUpdate (sent : LiveConfig) (r : result LiveConfig)
| EStatus (sent : LiveConfig) (r : result LiveConfig)
| EEnsure (cfg : option ConfigObject) (out : Result) (e : option err)
| ECleanup (cfg : option ConfigObject) (got : CleanupResult).

Section Logged.
Context {W : Type} `{KubeAPI W} `{Passes W}.

#[global] Instance logged_api : KubeAPI (W * list Event) := {|
  kube_get wl ns n := let '(w, r) := kube_get wl.1 ns n in ((w, wl.2 ++ [EGet r]), r);
  kube_update wl c := let '(w, r) := kube_update wl.1 c in ((w, wl.2 ++ [EUpdate c r]), r);
  kube_update_status wl c := let '(w, r) := kube_update_status wl.1 c in ((w, wl.2 ++ [EStatus c r]), r);
  IsNotFound := IsNotFound;
  IsConflict := IsConflict |}.

#[global] Instance logged_passes : Passes (W * list Event) := {|
  ensurePass wl c :=
    let '(w, (out, e)) := ensurePass wl.1 c in ((w, wl.2 ++ [EEnsure c out e]), (out, e));
  cleanupPass wl c := let '(w, got) := cleanupPass wl.1 c in ((w, wl.2 ++ [ECleanup c got]), got) |}.

End Logged.

(** The condition types that the lifecycle manager owns. *)
Definition lifecycle_types : list string :=
  [SupportedConditionType; OperatorReadyConditionType; DPUReadyConditionType; CleanupConditionType].

Section Facts.
Context {W : Type} `{KubeAPI W} `{ControllerUtil} `{Passes W}.
Context (now : W → nat → string) (HasClient : bool).

Notation LW := (W * list Event)%type.
Notation now' := (λ wl : LW, now wl.1).

(** The update adds this controller's finalizer, and nothing else. *)
Definition adds_finalizer (fresh sent : LiveConfig) : Prop :=
  vendor_known fresh = true ∧ CleanupFinalizer ∉ LcFinalizers fresh ∧
  sent = with_finalizers (AddFinalizer CleanupFinalizer (LcFinalizers fresh)) fresh.

Definition removes_finalizer (fresh sent : LiveConfig) : Prop :=
  CleanupFinalizer ∈ LcFinalizers fresh ∧
  sent = with_finalizers (RemoveFinalizer CleanupFinalizer (LcFinalizers fresh)) fresh.

(** The status update merges owned conditions into the ones just read. *)
Definition merges_owned (fresh sent : LiveConfig) : Prop :=
  ∃ old want conds, LcConditions fresh = Ok old ∧ merge_owned old want = (conds, true) ∧
    sent = with_conditions conds fresh ∧ NoDup ((λ w, OcType w.1) <$> want) ∧
    Forall (λ w, OcType w.1 ∈ lifecycle_types) want.

(** A cleanup has run and did not find the ownership changed. *)
Definition cleaned_up (log : list Event) : Prop :=
  ∃ c got, ECleanup c got ∈ log ∧ ownership_changed got = false.

(** The API server has the finalizer on the object. *)
Definition finalizer_stored (log : list Event) : Prop :=
  ∃ live, CleanupFinalizer ∈ LcFinalizers live ∧
    (EGet (Ok live) ∈ log ∨ ∃ got, EUpdate live (Ok got) ∈ log).

(** Why an event may follow a log. *)
Definition justified (pre : list Event) (op : Event) : Prop :=
  match op with
  | EGet _ | ECleanup _ _ => True
  | EUpdate sent _ =>
      ∃ pre' fresh, pre = pre' ++ [EGet (Ok fresh)] ∧
        (adds_finalizer fresh sent ∨ removes_finalizer fresh sent ∧ cleaned_up pre)
  | EStatus sent _ => ∃ pre' fresh, pre = pre' ++ [EGet (Ok fresh)] ∧ merges_owned fresh sent
  | EEnsure c _ _ => KnownVendor (ResolveVendor c) = true → finalizer_stored pre
  end.

Notation log_ok := (justified_log justified).

Definition is_ensure (op : Event) : bool := match op with EEnsure _ _ _ => true | _ => false end.

(** A property of logs that only a run of the install pass can break. *)
Definition kept (P : list Event → Prop) : Prop := ∀ log op, is_ensure op = false → P log → P (log ++ [op]).

Lemma cleaned_up_app log ops : cleaned_up log → cleaned_up (log ++ ops).
Proof. intros (c & got & Hin & Hc). exists c, got. rewrite elem_of_app. auto. Qed.

Lemma finalizer_stored_app log ops : finalizer_stored log → finalizer_stored (log ++ ops).
Proof.
  intros (live & Hf & Hin). exists live. split; [done|].
  destruct Hin as [Hin|[got Hin]]; [left|right; exists got]; rewrite elem_of_app; by left.
Qed.

(** An invariant of every attempt is one of the retried run, and the run ends
    with an attempt. *)
Lemma Retry_ind {S} (I : S → Prop) retriable (f : S → S * option err) s :
  (∀ s, I s → I (f s).1) → I s → ∃ s', I s' ∧ Retry S retriable f s = f s'.
Proof.
  intros Hf Hs. pose proof (Retry_spec S retriable f s) as Hr. revert Hs.
  induction Hr as [s|s s' e r Hs' _ _ IH]; intros Hs; [by exists s|].
  apply IH. specialize (Hf s Hs). by rewrite Hs' in Hf.
Qed.

Lemma stamped_types {V} (clock : V → nat → string) v want :
  (λ w, OcType w.1) <$> stamped clock v want = OcType <$> want.
Proof.
  unfold stamped. rewrite fmap_imap. generalize (clock v).
  induction want as [|c want IH]; intros g; [done|]. cbn. f_equal. apply (IH (g ∘ S)).
Qed.

Lemma stamped_owned {V} (clock : V → nat → string) v want :
  Forall (λ c, OcType c ∈ lifecycle_types) want →
  Forall (λ w, OcType w.1 ∈ lifecycle_types) (stamped clock v want).
Proof.
  rewrite !Forall_forall. intros Hw x Hx. apply (list_elem_of_fmap_2 (λ w, OcType w.1)) in Hx.
  rewrite stamped_types in Hx. apply list_elem_of_fmap in Hx as (c & -> & Hc). by apply Hw.
Qed.

(** *** The attempts *)

Lemma upsert_attempt_ok ns name want (wl : LW) cfg (P : list Event → Prop) :
  kept P →
  NoDup (OcType <$> want) → Forall (λ c, OcType c ∈ lifecycle_types) want →
  log_ok wl.2 → P wl.2 →
  let x := upsert_attempt now' ns name want (wl, cfg) in log_ok x.1.1.2 ∧ P x.1.1.2.
Proof.
  intros HP Hnd Hty Hl Hp. unfold upsert_attempt. cbn.
  destruct (kube_get wl.1 ns name) as [w [fresh|e]]; cbn.
  2:{ split; [by apply justified_snoc|by apply HP]. }
  unfold mergeOwnedConditions. destruct (LcConditions fresh) as [old|e] eqn:Hold; cbn.
  2:{ split; [by apply justified_snoc|by apply HP]. }
  destruct (merge_owned old _) as [conds [|]] eqn:Hm; cbn.
  2:{ split; [by apply justified_snoc|by apply HP]. }
  destruct (kube_update_status w _) as [w' stored].
  assert (Hok : log_ok ((wl.2 ++ [EGet (Ok fresh)]) ++ [EStatus (with_conditions conds fresh) stored])).
  { apply justified_snoc; [by apply justified_snoc|]. exists wl.2, fresh. split; [done|].
    exists old, (stamped now' (w, wl.2 ++ [EGet (Ok fresh)]) want), conds. split; [done|]. split; [done|].
    split; [done|]. split; [by rewrite stamped_types|].
    by apply stamped_owned. }
  destruct stored; cbn; (split; [done|by do 2 (apply HP; [done|])]).
Qed.

Lemma upsertConditions_ok want (wl : LW) cfg (P : list Event → Prop) :
  kept P →
  NoDup (OcType <$> want) → Forall (λ c, OcType c ∈ lifecycle_types) want →
  log_ok wl.2 → P wl.2 →
  let x := upsertConditions now' HasClient wl cfg want in log_ok x.1.1.2 ∧ P x.1.1.2.
Proof.
  intros HP Hnd Hty Hl Hp. unfold upsertConditions. cbv zeta. destruct (negb HasClient).
  { destruct (mergeOwnedConditions _ _) as [[|]|]; done. }
  unfold RetryOnConflict.
  destruct (Retry_ind (λ s : LW * LiveConfig, log_ok s.1.2 ∧ P s.1.2) (@IsConflict LW _)
    (upsert_attempt now' (LcNamespace cfg) (LcName cfg) want) (wl, cfg)) as ([w' c'] & [Hl' Hp'] & ->); [|done|].
  - intros [w' c'] [Hl' Hp']. by apply upsert_attempt_ok.
  - by apply upsert_attempt_ok.
Qed.

Lemma add_finalizer_attempt_ok ns name (wl : LW) cfg (P : list Event → Prop) :
  kept P → log_ok wl.2 → P wl.2 →
  let x := add_finalizer_attempt ns name (wl, cfg) in
  log_ok x.1.1.2 ∧ P x.1.1.2 ∧ (x.2 = None → vendor_known x.1.2 = true → finalizer_stored x.1.1.2).
Proof.
  intros HP Hl Hp. unfold add_finalizer_attempt. cbn.
  destruct (kube_get wl.1 ns name) as [w [fresh|e]]; cbn.
  2:{ split_and!; [by apply justified_snoc|by apply HP|done]. }
  destruct (vendor_known fresh) eqn:Hk; cbn [negb orb].
  2:{ cbn. split_and!; [by apply justified_snoc|by apply HP|]. intros _ Hk'. congruence. }
  unfold ContainsFinalizer. case_bool_decide as Hc; cbn.
  { split_and!; [by apply justified_snoc|by apply HP|]. intros _ _. exists fresh. split; [done|]. left.
    rewrite elem_of_app, list_elem_of_singleton. by right. }
  set (sent := with_finalizers _ fresh).
  destruct (kube_update w sent) as [w' stored].
  assert (Hok : log_ok ((wl.2 ++ [EGet (Ok fresh)]) ++ [EUpdate sent stored])).
  { apply justified_snoc; [by apply justified_snoc|]. exists wl.2, fresh. split; [done|]. by left. }
  destruct stored as [got|e]; cbn; (split_and!; [done|by do 2 (apply HP; [done|])|]); [|done].
  intros _ _. exists sent. split.
  - cbn. apply AddFinalizer_spec. by left.
  - right. exists got. rewrite elem_of_app, list_elem_of_singleton. by right.
Qed.

Lemma ensureCleanupFinalizer_ok ns name (wl : LW) cfg (P : list Event → Prop) :
  kept P → log_ok wl.2 → P wl.2 → EGet (Ok cfg) ∈ wl.2 →
  let x := ensureCleanupFinalizer wl ns name cfg in
  log_ok x.1.1.2 ∧ P x.1.1.2 ∧ (x.2 = None → vendor_known x.1.2 = true → finalizer_stored x.1.1.2).
Proof.
  intros HP Hl Hp Hin. unfold ensureCleanupFinalizer. cbv zeta.
  destruct (vendor_known cfg) eqn:Hk; cbn [negb]; [|split_and!; cbn; [done|done|congruence]].
  unfold ContainsFinalizer. case_bool_decide as Hc.
  { split_and!; [done|done|]. intros _ _. exists cfg. auto. }
  unfold RetryOnConflict.
  destruct (Retry_ind (λ s : LW * LiveConfig, log_ok s.1.2 ∧ P s.1.2) (@IsConflict LW _)
    (add_finalizer_attempt ns name) (wl, cfg)) as ([w' c'] & [Hl' Hp'] & ->); [|done|by apply add_finalizer_attempt_ok].
  intros [w' c'] [Hl' Hp']. destruct (add_finalizer_attempt_ok ns name w' c' P) as (? & ? & _); done.
Qed.

Lemma removeCleanupFinalizer_ok ns name (wl : LW) (P : list Event → Prop) :
  kept P → log_ok wl.2 → cleaned_up wl.2 → P wl.2 →
  log_ok (removeCleanupFinalizer wl ns name).1.2 ∧ P (removeCleanupFinalizer wl ns name).1.2.
Proof.
  intros HP. set (I := λ wl : LW, log_ok wl.2 ∧ cleaned_up wl.2 ∧ P wl.2).
  assert (Hstep : ∀ wl, I wl → I (remove_finalizer_attempt ns name wl).1).
  { clear wl. intros wl (Hl & Hc & Hp). unfold remove_finalizer_attempt, I. cbn.
    destruct (kube_get wl.1 ns name) as [w [fresh|e]]; cbn.
    2:{ split_and!; [by apply justified_snoc|by apply cleaned_up_app|by apply HP]. }
    unfold ContainsFinalizer. case_bool_decide as Hf; cbn.
    2:{ split_and!; [by apply justified_snoc|by apply cleaned_up_app|by apply HP]. }
    destruct (kube_update w _) as [w' stored]. cbn.
    split_and!; [|by do 2 apply cleaned_up_app|by do 2 (apply HP; [done|])].
    apply justified_snoc; [by apply justified_snoc|]. exists wl.2, fresh. split; [done|]. right.
    split; [done|by apply cleaned_up_app]. }
  intros Hl Hc Hp. unfold removeCleanupFinalizer, RetryOnConflict.
  destruct (Retry_ind I (@IsConflict LW _) (remove_finalizer_attempt ns name) wl) as (wl' & Hi & ->); [done|done|].
  by destruct (Hstep wl' Hi) as (? & _ & ?).
Qed.

(** *** The handlers *)

Lemma reconcileCleanup_ok (wl : LW) cfg (P : list Event → Prop) :
  kept P → log_ok wl.2 → P wl.2 →
  log_ok (reconcileCleanup now' HasClient wl cfg).1.2 ∧ P (reconcileCleanup now' HasClient wl cfg).1.2.
Proof.
  intros HP Hl Hp. unfold reconcileCleanup. destruct (negb (ContainsFinalizer cfg)); [done|]. cbn.
  destruct (cleanupPass wl.1 (Some (LcConfig cfg))) as [w got]. cbn.
  set (ev := ECleanup (Some (LcConfig cfg)) got). set (wl' := (w, wl.2 ++ [ev])).
  set (P' := λ log, P log ∧ ev ∈ log).
  destruct (upsertConditions_ok [cleanup_condition got] wl' cfg P') as [Hl' [Hp' Hin]].
  { intros log op Hop [Hq Hin]. split; [by apply HP|]. rewrite elem_of_app. by left. }
  { cbn. apply NoDup_singleton. }
  { constructor; [|constructor]. cbn. set_solver. }
  { by apply justified_snoc. }
  { split; [by apply HP|]. cbn. rewrite elem_of_app, list_elem_of_singleton. by right. }
  destruct (upsertConditions now' HasClient wl' cfg [cleanup_condition got]) as [[wl2 cfg2] e]. cbn in *.
  assert (Hfin : log_ok (finish_cleanup wl2 cfg2 got).1.2 ∧ P (finish_cleanup wl2 cfg2 got).1.2).
  { unfold finish_cleanup. destruct (ownership_changed got) eqn:Hoc; [done|].
    destruct (removeCleanupFinalizer_ok (LcNamespace cfg2) (LcName cfg2) wl2 P) as [Hr1 Hr2]; [done|done| |done|].
    { exists (Some (LcConfig cfg)), got. done. }
    destruct (removeCleanupFinalizer wl2 _ _) as [wl3 e3]. done. }
  destruct e as [e|]; [|done]. by destruct (IsNotFound e).
Qed.

(** What a run of the install pass in the log says of the answer. *)
Definition settled (ans : Z * option err) (log : list Event) : Prop :=
  ∀ c out e, EEnsure c out e ∈ log →
    (e ≠ None → ans.2 = e) ∧
    (ans = (0%Z, None) → e = None ∧
       (PfSkip (ResPreflight out) = true ∨ RdReady (ResReadiness out) = true ∧ Rebooting (ResDPU out) = [])).

Lemma no_ensure_settled ans log : (∀ c out e, EEnsure c out e ∉ log) → settled ans log.
Proof. intros Hn c out e Hin. by destruct (Hn c out e). Qed.

Lemma no_ensure_kept : kept (λ log, ∀ c out e, EEnsure c out e ∉ log).
Proof.
  intros log op Hop Hn c out e [Hin|Hin]%elem_of_app; [by apply (Hn c out e)|].
  apply list_elem_of_singleton in Hin. by subst op.
Qed.

Lemma owned_conditions_types out : OcType <$> owned_conditions out = take 3 lifecycle_types.
Proof.
  unfold owned_conditions. destruct (skewStatus _ _ _) as [st msg]. destruct (operatorCondition _) as [[? ?] ?].
  by destruct (dpuCondition _) as [[? ?] ?].
Qed.

Lemma owned_conditions_ok out :
  NoDup (OcType <$> owned_conditions out) ∧ Forall (λ c, OcType c ∈ lifecycle_types) (owned_conditions out).
Proof.
  pose proof (owned_conditions_types out) as Ht. split.
  - rewrite Ht. apply (bool_decide_unpack _). vm_compute. done.
  - apply (Forall_fmap OcType (λ t, t ∈ lifecycle_types)). rewrite Ht. apply (bool_decide_unpack _). vm_compute. done.
Qed.

Lemma Reconcile_ok (w : W) ns name :
  let x := Reconcile now' HasClient (w, []) ns name in log_ok x.1.2 ∧ settled x.2 x.1.2.
Proof.
  pose proof (justified_nil justified) as Hnil.
  unfold Reconcile. cbn. destruct (kube_get w ns name) as [w1 [cfg|e]]; cbn.
  2:{ split; [apply (justified_snoc _ []); done|]. apply no_ensure_settled. intros c out e' Hin. by apply list_elem_of_singleton in Hin. }
  assert (Hl1 : log_ok [EGet (Ok cfg)]) by (by apply (justified_snoc _ [])).
  assert (Hn1 : ∀ c out e, EEnsure c out e ∉ [EGet (Ok cfg)]) by (intros c out e Hin; by apply list_elem_of_singleton in Hin).
  destruct (LcDeleting cfg).
  { destruct (reconcileCleanup_ok (w1, [EGet (Ok cfg)]) cfg _ no_ensure_kept Hl1 Hn1) as [Hl2 Hn2].
    destruct (reconcileCleanup now' HasClient _ cfg) as [wl2 e2]. cbn in *. split; [done|by apply no_ensure_settled]. }
  destruct (ensureCleanupFinalizer_ok ns name (w1, [EGet (Ok cfg)]) cfg _ no_ensure_kept Hl1 Hn1) as (Hl2 & Hn2 & Hf).
  { cbn. by apply list_elem_of_singleton. }
  destruct (ensureCleanupFinalizer _ ns name cfg) as [[wl2 cfg2] [e2|]]; cbn in *; [split; [done|by apply no_ensure_settled]|].
  destruct (ensurePass wl2.1 (Some (LcConfig cfg2))) as [w3 [out e3]]. cbn.
  set (ev := EEnsure (Some (LcConfig cfg2)) out e3).
  assert (Hl3 : log_ok (wl2.2 ++ [ev])).
  { apply justified_snoc; [done|]. cbn. intros Hk. apply Hf; done. }
  set (only := λ log : list Event, ∀ c out' e', EEnsure c out' e' ∈ log → out' = out ∧ e' = e3).
  assert (Ho3 : only (wl2.2 ++ [ev])).
  { intros c out' e' [Hin|Hin]%elem_of_app; [by destruct (Hn2 c out' e')|].
    apply list_elem_of_singleton in Hin. unfold ev in Hin. by injection Hin as _ -> ->. }
  assert (Hkeep : kept only).
  { intros log op Hop Ho c out' e' [Hin|Hin]%elem_of_app; [by apply (Ho c)|].
    apply list_elem_of_singleton in Hin. by subst op. }
  destruct e3 as [e3|]; cbn.
  { split; [done|]. intros c out' e' Hin. destruct (Ho3 c out' e' Hin) as [-> ->]. split; [done|]. intros [=]. }
  destruct (PfSkip (ResPreflight out)) eqn:Hskip; cbn.
  { split; [done|]. intros c out' e' Hin. destruct (Ho3 c out' e' Hin) as [-> ->]. split; [done|]. intros _. auto. }
  destruct (owned_conditions_ok out) as [Hnd Hty]. unfold setOwnedConditions.
  destruct (upsertConditions_ok (owned_conditions out) (w3, wl2.2 ++ [ev]) cfg2 only Hkeep Hnd Hty Hl3 Ho3) as [Hl4 Ho4].
  destruct (upsertConditions now' HasClient _ cfg2 _) as [[wl4 cfg4] [e4|]]; cbn in *; (split; [done|]);
    intros c out' e' Hin; destruct (Ho4 c out' e' Hin) as [-> ->]; (split; [done|]); [intros [=]|].
  destruct (RdReady _); cbn [negb orb]; [|by intros [= ?]]. unfold dpuNeedsRequeue.
  destruct (Rebooting (ResDPU out)) as [|n l] eqn:Hreb; cbn; [auto|by intros [= ?]].
Qed.

(** Reconcile writes only what it just read: each update of the object
    follows a read of it and differs from what was read by this controller's
    finalizer alone; each status update follows a read and merges the
    conditions the lifecycle manager owns, each type once, into the ones read,
    whatever the API server and the passes answer and however often a write is
    retried. *)
Theorem Reconcile_read_modify_write (w : W) ns name i op :
  let log := (Reconcile now' HasClient (w, []) ns name).1.2 in
  log !! i = Some op →
  match op with
  | EUpdate sent _ => ∃ pre fresh, take i log = pre ++ [EGet (Ok fresh)] ∧
      (adds_finalizer fresh sent ∨ removes_finalizer fresh sent)
  | EStatus sent _ => ∃ pre fresh, take i log = pre ++ [EGet (Ok fresh)] ∧ merges_owned fresh sent
  | _ => True
  end.
Proof.
  cbv zeta. intros Hi. destruct (Reconcile_ok w ns name) as [Hl _].
  pose proof (justified_lookup _ _ _ _ Hl Hi) as Hj. destruct op; try done.
  destruct Hj as (pre & fresh & ? & [?|[? _]]); exists pre, fresh; auto.
Qed.

(** [C7] The finalizer protocol: the install pass runs on a config of a known
    vendor only after the API server has been seen to hold the cleanup
    finalizer, and an update that takes the finalizer away is only sent after a
    cleanup has run whose outcome is not a change of ownership. *)
Theorem Reconcile_finalizer_protocol (w : W) ns name i op :
  let log := (Reconcile now' HasClient (w, []) ns name).1.2 in
  log !! i = Some op →
  match op with
  | EEnsure c _ _ => KnownVendor (ResolveVendor c) = true → finalizer_stored (take i log)
  | EUpdate sent _ => CleanupFinalizer ∈ LcFinalizers sent ∨ cleaned_up (take i log)
  | _ => True
  end.
Proof.
  cbv zeta. intros Hi. destruct (Reconcile_ok w ns name) as [Hl _].
  pose proof (justified_lookup _ _ _ _ Hl Hi) as Hj. destruct op; try done.
  destruct Hj as (pre & fresh & _ & [(_ & _ & ->)|[_ ?]]); [left|by right]. cbn. apply AddFinalizer_spec. by left.
Qed.

(** A reconcile that asks for no requeue is finished: if it ran the install
    pass, the pass returned no error and found no vendor requested, or the
    operator ready and no DPU rebooting.  An error of the pass is the answer. *)
Theorem Reconcile_settles (w : W) ns name c out e :
  let x := Reconcile now' HasClient (w, []) ns name in
  EEnsure c out e ∈ x.1.2 →
  (e ≠ None → x.2.2 = e) ∧
  (x.2 = (0%Z, None) → e = None ∧
     (PfSkip (ResPreflight out) = true ∨ RdReady (ResReadiness out) = true ∧ Rebooting (ResDPU out) = [])).
Proof. cbv zeta. intros Hin. destruct (Reconcile_ok w ns name) as [_ Hs]. by apply (Hs c). Qed.

End Facts.

(** ** A concrete API server *)

Record World := {
  cluster : Cluster;
  configs : gmap string LiveConfig;
  conflicts : nat (* the next writes that another writer wins *) }.

Definition demo_conflict : err := ENew "conflict".
Definition demo_not_found : err := ENew "not found".

(** A write: a conflict, or the object stored; a deleted object that has no
    finalizer is gone. *)
Definition world_write (w : World) (c : LiveConfig) : World * result LiveConfig :=
  match conflicts w with
  | S n => ({| cluster := cluster w; configs := configs w; conflicts := n |}, Err demo_conflict)
  | O =>
      let gone := LcDeleting c && bool_decide (LcFinalizers c = []) in
      ({| cluster := cluster w;
          configs := if gone then delete (LcName c) (configs w) else <[LcName c := c]> (configs w);
          conflicts := 0 |}, Ok c)
  end.

#[local] Instance world_api : KubeAPI World := {|
  kube_get w ns n := (w, match configs w !! n with Some c => Ok c | None => Err demo_not_found end);
  kube_update := world_write;
  kube_update_status := world_write;
  IsNotFound e := errors_is e demo_not_found;
  IsConflict e := errors_is e demo_conflict |}.

Fixpoint demo_retry (n : nat) S (retriable : err → bool) (f : S → S * option err) (s : S) : S * option err :=
  match n with
  | O => f s
  | Datatypes.S n' =>
      match f s with
      | (s', Some e) => if retriable e then demo_retry n' S retriable f s' else (s', Some e)
      | r => r
      end
  end.

Lemma demo_retry_spec n S retriable (f : S → S * option err) s :
  retried retriable f s (demo_retry n S retriable f s).
Proof.
  revert s. induction n as [|n IH]; intros s; [constructor|]. cbn.
  destruct (f s) as [s' [e|]] eqn:Hf; [destruct (retriable e) eqn:He|].
  - by apply (retried_again _ _ _ s' e).
  - rewrite <- Hf. constructor.
  - rewrite <- Hf. constructor.
Qed.

#[local] Program Instance demo_util : ControllerUtil := {|
  AddFinalizer f l := if decide (f ∈ l) then l else l ++ [f];
  RemoveFinalizer f l := filter (λ g, g ≠ f) l;
  Retry := demo_retry 4;
  Retry_spec := demo_retry_spec 4 |}.
Next Obligation. intros f l g. cbn. destruct (decide (f ∈ l)); set_solver. Qed.
Next Obligation. intros f l g. cbn. rewrite list_elem_of_filter. tauto. Qed.

(** The passes act on the cluster. *)
#[local] Instance world_passes : Passes World := {|
  ensurePass w c :=
    let '(cl, r) := EnsureInstalled (λ cl, ctx (helm_part cl)) (λ _, Some good_probe) (λ _, None)
                      (Ensure true false 0) (cluster w) c in
    ({| cluster := cl; configs := configs w; conflicts := conflicts w |}, r);
  cleanupPass w c :=
    let '(cl, r) := @CleanupInstallations Cluster cluster_helm cluster_index true false (cluster w) c in
    ({| cluster := cl; configs := configs w; conflicts := conflicts w |}, r) |}.

Definition live (deleting : bool) (fs : list string) : LiveConfig :=
  {| LcNamespace := ""; LcConfig := demo_config; LcDeleting := deleting; LcFinalizers := fs; LcConditions := Ok [] |}.

Definition demo_now (w : World) (i : nat) : string := "2026-01-01T00:00:00Z".

(** A new config, and two conflicts on the way. *)
Definition fresh_world : World :=
  {| cluster := demo_cluster false; configs := {[ "cfg" := live false [] ]}; conflicts := 2 |}.

Definition demo_log : list Event := (Reconcile (λ wl, demo_now wl.1) true (fresh_world, []) "" "cfg").1.2.

Lemma Reconcile_read_modify_write_witness :
  ∃ sent r pre fresh, demo_log !! 6 = Some (EUpdate sent r) ∧ take 6 demo_log = pre ++ [EGet (Ok fresh)] ∧
    (adds_finalizer fresh sent ∨ removes_finalizer fresh sent).
Proof.
  assert (Hb : match demo_log !! 6 with Some (EUpdate _ _) => true | _ => false end = true)
    by (vm_compute; reflexivity).
  destruct (demo_log !! 6) as [[|sent r| | |]|] eqn:Hi; try discriminate Hb. exists sent, r.
  destruct (Reconcile_read_modify_write demo_now true fresh_world "" "cfg" 6 (EUpdate sent r) Hi) as (pre & fresh & Hp & Ha).
  exists pre, fresh. split; [reflexivity|]. split; [exact Hp|exact Ha].
Defined.

Lemma Reconcile_finalizer_protocol_witness : finalizer_stored (take 7 demo_log).
Proof.
  assert (Hk : match demo_log !! 7 with Some (EEnsure c _ _) => KnownVendor (ResolveVendor c) | _ => false end = true)
    by (vm_compute; reflexivity).
  destruct (demo_log !! 7) as [[| | |c out e|]|] eqn:Hi; try discriminate Hk.
  exact (Reconcile_finalizer_protocol demo_now true fresh_world "" "cfg" 7 (EEnsure c out e) Hi Hk).
Defined.

Lemma Reconcile_settles_witness :
  ∃ c out e, EEnsure c out e ∈ demo_log ∧ RdReady (ResReadiness out) = true ∧ Rebooting (ResDPU out) = [].
Proof.
  assert (Hs : match demo_log !! 7 with Some (EEnsure _ out _) => negb (PfSkip (ResPreflight out)) | _ => false end = true)
    by (vm_compute; reflexivity).
  destruct (demo_log !! 7) as [[| | |c out e|]|] eqn:Hi; try discriminate Hs. exists c, out, e.
  apply list_elem_of_lookup_2 in Hi. split; [exact Hi|].
  destruct (Reconcile_settles demo_now true fresh_world "" "cfg" c out e Hi) as [_ Hfin].
  destruct Hfin as [_ [Hskip|Hready]]; [vm_compute; reflexivity|by rewrite Hskip in Hs|exact Hready].
Defined.

Definition failing_uninstall (m : MemoryHelmClient) : MemoryHelmClient :=
  {| rels := rels m; history := history m; lastGood := lastGood m; inflight := inflight m;
     MaxInflight := MaxInflight m; Upgrades := Upgrades m; Uninstalls := Uninstalls m; Rollbacks := Rollbacks m;
     UpgradeErr := UpgradeErr m; FailNUpgrades := FailNUpgrades m; failed := failed m;
     InstallErr := InstallErr m; FailNInstalls := FailNInstalls m; installFailed := installFailed m;
     UninstallErr := Some (ENew "uninstall refused"); Timeout := Timeout m; Unknown := Unknown m;
     RollbackErr := RollbackErr m; ctx := ctx m |}.

(** A failed cleanup gives up: when the uninstall fails, the reconcile of
    the deleted config still removes the finalizer and reports no error, so the
    config is gone while the release it installed is still there. *)
Theorem Failed_cleanup_releases_config :
  let m := helm_part (demo_cluster false) in
  let broken := {| cluster := {| helm_part := failing_uninstall m; index_part := index_part (demo_cluster false) |};
                   configs := {[ "cfg" := live true [CleanupFinalizer] ]}; conflicts := 0 |} in
  let x := Reconcile demo_now true broken "" "cfg" in
  x.2 = (0%Z, None) ∧ configs x.1 !! "cfg" = None ∧ rels (helm_part (cluster x.1)) = rels m.
Proof. cbv zeta. split_and!; vm_compute; reflexivity. Qed.
