(* ===== verification/Translation.v ===== *)
(** * The translation controller
      (pkg/translation/translation_controller.go, readiness.go)

    One reconcile of an OPI source: the finalizer, the mapping, the gate on the
    vendor operator, server-side apply of the emitted objects, pruning of the
    children the mapping no longer names, and the status roll-up.  The API
    server and controllerutil are interfaces; metadata that the code reads
    through accessors is kept beside the object. *)

From Stdlib Require Import Ascii ZArith.
From stdpp Require Import base gmap strings list fin_maps.
From S2P Require Import Prelude GoStrings Unstructured MappingSpec MappingEngine Conditions DeadFields Controller.

Definition annSource : string := "translation.opi.nvidia.com/source".
Definition cleanupFinalizer : string := "translation.opi.nvidia.com/cleanup".

(** [15 * time.Second], in nanoseconds. *)
Definition DPFNotReadyRequeue : Z := 15 * 10 ^ 9.

(** The attempts of [applyOne]. *)
Definition applyAttempts : nat := 8.

(** ** Objects *)

Record OPISource := {
  SrcObject : gmap string value;
  SrcKind : string;
  SrcNamespace : string;
  SrcName : string;
  SrcUID : string;
  SrcDeleting : bool;
  SrcFinalizers : list string }.

Definition src_with_finalizers (fs : list string) (s : OPISource) : OPISource :=
  {| SrcObject := SrcObject s; SrcKind := SrcKind s; SrcNamespace := SrcNamespace s; SrcName := SrcName s;
     SrcUID := SrcUID s; SrcDeleting := SrcDeleting s; SrcFinalizers := fs |}.

Definition src_with_status (st : gmap string value) (s : OPISource) : OPISource :=
  {| SrcObject := <["status" := VMap st]> (SrcObject s); SrcKind := SrcKind s; SrcNamespace := SrcNamespace s;
     SrcName := SrcName s; SrcUID := SrcUID s; SrcDeleting := SrcDeleting s; SrcFinalizers := SrcFinalizers s |}.

Record OwnerReference := { RefOwnerKind : string; RefOwnerName : string; RefOwnerUID : string }.

(** A listed child; [ChSource] is the provenance annotation, empty when there is
    none. *)
Record Child := {
  ChKind : string;
  ChNamespace : string;
  ChName : string;
  ChOwners : list OwnerReference;
  ChSource : string;
  ChObject : gmap string value }.

(** ** The interfaces *)

(** The accessors of an emitted object beyond the mapping engine's, and
    controllerutil. *)
Class EmittedAPI := {
  GroupVersionKind : gmap string value → ObjectRef;
  GetAnnotations : gmap string value → option (gmap string string);
  SetAnnotations : gmap string string → gmap string value → gmap string value;
  ClearManagedFields : gmap string value → gmap string value;
  SetControllerReference : OPISource → gmap string value → option (gmap string value) }.

Class TranslationAPI (W : Type) := {
  src_get : W → string → string → W * result OPISource;
  src_update : W → OPISource → W * result OPISource;
  src_update_status : W → OPISource → W * option err;
  list_labelled : W → ObjectRef → gmap string string → W * result (list Child);
  delete_child : W → Child → W * option err;
  apply_object : W → gmap string value → W * option err;
  (** the DpuOperatorConfigs; [None]: the scheme does not know the kind *)
  list_configs : option (W → W * result (list (gmap string value)));
  (** the TargetsInstalled hook, which may be nil *)
  targets_installed : option (W → list ObjectRef → W * result bool);
  (** the RESTMapper's resource of a kind, and the CRD of that name *)
  rest_resource : W → ObjectRef → W * result string;
  crd_get : W → string → W * result (gmap string value);
  (** the schemas this reconciler has cached *)
  schema_cached : W → ObjectRef → option (option (gmap string value));
  schema_put : W → ObjectRef → option (gmap string value) → W;
  wall_clock : W → string;
  TIsNotFound : err → bool;
  IsNoMatchError : err → bool }.

(** ** Pure helpers *)

Definition childKey (kind namespace name : string) : string := kind +:+ "|" +:+ namespace +:+ "|" +:+ name.

Definition annSourceValue (src : OPISource) : string :=
  let key := if SrcNamespace src != "" then SrcNamespace src +:+ "/" +:+ SrcName src else SrcName src in
  SrcKind src +:+ ":" +:+ key.

Definition owner_is (src : OPISource) (ref : OwnerReference) : bool :=
  (RefOwnerKind ref == SrcKind src) && (RefOwnerName ref == SrcName src) &&
  (RefOwnerUID ref != "") && (RefOwnerUID ref == SrcUID src).

Definition ownedBySource (child : Child) (src : OPISource) (wantAnn : string) : bool :=
  existsb (owner_is src) (ChOwners child) || (ChSource child == wantAnn).

(** Keeps the first occurrence of each kind. *)
Definition distinct (gvks : list ObjectRef) : list ObjectRef :=
  foldl (λ out g, if decide (g ∈ out) then out else out ++ [g]) [] gvks.

Definition lcmConditionReady (obj : gmap string value) : bool :=
  match obj !! "status" with
  | Some (VMap st) =>
      match st !! "conditions" with
      | Some (VList conds) =>
          existsb (λ raw, match raw with
                          | VMap c => field_is c "type" OperatorReadyConditionType && field_is c "status" "True"
                          | _ => false
                          end) conds
      | _ => false
      end
  | _ => false
  end.

Definition nested_string (o : gmap string value) (path : list string) : string :=
  match get_parts (VMap o) path with Some (VString s) => s | _ => "" end.

Definition version_serves (v : string) (raw : value) : bool :=
  match raw with
  | VMap ver => (str_at ver "name" == v) && (ver !! "served" == Some (VBool true))
  | _ => false
  end.

Definition crdMatchesTarget (spec : Spec) (crd : gmap string value) : bool :=
  let group := nested_string crd ["spec"; "group"] in
  let kind := nested_string crd ["spec"; "names"; "kind"] in
  let versions := match get_parts (VMap crd) ["spec"; "versions"] with Some (VList l) => l | _ => [] end in
  existsb (λ e, (Group (Target e) == group) && (RefKind (Target e) == kind) &&
                existsb (version_serves (MappingSpec.Version (Target e))) versions) (SpecEmit spec).

(** *** The RESTMapper *)

Section Mapper.
Context {M : Type} (RESTMapping : M → ObjectRef → M * option err) (no_match : err → bool).

Fixpoint mappingMisses (m : M) (gvks : list ObjectRef) (missing : bool) : M * result bool :=
  match gvks with
  | [] => (m, Ok missing)
  | g :: gvks' =>
      let '(m, e) := RESTMapping m g in
      match e with
      | None => mappingMisses m gvks' missing
      | Some e => if no_match e then mappingMisses m gvks' true else (m, Err e)
      end
  end.

(** [has_mapper]: the mapper is not nil; [reset]: it can be reset. *)
Definition MapperTargetsInstalled (has_mapper : bool) (reset : option (M → M)) (m : M) (gvks : list ObjectRef)
    : M * result bool :=
  if negb has_mapper || (length gvks == 0) then (m, Ok true)
  else
    let '(m, r) := mappingMisses m gvks false in
    match r with
    | Err e => (m, Err e)
    | Ok false => (m, Ok true)
    | Ok true =>
        match reset with
        | None => (m, Ok false)
        | Some reset =>
            let '(m, r) := mappingMisses (reset m) gvks false in
            (m, match r with Err e => Err e | Ok missing => Ok (negb missing) end)
        end
    end.

Fixpoint ownable_loop (m : M) (gvks : list ObjectRef) : M * result (list ObjectRef) :=
  match gvks with
  | [] => (m, Ok [])
  | g :: gvks' =>
      let '(m, e) := RESTMapping m g in
      match e with
      | Some e =>
          if no_match e then ownable_loop m gvks' else (m, Err e)
      | None =>
          let '(m, r) := ownable_loop m gvks' in
          (m, match r with Ok out => Ok (g :: out) | Err e => Err e end)
      end
  end.

Definition ownableTargets (has_mapper : bool) (m : M) (gvks : list ObjectRef) : M * result (list ObjectRef) :=
  if negb has_mapper then (m, Ok gvks) else ownable_loop m gvks.

End Mapper.

(** ** The reconciler *)

Section Reconciler.
Context `{CELEngine} `{MetaAPI} `{EmittedAPI} `{ControllerUtil}.
Context {W : Type} `{TranslationAPI W}.
Context (spec : Spec).

Definition source_selector (src : OPISource) : gmap string string :=
  {[ labelMapping := MetaName (SpecMetadata spec); labelSourceKind := RefKind (Source spec);
     labelSourceName := SrcName src ]}.

Fixpoint list_kinds (w : W) (sel : gmap string string) (gvks : list ObjectRef) : W * result (list Child) :=
  match gvks with
  | [] => (w, Ok [])
  | g :: gvks' =>
      let '(w, r) := list_labelled w g sel in
      match r with
      | Err e => if IsNoMatchError e then list_kinds w sel gvks' else (w, Err e)
      | Ok items =>
          let '(w, r) := list_kinds w sel gvks' in
          (w, match r with Ok rest => Ok (items ++ rest) | Err e => Err e end)
      end
  end.

Definition listChildObjects (w : W) (src : OPISource) : W * result (list Child) :=
  list_kinds w (source_selector src) (distinct (Target <$> SpecEmit spec)).

(** Deletes the children that [doomed] picks, in order. *)
Fixpoint delete_loop (w : W) (what : string) (doomed : Child → bool) (cs : list Child) : W * option err :=
  match cs with
  | [] => (w, None)
  | c :: cs' =>
      if negb (doomed c) then delete_loop w what doomed cs'
      else
        let '(w, e) := delete_child w c in
        match e with
        | Some e => if TIsNotFound e then delete_loop w what doomed cs'
                    else (w, Some (EWrap what [ChKind c; ChName c] e))
        | None => delete_loop w what doomed cs'
        end
  end.

(** [emitted] are the objects as they were last sent: [applyOne] stamps an object,
    clears its managed fields and drops refused fields in place. *)
Definition desired_keys (emitted : list (gmap string value)) : list string :=
  (λ o, childKey (GetKind o) (GetNamespace o) (GetName o)) <$> emitted.

Definition stale (src : OPISource) (emitted : list (gmap string value)) (c : Child) : bool :=
  ownedBySource c src (annSourceValue src) &&
  negb (bool_decide (childKey (ChKind c) (ChNamespace c) (ChName c) ∈ desired_keys emitted)).

Definition pruneStaleChildren (w : W) (src : OPISource) (emitted : list (gmap string value)) : W * option err :=
  let '(w, r) := listChildObjects w src in
  match r with
  | Err e => (w, Some e)
  | Ok objs => delete_loop w "delete stale child %s/%s: %w" (stale src emitted) objs
  end.

Definition annotated (src : OPISource) (c : Child) : bool := ChSource c == annSourceValue src.

Definition cleanupAnnotatedChildren (w : W) (src : OPISource) : W * option err :=
  let '(w, r) := listChildObjects w src in
  match r with
  | Err e => (w, Some e)
  | Ok objs => delete_loop w "delete annotated child %s/%s: %w" (annotated src) objs
  end.

Definition has_finalizer (src : OPISource) : bool := bool_decide (cleanupFinalizer ∈ SrcFinalizers src).

Definition reconcileDelete (w : W) (src : OPISource) : W * (Z * option err) :=
  if negb (has_finalizer src) then (w, (0%Z, None))
  else
    let '(w, e) := cleanupAnnotatedChildren w src in
    match e with
    | Some e => (w, (0%Z, Some e))
    | None =>
        let '(w, r) := src_update w (src_with_finalizers (RemoveFinalizer cleanupFinalizer (SrcFinalizers src)) src) in
        (w, (0%Z, match r with Err e => Some e | Ok _ => None end))
    end.

Definition stampOwner (src : OPISource) (obj : gmap string value) : gmap string value :=
  match SetControllerReference src obj with
  | Some obj' => obj'
  | None =>
      let ann := default ∅ (GetAnnotations obj) in
      SetAnnotations (<[annSource := annSourceValue src]> ann) obj
  end.

Definition liveCRDSchema (w : W) (g : ObjectRef) : W * result (option (gmap string value)) :=
  match schema_cached w g with
  | Some s => (w, Ok s)
  | None =>
      let '(w, r) := rest_resource w g in
      match r with
      | Err e => (w, if IsNoMatchError e then Ok None else Err e)
      | Ok resource =>
          let '(w, r) := crd_get w (resource +:+ "." +:+ Group g) in
          match r with
          | Err e => (w, Err e)
          | Ok crd =>
              let openapi := storageOpenAPI crd in
              (schema_put w g openapi, Ok openapi)
          end
      end
  end.

(** The loop of [applyOne], [n] attempts left, with the object as it is left. *)
Fixpoint apply_loop (n : nat) (w : W) (obj : gmap string value) : W * (gmap string value * option err) :=
  match n with
  | O => (w, (obj, Some (EFmt "apply %s/%s: too many live-unknown fields" [GetKind obj; GetName obj])))
  | S n' =>
      let obj := ClearManagedFields obj in
      let '(w, e) := apply_object w obj in
      match e with
      | None => (w, (obj, None))
      | Some e =>
          match omitLiveUnknownFields obj e with
          | Err dropErr => (w, (obj, Some dropErr))
          | Ok (obj, _) => apply_loop n' w obj
          end
      end
  end.

(** The object after [stampOwner] and the pruning against the live schema. *)
Definition prepared (src : OPISource) (obj : gmap string value) (live : result (option (gmap string value)))
    : gmap string value :=
  let obj := stampOwner src obj in
  match live with
  | Ok (Some crdSchema) => (pruneUnknownSpec obj crdSchema).1
  | _ => obj
  end.

Definition applyOne (w : W) (src : OPISource) (obj : gmap string value) : W * (gmap string value * option err) :=
  let '(w, live) := liveCRDSchema w (GroupVersionKind (stampOwner src obj)) in
  apply_loop applyAttempts w (prepared src obj live).

(** The loop over the emitted objects, with the objects as they are left. *)
Fixpoint apply_all (w : W) (src : OPISource) (objs : list (gmap string value))
    : W * (list (gmap string value) * option err) :=
  match objs with
  | [] => (w, ([], None))
  | obj :: objs' =>
      let '(w, (obj, e)) := applyOne w src obj in
      match e with
      | Some e => (w, (obj :: objs', Some (EWrap "apply %s/%s: %w" [GetKind obj; GetName obj] e)))
      | None => let '(w, (rest, e)) := apply_all w src objs' in (w, (obj :: rest, e))
      end
  end.

Definition src_status (src : OPISource) : gmap string value :=
  match SrcObject src !! "status" with Some (VMap m) => m | _ => ∅ end.

Definition mirrorStatus (w : W) (src : OPISource) : W * option err :=
  match Status spec with
  | None => (w, None)
  | Some st =>
      if StatusSchema st == StatusSchemaPruned then (w, None)
      else
        let '(w, r) := listChildObjects w src in
        match r with
        | Err e => (w, Some e)
        | Ok objs =>
            match ApplyStatus spec (SrcObject src) ((λ c, VMap (ChObject c)) <$> objs) with
            | Err e => (w, Some e)
            | Ok None => (w, None)
            | Ok (Some desired) =>
                match applyStatus (wall_clock w) (src_status src) desired with
                | None => (w, None)
                | Some cur => src_update_status w (src_with_status cur src)
                end
            end
        end
  end.

Definition lcmBlocks (w : W) : W * result bool :=
  match list_configs with
  | None => (w, Ok false)
  | Some ls =>
      let '(w, r) := ls w in
      match r with
      | Err e => (w, if IsNoMatchError e then Ok false else Err e)
      | Ok [] => (w, Ok false)
      | Ok items => (w, Ok (negb (existsb lcmConditionReady items)))
      end
  end.

(** The gate: [Ok true] is open. *)
Definition gate (w : W) (emitted : list (gmap string value)) : W * result bool :=
  if length emitted == 0 then (w, Ok true)
  else
    let '(w, r) := lcmBlocks w in
    match r with
    | Err e => (w, Err e)
    | Ok true => (w, Ok false)
    | Ok false =>
        match targets_installed with
        | None => (w, Ok true)
        | Some installed => installed w (distinct (GroupVersionKind <$> emitted))
        end
    end.

(** From the mapping on; the source has the finalizer. *)
Definition translate (w : W) (src : OPISource) : W * (Z * option err) :=
  match Apply spec (SrcObject src) with
  | Err e => (w, (0%Z, Some e))
  | Ok emitted =>
      match ShouldPrune spec (SrcObject src) with
      | Err e => (w, (0%Z, Some e))
      | Ok pruneAllowed =>
          let '(w, r) := gate w emitted in
          match r with
          | Err e => (w, (0%Z, Some e))
          | Ok false => (w, (DPFNotReadyRequeue, None))
          | Ok true =>
              let '(w, (emitted, e)) := apply_all w src emitted in
              match e with
              | Some e => (w, (0%Z, Some e))
              | None =>
                  let '(w, e) := if pruneAllowed then pruneStaleChildren w src emitted else (w, None) in
                  match e with
                  | Some e => (w, (0%Z, Some (EWrap "prune stale children: %w" [] e)))
                  | None =>
                      let '(w, e) := mirrorStatus w src in
                      (w, (0%Z, match e with Some e => Some (EWrap "mirror status: %w" [] e) | None => None end))
                  end
              end
          end
      end
  end.

Definition Translation_Reconcile (w : W) (ns name : string) : W * (Z * option err) :=
  let '(w, r) := src_get w ns name in
  match r with
  | Err e => (w, (0%Z, if TIsNotFound e then None else Some e))
  | Ok src =>
      if SrcDeleting src then reconcileDelete w src
      else if has_finalizer src then translate w src
      else
        let '(w, r) := src_update w (src_with_finalizers (AddFinalizer cleanupFinalizer (SrcFinalizers src)) src) in
        match r with
        | Err e => (w, (0%Z, Some e))
        | Ok src => translate w src
        end
  end.

End Reconciler.
