(* ===== verification/TranslationFacts.v ===== *)
(** * The translator against any API server

    The calls of a reconcile are logged; whatever the API server, the mapping's
    CEL engine and the discovery answer, each call is justified by the calls
    before it. *)

From Stdlib Require Import Ascii ZArith.
From stdpp Require Import base gmap strings list fin_maps.
From S2P Require Import Prelude GoStrings Unstructured MappingSpec MappingEngine Conditions DeadFields Controller Translation.

Inductive TEvent :=
| TGet (r : result OPISource)
| TUpdate (sent : OPISource) (r : result OPISource)
| TStatus (sent : OPISource) (e : option err)
| TList (g : ObjectRef) (sel : gmap string string) (r : result (list Child))
| TDelete (c : Child) (e : option err)
| TApply (obj : gmap string value) (e : option err)
| TConfigs (r : result (list (gmap string value)))
| TTargets (gvks : list ObjectRef) (r : result bool).

Section Logged.
Context {W : Type} `{TranslationAPI W}.

#[global] Instance logged_translation : TranslationAPI (W * list TEvent) := {|
  src_get wl ns n := let '(w, r) := src_get wl.1 ns n in ((w, wl.2 ++ [TGet r]), r);
  src_update wl s := let '(w, r) := src_update wl.1 s in ((w, wl.2 ++ [TUpdate s r]), r);
  src_update_status wl s := let '(w, e) := src_update_status wl.1 s in ((w, wl.2 ++ [TStatus s e]), e);
  list_labelled wl g sel := let '(w, r) := list_labelled wl.1 g sel in ((w, wl.2 ++ [TList g sel r]), r);
  delete_child wl c := let '(w, e) := delete_child wl.1 c in ((w, wl.2 ++ [TDelete c e]), e);
  apply_object wl o := let '(w, e) := apply_object wl.1 o in ((w, wl.2 ++ [TApply o e]), e);
  list_configs :=
    match list_configs with
    | Some ls => Some (λ wl, let '(w, r) := ls wl.1 in ((w, wl.2 ++ [TConfigs r]), r))
    | None => None
    end;
  targets_installed :=
    match targets_installed with
    | Some f => Some (λ wl gvks, let '(w, r) := f wl.1 gvks in ((w, wl.2 ++ [TTargets gvks r]), r))
    | None => None
    end;
  rest_resource wl g := let '(w, r) := rest_resource wl.1 g in ((w, wl.2), r);
  crd_get wl n := let '(w, r) := crd_get wl.1 n in ((w, wl.2), r);
  schema_cached wl := schema_cached wl.1;
  schema_put wl g s := (schema_put wl.1 g s, wl.2);
  wall_clock wl := wall_clock wl.1;
  TIsNotFound := TIsNotFound;
  IsNoMatchError := IsNoMatchError |}.

End Logged.

Section Facts.
Context `{CELEngine} `{MetaAPI} `{EmittedAPI} `{ControllerUtil}.
Context {W : Type} `{TranslationAPI W}.
Context (spec : Spec).

Notation LW := (W * list TEvent)%type.

(** The API server holds the source with the finalizer. *)
Definition src_stored (log : list TEvent) (src : OPISource) : Prop :=
  TGet (Ok src) ∈ log ∧ cleanupFinalizer ∈ SrcFinalizers src ∨
  ∃ sent, TUpdate sent (Ok src) ∈ log ∧ cleanupFinalizer ∈ SrcFinalizers sent.

(** The lifecycle manager was seen not to block. *)
Definition configs_ready (log : list TEvent) : Prop :=
  is_Some (list_configs (W := W)) → ∃ r, TConfigs r ∈ log ∧
    match r with
    | Err e => IsNoMatchError (W := W) e = true
    | Ok items => items = [] ∨ ∃ c, c ∈ items ∧ lcmConditionReady c = true
    end.

(** The gate was seen open for these objects. *)
Definition gate_open (log : list TEvent) (emitted : list (gmap string value)) : Prop :=
  configs_ready log ∧
  (is_Some (targets_installed (W := W)) → TTargets (distinct (GroupVersionKind <$> emitted)) (Ok true) ∈ log).

(** An object sent for [o]: [o] itself or [o] less fields the server refused. *)
Inductive sent_from (o : gmap string value) : gmap string value → Prop :=
| sent_first : sent_from o (ClearManagedFields o)
| sent_again s s' e path :
    sent_from o s → omitLiveUnknownFields s e = Ok (s', path) → sent_from o (ClearManagedFields s').

(** [obj] was sent for the emitted object [o]. *)
Definition sent_for (src : OPISource) (o obj : gmap string value) : Prop :=
  ∃ live, sent_from (prepared src o live) obj.

(** Every emitted object has been applied, as the objects [sent]. *)
Definition all_applied (log : list TEvent) (src : OPISource) (emitted sent : list (gmap string value)) : Prop :=
  Forall2 (λ o s, sent_for src o s ∧ TApply s None ∈ log) emitted sent.

Definition same_identity (o s : gmap string value) : Prop :=
  GetKind s = GetKind o ∧ GetNamespace s = GetNamespace o ∧ GetName s = GetName o.

(** [c] was listed under this source's labels. *)
Definition listed (log : list TEvent) (src : OPISource) (c : Child) : Prop :=
  ∃ g items, TList g (source_selector spec src) (Ok items) ∈ log ∧ c ∈ items.

Definition gone (log : list TEvent) (c : Child) : Prop :=
  ∃ e, TDelete c e ∈ log ∧ match e with None => True | Some e => TIsNotFound (W := W) e = true end.

(** A child that [src] emitted: it has a reference to it as its owner, or its
    provenance. *)
Definition emitted_by (src : OPISource) (c : Child) : Prop :=
  (∃ ref, ref ∈ ChOwners c ∧ RefOwnerKind ref = SrcKind src ∧ RefOwnerName ref = SrcName src ∧
     RefOwnerUID ref = SrcUID src ∧ SrcUID src ≠ "") ∨
  ChSource c = annSourceValue src.

(** A child of [src] that none of the objects names. *)
Definition unwanted (src : OPISource) (objs : list (gmap string value)) (c : Child) : Prop :=
  emitted_by src c ∧ childKey (ChKind c) (ChNamespace c) (ChName c) ∉ desired_keys objs.

(** A child of [src] that none of the objects it sent names; nor does one that the
    mapping emits, unless the server had its kind, namespace or name dropped. *)
Definition prunable (src : OPISource) (emitted sent : list (gmap string value)) (c : Child) : Prop :=
  unwanted src sent c ∧ (Forall2 same_identity emitted sent → unwanted src emitted c).

(** Every target kind was listed, or is not served. *)
Definition kinds_listed (log : list TEvent) (src : OPISource) : Prop :=
  ∀ e, e ∈ SpecEmit spec → ∃ r, TList (Target e) (source_selector spec src) r ∈ log ∧
    match r with Ok _ => True | Err err => IsNoMatchError (W := W) err = true end.

(** Every child listed in this reconcile that carries the provenance is gone. *)
Definition annotated_gone (log : list TEvent) (src : OPISource) : Prop :=
  kinds_listed log src ∧ ∀ c, listed log src c → ChSource c = annSourceValue src → gone log c.

Definition t_justified (pre : list TEvent) (op : TEvent) : Prop :=
  match op with
  | TApply obj _ => ∃ src emitted o, src_stored pre src ∧ Apply spec (SrcObject src) = Ok emitted ∧ o ∈ emitted ∧
      gate_open pre emitted ∧ sent_for src o obj
  | TDelete c _ => ∃ src, listed pre src c ∧
      ((∃ emitted sent, src_stored pre src ∧ Apply spec (SrcObject src) = Ok emitted ∧
          ShouldPrune spec (SrcObject src) = Ok true ∧ all_applied pre src emitted sent ∧ prunable src emitted sent c) ∨
       (TGet (Ok src) ∈ pre ∧ SrcDeleting src = true ∧ ChSource c = annSourceValue src))
  | TUpdate sent _ => ∃ src, TGet (Ok src) ∈ pre ∧
      (SrcDeleting src = false ∧ sent = src_with_finalizers (AddFinalizer cleanupFinalizer (SrcFinalizers src)) src ∨
       SrcDeleting src = true ∧ annotated_gone pre src ∧
       sent = src_with_finalizers (RemoveFinalizer cleanupFinalizer (SrcFinalizers src)) src)
  | TStatus sent _ => ∃ src cur, src_stored pre src ∧ sent = src_with_status cur src
  | _ => True
  end.

Notation log_ok := (justified_log t_justified).

(** *** The facts a reconcile accumulates stay true as the log grows *)

Lemma in_app_l (log ops : list TEvent) op : op ∈ log → op ∈ log ++ ops.
Proof. rewrite elem_of_app. auto. Qed.

Lemma in_snoc (log : list TEvent) op : op ∈ log ++ [op].
Proof. rewrite elem_of_app, list_elem_of_singleton. auto. Qed.

Lemma src_stored_app log ops src : src_stored log src → src_stored (log ++ ops) src.
Proof.
  intros [[? ?]|(sent & ? & ?)]; [left; split; [by apply in_app_l|done]|].
  right. exists sent. split; [by apply in_app_l|done].
Qed.

Lemma configs_ready_app log ops : configs_ready log → configs_ready (log ++ ops).
Proof. intros Hc Hs. destruct (Hc Hs) as (r & Hin & Hr). exists r. split; [by apply in_app_l|done]. Qed.

Lemma gate_open_app log ops emitted : gate_open log emitted → gate_open (log ++ ops) emitted.
Proof. intros [Hc Ht]. split; [by apply configs_ready_app|intros Hs; by apply in_app_l, Ht]. Qed.

Lemma all_applied_app log ops src emitted sent :
  all_applied log src emitted sent → all_applied (log ++ ops) src emitted sent.
Proof.
  unfold all_applied. intros Ha. eapply Forall2_impl; [exact Ha|]. intros o s [Hs Hin]. split; [done|by apply in_app_l].
Qed.

Lemma listed_app log ops src c : listed log src c → listed (log ++ ops) src c.
Proof. intros (g & items & Hin & Hc). exists g, items. split; [by apply in_app_l|done]. Qed.

Lemma gone_app log ops c : gone log c → gone (log ++ ops) c.
Proof. intros (e & Hin & He). exists e. split; [by apply in_app_l|done]. Qed.

Lemma kinds_listed_app log ops src : kinds_listed log src → kinds_listed (log ++ ops) src.
Proof. intros Hk e He. destruct (Hk e He) as (r & Hin & Hr). exists r. split; [by apply in_app_l|done]. Qed.

(** *** The guards of the deletions *)

Lemma ownedBySource_iff src c : ownedBySource c src (annSourceValue src) = true ↔ emitted_by src c.
Proof.
  unfold ownedBySource, emitted_by. rewrite orb_true_iff, existsb_exists, bool_decide_eq_true.
  apply or_iff_compat_r. split; intros (ref & Hin & Ho); exists ref; rewrite list_elem_of_In in *; (split; [done|]).
  - unfold owner_is in Ho. rewrite !andb_true_iff, negb_true_iff, bool_decide_eq_false, !bool_decide_eq_true in Ho.
    destruct Ho as [[[? ?] ?] Hu]. by rewrite <- Hu.
  - unfold owner_is. rewrite !andb_true_iff, negb_true_iff, bool_decide_eq_false, !bool_decide_eq_true.
    destruct Ho as (? & ? & Hu & ?). by rewrite Hu.
Qed.

Lemma stale_iff src emitted c : stale src emitted c = true ↔ unwanted src emitted c.
Proof.
  unfold stale, unwanted. by rewrite andb_true_iff, negb_true_iff, bool_decide_eq_false, ownedBySource_iff.
Qed.

Lemma same_identity_keys emitted sent : Forall2 same_identity emitted sent → desired_keys sent = desired_keys emitted.
Proof.
  unfold desired_keys. induction 1 as [|o s os ss (Hk & Hns & Hn) _ IH]; [done|]. rewrite !fmap_cons, IH. by rewrite Hk, Hns, Hn.
Qed.

Lemma stale_prunable src emitted sent c : stale src sent c = true ↔ prunable src emitted sent c.
Proof.
  rewrite stale_iff. split; [|by intros []]. intros Hu. split; [done|].
  intros Hid%same_identity_keys. unfold unwanted. by rewrite <- Hid.
Qed.

Lemma annotated_iff src c : annotated src c = true ↔ ChSource c = annSourceValue src.
Proof. apply bool_decide_eq_true. Qed.

Lemma elem_of_distinct gs (g : ObjectRef) : g ∈ distinct gs ↔ g ∈ gs.
Proof.
  unfold distinct. assert (Hgen : ∀ out, g ∈ foldl (λ out g, if decide (g ∈ out) then out else out ++ [g]) out gs
    ↔ g ∈ out ∨ g ∈ gs).
  { induction gs as [|g' gs IH]; intros out; cbn; [rewrite elem_of_nil; tauto|]. rewrite IH, elem_of_cons.
    destruct (decide (g' ∈ out)); [|rewrite elem_of_app, list_elem_of_singleton; tauto].
    split; [tauto|]. intros [?|[->|?]]; auto. }
  rewrite Hgen, elem_of_nil. tauto.
Qed.

(** *** The loops *)

Definition is_list (op : TEvent) : bool := match op with TList _ _ _ => true | _ => false end.

(** Listing only lists, and returns exactly what this run listed. *)
Lemma list_kinds_ok (wl : LW) src gvks :
  let x := list_kinds wl (source_selector spec src) gvks in
  ∃ ops, x.1.2 = wl.2 ++ ops ∧ Forall (λ op, is_list op = true) ops ∧
    ∀ objs, x.2 = Ok objs → ∀ c,
      c ∈ objs ↔ ∃ g items, TList g (source_selector spec src) (Ok items) ∈ ops ∧ c ∈ items.
Proof.
  cbv zeta. revert wl. induction gvks as [|g gvks IH]; intros wl.
  { exists []. cbn. rewrite app_nil_r. split_and!; [done|constructor|].
    intros objs [= <-] c. split; [by intros ?%elem_of_nil|]. by intros (? & ? & ?%elem_of_nil & _). }
  cbn. destruct (list_labelled wl.1 g _) as [w [items|e]]; cbn.
  - destruct (IH (w, wl.2 ++ [TList g (source_selector spec src) (Ok items)])) as (ops & Hops & Hl & Hobjs).
    cbn in Hops. rewrite <- app_assoc in Hops.
    destruct (list_kinds _ _ gvks) as [wl' r]. cbn in *.
    eexists. split; [exact Hops|]. split; [by constructor|].
    intros objs Heq c. destruct r as [rest|]; [|done]. injection Heq as <-.
    rewrite elem_of_app, (Hobjs rest eq_refl c). split.
    + intros [Hc|(g' & items' & Hin & Hc)]; [exists g, items|exists g', items']; (split; [|done]); [left|by right].
    + intros (g' & items' & Hin & Hc). apply elem_of_cons in Hin as [[= -> ->]|Hin]; [by left|].
      right. by exists g', items'.
  - destruct (IsNoMatchError e); cbn.
    2:{ exists [TList g (source_selector spec src) (Err e)]. split_and!; [done|by repeat constructor|done]. }
    destruct (IH (w, wl.2 ++ [TList g (source_selector spec src) (Err e)])) as (ops & Hops & Hl & Hobjs).
    cbn in Hops. rewrite <- app_assoc in Hops. eexists. split; [exact Hops|]. split; [by constructor|].
    intros objs Heq c. rewrite (Hobjs objs Heq c). split; intros (g' & items' & Hin & Hc); exists g', items';
      (split; [|done]); [by right|]. by apply elem_of_cons in Hin as [?|?].
Qed.

Lemma list_kinds_all (wl : LW) src gvks objs :
  let x := list_kinds wl (source_selector spec src) gvks in
  x.2 = Ok objs → ∀ g, g ∈ gvks → ∃ r, TList g (source_selector spec src) r ∈ x.1.2 ∧
    match r with Ok _ => True | Err e => IsNoMatchError (W := W) e = true end.
Proof.
  cbv zeta. revert wl objs. induction gvks as [|g gvks IH]; intros wl objs Hok g' Hg; [by apply elem_of_nil in Hg|].
  cbn in *. destruct (list_labelled wl.1 g _) as [w r]. cbn in *.
  pose proof (list_kinds_ok (w, wl.2 ++ [TList g (source_selector spec src) r]) src gvks) as (ops & Hops & _).
  cbn in Hops. specialize (IH (w, wl.2 ++ [TList g (source_selector spec src) r])).
  destruct r as [items|e]; [|destruct (IsNoMatchError e) eqn:He; [|done]];
    destruct (list_kinds _ _ gvks) as [wl' [rest|e']]; cbn in *; try done;
    (apply elem_of_cons in Hg as [->|Hg]; [|by apply (IH rest)]); eexists; rewrite Hops;
    (split; [apply in_app_l, in_snoc|done]).
Qed.

Lemma justified_lists log ops :
  log_ok log → Forall (λ op, is_list op = true) ops → log_ok (log ++ ops).
Proof.
  intros Hl. induction ops as [|op ops IH] using rev_ind; [by rewrite app_nil_r|].
  intros [Ho Hop]%Forall_app. rewrite app_assoc. apply justified_snoc; [by apply IH|].
  rewrite Forall_singleton in Hop. destruct op; try discriminate Hop. exact I.
Qed.

Definition is_delete (op : TEvent) : bool := match op with TDelete _ _ => true | _ => false end.

(** The deleting loop, when each child it picks may be deleted. *)
Lemma delete_loop_ok what doomed cs (wl : LW) (P : list TEvent → Prop) :
  (∀ log op, P log → P (log ++ [op])) →
  (∀ log c e, P log → c ∈ cs → doomed c = true → t_justified log (TDelete c e)) →
  log_ok wl.2 → P wl.2 →
  let x := delete_loop wl what doomed cs in
  log_ok x.1.2 ∧ P x.1.2 ∧ (x.2 = None → ∀ c, c ∈ cs → doomed c = true → gone x.1.2 c) ∧
  ∃ ops, x.1.2 = wl.2 ++ ops ∧ Forall (λ op, is_delete op = true) ops.
Proof.
  intros HP HJ. cbv zeta. revert wl. induction cs as [|c cs IH]; intros wl Hl Hp.
  { cbn. split_and!; [done|done|by intros _ c ?%elem_of_nil|]. exists []. by rewrite app_nil_r. }
  cbn. destruct (doomed c) eqn:Hd; cbn.
  2:{ destruct (IH ltac:(intros; apply HJ; [done|by right|done]) wl Hl Hp) as (Hl' & Hp' & Hg & Hops).
      split_and!; [done|done| |done]. intros He c' [->|Hin]%elem_of_cons Hd'; [congruence|by apply Hg]. }
  destruct (delete_child wl.1 c) as [w e].
  assert (Hl1 : log_ok (wl.2 ++ [TDelete c e])).
  { apply justified_snoc; [done|]. apply HJ; [done|left|done]. }
  assert (Hp1 : P (wl.2 ++ [TDelete c e])) by (by apply HP).
  assert (Hcont : match e with None => True | Some e' => TIsNotFound (W := W) e' = true end →
    let x := delete_loop (w, wl.2 ++ [TDelete c e]) what doomed cs in
    log_ok x.1.2 ∧ P x.1.2 ∧ (x.2 = None → ∀ c', c' ∈ c :: cs → doomed c' = true → gone x.1.2 c') ∧
    ∃ ops, x.1.2 = wl.2 ++ ops ∧ Forall (λ op, is_delete op = true) ops).
  { intros He. cbv zeta.
    destruct (IH ltac:(intros; apply HJ; [done|by right|done]) (w, wl.2 ++ [TDelete c e]) Hl1 Hp1)
      as (Hl' & Hp' & Hg & (ops & Hops & Hf)).
    cbn in Hops. split; [done|]. split; [done|]. split.
    - intros Hnone c' [->|Hin]%elem_of_cons Hd'; [|by apply Hg]. rewrite Hops.
      apply gone_app. exists e. split; [apply in_snoc|done].
    - rewrite <- app_assoc in Hops. eexists. split; [exact Hops|]. by constructor. }
  destruct e as [e|]; [|by apply Hcont].
  cbn. destruct (TIsNotFound e) eqn:He; [by apply Hcont|].
  split_and!; [done|done|done|]. exists [TDelete c (Some e)]. split; [done|]. by repeat constructor.
Qed.

Definition is_apply (op : TEvent) : bool := match op with TApply _ _ => true | _ => false end.

(** One object: at most [n] applies, each of the object less refused fields. *)
Lemma apply_loop_ok n p obj (wl : LW) (P : list TEvent → Prop) :
  (∀ log op, P log → P (log ++ [op])) →
  (∀ log s e, P log → sent_from p s → t_justified log (TApply s e)) →
  sent_from p (ClearManagedFields obj) → log_ok wl.2 → P wl.2 →
  let x := apply_loop n wl obj in
  log_ok x.1.2 ∧ P x.1.2 ∧ (x.2.2 = None → sent_from p x.2.1 ∧ TApply x.2.1 None ∈ x.1.2) ∧
  ∃ ops, x.1.2 = wl.2 ++ ops ∧ length ops ≤ n ∧ Forall (λ op, is_apply op = true) ops.
Proof.
  intros HP HJ. cbv zeta. revert obj wl. induction n as [|n IH]; intros obj wl Hs Hl Hp.
  { cbn. split_and!; [done|done|done|]. exists []. rewrite app_nil_r. split_and!; [done|done|constructor]. }
  cbn. destruct (apply_object wl.1 (ClearManagedFields obj)) as [w e].
  set (ev := TApply (ClearManagedFields obj) e).
  assert (Hl1 : log_ok (wl.2 ++ [ev])) by (apply justified_snoc; [done|by apply HJ]).
  assert (Hp1 : P (wl.2 ++ [ev])) by (by apply HP).
  assert (Hone : ∃ ops, wl.2 ++ [ev] = wl.2 ++ ops ∧ length ops ≤ S n ∧ Forall (λ op, is_apply op = true) ops).
  { exists [ev]. split_and!; [done|cbn; lia|by repeat constructor]. }
  destruct e as [e|]; cbn.
  2:{ split; [done|]. split; [done|]. split; [|done]. intros _. split; [done|apply in_snoc]. }
  destruct (omitLiveUnknownFields _ e) as [[obj' path]|e'] eqn:Ho; cbn; [|by split_and!].
  destruct (IH obj' (w, wl.2 ++ [ev])) as (Hl2 & Hp2 & Hn & (ops & Hops & Hlen & Hall)); [|done|done|].
  { by apply (sent_again _ _ _ e path Hs). }
  split_and!; [done|done|done|]. cbn in Hops. rewrite <- app_assoc in Hops.
  eexists. split; [exact Hops|]. split; [cbn; lia|by constructor].
Qed.

Lemma liveCRDSchema_log (wl : LW) g : (liveCRDSchema wl g).1.2 = wl.2.
Proof.
  unfold liveCRDSchema. cbn. destruct (schema_cached wl.1 g); [done|].
  destruct (rest_resource wl.1 g) as [w [r|e]]; cbn; [|done]. by destruct (crd_get w _) as [w' [crd|e]].
Qed.

Lemma applyOne_ok src o (wl : LW) (P : list TEvent → Prop) :
  (∀ log op, P log → P (log ++ [op])) →
  (∀ log s e, P log → sent_for src o s → t_justified log (TApply s e)) →
  log_ok wl.2 → P wl.2 →
  let x := applyOne wl src o in
  log_ok x.1.2 ∧ P x.1.2 ∧ (x.2.2 = None → sent_for src o x.2.1 ∧ TApply x.2.1 None ∈ x.1.2) ∧
  ∃ ops, x.1.2 = wl.2 ++ ops ∧ length ops ≤ applyAttempts ∧ Forall (λ op, is_apply op = true) ops.
Proof.
  intros HP HJ Hl Hp. unfold applyOne. cbv zeta.
  pose proof (liveCRDSchema_log wl (GroupVersionKind (stampOwner src o))) as Hlog.
  destruct (liveCRDSchema wl _) as [wl' live]. cbn [fst] in Hlog.
  destruct (apply_loop_ok applyAttempts (prepared src o live) (prepared src o live) wl' P) as (? & ? & Hn & Hops).
  - done.
  - intros log s e Hlp Hs. apply HJ; [done|by exists live].
  - constructor.
  - by rewrite Hlog.
  - by rewrite Hlog.
  - rewrite Hlog in Hops. split_and!; [done|done| |done].
    intros He. destruct (Hn He) as [Hs Hin]. split; [by exists live|done].
Qed.

Lemma apply_all_ok src objs (wl : LW) (P : list TEvent → Prop) :
  (∀ log op, P log → P (log ++ [op])) →
  (∀ log o s e, P log → o ∈ objs → sent_for src o s → t_justified log (TApply s e)) →
  log_ok wl.2 → P wl.2 →
  let x := apply_all wl src objs in
  log_ok x.1.2 ∧ P x.1.2 ∧ (x.2.2 = None → all_applied x.1.2 src objs x.2.1) ∧
  ∃ ops, x.1.2 = wl.2 ++ ops ∧ length ops ≤ applyAttempts * length objs ∧ Forall (λ op, is_apply op = true) ops.
Proof.
  intros HP HJ. cbv zeta. revert wl. induction objs as [|o objs IH]; intros wl Hl Hp.
  { cbn. split_and!; [done|done|intros _; constructor|]. exists []. rewrite app_nil_r. split_and!; [done|apply Nat.le_0_l|constructor]. }
  cbn [apply_all]. destruct (applyOne_ok src o wl P) as (Hl1 & Hp1 & Hn1 & (ops1 & Hops1 & Hlen1 & Hall1));
    [done|by intros; apply (HJ _ o); [|left|]|done|done|].
  destruct (applyOne wl src o) as [wl1 [s1 [e|]]]; cbn [fst snd] in *.
  { split_and!; [done|done|done|]. exists ops1. split_and!; [done| |done]. cbn [length]. lia. }
  destruct (IH ltac:(intros; eapply HJ; [done|right; eassumption|done]) wl1 Hl1 Hp1)
    as (Hl2 & Hp2 & Hn2 & (ops2 & Hops2 & Hlen2 & Hall2)).
  destruct (apply_all wl1 src objs) as [wl2 [rest e2]]; cbn [fst snd] in *. split_and!; [done|done| |].
  - intros He. constructor; [|by apply Hn2]. destruct (Hn1 eq_refl) as [Hs Hin]. split; [done|].
    rewrite Hops2. by apply in_app_l.
  - exists (ops1 ++ ops2). rewrite Hops2, Hops1, app_assoc. split_and!; [done| |by apply Forall_app].
    rewrite length_app. cbn [length]. lia.
Qed.

(** *** The steps *)

(** Quiet events: neither an apply nor a delete. *)
Definition quiet (op : TEvent) : bool := match op with TApply _ _ | TDelete _ _ => false | _ => true end.

Definition is_gate (op : TEvent) : bool := match op with TConfigs _ | TTargets _ _ => true | _ => false end.

Lemma lcmBlocks_ok (wl : LW) :
  log_ok wl.2 →
  let x := lcmBlocks wl in
  log_ok x.1.2 ∧ (∃ ops, x.1.2 = wl.2 ++ ops ∧ Forall (λ op, is_gate op = true) ops) ∧
  (x.2 = Ok false → configs_ready x.1.2).
Proof.
  intros Hl. unfold lcmBlocks, configs_ready. cbn. destruct (list_configs (W := W)) as [ls|]; cbn.
  2:{ split_and!; [done|by exists []; rewrite app_nil_r|by intros _ [? ?]]. }
  destruct (ls wl.1) as [w r]. cbn.
  assert (Hlog : log_ok (wl.2 ++ [TConfigs r])) by (by apply justified_snoc).
  assert (Hops : ∃ ops, wl.2 ++ [TConfigs r] = wl.2 ++ ops ∧ Forall (λ op, is_gate op = true) ops).
  { exists [TConfigs r]. split; [done|by repeat constructor]. }
  destruct r as [[|c items]|e]; cbn [fst snd].
  - split_and!; [done|done|]. intros _ _. eexists. split; [apply in_snoc|by left].
  - split_and!; [done|done|]. intros [= Hx] _. eexists. split; [apply in_snoc|right].
    apply negb_false_iff in Hx. change (existsb lcmConditionReady (c :: items) = true) in Hx.
    apply existsb_exists in Hx as (c' & Hin & Hc'). exists c'. split; [by apply list_elem_of_In|done].
  - split_and!; [done|done|]. destruct (IsNoMatchError e) eqn:Hnm; [|done].
    intros _ _. eexists. split; [apply in_snoc|done].
Qed.

Lemma gate_ok (wl : LW) emitted :
  log_ok wl.2 →
  let x := gate wl emitted in
  log_ok x.1.2 ∧ (∃ ops, x.1.2 = wl.2 ++ ops ∧ Forall (λ op, is_gate op = true) ops) ∧
  (x.2 = Ok true → emitted ≠ [] → gate_open x.1.2 emitted).
Proof.
  intros Hl. unfold gate. cbv zeta. destruct (bool_decide_reflect (length emitted = 0)) as [He|He].
  { split_and!; [done|by exists []; rewrite app_nil_r|]. by destruct emitted. }
  destruct (lcmBlocks_ok wl Hl) as (Hl1 & (ops & Hops & Hq) & Hc).
  destruct (lcmBlocks wl) as [wl1 [[|]|e]]; cbn [fst snd] in *;
    [split_and!; [done|by exists ops|done]| |split_and!; [done|by exists ops|done]].
  unfold gate_open. cbn [targets_installed logged_translation].
  destruct (targets_installed (W := W)) as [f|].
  2:{ cbn [fst snd]. split_and!; [done|by exists ops|]. intros _ _. split; [by apply Hc|by intros [? ?]]. }
  destruct (f wl1.1 _) as [w r]. cbn [fst snd]. split_and!.
  - by apply justified_snoc.
  - exists (ops ++ [TTargets (distinct (GroupVersionKind <$> emitted)) r]). rewrite Hops, app_assoc.
    split; [done|]. apply Forall_app. split; [done|by repeat constructor].
  - intros -> _. split; [by apply configs_ready_app, Hc|intros _; apply in_snoc].
Qed.

Lemma listChildObjects_ok (wl : LW) src :
  log_ok wl.2 →
  let x := listChildObjects spec wl src in
  log_ok x.1.2 ∧ ∃ ops, x.1.2 = wl.2 ++ ops ∧ Forall (λ op, is_list op = true) ops ∧
    ∀ objs, x.2 = Ok objs → ∀ c,
      c ∈ objs ↔ ∃ g items, TList g (source_selector spec src) (Ok items) ∈ ops ∧ c ∈ items.
Proof.
  intros Hl. unfold listChildObjects. cbv zeta.
  destruct (list_kinds_ok wl src (distinct (Target <$> SpecEmit spec))) as (ops & Hops & Hf & Hobjs).
  split; [rewrite Hops; by apply justified_lists|]. by exists ops.
Qed.

Lemma is_list_quiet ops : Forall (λ op, is_list op = true) ops → Forall (λ op, quiet op = true) ops.
Proof. intros Hf. eapply Forall_impl; [exact Hf|]. by intros []. Qed.

(** Listing children and deleting the doomed ones. *)
Lemma list_and_delete_ok what doomed (wl : LW) src (P : list TEvent → Prop) :
  (∀ log op, P log → P (log ++ [op])) →
  (∀ log c e, P log → listed log src c → doomed c = true → t_justified log (TDelete c e)) →
  log_ok wl.2 → P wl.2 →
  let x := let '(w, r) := listChildObjects spec wl src in
           match r with Err e => (w, Some e) | Ok objs => delete_loop w what doomed objs end in
  log_ok x.1.2 ∧ P x.1.2 ∧
  ∃ ops, x.1.2 = wl.2 ++ ops ∧ Forall (λ op, is_apply op = false) ops ∧
    (x.2 = None → kinds_listed x.1.2 src ∧ ∀ c, listed ops src c → doomed c = true → gone x.1.2 c).
Proof.
  intros HP HJ Hl Hp. cbv zeta.
  assert (HPs : ∀ ops log, P log → P (log ++ ops)).
  { intros ops. induction ops as [|op ops IH] using rev_ind; intros log Hq; [by rewrite app_nil_r|].
    rewrite app_assoc. apply HP. by apply IH. }
  destruct (listChildObjects_ok wl src Hl) as (Hl1 & ops1 & Hops1 & Hf1 & Hobjs).
  pose proof (list_kinds_all wl src (distinct (Target <$> SpecEmit spec))) as Hkinds.
  fold (listChildObjects spec wl src) in Hkinds.
  assert (Hna : Forall (λ op, is_apply op = false) ops1) by (eapply Forall_impl; [exact Hf1|by intros []]).
  destruct (listChildObjects spec wl src) as [wl1 [objs|e]]; cbn [fst snd] in *.
  2:{ split_and!; [done|rewrite Hops1; by apply HPs|]. exists ops1. by split_and!. }
  assert (Hlisted : ∀ log, (∃ rest, log = wl1.2 ++ rest) → ∀ c, c ∈ objs → listed log src c).
  { intros log [rest ->] c (g & items & Hin & Hc)%(Hobjs objs eq_refl c). exists g, items.
    split; [|done]. rewrite Hops1. apply in_app_l. rewrite elem_of_app. by right. }
  destruct (delete_loop_ok what doomed objs wl1 (λ log, P log ∧ ∃ rest, log = wl1.2 ++ rest))
    as (Hl2 & [Hp2 _] & Hg & (ops2 & Hops2 & Hf2)).
  - intros log op [Hq [rest ->]]. split; [by apply HP|]. exists (rest ++ [op]). by rewrite app_assoc.
  - intros log c e [Hq Hrest] Hc Hd. apply HJ; [done|by apply Hlisted|done].
  - done.
  - split; [rewrite Hops1; by apply HPs|]. exists []. by rewrite app_nil_r.
  - split_and!; [done|done|].
    exists (ops1 ++ ops2). rewrite Hops2, Hops1, app_assoc. split_and!; [done| |].
    + apply Forall_app. split; [done|]. eapply Forall_impl; [exact Hf2|by intros []].
    + intros He. rewrite <- Hops1, <- Hops2. split.
      { rewrite Hops2. apply kinds_listed_app. intros em Hem. apply (Hkinds objs eq_refl).
        apply elem_of_distinct, list_elem_of_fmap. by exists em. }
      intros c (g & items & Hin & Hc) Hd.
      apply Hg; [done| |done]. apply (Hobjs objs eq_refl). exists g, items.
      apply elem_of_app in Hin as [Hin|Hin]; [done|].
      rewrite Forall_forall in Hf2. by specialize (Hf2 _ Hin).
Qed.

Lemma mirrorStatus_ok (wl : LW) src :
  log_ok wl.2 → src_stored wl.2 src →
  let x := mirrorStatus spec wl src in
  log_ok x.1.2 ∧ ∃ ops, x.1.2 = wl.2 ++ ops ∧ Forall (λ op, quiet op = true) ops.
Proof.
  intros Hl Hs. unfold mirrorStatus. cbv zeta.
  assert (Hnil : ∃ ops, wl.2 = wl.2 ++ ops ∧ Forall (λ op, quiet op = true) ops)
    by (exists []; by rewrite app_nil_r).
  destruct (Status spec) as [st|]; [|done]. destruct (bool_decide (StatusSchema st = StatusSchemaPruned)); [done|].
  destruct (listChildObjects_ok wl src Hl) as (Hl1 & ops & Hops & Hf%is_list_quiet & _).
  destruct (listChildObjects spec wl src) as [wl1 [objs|e]]; cbn [fst snd] in *; [|by split; [|exists ops]].
  assert (Hstop : log_ok wl1.2 ∧ ∃ ops, wl1.2 = wl.2 ++ ops ∧ Forall (λ op, quiet op = true) ops)
    by (split; [done|by exists ops]).
  destruct (ApplyStatus spec _ _) as [[desired|]|e]; [|done|done].
  destruct (applyStatus _ _ desired) as [cur|]; [|done]. cbn.
  destruct (src_update_status wl1.1 _) as [w e]. cbn. split.
  - apply justified_snoc; [done|]. exists src, cur. split; [|done]. rewrite Hops. by apply src_stored_app.
  - exists (ops ++ [TStatus (src_with_status cur src) e]). rewrite Hops, app_assoc. split; [done|].
    apply Forall_app. split; [done|by repeat constructor].
Qed.

Definition no_list (log : list TEvent) : Prop := Forall (λ op, is_list op = false) log.

Lemma listed_no_list log ops src c : no_list log → listed (log ++ ops) src c → listed ops src c.
Proof.
  intros Hn (g & items & [Hin|Hin]%elem_of_app & Hc); [|by exists g, items].
  unfold no_list in Hn. rewrite Forall_forall in Hn. by specialize (Hn _ Hin).
Qed.

(** The source is being deleted, and either the finalizer is off already or
    everything it holds the source for is gone. *)
Definition released (log : list TEvent) : Prop :=
  ∃ src, TGet (Ok src) ∈ log ∧ SrcDeleting src = true ∧
    (cleanupFinalizer ∉ SrcFinalizers src ∨ annotated_gone log src).

Definition source_gone (log : list TEvent) : Prop :=
  ∃ e, TIsNotFound (W := W) e = true ∧ log = [TGet (Err e)].

Lemma annotated_gone_snoc log op src :
  is_list op = false → annotated_gone log src → annotated_gone (log ++ [op]) src.
Proof.
  intros Hop [Hk Hg]. split; [by apply kinds_listed_app|]. intros c (g & items & Hin & Hc) Hs.
  apply elem_of_app in Hin as [Hin|Hin%list_elem_of_singleton]; [|by subst op].
  apply gone_app, Hg; [by exists g, items|done].
Qed.

Lemma reconcileDelete_ok (wl : LW) src :
  log_ok wl.2 → no_list wl.2 → TGet (Ok src) ∈ wl.2 → SrcDeleting src = true →
  let x := reconcileDelete spec wl src in
  log_ok x.1.2 ∧ (x.2 = (0%Z, None) → released x.1.2).
Proof.
  intros Hl Hno Hget Hdel. unfold reconcileDelete, has_finalizer.
  case_bool_decide as Hf; cbn [negb]; [|split; [done|]; intros _; exists src; auto].
  destruct (list_and_delete_ok "delete annotated child %s/%s: %w" (annotated src) wl src
    (λ log, TGet (Ok src) ∈ log)) as (Hl1 & Hg1 & (ops & Hops & _ & Hgone)).
  - intros log op. apply in_app_l.
  - intros log c e Hg Hc Hd%annotated_iff. exists src. split; [done|]. right. done.
  - done.
  - done.
  - change (let '(w, r) := listChildObjects spec wl src in _) with (cleanupAnnotatedChildren spec wl src) in *.
    destruct (cleanupAnnotatedChildren spec wl src) as [wl1 [e|]]; cbn [fst snd] in *; [done|].
    assert (Hag : annotated_gone wl1.2 src).
    { destruct (Hgone eq_refl) as [Hk Hg]. split; [done|]. intros c Hc Hd%annotated_iff. apply Hg; [|done].
      rewrite Hops in Hc. by apply (listed_no_list wl.2). }
    cbn. destruct (src_update wl1.1 _) as [w r]. cbn. split.
    + apply justified_snoc; [done|]. exists src. auto.
    + intros _. exists src. split; [by apply in_app_l|]. split; [done|]. right. by apply annotated_gone_snoc.
Qed.

(** All emitted objects are applied and, when pruning is allowed, every child
    listed for it that none of the objects sent names is gone. *)
Definition converged (log : list TEvent) (src : OPISource) (emitted : list (gmap string value)) (prune : bool) : Prop :=
  ∃ pre post sent, log = pre ++ post ∧ Forall (λ op, quiet op = true) post ∧ all_applied pre src emitted sent ∧
    (prune = true → kinds_listed pre src ∧ ∀ c, listed pre src c → unwanted src sent c → gone pre c).

Lemma translate_ok (wl : LW) src :
  log_ok wl.2 → no_list wl.2 → src_stored wl.2 src →
  let x := translate spec wl src in
  log_ok x.1.2 ∧
  (x.2 = (0%Z, None) → ∃ emitted prune, Apply spec (SrcObject src) = Ok emitted ∧
     ShouldPrune spec (SrcObject src) = Ok prune ∧ src_stored x.1.2 src ∧ converged x.1.2 src emitted prune).
Proof.
  intros Hl Hno Hst. unfold translate. cbv zeta.
  destruct (Apply spec (SrcObject src)) as [emitted|e] eqn:Ha; [|done].
  destruct (ShouldPrune spec (SrcObject src)) as [prune|e] eqn:Hpr; [|done].
  destruct (gate_ok wl emitted Hl) as (Hl1 & (ops1 & Hops1 & Hq1) & Hopen).
  assert (Hno1 : no_list (gate wl emitted).1.2).
  { rewrite Hops1. apply Forall_app. split; [done|]. eapply Forall_impl; [exact Hq1|by intros []]. }
  destruct (gate wl emitted) as [wl1 [[|]|e]]; cbn [fst snd] in *; [|done|done].
  assert (Hst1 : src_stored wl1.2 src) by (rewrite Hops1; by apply src_stored_app).
  destruct (apply_all_ok src emitted wl1 (λ log, src_stored log src ∧ (emitted ≠ [] → gate_open log emitted)))
    as (Hl2 & [Hst2 Hg2] & Happ & (ops2 & Hops2 & _ & Hall2)).
  { intros log op [Hs Hg]. split; [by apply src_stored_app|]. intros Hne. by apply gate_open_app, Hg. }
  { intros log o s e [Hs Hg] Ho Hsent. exists src, emitted, o. do 3 (split; [done|]). split; [|done].
    apply Hg. intros ->. by apply elem_of_nil in Ho. }
  { done. }
  { split; [done|]. intros Hne. by apply Hopen. }
  destruct (apply_all wl1 src emitted) as [wl2 [sent [e|]]]; cbn [fst snd] in *; [done|].
  specialize (Happ eq_refl).
  assert (Hno2 : no_list wl2.2).
  { rewrite Hops2. apply Forall_app. split; [done|]. eapply Forall_impl; [exact Hall2|by intros []]. }
  assert (Hfin : ∀ wl3 : LW, log_ok wl3.2 → src_stored wl3.2 src → all_applied wl3.2 src emitted sent →
    (prune = true → kinds_listed wl3.2 src ∧ ∀ c, listed wl3.2 src c → unwanted src sent c → gone wl3.2 c) →
    let x := let '(w, e) := mirrorStatus spec wl3 src in
             (w, (0%Z, match e with Some e => Some (EWrap "mirror status: %w" [] e) | None => None end)) in
    log_ok x.1.2 ∧ (x.2 = (0%Z, None) → ∃ emitted' prune', Ok emitted = Ok emitted' ∧ Ok prune = Ok prune' ∧
      src_stored x.1.2 src ∧ converged x.1.2 src emitted' prune')).
  { intros wl3 Hl3 Hs3 Ha3 Hp3. cbv zeta. destruct (mirrorStatus_ok wl3 src Hl3 Hs3) as (Hl4 & ops4 & Hops4 & Hq4).
    destruct (mirrorStatus spec wl3 src) as [wl4 e4]. cbn [fst snd] in *. split; [done|].
    intros _. exists emitted, prune. split; [done|]. split; [done|].
    split; [rewrite Hops4; by apply src_stored_app|]. exists wl3.2, ops4, sent. done. }
  destruct prune.
  2:{ apply (Hfin wl2); done. }
  destruct (list_and_delete_ok "delete stale child %s/%s: %w" (stale src sent) wl2 src
    (λ log, src_stored log src ∧ all_applied log src emitted sent)) as (Hl3 & [Hs3 Ha3] & (ops3 & Hops3 & _ & Hgone)).
  { intros log op [Hs Hal]. split; [by apply src_stored_app|by apply all_applied_app]. }
  { intros log c e [Hs Hal] Hc Hd%(stale_prunable _ emitted). exists src. split; [done|]. left. exists emitted, sent. done. }
  { done. }
  { done. }
  change (let '(w, r) := listChildObjects spec wl2 src in _) with (pruneStaleChildren spec wl2 src sent) in *.
  destruct (pruneStaleChildren spec wl2 src sent) as [wl3 [e|]]; cbn [fst snd] in *; [done|].
  apply (Hfin wl3); [done|done|done|]. intros _. destruct (Hgone eq_refl) as [Hk Hg]. split; [done|].
  intros c Hc Hd%stale_iff. apply Hg; [|done]. rewrite Hops3 in Hc. by apply (listed_no_list wl2.2).
Qed.

Lemma Translation_Reconcile_ok (w : W) ns name :
  let x := Translation_Reconcile spec (w, []) ns name in
  log_ok x.1.2 ∧
  (x.2 = (0%Z, None) →
     source_gone x.1.2 ∨ released x.1.2 ∨
     ∃ src emitted prune, src_stored x.1.2 src ∧ Apply spec (SrcObject src) = Ok emitted ∧
       ShouldPrune spec (SrcObject src) = Ok prune ∧ converged x.1.2 src emitted prune).
Proof.
  assert (Hfin : ∀ (x : LW * (Z * option err)) src, log_ok x.1.2 ∧
    (x.2 = (0%Z, None) → ∃ emitted prune, Apply spec (SrcObject src) = Ok emitted ∧
       ShouldPrune spec (SrcObject src) = Ok prune ∧ src_stored x.1.2 src ∧ converged x.1.2 src emitted prune) →
    log_ok x.1.2 ∧ (x.2 = (0%Z, None) →
     source_gone x.1.2 ∨ released x.1.2 ∨
     ∃ src emitted prune, src_stored x.1.2 src ∧ Apply spec (SrcObject src) = Ok emitted ∧
       ShouldPrune spec (SrcObject src) = Ok prune ∧ converged x.1.2 src emitted prune)).
  { intros x src [Hl Hc]. split; [done|]. intros He. destruct (Hc He) as (emitted & prune & ? & ? & ? & ?).
    right. right. exists src, emitted, prune. done. }
  unfold Translation_Reconcile. cbn. destruct (src_get w ns name) as [w1 [src|e]]; cbn.
  2:{ split; [apply (justified_snoc _ []); [apply justified_nil|exact I]|].
      destruct (TIsNotFound e) eqn:He; [|done]. intros _. left. by exists e. }
  assert (Hl1 : log_ok [TGet (Ok src)]) by (apply (justified_snoc _ []); [apply justified_nil|exact I]).
  assert (Hn1 : no_list [TGet (Ok src)]) by (by repeat constructor).
  destruct (SrcDeleting src) eqn:Hd.
  { destruct (reconcileDelete_ok (w1, [TGet (Ok src)]) src Hl1 Hn1) as [Hl2 Hg2]; [cbn; left|done|].
    split; [done|]. intros He. right. left. by apply Hg2. }
  unfold has_finalizer. case_bool_decide as Hf.
  { apply (Hfin _ src), translate_ok; [done|done|]. left. split; [cbn; left|done]. }
  destruct (src_update w1 _) as [w2 r]. cbn.
  set (sent := src_with_finalizers _ src).
  assert (Hl2 : log_ok [TGet (Ok src); TUpdate sent r]).
  { apply (justified_snoc _ [TGet (Ok src)]); [done|]. exists src. split; [left|]. by left. }
  destruct r as [src'|e]; cbn; [|done].
  apply (Hfin _ src'), translate_ok; [done|by repeat constructor|].
  right. exists sent. split; [cbn; right; left|]. cbn. apply AddFinalizer_spec. by left.
Qed.


(** [C9] Every deletion is guarded: a deleted child was listed under this
    source's labels; either the source is live, the mapping allows pruning, the
    child belongs to this source, every object the mapping emits has already been
    applied, and none of the objects as sent names the child (nor one as emitted,
    if the server had no kind, namespace or name dropped); or the source is being
    deleted and the child carries its provenance annotation.  And the finalizer
    is taken off only when every such child that was listed is gone. *)
Theorem Translation_delete_guarded (w : W) ns name i op :
  let log := (Translation_Reconcile spec (w, []) ns name).1.2 in
  log !! i = Some op →
  match op with
  | TDelete c _ => ∃ src, listed (take i log) src c ∧
      ((∃ emitted sent, src_stored (take i log) src ∧ Apply spec (SrcObject src) = Ok emitted ∧
          ShouldPrune spec (SrcObject src) = Ok true ∧ all_applied (take i log) src emitted sent ∧
          prunable src emitted sent c) ∨
       (TGet (Ok src) ∈ take i log ∧ SrcDeleting src = true ∧ ChSource c = annSourceValue src))
  | TUpdate sent _ => cleanupFinalizer ∈ SrcFinalizers sent ∨
      ∃ src, TGet (Ok src) ∈ take i log ∧ SrcDeleting src = true ∧ annotated_gone (take i log) src
  | _ => True
  end.
Proof.
  cbv zeta. intros Hi. destruct (Translation_Reconcile_ok w ns name) as [Hl _].
  pose proof (justified_lookup _ _ _ _ Hl Hi) as Hj. destruct op; try done.
  destruct Hj as (src & Hg & [(_ & ->)|(Hd & Ha & ->)]); [left; cbn; apply AddFinalizer_spec; by left|].
  right. by exists src.
Qed.

(** [C25] A reconcile that ends without error and without a requeue has done its
    work: the source was not there, or it is being deleted and every child with
    its provenance is gone, or every object the mapping emits for it has been
    applied and, when pruneWhen allows pruning, every target kind was listed or is
    not served and every listed child of this source that none of the objects sent
    names is gone. *)
Theorem Translation_converges (w : W) ns name :
  let x := Translation_Reconcile spec (w, []) ns name in
  x.2 = (0%Z, None) →
  source_gone x.1.2 ∨ released x.1.2 ∨
  ∃ src emitted prune, src_stored x.1.2 src ∧ Apply spec (SrcObject src) = Ok emitted ∧
    ShouldPrune spec (SrcObject src) = Ok prune ∧ converged x.1.2 src emitted prune.
Proof. cbv zeta. apply Translation_Reconcile_ok. Qed.

End Facts.
