(* ===== verification/TranslationWitness.v ===== *)
(** * The translator on a concrete API server

    The mapping of [MappingWitness] reconciled for a chain of two network
    functions, with one child of an earlier revision still on the cluster; the
    controller's theorems are applied to the calls it makes. *)

From Stdlib Require Import Ascii ZArith.
From stdpp Require Import base gmap strings list fin_maps.
From S2P Require Import Prelude GoStrings Unstructured MappingSpec MappingEngine JsonMeta MappingWitness Conditions DeadFields Controller ControllerFacts Translation TranslationFacts.

#[local] Existing Instance demo_util.

(** Owner references only within a namespace. *)
#[local] Instance demo_emitted_api : EmittedAPI := {|
  GroupVersionKind o := {| Group := ""; Version := str_at o "apiVersion"; RefKind := str_at o "kind" |};
  GetAnnotations o := None;
  SetAnnotations ann o := set_meta "annotations" (VMap (VString <$> ann)) o;
  ClearManagedFields := del_meta "managedFields";
  SetControllerReference src o :=
    if bool_decide (GetNamespace o = SrcNamespace src)
    then Some (set_meta "ownerReferences" (VList [VString (SrcUID src)]) o) else None |}.

Record TWorld := { tw_source : OPISource; tw_children : list Child; tw_calls : nat }.

Definition tw_with (w : TWorld) (s : OPISource) (cs : list Child) : TWorld :=
  {| tw_source := s; tw_children := cs; tw_calls := S (tw_calls w) |}.

Definition child_of (o : gmap string value) : Child :=
  {| ChKind := GetKind o; ChNamespace := GetNamespace o; ChName := GetName o; ChOwners := [];
     ChSource := match get_parts (VMap o) ["metadata"; "annotations"; annSource] with
                 | Some (VString s) => s | _ => "" end;
     ChObject := o |}.

(** The server refuses spec.image the first time it sees an object. *)
Definition refused : err := ENew ".spec.image: field not declared in schema".

#[local] Instance demo_api : TranslationAPI TWorld := {|
  src_get w ns n := (w, Ok (tw_source w));
  src_update w s := (tw_with w s (tw_children w), Ok s);
  src_update_status w s := (tw_with w s (tw_children w), None);
  list_labelled w g sel := (w, Ok (tw_children w));
  delete_child w c := (tw_with w (tw_source w) (filter (λ d, ChName d ≠ ChName c) (tw_children w)), None);
  apply_object w o :=
    match get_parts (VMap o) ["spec"; "image"] with
    | Some (VString "img:a") => (w, Some refused)
    | _ => (tw_with w (tw_source w) (tw_children w ++ [child_of o]), None)
    end;
  list_configs := Some (λ w, (w, Ok []));
  targets_installed := Some (λ w _, (w, Ok true));
  rest_resource w g := (w, Ok "dpuservices");
  crd_get w n := (w, Ok ∅);
  schema_cached w g := None;
  schema_put w g s := w;
  wall_clock w := "2026-01-01T00:00:00Z";
  TIsNotFound _ := false;
  IsNoMatchError _ := false |}.

Definition demo_chain : OPISource :=
  {| SrcObject := demo_source; SrcKind := "ServiceFunctionChain"; SrcNamespace := "tenant"; SrcName := "chain";
     SrcUID := "u1"; SrcDeleting := false; SrcFinalizers := [] |}.

Definition old_child : Child :=
  {| ChKind := "DPUService"; ChNamespace := "dpf-operator-system"; ChName := "old"; ChOwners := [];
     ChSource := "ServiceFunctionChain:tenant/chain"; ChObject := ∅ |}.

Definition chain_world : TWorld := {| tw_source := demo_chain; tw_children := [old_child]; tw_calls := 0 |}.

Definition chain_run := Translation_Reconcile demo_spec (chain_world, []) "tenant" "chain".
Definition chain_log : list TEvent := chain_run.1.2.

Definition event_name (op : TEvent) : string :=
  match op with
  | TGet _ => "get" | TUpdate _ _ => "update" | TStatus _ _ => "status" | TList _ _ _ => "list"
  | TDelete _ _ => "delete" | TApply _ None => "apply" | TApply _ (Some _) => "refused"
  | TConfigs _ => "configs" | TTargets _ _ => "targets"
  end.

Lemma chain_log_shape :
  event_name <$> chain_log =
  ["get"; "update"; "configs"; "targets"; "refused"; "apply"; "apply"; "list"; "delete"; "list"; "status"].
Proof. vm_compute. reflexivity. Qed.


Lemma Translation_delete_guarded_witness :
  ∃ c e src, chain_log !! 8 = Some (TDelete c e) ∧ listed demo_spec (take 8 chain_log) src c.
Proof.
  assert (Hb : match chain_log !! 8 with Some (TDelete _ _) => true | _ => false end = true)
    by (vm_compute; reflexivity).
  destruct (chain_log !! 8) as [[| | | |c e| | |]|] eqn:Hi; try discriminate Hb.
  destruct (Translation_delete_guarded demo_spec chain_world "tenant" "chain" 8 (TDelete c e) Hi) as (src & Hc & _).
  exists c, e, src. split; [reflexivity|exact Hc].
Defined.

Lemma Translation_converges_witness :
  ∃ src emitted prune, src_stored chain_log src ∧ Apply demo_spec (SrcObject src) = Ok emitted ∧
    ShouldPrune demo_spec (SrcObject src) = Ok prune ∧
    converged (W := TWorld) demo_spec chain_log src emitted prune.
Proof.
  assert (Hr : chain_run.2 = (0%Z, None)) by (vm_compute; reflexivity).
  destruct (Translation_converges demo_spec chain_world "tenant" "chain" Hr) as [(e & _ & Hx)|[(src & Hin & Hd & _)|Hx]].
  - exfalso. apply (f_equal length) in Hx. vm_compute in Hx. discriminate Hx.
  - exfalso. assert (Hall : forallb (λ op, match op with TGet (Ok s) => negb (SrcDeleting s) | _ => true end) chain_log
      = true) by (vm_compute; reflexivity).
    rewrite forallb_forall in Hall. apply list_elem_of_In in Hin.
    pose proof (Hall (TGet (Ok src)) Hin) as Hq. cbn in Hq. rewrite Hd in Hq. discriminate Hq.
  - exact Hx.
Defined.
