(* ===== verification/Discovery.v ===== *)
(** * Hardware discovery (pkg/discovery/types.go, inventory.go, annotator.go, mock.go)

    Which card on the bus belongs to which DataProcessingUnit, and the identity
    annotations that say so.  A [uint16] is a [Z] below 65536.  Go ranges over
    the map of vendors in an unspecified order, drawn anew for every range: the
    order of one range is the parameter [order], and [RangeOrders] has one for
    every range of an assignment. *)

From Stdlib Require Import Ascii ZArith.
From stdpp Require Import base gmap strings list fin_maps sorting.
From S2P Require Import Prelude GoStrings Unstructured.

(** ** types.go *)

Definition SerialNumberAnnotation : string := "provisioning.dpu.nvidia.com/serial-number".
Definition PCIAddressAnnotation : string := "provisioning.dpu.nvidia.com/pci-address".
Definition BFBURLAnnotation : string := "dpu.nvidia.com/bfb-url".
Definition FlavorAnnotation : string := "dpu.nvidia.com/flavor".
Definition BFBNameAnnotation : string := "dpu.nvidia.com/bfb".
Definition ProductNameAnnotation : string := "discovery.opiproject.org/product-name".

Definition NVIDIAVendorID : Z := 0x15b3.
Definition AMDVendorID : Z := 0x1dd8.
Definition MarvellVendorID : Z := 0x177d.

Definition AMDSerialNumberAnnotation : string := "dpu.amd.com/serial-number".
Definition AMDFirmwareURLAnnotation : string := "dpu.amd.com/firmware-url".
Definition AMDProfileAnnotation : string := "dpu.amd.com/profile".
Definition AMDFirmwareNameAnnotation : string := "dpu.amd.com/firmware".
Definition MarvellSerialNumberAnnotation : string := "dpu.marvell.com/serial-number".
Definition MarvellFirmwareURLAnnotation : string := "dpu.marvell.com/firmware-url".
Definition MarvellFlavorAnnotation : string := "dpu.marvell.com/flavor".
Definition MarvellFirmwareNameAnnotation : string := "dpu.marvell.com/firmware".

Record VendorAnnotations := {
  KeySerial : string;
  KeyFirmwareURL : string;
  KeyFlavor : string;
  KeyFirmwareName : string }.

Definition nvidia_keys : VendorAnnotations :=
  {| KeySerial := SerialNumberAnnotation; KeyFirmwareURL := BFBURLAnnotation; KeyFlavor := FlavorAnnotation;
     KeyFirmwareName := BFBNameAnnotation |}.
Definition amd_keys : VendorAnnotations :=
  {| KeySerial := AMDSerialNumberAnnotation; KeyFirmwareURL := AMDFirmwareURLAnnotation;
     KeyFlavor := AMDProfileAnnotation; KeyFirmwareName := AMDFirmwareNameAnnotation |}.
Definition marvell_keys : VendorAnnotations :=
  {| KeySerial := MarvellSerialNumberAnnotation; KeyFirmwareURL := MarvellFirmwareURLAnnotation;
     KeyFlavor := MarvellFlavorAnnotation; KeyFirmwareName := MarvellFirmwareNameAnnotation |}.

Definition annotationsByVendor : list (Z * VendorAnnotations) :=
  [(NVIDIAVendorID, nvidia_keys); (AMDVendorID, amd_keys); (MarvellVendorID, marvell_keys)].

Definition AnnotationsFor (vendorID : Z) : option VendorAnnotations :=
  snd <$> find (λ kv, kv.1 =? vendorID)%Z annotationsByVendor.

Definition DVendorNVIDIA : string := "nvidia".
Definition DVendorAMD : string := "amd".
Definition DVendorMarvell : string := "marvell".

Definition vendorNames : gmap string Z :=
  {[ DVendorNVIDIA := NVIDIAVendorID; "bluefield" := NVIDIAVendorID; DVendorAMD := AMDVendorID;
     "pensando" := AMDVendorID; DVendorMarvell := MarvellVendorID; "octeon" := MarvellVendorID ]}.

Definition ParseVendor (s : string) : result Z :=
  let key := ToLower (TrimSpace s) in
  match vendorNames !! key with
  | Some id => Ok id
  | None =>
      match ParseHex16 (TrimPrefix key "0x") with
      | Some v =>
          match AnnotationsFor v with
          | Some _ => Ok v
          | None => Err (EFmt "vendor %s is not a supported DPU vendor" [s])
          end
      | None => Err (EFmt "unknown vendor %q: want nvidia, amd, marvell, or a hex PCI id" [s])
      end
  end.

(** The part of the string before the last dot, or all of it. *)
Fixpoint cut_last_dot (s : string) : option string :=
  match s with
  | EmptyString => None
  | String c s' =>
      match cut_last_dot s' with
      | Some a => Some (String c a)
      | None => if bool_decide (c = "."%char) then Some "" else None
      end
  end.

Fixpoint colons_to_dashes (s : string) : string :=
  match s with
  | EmptyString => EmptyString
  | String c s' => String (if bool_decide (c = ":"%char) then "-"%char else c) (colons_to_dashes s')
  end.

Definition DPFPCIAddress (pci : string) : string :=
  let s := colons_to_dashes (TrimSpace pci) in default s (cut_last_dot s).

Record Device := {
  PCIAddress : string;
  VendorID : Z;
  DeviceID : Z;
  SerialNumber : string;
  ProductName : string }.

#[global] Instance Device_eq_dec : EqDecision Device.
Proof. solve_decision. Defined.

Definition zero_device : Device :=
  {| PCIAddress := ""; VendorID := 0; DeviceID := 0; SerialNumber := ""; ProductName := "" |}.

Definition ValidateIdentity (d : Device) : result unit :=
  if TrimSpace (PCIAddress d) == "" then Err (EFmt "discovered device has empty PCI address" [])
  else if TrimSpace (SerialNumber d) == "" then
    Err (EFmt "discovered device %s has empty serial number" [PCIAddress d])
  else Ok tt.

(** ** inventory.go *)

(** [15 * time.Second], in nanoseconds. *)
Definition InventoryRefresh : Z := 15 * 10 ^ 9.

Record DPUView := { DvName : string; DvAnnotations : gmap string string }.

#[global] Instance DPUView_eq_dec : EqDecision DPUView.
Proof. solve_decision. Defined.

Record Assignment := { AsDevice : Device; Bound : bool; Clear : bool }.

Definition zero_assignment : Assignment := {| AsDevice := zero_device; Bound := false; Clear := false |}.

(** [Enumerator]: nil, or what it answers now. *)
Definition LiveDevices (e : option (result (list Device))) : result (list Device) :=
  match e with
  | None => Err (EFmt "no hardware enumerator configured" [])
  | Some (Err e) => Err e
  | Some (Ok found) => Ok (filter (λ d, ValidateIdentity d = Ok tt) found)
  end.

Definition IdentityKeys : list string :=
  PCIAddressAnnotation :: ProductNameAnnotation :: ((λ kv, KeySerial kv.2) <$> annotationsByVendor).

Definition ann_at (ann : gmap string string) (k : string) : string := default "" (ann !! k).

Definition claimedPCI (ann : gmap string string) : string := TrimSpace (ann_at ann PCIAddressAnnotation).

(** The first non-empty serial annotation, in the order the map is ranged over. *)
Fixpoint claimedSerial (order : list VendorAnnotations) (ann : gmap string string) : string :=
  match order with
  | [] => ""
  | keys :: order' =>
      let s := TrimSpace (ann_at ann (KeySerial keys)) in
      if s != "" then s else claimedSerial order' ann
  end.

Definition HasIdentity (order : list VendorAnnotations) (ann : gmap string string) : bool :=
  (claimedSerial order ann != "") || (claimedPCI ann != "") ||
  (TrimSpace (ann_at ann ProductNameAnnotation) != "").

Definition StripIdentity (ann : gmap string string) : gmap string string :=
  foldl (λ a k, delete k a) ann IdentityKeys.

Definition IdentityAnnotations (d : Device) : result (gmap string string) :=
  ValidateIdentity d ;;!
  match AnnotationsFor (VendorID d) with
  | None => Err (EFmt "device %s: no annotation keys for PCI vendor %#04x" [PCIAddress d])
  | Some keys =>
      let out : gmap string string :=
        <[ProductNameAnnotation := ProductName d]> {[ KeySerial keys := SerialNumber d ]} in
      if KeySerial keys == SerialNumberAnnotation then
        let pci := DPFPCIAddress (PCIAddress d) in
        Ok (if pci != "" then <[PCIAddressAnnotation := pci]> out else out)
      else Ok out
  end.

Definition unusedDevices (live : list Device) (used : gset string) : list Device :=
  filter (λ d, SerialNumber d ∉ used) live.

Definition is_bound (out : gmap string Assignment) (name : string) : bool :=
  Bound (default zero_assignment (out !! name)).

Definition bySerial (live : list Device) : gmap string Device :=
  foldl (λ m d, <[SerialNumber d := d]> m) ∅ live.

Definition byPCI (live : list Device) : gmap string Device :=
  foldl (λ m d,
    let m := <[PCIAddress d := d]> m in
    let p := DPFPCIAddress (PCIAddress d) in
    if p != "" then <[p := d]> m else m) ∅ live.

(** The state of the passes: what is assigned, and the serials in use. *)
Definition asg_state : Type := gmap string Assignment * gset string.

Definition bound_to (d : Device) : Assignment := {| AsDevice := d; Bound := true; Clear := false |}.

(** A pass over the DPUs: bind the card that the claim names, unless it is
    taken; [skip]: leave out the DPUs that are bound already. *)
Definition bind_pass (skip : bool) (claim : DPUView → string) (index : gmap string Device)
    (dpus : list DPUView) (s : asg_state) : asg_state :=
  foldl (λ '(out, used) dpu,
    if skip && is_bound out (DvName dpu) then (out, used)
    else
      let c := claim dpu in
      if c == "" then (out, used)
      else match index !! c with
           | None => (out, used)
           | Some d =>
               if bool_decide (SerialNumber d ∈ used) then (out, used)
               else (<[DvName dpu := bound_to d]> out, {[SerialNumber d]} ∪ used)
           end) s dpus.

(** (out, cleared, empty); [order dpu] is the order in which [HasIdentity] ranges
    for this DPU. *)
Definition clear_pass (order : DPUView → list VendorAnnotations) (dpus : list DPUView) (out : gmap string Assignment)
    : gmap string Assignment * list DPUView * list DPUView :=
  foldl (λ '(out, cleared, empty) dpu,
    if is_bound out (DvName dpu) then (out, cleared, empty)
    else if HasIdentity (order dpu) (DvAnnotations dpu) then
      (<[DvName dpu := {| AsDevice := zero_device; Bound := false; Clear := true |}]> out,
       cleared ++ [dpu], empty)
    else (out, cleared, empty ++ [dpu])) (out, [], []) dpus.

Definition string_le (a b : string) : Prop := String.leb a b = true.
#[global] Instance string_le_dec a b : Decision (string_le a b).
Proof. unfold string_le. apply _. Defined.

Definition view_le (a b : DPUView) : Prop := string_le (DvName a) (DvName b).
#[global] Instance view_le_dec a b : Decision (view_le a b).
Proof. unfold view_le. apply _. Defined.

Definition pci_le (a b : Device) : Prop := string_le (PCIAddress a) (PCIAddress b).
#[global] Instance pci_le_dec a b : Decision (pci_le a b).
Proof. unfold pci_le. apply _. Defined.

(** Unused cards, in PCI order, onto the DPUs that were never stamped, in name
    order.  [slices.SortFunc] leaves the order of equal keys open; the names of a
    cluster's units and the addresses of a bus are distinct, so there are none. *)
Definition fill_pass (empty : list DPUView) (leftover : list Device) (s : asg_state) : asg_state :=
  foldl (λ '(out, used) '(dpu, d), (<[DvName dpu := bound_to d]> out, {[SerialNumber d]} ∪ used)) s
    (zip (merge_sort view_le empty) (merge_sort pci_le leftover)).

(** The orders of the ranges over the map of vendors: each DPU is looked at once
    for its serial and once for any identity, and each of these looks ranges over
    the map in an order of its own. *)
Record RangeOrders := {
  serial_order : DPUView → list VendorAnnotations;
  identity_order : DPUView → list VendorAnnotations }.

Definition AssignDevices (order : RangeOrders) (dpus : list DPUView) (live : list Device)
    : gmap string Assignment :=
  let s := bind_pass false (λ dpu, claimedSerial (serial_order order dpu) (DvAnnotations dpu))
             (bySerial live) dpus (∅, ∅) in
  let '(out, used) := bind_pass true (λ dpu, claimedPCI (DvAnnotations dpu)) (byPCI live) dpus s in
  let '(out, cleared, empty) := clear_pass (identity_order order) dpus out in
  let '(out, used) := fill_pass empty (unusedDevices live used) (out, used) in
  let leftover := unusedDevices live used in
  let still := filter (λ dpu, is_bound out (DvName dpu) = false) cleared in
  match still, leftover with
  | [dpu], [d] => <[DvName dpu := {| AsDevice := d; Bound := true; Clear := true |}]> out
  | _, _ => out
  end.

(** ** annotator.go *)

Record Annotator := {
  NodeName : string;
  AnnVendorID : Z;
  FirmwareURL : string;
  Flavor : string;
  FirmwareName : string }.

(** A DataProcessingUnit: spec.nodeName, spec.dpuProductName, annotations. *)
Record DPUObj := {
  DoName : string;
  DoNode : string;
  DoProduct : string;
  DoAnnotations : gmap string string }.

#[global] Instance DPUObj_eq_dec : EqDecision DPUObj.
Proof. solve_decision. Defined.

Definition ownsSource (a : Annotator) (dpu : DPUObj) : bool :=
  let product := DoProduct dpu in
  if AnnVendorID a == 0%Z then true
  else if AnnVendorID a == NVIDIAVendorID then HasPrefix product "BlueField"
  else if AnnVendorID a == AMDVendorID then HasPrefix product "Pensando" || HasPrefix product "DSC"
  else if AnnVendorID a == MarvellVendorID then HasPrefix product "Marvell" || HasPrefix product "OCTEON"
  else false.

(** From the listed DataProcessingUnits. *)
Definition nodeViews (a : Annotator) (node : string) (items : list DPUObj) : list DPUView :=
  (λ i, {| DvName := DoName i; DvAnnotations := DoAnnotations i |}) <$>
  filter (λ i, ownsSource a i = true ∧ (node = "" ∨ DoNode i = node)) items.

Definition firmwareFor (a : Annotator) (vendorID : Z) : gmap string string :=
  match AnnotationsFor vendorID with
  | None => ∅
  | Some keys =>
      let out : gmap string string := ∅ in
      let out := if FirmwareURL a != "" then <[KeyFirmwareURL keys := FirmwareURL a]> out else out in
      let out := if Flavor a != "" then <[KeyFlavor keys := Flavor a]> out else out in
      if FirmwareName a != "" then <[KeyFirmwareName keys := FirmwareName a]> out else out
  end.

(** [maps.Copy(dst, src)] is [src ∪ dst]. *)
Definition desiredAnnotations (a : Annotator) (have : gmap string string) (asg : Assignment)
    : result (gmap string string) :=
  let desired := if Clear asg || Bound asg then StripIdentity have else have in
  if negb (Bound asg) then Ok desired
  else
    let! ident := IdentityAnnotations (AsDevice asg) in
    Ok (firmwareFor a (VendorID (AsDevice asg)) ∪ (ident ∪ desired)).

Definition annotationsEqual (have desired : gmap string string) : bool :=
  if size have != size desired then (size have == 0) && (size desired == 0)
  else forallb (λ kv, ann_at have kv.1 == kv.2) (map_to_list desired).

(** The API server: reads, the list of all units, and a merge patch of the
    annotations. *)
Class DPUAPI (W : Type) := {
  dpu_get : W → string → W * result DPUObj;
  dpu_list : W → W * result (list DPUObj);
  dpu_patch : W → DPUObj → gmap string string → W * option err;
  DIsNotFound : err → bool;
  enumerator : option (W → W * result (list Device)) }.

Section Annotate.
Context {W : Type} `{DPUAPI W}.
Context (order : RangeOrders) (a : Annotator).

Definition live_devices (w : W) : W * result (list Device) :=
  match enumerator with
  | None => (w, LiveDevices None)
  | Some e => let '(w, r) := e w in (w, LiveDevices (Some r))
  end.

Definition Annotator_Reconcile (w : W) (name : string) : W * (Z * option err) :=
  let '(w, r) := dpu_get w name in
  match r with
  | Err e => (w, (0%Z, if DIsNotFound e then None else Some e))
  | Ok dpu =>
      let node := DoNode dpu in
      if (NodeName a != "") && (node != NodeName a) then (w, (0%Z, None))
      else if negb (ownsSource a dpu) then (w, (InventoryRefresh, None))
      else
        let '(w, r) := live_devices w in
        match r with
        | Err e => (w, (0%Z, Some (EWrap "enumerate dpu hardware: %w" [] e)))
        | Ok live =>
            let '(w, r) := dpu_list w in
            match r with
            | Err e => (w, (0%Z, Some (EWrap "list DataProcessingUnits: %w" [] e)))
            | Ok items =>
                let asg := default zero_assignment (AssignDevices order (nodeViews a node items) live !! DoName dpu) in
                match desiredAnnotations a (DoAnnotations dpu) asg with
                | Err e => (w, (0%Z, Some e))
                | Ok desired =>
                    if annotationsEqual (DoAnnotations dpu) desired then (w, (InventoryRefresh, None))
                    else
                      let '(w, e) := dpu_patch w dpu desired in
                      match e with
                      | Some e => (w, (0%Z, Some (EWrap "stamp hardware annotations: %w" [] e)))
                      | None => (w, (InventoryRefresh, None))
                      end
                end
            end
        end
  end.

End Annotate.
