(* ===== verification/DiscoveryFacts.v ===== *)
(** * Assigning cards to DataProcessingUnits *)

From Stdlib Require Import Ascii ZArith.
From stdpp Require Import base gmap strings list fin_maps fin_sets sorting.
From S2P Require Import Prelude GoStrings Unstructured Discovery.

(** ** The state of the passes *)

Section Assign.
Context (live : list Device).

(** Bound cards are live and in use, and no card is bound twice. *)
Record asg_inv (s : asg_state) : Prop := {
  inv_live n a : s.1 !! n = Some a → Bound a = true → AsDevice a ∈ live ∧ SerialNumber (AsDevice a) ∈ s.2;
  inv_inj n1 n2 a1 a2 : s.1 !! n1 = Some a1 → s.1 !! n2 = Some a2 → Bound a1 = true → Bound a2 = true →
    SerialNumber (AsDevice a1) = SerialNumber (AsDevice a2) → n1 = n2 }.

Lemma inv_empty : asg_inv (∅, ∅).
Proof. split; cbn; intros *; by rewrite lookup_empty. Qed.

Lemma inv_bind out used n d c :
  asg_inv (out, used) → d ∈ live → SerialNumber d ∉ used →
  asg_inv (<[n := {| AsDevice := d; Bound := true; Clear := c |}]> out, {[SerialNumber d]} ∪ used).
Proof.
  intros [Hl Hi] Hd Hu. cbn in *. split; cbn.
  - intros n' a Hn Hb. destruct (decide (n = n')) as [->|Hne].
    + rewrite lookup_insert_eq in Hn. injection Hn as <-. split; [done|set_solver].
    + rewrite lookup_insert_ne in Hn by done. destruct (Hl n' a Hn Hb). split; [done|set_solver].
  - intros n1 n2 a1 a2 H1 H2 Hb1 Hb2 Heq.
    apply lookup_insert_Some in H1 as [[<- <-]|[Hn1 H1]]; apply lookup_insert_Some in H2 as [[<- <-]|[Hn2 H2]].
    + done.
    + cbn in Heq. destruct (Hl n2 a2 H2 Hb2) as [_ Hin]. by rewrite <- Heq in Hin.
    + cbn in Heq. destruct (Hl n1 a1 H1 Hb1) as [_ Hin]. by rewrite Heq in Hin.
    + by apply (Hi n1 n2 a1 a2).
Qed.

Lemma inv_unbind out used n a :
  asg_inv (out, used) → Bound a = false → asg_inv (<[n := a]> out, used).
Proof.
  intros [Hl Hi] Hb. cbn in *. split; cbn.
  - intros n' a' Hn Hb'. apply lookup_insert_Some in Hn as [[_ <-]|[_ Hn]]; [congruence|by apply (Hl n')].
  - intros n1 n2 a1 a2 H1 H2 Hb1 Hb2. apply lookup_insert_Some in H1 as [[_ <-]|[_ H1]]; [congruence|].
    apply lookup_insert_Some in H2 as [[_ <-]|[_ H2]]; [congruence|]. by apply (Hi n1 n2 a1 a2).
Qed.

(** What a pass keeps: a bound name keeps its card, and names that are bound or
    cleared stay so. *)
Definition settled (out : gmap string Assignment) (n : string) : Prop :=
  ∃ a, out !! n = Some a ∧ (Bound a = true ∨ Clear a = true).

Definition grows (out out' : gmap string Assignment) : Prop :=
  (∀ n, is_bound out n = true → out' !! n = out !! n) ∧ (∀ n, settled out n → settled out' n).

Lemma grows_refl out : grows out out.
Proof. done. Qed.

Lemma grows_trans o1 o2 o3 : grows o1 o2 → grows o2 o3 → grows o1 o3.
Proof.
  intros [Hb1 Hs1] [Hb2 Hs2]. split; [|intros n Hn; by apply Hs2, Hs1].
  intros n Hn. rewrite <- (Hb1 n Hn). apply Hb2. unfold is_bound in *. by rewrite (Hb1 n Hn).
Qed.

Lemma grows_insert out n a :
  is_bound out n = false → Bound a = true ∨ Clear a = true → grows out (<[n := a]> out).
Proof.
  intros Hn Ha. split.
  - intros n' Hn'. rewrite lookup_insert_ne; [done|]. intros ->. congruence.
  - intros n' (a' & Hl & Ha'). destruct (decide (n = n')) as [->|Hne].
    + exists a. by rewrite lookup_insert_eq.
    + exists a'. by rewrite lookup_insert_ne.
Qed.

(** ** The passes *)

Lemma bind_pass_inv skip claim index dpus s :
  (∀ c d, index !! c = Some d → d ∈ live) → asg_inv s → asg_inv (bind_pass skip claim index dpus s).
Proof.
  intros Hidx. revert s. unfold bind_pass. induction dpus as [|dpu dpus IH]; intros [out used] Hs; [done|].
  cbn [foldl]. apply IH. destruct (skip && _); [done|]. cbv zeta.
  destruct (bool_decide (claim dpu = "")); [done|]. destruct (index !! claim dpu) as [d|] eqn:Hd; [|done].
  case_bool_decide as Hu; [done|]. apply inv_bind; [done|by apply (Hidx (claim dpu))|done].
Qed.

Lemma bind_pass_grows claim index dpus s : grows s.1 (bind_pass true claim index dpus s).1.
Proof.
  revert s. unfold bind_pass. induction dpus as [|dpu dpus IH]; intros [out used]; [apply grows_refl|].
  cbn [foldl]. eapply grows_trans; [|apply IH]. cbn [fst].
  destruct (is_bound out (DvName dpu)) eqn:Hb; [apply grows_refl|]. cbn [andb]. cbv zeta.
  destruct (bool_decide (claim dpu = "")); [apply grows_refl|]. destruct (index !! claim dpu); [|apply grows_refl].
  case_bool_decide; [apply grows_refl|]. apply grows_insert; [done|by left].
Qed.

Lemma clear_pass_spec order dpus out used :
  let '(out', cleared, empty) := clear_pass order dpus out in
  (asg_inv (out, used) → asg_inv (out', used)) ∧ grows out out' ∧
  (∀ n, is_bound out' n = is_bound out n) ∧
  (∀ dpu, dpu ∈ cleared ++ empty → is_bound out' (DvName dpu) = false) ∧
  (∀ dpu, dpu ∈ dpus → HasIdentity (order dpu) (DvAnnotations dpu) = true → settled out' (DvName dpu)).
Proof.
  unfold clear_pass. induction dpus as [|dpu dpus IH] using rev_ind.
  { cbn. split_and!; try done. by intros ? ?%elem_of_nil. by intros ? ?%elem_of_nil. }
  rewrite foldl_snoc. destruct (foldl _ _ dpus) as [[out' cleared] empty].
  destruct IH as (Hinv & Hg & Hb & Hn & Hid).
  destruct (is_bound out' (DvName dpu)) eqn:Hbd; [|destruct (HasIdentity (order dpu) (DvAnnotations dpu)) eqn:Hi].
  - split_and!; try done. intros d [Hin| ->%list_elem_of_singleton]%elem_of_app Hd; [by apply Hid|].
    unfold is_bound in Hbd. destruct (out' !! DvName dpu) as [a|] eqn:Ha; [|done]. exists a. auto.
  - set (a := {| AsDevice := zero_device; Bound := false; Clear := true |}).
    assert (Hb' : ∀ n, is_bound (<[DvName dpu := a]> out') n = is_bound out' n).
    { intros n. unfold is_bound. destruct (decide (DvName dpu = n)) as [<-|Hne];
        [rewrite lookup_insert_eq; by unfold is_bound in Hbd; rewrite Hbd|by rewrite lookup_insert_ne]. }
    assert (Hg' : grows out' (<[DvName dpu := a]> out')) by (apply grows_insert; [done|by right]).
    split; [intros Hs; apply inv_unbind; [by apply Hinv|done]|]. split; [by eapply grows_trans|].
    split; [intros n; by rewrite Hb', Hb|]. split.
    + intros d Hd. rewrite Hb'. rewrite <- app_assoc in Hd.
      apply elem_of_app in Hd as [Hd|[->|Hd]%elem_of_cons]; [apply Hn; set_solver|done|apply Hn; set_solver].
    + intros d [Hin| ->%list_elem_of_singleton]%elem_of_app Hd; [by apply Hg', Hid|].
      exists a. rewrite lookup_insert_eq. auto.
  - split_and!; try done.
    + intros d Hd. rewrite app_assoc in Hd.
      apply elem_of_app in Hd as [Hd| ->%list_elem_of_singleton]; [by apply Hn|done].
    + intros d [Hin| ->%list_elem_of_singleton]%elem_of_app Hd; [by apply Hid|congruence].
Qed.

(** Filling unbound names with unused cards, each once. *)
Lemma fill_spec (l : list (DPUView * Device)) out used :
  asg_inv (out, used) → (∀ p, p ∈ l → p.2 ∈ live ∧ SerialNumber p.2 ∉ used) →
  NoDup ((λ p, SerialNumber p.2) <$> l) →
  (∀ p, p ∈ l → is_bound out (DvName p.1) = false) →
  let s := foldl (λ '(out, used) '(dpu, d),
    (<[DvName dpu := bound_to d]> out, {[SerialNumber d]} ∪ used)) (out, used) l in
  asg_inv s ∧ (∀ n, is_bound out n = true → s.1 !! n = out !! n) ∧ (∀ n, settled out n → settled s.1 n).
Proof.
  intros Hinv Hl Hnd Hn. cbv zeta.
  assert (Hmain : ∀ out0, (∀ p, p ∈ l → is_bound out0 (DvName p.1) = false) →
    (∀ n, is_bound out0 n = true → out !! n = out0 !! n) →
    let s := foldl (λ '(out, used) '(dpu, d),
      (<[DvName dpu := bound_to d]> out, {[SerialNumber d]} ∪ used)) (out, used) l in
    asg_inv s ∧ (∀ n, is_bound out0 n = true → s.1 !! n = out0 !! n) ∧ (∀ n, settled out n → settled s.1 n)).
  2:{ apply (Hmain out); done. }
  intros out0. clear Hn. revert out used Hinv Hl Hnd.
  induction l as [|[dpu d] l IH]; intros out used Hinv Hl Hnd Hn0 Hsame; [done|]. cbn [foldl].
  apply NoDup_cons in Hnd as [Hnin Hnd]. destruct (Hl (dpu, d)) as [Hd Hu]; [left|]. cbn in Hd, Hu, Hnin.
  specialize (Hn0 (dpu, d)) as Hndpu. cbn in Hndpu.
  destruct (IH (<[DvName dpu := bound_to d]> out) ({[SerialNumber d]} ∪ used)) as (Hi & Hb & Hs).
  - by apply inv_bind.
  - intros p Hp. destruct (Hl p) as [Hpl Hpu]; [by right|]. split; [done|].
    rewrite elem_of_union, elem_of_singleton. intros [Heq|?]; [|done]. apply Hnin. rewrite <- Heq.
    by apply (list_elem_of_fmap_2 (λ p, SerialNumber p.2)).
  - done.
  - intros p Hp. apply Hn0. by right.
  - intros n Hbn. rewrite lookup_insert_ne; [by apply Hsame|]. intros <-. rewrite Hndpu in Hbn; [done|left].
  - split_and!; [done|done|]. intros n (a & Ha & Hor). apply Hs.
    destruct (decide (DvName dpu = n)) as [<-|Hne]; [exists (bound_to d); rewrite lookup_insert_eq; auto|].
    exists a. by rewrite lookup_insert_ne.
Qed.

End Assign.

(** ** Lists *)

Lemma NoDup_fmap_filter {A B} (f : A → B) (P : A → Prop) `{∀ x, Decision (P x)} l :
  NoDup (f <$> l) → NoDup (f <$> filter P l).
Proof.
  induction l as [|x l IH]; [done|]. rewrite fmap_cons, NoDup_cons, filter_cons. intros [Hx Hl].
  destruct (decide (P x)); [|by apply IH]. rewrite fmap_cons, NoDup_cons. split; [|by apply IH].
  intros (y & Heq & [_ Hy]%list_elem_of_filter)%list_elem_of_fmap. apply Hx. rewrite Heq. by apply list_elem_of_fmap_2.
Qed.

Lemma NoDup_zip_snd {A B C} (f : B → C) (l1 : list A) (l2 : list B) :
  NoDup (f <$> l2) → NoDup ((λ p, f p.2) <$> zip l1 l2).
Proof.
  revert l2. induction l1 as [|x l1 IH]; intros [|y l2]; cbn; try (intros; constructor).
  - apply NoDup_cons in H as [Hy _]. intros ([a b] & Heq & Hin)%list_elem_of_fmap. apply Hy. cbn in Heq. rewrite Heq.
    apply elem_of_zip_r in Hin. by apply list_elem_of_fmap_2.
  - apply NoDup_cons in H as [_ Hl]. by apply IH.
Qed.

(** ** The indexes *)

Lemma bySerial_spec live c d : bySerial live !! c = Some d → d ∈ live ∧ SerialNumber d = c.
Proof.
  unfold bySerial. induction live as [|x live IH] using rev_ind; [cbn [foldl]; by rewrite lookup_empty|].
  rewrite foldl_snoc. intros [[<- <-]|[_ Hd]]%lookup_insert_Some; [split; [|done]; set_solver|].
  destruct (IH Hd). split; [set_solver|done].
Qed.

Lemma bySerial_live live d : NoDup (SerialNumber <$> live) → d ∈ live → bySerial live !! SerialNumber d = Some d.
Proof.
  unfold bySerial. induction live as [|x live IH] using rev_ind; [by intros _ ?%elem_of_nil|].
  rewrite fmap_app, foldl_snoc. intros (Hnd & Hdis & _)%NoDup_app [Hd| ->%list_elem_of_singleton]%elem_of_app.
  - rewrite lookup_insert_ne; [by apply IH|]. intros Heq.
    apply (Hdis (SerialNumber d)); [by apply list_elem_of_fmap_2|]. rewrite <- Heq. left.
  - apply lookup_insert_eq.
Qed.

Lemma byPCI_spec live c d : byPCI live !! c = Some d → d ∈ live.
Proof.
  unfold byPCI. induction live as [|x live IH] using rev_ind; [cbn [foldl]; by rewrite lookup_empty|].
  rewrite foldl_snoc. set (m := foldl _ _ live) in *. cbv zeta. intros Hd.
  assert (Hx : <[PCIAddress x := x]> m !! c = Some d ∨ x = d).
  { destruct (negb _); [|by left]. apply lookup_insert_Some in Hd as [[_ <-]|[_ Hd]]; [by right|by left]. }
  destruct Hx as [[[_ <-]|[_ Hx]]%lookup_insert_Some| ->]; rewrite elem_of_app, list_elem_of_singleton; auto.
Qed.

(** ** The assignment *)

Definition serial_pass order dpus live : asg_state :=
  bind_pass false (λ dpu, claimedSerial (serial_order order dpu) (DvAnnotations dpu)) (bySerial live) dpus (∅, ∅).

Lemma AssignDevices_spec order dpus live :
  NoDup (SerialNumber <$> live) →
  let out := AssignDevices order dpus live in
  (∃ used, asg_inv live (out, used)) ∧
  (∀ n, is_bound (serial_pass order dpus live).1 n = true → out !! n = (serial_pass order dpus live).1 !! n) ∧
  (∀ dpu, dpu ∈ dpus → HasIdentity (identity_order order dpu) (DvAnnotations dpu) = true → settled out (DvName dpu)).
Proof.
  intros Hnd. unfold AssignDevices. fold (serial_pass order dpus live). cbv zeta.
  assert (H1 : asg_inv live (serial_pass order dpus live)).
  { apply bind_pass_inv; [|apply inv_empty]. intros c d Hd. by apply bySerial_spec in Hd as [? _]. }
  set (s1 := serial_pass order dpus live) in *.
  pose proof (bind_pass_inv live true (λ dpu, claimedPCI (DvAnnotations dpu)) (byPCI live) dpus s1
    (byPCI_spec live) H1) as H2.
  pose proof (bind_pass_grows (λ dpu, claimedPCI (DvAnnotations dpu)) (byPCI live) dpus s1) as G2.
  destruct (bind_pass true _ _ _ _) as [out2 used2]. cbn [fst] in G2.
  pose proof (clear_pass_spec live (identity_order order) dpus out2 used2) as H3.
  destruct (clear_pass (identity_order order) dpus out2) as [[out3 cleared] empty].
  destruct H3 as (H3 & G3 & _ & Hfree & Hid). specialize (H3 H2).
  unfold fill_pass.
  set (pairs := zip (merge_sort view_le empty) (merge_sort pci_le (unusedDevices live used2))).
  assert (Hun : ∀ used d, d ∈ unusedDevices live used → d ∈ live ∧ SerialNumber d ∉ used).
  { intros used d [? ?]%list_elem_of_filter. done. }
  destruct (fill_spec live pairs out3 used2 H3) as (H4 & G4b & G4s).
  - intros [dpu d] Hin%elem_of_zip_r. rewrite merge_sort_Permutation in Hin. by apply Hun.
  - apply NoDup_zip_snd. rewrite merge_sort_Permutation. by apply NoDup_fmap_filter.
  - intros [dpu d] Hin%elem_of_zip_l. rewrite merge_sort_Permutation in Hin. apply Hfree. set_solver.
  - destruct (foldl _ (out3, used2) pairs) as [out4 used4]. cbn [fst] in *.
    assert (Hout : ∀ n, is_bound s1.1 n = true → out4 !! n = s1.1 !! n).
    { intros n Hn. destruct (grows_trans _ _ _ G2 G3) as [Hb _]. rewrite <- (Hb n Hn). apply G4b.
      unfold is_bound in *. by rewrite (Hb n Hn). }
    assert (Hset : ∀ dpu, dpu ∈ dpus → HasIdentity (identity_order order dpu) (DvAnnotations dpu) = true → settled out4 (DvName dpu)).
    { intros dpu Hin Hi. by apply G4s, Hid. }
    assert (Hkeep : (∃ used, asg_inv live (out4, used)) ∧ (∀ n, is_bound s1.1 n = true → out4 !! n = s1.1 !! n) ∧
      (∀ dpu, dpu ∈ dpus → HasIdentity (identity_order order dpu) (DvAnnotations dpu) = true → settled out4 (DvName dpu))) by eauto.
    destruct (filter _ cleared) as [|dpu [|]] eqn:Hstill; [done| |done].
    destruct (unusedDevices live used4) as [|d [|]] eqn:Hleft; [done| |done].
    assert (Hfr : is_bound out4 (DvName dpu) = false).
    { assert (Hin : dpu ∈ [dpu]) by left. rewrite <- Hstill in Hin. by apply list_elem_of_filter in Hin as [? _]. }
    destruct (Hun used4 d) as [Hd Hu]; [rewrite Hleft; left|]. split_and!.
    + eexists. by apply inv_bind.
    + intros n Hn. rewrite lookup_insert_ne; [by apply Hout|]. intros <-. unfold is_bound in Hfr, Hn.
      rewrite Hout in Hfr by done. congruence.
    + intros dpu' Hin Hi. apply (grows_insert out4 (DvName dpu)); [done|by left|by apply Hset].
Qed.

(** [C29] A card serves one unit: with distinct serials on the bus, whatever the
    annotations say and in whatever orders the vendors are tried, every bound
    unit is bound to a live card, and two units are never bound to cards of the
    same serial. *)
Theorem AssignDevices_one_card_per_unit order dpus live :
  NoDup (SerialNumber <$> live) →
  let out := AssignDevices order dpus live in
  (∀ n a, out !! n = Some a → Bound a = true → AsDevice a ∈ live) ∧
  (∀ n1 n2 a1 a2, out !! n1 = Some a1 → out !! n2 = Some a2 → Bound a1 = true → Bound a2 = true →
     SerialNumber (AsDevice a1) = SerialNumber (AsDevice a2) → n1 = n2).
Proof.
  intros Hnd. destruct (AssignDevices_spec order dpus live Hnd) as [[used Hinv] _]. split.
  - intros n a Ha Hb. by destruct (inv_live _ _ Hinv n a Ha Hb).
  - apply (inv_inj _ _ Hinv).
Qed.

(** The serial pass binds the one unit that claims a live serial. *)
Lemma serial_pass_binds order dpus live dpu d :
  NoDup (SerialNumber <$> live) → dpu ∈ dpus → d ∈ live → SerialNumber d ≠ "" →
  claimedSerial (serial_order order dpu) (DvAnnotations dpu) = SerialNumber d →
  (∀ dpu', dpu' ∈ dpus → claimedSerial (serial_order order dpu') (DvAnnotations dpu') = SerialNumber d ∨ DvName dpu' = DvName dpu →
     dpu' = dpu) →
  (serial_pass order dpus live).1 !! DvName dpu = Some (bound_to d).
Proof.
  intros Hnd Hin Hd Hne Hc Huniq. unfold serial_pass, bind_pass.
  assert (Hall : ∀ l, (∀ x, x ∈ l → x ∈ dpus) →
    let s := foldl (λ '(out, used) dpu,
      if false && is_bound out (DvName dpu) then (out, used)
      else let c := claimedSerial (serial_order order dpu) (DvAnnotations dpu) in
           if c == "" then (out, used)
           else match bySerial live !! c with
                | None => (out, used)
                | Some d => if bool_decide (SerialNumber d ∈ used) then (out, used)
                            else (<[DvName dpu := bound_to d]> out, {[SerialNumber d]} ∪ used)
                end) (∅ : gmap string Assignment, ∅ : gset string) l in
    (dpu ∈ l → s.1 !! DvName dpu = Some (bound_to d) ∧ SerialNumber d ∈ s.2) ∧
    (dpu ∉ l → SerialNumber d ∉ s.2)).
  2:{ by apply (Hall dpus). }
  intros l. induction l as [|x l IH] using rev_ind; intros Hl.
  { cbn. split; [by intros ?%elem_of_nil|set_solver]. }
  rewrite foldl_snoc. cbv zeta in *. specialize (IH (λ y Hy, Hl y ltac:(set_solver))).
  destruct (foldl _ _ l) as [out used]. cbn [fst snd] in *. destruct IH as [Hyes Hno]. cbn [andb].
  destruct (decide (x = dpu)) as [->|Hx].
  - rewrite Hc, bool_decide_false by done. rewrite (bySerial_live live d Hnd Hd).
    destruct (decide (dpu ∈ l)) as [Hl'|Hl'].
    + destruct (Hyes Hl') as [Hb Hu]. rewrite bool_decide_true by done. cbn. split; [done|set_solver].
    + rewrite bool_decide_false by (by apply Hno). cbn. rewrite lookup_insert_eq. split; [set_solver|set_solver].
  - assert (Hxin : x ∈ dpus) by (apply Hl; set_solver).
    assert (Hmem : dpu ∈ l ++ [x] ↔ dpu ∈ l) by set_solver.
    set (c := claimedSerial (serial_order order x) (DvAnnotations x)) in *.
    destruct (bool_decide (c = "")); [rewrite Hmem; done|].
    destruct (bySerial live !! c) as [d'|] eqn:Hd'; [|rewrite Hmem; done].
    case_bool_decide as Hu; [rewrite Hmem; done|]. apply bySerial_spec in Hd' as [_ Hd'].
    assert (Hne' : SerialNumber d' ≠ SerialNumber d).
    { rewrite Hd'. intros Heq. apply Hx. apply Huniq; [done|by left]. }
    assert (Hname : DvName x ≠ DvName dpu) by (intros Heq; apply Hx, Huniq; [done|by right]).
    cbn. rewrite Hmem. split.
    + intros Hl'. rewrite lookup_insert_ne by done. destruct (Hyes Hl'). split; [done|set_solver].
    + intros Hl'. specialize (Hno Hl'). set_solver.
Qed.

(** A stamped unit keeps its card: when a unit's serial annotation names a
    card that is still on the bus, and no other unit has that serial or that
    name, the unit stays bound to exactly that card and nothing is cleared,
    whatever PCI slots, new cards or other units come and go. *)
Theorem AssignDevices_keeps_serial order dpus live dpu d :
  NoDup (SerialNumber <$> live) → dpu ∈ dpus → d ∈ live → SerialNumber d ≠ "" →
  claimedSerial (serial_order order dpu) (DvAnnotations dpu) = SerialNumber d →
  (∀ dpu', dpu' ∈ dpus → claimedSerial (serial_order order dpu') (DvAnnotations dpu') = SerialNumber d ∨ DvName dpu' = DvName dpu →
     dpu' = dpu) →
  AssignDevices order dpus live !! DvName dpu = Some (bound_to d).
Proof.
  intros Hnd Hin Hd Hne Hc Hu.
  pose proof (serial_pass_binds order dpus live dpu d Hnd Hin Hd Hne Hc Hu) as Hs.
  destruct (AssignDevices_spec order dpus live Hnd) as (_ & Hkeep & _).
  rewrite Hkeep; [done|]. unfold is_bound. by rewrite Hs.
Qed.

(** ** A concrete bus *)

Definition bf3 (serial pci : string) : Device :=
  {| PCIAddress := pci; VendorID := NVIDIAVendorID; DeviceID := 0xa2dc; SerialNumber := serial;
     ProductName := "BlueField-3" |}.

Definition demo_orders : RangeOrders := {|
  serial_order dpu := if DvName dpu == "dpu-a" then [marvell_keys; nvidia_keys; amd_keys] else [nvidia_keys; amd_keys; marvell_keys];
  identity_order _ := [amd_keys; marvell_keys; nvidia_keys] |}.

(** One stamped unit, one whose card is gone, one new unit; the stamped card
    has moved to another slot. *)
Definition stamped_unit : DPUView :=
  {| DvName := "dpu-a"; DvAnnotations := {[ SerialNumberAnnotation := "MT1"; PCIAddressAnnotation := "0000-0f-00" ]} |}.
Definition demo_units : list DPUView :=
  [ stamped_unit; {| DvName := "dpu-b"; DvAnnotations := {[ SerialNumberAnnotation := "GONE" ]} |};
    {| DvName := "dpu-c"; DvAnnotations := ∅ |} ].
Definition demo_bus : list Device := [bf3 "MT1" "0000:2f:00.0"; bf3 "MT2" "0000:0f:00.0"].

Lemma demo_serials : NoDup (SerialNumber <$> demo_bus).
Proof. apply (bool_decide_unpack _). vm_compute. exact I. Qed.

Lemma AssignDevices_one_card_per_unit_witness :
  let out := AssignDevices demo_orders demo_units demo_bus in
  (∀ n a, out !! n = Some a → Bound a = true → AsDevice a ∈ demo_bus) ∧
  (∀ n1 n2 a1 a2, out !! n1 = Some a1 → out !! n2 = Some a2 → Bound a1 = true → Bound a2 = true →
     SerialNumber (AsDevice a1) = SerialNumber (AsDevice a2) → n1 = n2).
Proof. exact (AssignDevices_one_card_per_unit demo_orders demo_units demo_bus demo_serials). Defined.

Lemma AssignDevices_keeps_serial_witness :
  AssignDevices demo_orders demo_units demo_bus !! "dpu-a" = Some (bound_to (bf3 "MT1" "0000:2f:00.0")).
Proof.
  apply (AssignDevices_keeps_serial demo_orders demo_units demo_bus stamped_unit (bf3 "MT1" "0000:2f:00.0")).
  - exact demo_serials.
  - left.
  - left.
  - discriminate.
  - vm_compute. reflexivity.
  - intros u Hu Hor. repeat (apply elem_of_cons in Hu as [->|Hu]; [first [reflexivity|
      exfalso; vm_compute in Hor; destruct Hor; discriminate]|]). by apply elem_of_nil in Hu.
Defined.
