(* ===== verification/AnnotatorFacts.v ===== *)
(** * What the annotator stamps on a DataProcessingUnit

    The calls of a reconcile are logged; whatever the API server and the bus
    answer, a patch never leaves the identity of a card that is not there. *)

From Stdlib Require Import Ascii ZArith.
From stdpp Require Import base gmap strings list fin_maps fin_sets sorting.
From S2P Require Import Prelude GoStrings Unstructured Discovery DiscoveryFacts.

(** ** The annotations *)

Lemma AnnotationsFor_cases v keys :
  AnnotationsFor v = Some keys → keys = nvidia_keys ∨ keys = amd_keys ∨ keys = marvell_keys.
Proof.
  unfold AnnotationsFor, annotationsByVendor. cbn [find fst].
  destruct (_ =? _)%Z; [by intros [= <-]; auto|]. destruct (_ =? _)%Z; [by intros [= <-]; auto|].
  destruct (_ =? _)%Z; [by intros [= <-]; auto|done].
Qed.

Lemma StripIdentity_lookup ann k :
  StripIdentity ann !! k = if decide (k ∈ IdentityKeys) then None else ann !! k.
Proof.
  unfold StripIdentity. generalize IdentityKeys. intros ks. revert ann.
  induction ks as [|k' ks IH]; intros ann; [done|]. cbn [foldl]. rewrite IH.
  destruct (decide (k ∈ ks)) as [Hk|Hk]; [by rewrite decide_True by by right|].
  destruct (decide (k = k')) as [->|Hne].
  - rewrite decide_True by left. apply lookup_delete_eq.
  - rewrite lookup_delete_ne by done. rewrite decide_False; [done|]. by intros [?|?]%elem_of_cons.
Qed.

(** Firmware keys are not identity keys. *)
Lemma firmwareFor_identity a v k : k ∈ IdentityKeys → firmwareFor a v !! k = None.
Proof.
  intros Hk. unfold firmwareFor. destruct (AnnotationsFor v) as [keys|] eqn:Hkeys; [|apply lookup_empty].
  assert (Hne : KeyFirmwareURL keys ∉ IdentityKeys ∧ KeyFlavor keys ∉ IdentityKeys ∧
                KeyFirmwareName keys ∉ IdentityKeys).
  { apply AnnotationsFor_cases in Hkeys as [->|[->| ->]]; split_and!; apply (bool_decide_unpack _); vm_compute; done. }
  destruct Hne as (Hu & Hf & Hn). cbv zeta.
  repeat (destruct (negb _); [rewrite lookup_insert_ne by (intros <-; done)|]); apply lookup_empty.
Qed.

Lemma claimedSerial_none order ann :
  claimedSerial order ann = "" ↔ Forall (λ keys, TrimSpace (ann_at ann (KeySerial keys)) = "") order.
Proof.
  induction order as [|keys order IH]; [done|]. cbn. rewrite Forall_cons, <- IH.
  destruct (bool_decide_reflect (TrimSpace (ann_at ann (KeySerial keys)) = "")); cbn; naive_solver.
Qed.

(** Whether there is an identity does not depend on the order of the range. *)
Lemma HasIdentity_any_order order order' ann :
  order ≡ₚ order' → HasIdentity order ann = false → HasIdentity order' ann = false.
Proof.
  intros Hord. unfold HasIdentity.
  rewrite !orb_false_iff, !negb_false_iff, !bool_decide_eq_true, !claimedSerial_none. by rewrite Hord.
Qed.

(** Every range tries every vendor. *)
Definition go_ranges (order : RangeOrders) : Prop :=
  ∀ dpu, serial_order order dpu ≡ₚ annotationsByVendor.*2 ∧ identity_order order dpu ≡ₚ annotationsByVendor.*2.

Definition no_identity (m : gmap string string) : Prop :=
  ∀ order, order ≡ₚ annotationsByVendor.*2 → HasIdentity order m = false.

Lemma stripped_no_identity ann : no_identity (StripIdentity ann).
Proof.
  intros order Hord. unfold HasIdentity. rewrite (proj2 (claimedSerial_none order _)).
  - unfold claimedPCI, ann_at. rewrite !StripIdentity_lookup.
    rewrite !decide_True by (apply (bool_decide_unpack _); vm_compute; done). done.
  - rewrite Hord. repeat constructor; cbv beta; unfold ann_at; rewrite StripIdentity_lookup, decide_True;
      first [done | apply (bool_decide_unpack _); vm_compute; done].
Qed.

(** The annotations carry no identity, or exactly that of a live card. *)
Definition clean (live : list Device) (m : gmap string string) : Prop :=
  no_identity m ∨
  ∃ d ident, d ∈ live ∧ IdentityAnnotations d = Ok ident ∧ ∀ k, k ∈ IdentityKeys → m !! k = ident !! k.

(** What an identity holds: identity keys only; no empty value when the card
    has a product name. *)
Lemma IdentityAnnotations_spec d ident k v :
  IdentityAnnotations d = Ok ident → ident !! k = Some v →
  k ∈ IdentityKeys ∧ (ProductName d ≠ "" → v ≠ "").
Proof.
  unfold IdentityAnnotations. rewrite seq_ok. intros [Hval Hident].
  assert (Hsn : SerialNumber d ≠ "").
  { intros Hs. unfold ValidateIdentity in Hval. rewrite Hs in Hval. by destruct (bool_decide _). }
  destruct (AnnotationsFor _) as [keys|] eqn:Hkeys; [|done]. cbv zeta in Hident.
  assert (Hks : KeySerial keys ∈ IdentityKeys).
  { apply AnnotationsFor_cases in Hkeys as [->|[->| ->]]; apply (bool_decide_unpack _); vm_compute; done. }
  assert (Hbase : (<[ProductNameAnnotation:=ProductName d]> {[KeySerial keys := SerialNumber d]} : gmap string string)
    !! k = Some v → k ∈ IdentityKeys ∧ (ProductName d ≠ "" → v ≠ "")).
  { intros [[<- <-]|[_ [<- <-]%lookup_singleton_Some]]%lookup_insert_Some; split; try done. right. left. }
  destruct (bool_decide (KeySerial keys = _)); [|by injection Hident as <-].
  destruct (negb _) eqn:Hp; injection Hident as <-; [|done].
  intros [[<- <-]|[_ ?]]%lookup_insert_Some; [|by apply Hbase]. split; [left|]. intros _ Hempty.
  rewrite Hempty in Hp. by rewrite bool_decide_true in Hp.
Qed.

Lemma firmwareFor_nonempty a id k v : firmwareFor a id !! k = Some v → v ≠ "".
Proof.
  unfold firmwareFor. destruct (AnnotationsFor id) as [keys|]; [|by rewrite lookup_empty]. cbv zeta.
  destruct (bool_decide_reflect (FirmwareURL a = "")), (bool_decide_reflect (Flavor a = "")),
    (bool_decide_reflect (FirmwareName a = "")); cbn [negb]; intros Hk;
    repeat (apply lookup_insert_Some in Hk as [[_ <-]|[_ Hk]]; [done|]); by rewrite lookup_empty in Hk.
Qed.

Section Desired.
Context (a : Annotator) (have : gmap string string) (asg : Assignment) (m : gmap string string).
Context (Hm : desiredAnnotations a have asg = Ok m).

(** Everything else is kept. *)
Lemma desired_keeps k : k ∉ IdentityKeys → (∀ id, firmwareFor a id !! k = None) → m !! k = have !! k.
Proof using Hm.
  intros Hk Hf. revert Hm. unfold desiredAnnotations. destruct (Bound asg); cbn [negb].
  - intros (ident & Hident & [= <-])%result_bind_ok. rewrite lookup_union_r by done. rewrite lookup_union_r.
    + by rewrite orb_true_r, StripIdentity_lookup, decide_False.
    + destruct (ident !! k) eqn:Hi; [|done]. by destruct (IdentityAnnotations_spec _ _ _ _ Hident Hi).
  - intros [= <-]. destruct (_ || _); [|done]. by rewrite StripIdentity_lookup, decide_False.
Qed.

Lemma desired_clean live :
  (Bound asg = true → AsDevice asg ∈ live) → Clear asg || Bound asg = true →
  clean live m.
Proof using Hm.
  intros Hlive Hcb. revert Hm. unfold desiredAnnotations. rewrite Hcb. destruct (Bound asg); cbn [negb].
  - intros (ident & Hident & [= <-])%result_bind_ok. right. exists (AsDevice asg), ident. split; [by apply Hlive|].
    split; [done|]. intros k Hk. rewrite lookup_union_r by (by apply firmwareFor_identity).
    rewrite lookup_union, StripIdentity_lookup, decide_True by done. by rewrite right_id_L by apply _.
  - intros [= <-]. left. apply stripped_no_identity.
Qed.

(** The only values that may be empty are those that were there. *)
Lemma desired_nonempty k v :
  (Bound asg = true → ProductName (AsDevice asg) ≠ "") → m !! k = Some v → v ≠ "" ∨ have !! k = Some v.
Proof using Hm.
  assert (Hs : ∀ b : bool, (if b then StripIdentity have else have) !! k = Some v → have !! k = Some v).
  { intros []; [|done]. rewrite StripIdentity_lookup. by destruct (decide _). }
  intros Hpn. revert Hm. unfold desiredAnnotations. destruct (Bound asg); cbn [negb].
  - intros (ident & Hident & [= <-])%result_bind_ok. intros Hk.
    apply lookup_union_Some_raw in Hk as [Hk|[_ Hk]]; [left; by eapply firmwareFor_nonempty|].
    apply lookup_union_Some_raw in Hk as [Hk|[_ Hk]]; [left|right; by eapply Hs].
    by apply (IdentityAnnotations_spec _ _ _ _ Hident Hk), Hpn.
  - intros [= <-] Hk. right. by eapply Hs.
Qed.

End Desired.

(** The comparison is exact when no new value is empty. *)
Lemma annotationsEqual_eq have desired :
  (∀ k v, desired !! k = Some v → v ≠ "" ∨ have !! k = Some v) →
  annotationsEqual have desired = true ↔ have = desired.
Proof.
  intros Hne. unfold annotationsEqual. destruct (bool_decide_reflect (size have = size desired)) as [Hs|Hs]; cbn [negb].
  - rewrite forallb_forall. split.
    + intros Hf. symmetry. apply map_subseteq_size_eq; [|by rewrite Hs]. apply map_subseteq_spec. intros k v Hk.
      destruct (Hne k v Hk) as [Hv|]; [|done].
      specialize (Hf (k, v)). cbn in Hf. rewrite bool_decide_eq_true in Hf. unfold ann_at in Hf.
      rewrite <- list_elem_of_In, elem_of_map_to_list in Hf. specialize (Hf Hk).
      destruct (have !! k); cbn in Hf; congruence.
    + intros -> [k v] Hin. apply list_elem_of_In, elem_of_map_to_list in Hin. cbn. apply bool_decide_eq_true.
      unfold ann_at. by rewrite Hin.
  - split; [|by intros ->]. rewrite andb_true_iff, !bool_decide_eq_true. lia.
Qed.

(** ** The calls of a reconcile *)

Inductive AEvent :=
| AGet (r : result DPUObj)
| ABus (r : result (list Device))
| AList (r : result (list DPUObj))
| APatch (dpu : DPUObj) (m : gmap string string) (e : option err).

Section Logged.
Context {W : Type} `{DPUAPI W}.

#[global] Instance logged_annotator : DPUAPI (W * list AEvent) := {|
  dpu_get wl n := let '(w, r) := dpu_get wl.1 n in ((w, wl.2 ++ [AGet r]), r);
  dpu_list wl := let '(w, r) := dpu_list wl.1 in ((w, wl.2 ++ [AList r]), r);
  dpu_patch wl o m := let '(w, e) := dpu_patch wl.1 o m in ((w, wl.2 ++ [APatch o m e]), e);
  DIsNotFound := DIsNotFound;
  enumerator :=
    match enumerator with
    | Some f => Some (λ wl, let '(w, r) := f wl.1 in ((w, wl.2 ++ [ABus r]), r))
    | None => None
    end |}.

End Logged.

Section Reconcile.
Context {W : Type} `{DPUAPI W}.
Context (order : RangeOrders) (a : Annotator).

Definition mine (dpu : DPUObj) : Prop :=
  ownsSource a dpu = true ∧ (NodeName a = "" ∨ DoNode dpu = NodeName a).

(** What a reconcile that got as far as deciding did: read the unit, the bus
    and the list, and patched the unit unless it was right. *)
Record decided (log : list AEvent) (ans : Z * option err) (dpu : DPUObj) (found : list Device)
    (items : list DPUObj) (m : gmap string string) : Prop := {
  dec_reads : ∃ e, log = [AGet (Ok dpu); ABus (Ok found); AList (Ok items)] ++
    (if annotationsEqual (DoAnnotations dpu) m then [] else [APatch dpu m e]) ∧
    (annotationsEqual (DoAnnotations dpu) m = true ∨ e = None → ans = (InventoryRefresh, None));
  dec_mine : mine dpu;
  dec_want : desiredAnnotations a (DoAnnotations dpu) (default zero_assignment
    (AssignDevices order (nodeViews a (DoNode dpu) items) (filter (λ d, ValidateIdentity d = Ok tt) found)
       !! DoName dpu)) = Ok m }.

(** No patch, and an error unless the unit is not this annotator's. *)
Definition undecided (log : list AEvent) (ans : Z * option err) : Prop :=
  (∀ dpu m e, APatch dpu m e ∉ log) ∧ (∀ dpu, AGet (Ok dpu) ∈ log → mine dpu → ans.2 ≠ None).

Lemma undecided_error log z e : (∀ dpu m e', APatch dpu m e' ∉ log) → undecided log (z, Some e).
Proof. by split. Qed.

Lemma undecided_foreign dpu z : ¬ mine dpu → undecided [AGet (Ok dpu)] (z, None).
Proof.
  intros Hm. split; [by intros * [?|?%elem_of_nil]%elem_of_cons|].
  by intros dpu' [[= ->]|?%elem_of_nil]%elem_of_cons.
Qed.

Ltac no_patch :=
  right; apply undecided_error; intros *; cbn [fst snd app LiveDevices]; rewrite !elem_of_cons, elem_of_nil; intuition discriminate.

(** A reconcile decides, or ends before it sends a patch. *)
Lemma Annotator_Reconcile_decides (w : W) name :
  let x := Annotator_Reconcile order a (w, []) name in
  (∃ dpu found items m, decided x.1.2 x.2 dpu found items m) ∨ undecided x.1.2 x.2.
Proof.
  unfold Annotator_Reconcile, live_devices. cbn [dpu_get enumerator dpu_list dpu_patch logged_annotator fst snd].
  destruct (dpu_get w name) as [w1 [dpu|e]]; cbn [fst snd app].
  2:{ right. split; [by intros * [?|?%elem_of_nil]%elem_of_cons|by intros dpu [?|?%elem_of_nil]%elem_of_cons]. }
  destruct (_ && _) eqn:Hnode.
  { right. apply undecided_foreign. intros [_ Hor]. apply andb_true_iff in Hnode as [H1 H2].
    apply negb_true_iff, bool_decide_eq_false in H1, H2. by destruct Hor. }
  destruct (ownsSource a dpu) eqn:Hown; cbn [negb]; [|right; apply undecided_foreign; intros [? _]; congruence].
  destruct (enumerator (W := W)) as [bus|]; cbn [fst snd app LiveDevices]; [|no_patch].
  destruct (bus w1) as [w2 [found|e]]; cbn [fst snd app LiveDevices]; [|no_patch].
  destruct (dpu_list w2) as [w3 [items|e]]; cbn [fst snd app]; [|no_patch].
  destruct (desiredAnnotations _ _ _) as [m|e] eqn:Hm; [|no_patch].
  left. exists dpu, found, items, m.
  assert (Hmine : mine dpu).
  { split; [done|]. apply andb_false_iff in Hnode as [Hn|Hn]; apply negb_false_iff, bool_decide_eq_true in Hn; auto. }
  destruct (annotationsEqual (DoAnnotations dpu) m) eqn:Heq.
  - split; [|done|done]. exists None. rewrite Heq. done.
  - destruct (dpu_patch w3 dpu m) as [w4 e] eqn:Hp. cbn [fst snd]. split; [|done|done]. exists e. rewrite Heq.
    destruct e; cbn; (split; [done|]); by intros [|].
Qed.

(** What the unit carries after the reconcile. *)
Definition stored_annotations (log : list AEvent) (dpu : DPUObj) : gmap string string :=
  match last log with Some (APatch _ m _) => m | _ => DoAnnotations dpu end.

Lemma live_serials found :
  NoDup (SerialNumber <$> found) → NoDup (SerialNumber <$> filter (λ d, ValidateIdentity d = Ok tt) found).
Proof.
  intros Hnd. eapply sublist_NoDup; [exact Hnd|]. apply fmap_sublist, sublist_filter.
Qed.

(** The decision is clean for a listed unit, and for any unit when something is
    to change. *)
Lemma decided_clean log ans dpu found items m :
  go_ranges order → NoDup (SerialNumber <$> found) → decided log ans dpu found items m →
  annotationsEqual (DoAnnotations dpu) m = false ∨ dpu ∈ items → clean found m.
Proof.
  intros Hord Hnd [_ [Hown _] Hm] Hor. set (live := filter _ _) in Hm.
  destruct (AssignDevices_spec order (nodeViews a (DoNode dpu) items) live (live_serials found Hnd))
    as ([used Hinv] & _ & Hset).
  set (asg := AssignDevices order _ live !! DoName dpu) in *. cbn [fst] in Hinv.
  destruct (Clear (default zero_assignment asg) || Bound (default zero_assignment asg)) eqn:Hcb.
  - apply (desired_clean _ _ _ _ Hm); [|done]. intros Hb. destruct asg as [x|] eqn:Hx; [|done].
    destruct (inv_live _ _ Hinv _ _ Hx Hb) as [Hl _]. by apply list_elem_of_filter in Hl as [_ ?].
  - assert (Hsame : DoAnnotations dpu = m).
    { revert Hm. unfold desiredAnnotations. rewrite Hcb. apply orb_false_iff in Hcb as [_ ->]. by intros [= ->]. }
    destruct Hor as [Hne|Hin].
    { rewrite Hsame in Hne. rewrite (proj2 (annotationsEqual_eq m m ltac:(by right))) in Hne; done. }
    left. intros order' Hord'. set (view := {| DvName := DoName dpu; DvAnnotations := DoAnnotations dpu |}).
    apply (HasIdentity_any_order (identity_order order view)); [rewrite Hord'; apply Hord|].
    destruct (HasIdentity (identity_order order view) m) eqn:Hi; [|done]. exfalso.
    destruct (Hset view) as (y & Hy & Hor).
    { unfold nodeViews. apply list_elem_of_fmap. exists dpu. split; [done|]. apply list_elem_of_filter. auto. }
    { cbn. by rewrite Hsame. }
    cbn in Hy. subst asg. rewrite Hy in Hcb. cbn in Hcb. destruct Hor as [Hb|Hb]; rewrite Hb in Hcb; [|done].
    by rewrite orb_true_r in Hcb.
Qed.

(** [C30] No identity without a card.  Every patch of a reconcile is of a unit
    that is this annotator's (its node, its vendor), and what it stamps carries
    no hardware identity or exactly that of a card just seen on the bus, in that
    card's vendor spelling and with no identity key of another card left over,
    while every annotation that is neither identity nor firmware setting is
    kept.  And when a reconcile of a listed unit ends without an error, the unit
    is clean in that sense, patched or not. *)
Theorem Annotator_no_stale_identity (w : W) name :
  go_ranges order →
  let x := Annotator_Reconcile order a (w, []) name in
  (∀ i dpu m e, x.1.2 !! i = Some (APatch dpu m e) →
     mine dpu ∧ AGet (Ok dpu) ∈ take i x.1.2 ∧
     (∃ found, ABus (Ok found) ∈ take i x.1.2 ∧ (NoDup (SerialNumber <$> found) → clean found m)) ∧
     (∀ k, k ∉ IdentityKeys → (∀ id, firmwareFor a id !! k = None) → m !! k = DoAnnotations dpu !! k)) ∧
  (∀ dpu found items, x.2.2 = None → mine dpu →
     AGet (Ok dpu) ∈ x.1.2 → ABus (Ok found) ∈ x.1.2 → AList (Ok items) ∈ x.1.2 → dpu ∈ items →
     NoDup (SerialNumber <$> found) → Forall (λ d, ProductName d ≠ "") found →
     clean found (stored_annotations x.1.2 dpu)).
Proof.
  intros Hord x. destruct (Annotator_Reconcile_decides w name) as [(dpu & found & items & m & Hdec)|[Hno Herr]].
  2:{ split; [|intros; exfalso; by eapply Herr]. intros i dpu m e Hi. exfalso.
      by eapply Hno, list_elem_of_lookup_2. }
  fold x in Hdec. destruct (dec_reads _ _ _ _ _ _ Hdec) as (e & Hlog & _).
  split.
  - intros i dpu' m' e' Hi. rewrite Hlog in Hi |- *.
    destruct (annotationsEqual (DoAnnotations dpu) m) eqn:Heq.
    { by destruct i as [|[|[|i]]]; cbn in Hi. }
    destruct i as [|[|[|[|i]]]]; cbn in Hi; try done. injection Hi as <- <- <-.
    split; [apply (dec_mine _ _ _ _ _ _ Hdec)|]. cbn. split; [left|]. split.
    + exists found. split; [right; left|]. intros Hnd. by apply (decided_clean _ _ _ _ _ _ Hord Hnd Hdec); left.
    + apply (desired_keeps _ _ _ _ (dec_want _ _ _ _ _ _ Hdec)).
  - intros dpu' found' items' _ _ Hg Hb Hl Hin Hnd Hpn.
    assert (Hsame : dpu' = dpu ∧ found' = found ∧ items' = items).
    { rewrite Hlog in Hg, Hb, Hl. revert Hg Hb Hl.
      destruct (annotationsEqual _ _); cbn [app]; rewrite !elem_of_cons, !elem_of_nil; intros; split_and!; intuition congruence. }
    destruct Hsame as (-> & -> & ->).
    pose proof (decided_clean _ _ _ _ _ _ Hord Hnd Hdec (or_intror Hin)) as Hc.
    unfold stored_annotations. rewrite Hlog. destruct (annotationsEqual (DoAnnotations dpu) m) eqn:Heq; [|done].
    cbn. rewrite annotationsEqual_eq in Heq; [by rewrite Heq|]. intros k v.
    apply (desired_nonempty _ _ _ _ (dec_want _ _ _ _ _ _ Hdec)). intros Hbd.
    destruct (AssignDevices_spec order (nodeViews a (DoNode dpu) items) _ (live_serials found Hnd))
      as ([used Hinv] & _ & _).
    destruct (AssignDevices order _ _ !! DoName dpu) as [y|] eqn:Hy; [|done].
    destruct (inv_live _ _ Hinv _ _ Hy Hbd) as [Hlv _]. apply list_elem_of_filter in Hlv as [_ Hlv].
    rewrite Forall_forall in Hpn. by apply Hpn.
Qed.

End Reconcile.

(** ** A concrete node *)

Definition demo_annotator : Annotator :=
  {| NodeName := "n1"; AnnVendorID := 0; FirmwareURL := "http://bfb"; Flavor := ""; FirmwareName := "" |}.

Definition unit_of (v : DPUView) : DPUObj :=
  {| DoName := DvName v; DoNode := "n1"; DoProduct := "BlueField-3"; DoAnnotations := DvAnnotations v |}.

#[local] Instance demo_api : DPUAPI (list DPUObj) := {|
  dpu_get w n := (w, match find (λ o, DoName o == n) w with Some o => Ok o | None => Err (ENew "not found") end);
  dpu_list w := (w, Ok w);
  dpu_patch w o m := ((λ o', if DoName o' == DoName o
    then {| DoName := DoName o'; DoNode := DoNode o'; DoProduct := DoProduct o'; DoAnnotations := m |} else o') <$> w,
    None);
  DIsNotFound e := errors_is e (ENew "not found");
  enumerator := Some (λ w, (w, Ok demo_bus)) |}.

(** The unit whose card is gone is patched, and is clean afterwards. *)
Lemma Annotator_no_stale_identity_witness :
  let x := Annotator_Reconcile demo_orders demo_annotator (unit_of <$> demo_units, []) "dpu-b" in
  (∃ dpu m e, x.1.2 !! 3 = Some (APatch dpu m e) ∧ mine demo_annotator dpu) ∧
  ∃ dpu, AGet (Ok dpu) ∈ x.1.2 ∧ clean demo_bus (stored_annotations x.1.2 dpu).
Proof.
  set (x := Annotator_Reconcile demo_orders demo_annotator (unit_of <$> demo_units, []) "dpu-b"). cbv zeta.
  assert (Hord : go_ranges demo_orders).
  { intros dpu. unfold demo_orders. cbn [serial_order identity_order]. split; [case_bool_decide|].
    - apply (Permutation_app_comm [marvell_keys] [nvidia_keys; amd_keys]).
    - reflexivity.
    - apply (Permutation_app_comm [amd_keys; marvell_keys] [nvidia_keys]). }
  destruct (Annotator_no_stale_identity demo_orders demo_annotator (unit_of <$> demo_units) "dpu-b" Hord) as [Hp Hc].
  fold x in Hp, Hc.
  assert (Hev : match x.1.2 with
    | [AGet (Ok d); ABus (Ok f); AList (Ok l); APatch d' m e] =>
        bool_decide (d = unit_of {| DvName := "dpu-b"; DvAnnotations := {[ SerialNumberAnnotation := "GONE" ]} |}) &&
        bool_decide (f = demo_bus) && bool_decide (l = unit_of <$> demo_units)
    | _ => false
    end = true) by (vm_compute; reflexivity).
  destruct x.1.2 as [|[[d|]| | |] [|[|[f|]| |] [|[| |[l|]|] [|[| | |d' m e] [|? ?]]]]] eqn:Hlog; try discriminate Hev.
  apply andb_true_iff in Hev as [Hev Hl]. apply andb_true_iff in Hev as [Hd Hf].
  apply bool_decide_eq_true in Hd, Hf, Hl. subst d f l. split.
  - exists d', m, e. split; [reflexivity|]. exact (proj1 (Hp 3 d' m e eq_refl)).
  - eexists. split; [left|]. apply (Hc _ demo_bus (unit_of <$> demo_units)).
    + vm_compute. reflexivity.
    + split; [reflexivity|by right].
    + left.
    + right. left.
    + right. right. left.
    + right. left.
    + exact demo_serials.
    + repeat constructor; discriminate.
Defined.
