(* ===== verification/PciScan.v ===== *)
(** * The PCI scan (pkg/discovery/pci.go)

    Sysfs is an interface: directory entries and file contents.  Files are byte
    strings; the binary parsers read them as the source does, index by index.
    Both parsing loops are structural on a fuel that the theorems below show to
    be enough: the position in the VPD grows by at least one, and a capability
    offset is a 12-bit number that must grow. *)

From Stdlib Require Import Ascii ZArith.
From stdpp Require Import base gmap strings list fin_maps sorting.
From S2P Require Import Prelude GoStrings Discovery.

Definition defaultSysfsPCI : string := "/sys/bus/pci/devices".

Record vendorSpec := { VsName : string; Products : list (Z * string); Fallback : string }.

Definition productName (v : vendorSpec) (deviceID : Z) : string :=
  match find (λ kv, kv.1 =? deviceID)%Z (Products v) with
  | Some kv => kv.2
  | None => Fallback v
  end.

Definition productBlueField2 : string := "BlueField-2".
Definition productBlueField3 : string := "BlueField-3".
Definition productPensandoDSC : string := "Pensando DSC".
Definition productMarvellDPU : string := "Marvell DPU".

Definition supportedVendors : list (Z * vendorSpec) :=
  [ (NVIDIAVendorID, {| VsName := "NVIDIA";
       Products := [(0xa2d2, productBlueField2); (0xa2d6, productBlueField2);
                    (0xa2dc, productBlueField3); (0xa2dd, productBlueField3)]%Z; Fallback := "" |});
    (AMDVendorID, {| VsName := "AMD Pensando";
       Products := [(0x1002, productPensandoDSC); (0x1004, productPensandoDSC)]%Z; Fallback := "" |});
    (MarvellVendorID, {| VsName := "Marvell";
       Products := [(0xb900, productMarvellDPU); (0xa0f7, productMarvellDPU)]%Z; Fallback := "" |}) ].

Definition vendor_spec (vendor : Z) : option vendorSpec :=
  snd <$> find (λ kv, kv.1 =? vendor)%Z supportedVendors.

Definition DefaultProductName (vendorID : Z) : string :=
  if (vendorID =? NVIDIAVendorID)%Z then productBlueField3
  else if (vendorID =? AMDVendorID)%Z then productPensandoDSC
  else if (vendorID =? MarvellVendorID)%Z then productMarvellDPU
  else "".

Definition StaticDevice (vendorID : Z) (serial pci product : string) : Device :=
  {| PCIAddress := pci; VendorID := vendorID; DeviceID := 0; SerialNumber := serial;
     ProductName := if product == "" then DefaultProductName vendorID else product |}.

Definition mock_enumerate (Devices : list Device) : result (list Device) := Ok Devices.

(** A bus that changes between two enumerations. *)
Record MutableEnumerator := { MeDevices : list Device; MeErr : option err }.

Definition mutable_Enumerate (m : MutableEnumerator) : result (list Device) :=
  match MeErr m with Some e => Err e | None => Ok (MeDevices m) end.

Definition mutable_Set (devices : list Device) (e : option err) (_ : MutableEnumerator) : MutableEnumerator :=
  {| MeDevices := devices; MeErr := e |}.

(** ** Bytes *)

Definition byte_at (data : string) (i : nat) : Z :=
  match String.get i data with Some c => Z.of_nat (nat_of_ascii c) | None => 0 end.

(** [data[i : i+n]] *)
Definition bytes (data : string) (i n : nat) : string := String.substring i n data.

(** ** VPD *)

(** The keyword loop: [i+3 <= len(data)]. *)
Fixpoint vpd_keywords_loop (fuel : nat) (data : string) (i : nat) : option string :=
  match fuel with
  | O => None
  | S fuel' =>
      if i + 3 <=? String.length data then
        let key := bytes data i 2 in
        let n := Z.to_nat (byte_at data (i + 2)) in
        let i := i + 3 in
        if String.length data <? i + n then None
        else if key == "SN" then Some (TrimSpace (bytes data i n))
        else vpd_keywords_loop fuel' data (i + n)
      else None
  end.

Definition vpdKeywords (data : string) : option string := vpd_keywords_loop (S (String.length data)) data 0.

Fixpoint vpd_serial_loop (fuel : nat) (data : string) (i : nat) : option string :=
  match fuel with
  | O => None
  | S fuel' =>
      if i <? String.length data then
        let b := byte_at data i in
        if (b =? 0x78)%Z then None
        else if (Z.land b 0x80 =? 0)%Z then
          vpd_serial_loop fuel' data (i + 1 + Z.to_nat (Z.land b 0x07))
        else if String.length data <=? i + 2 then None
        else
          let tag := Z.land b 0x7f in
          let length := Z.to_nat (Z.lor (byte_at data (i + 1)) (Z.shiftl (byte_at data (i + 2)) 8)) in
          let i := i + 3 in
          if String.length data <? i + length then None
          else
            match (if (tag =? 0x10)%Z then vpdKeywords (bytes data i length) else None) with
            | Some sn => Some sn
            | None => vpd_serial_loop fuel' data (i + length)
            end
      else None
  end.

Definition vpdSerial (data : string) : option string := vpd_serial_loop (S (String.length data)) data 0.

(** ** The Device Serial Number capability *)

Definition pcieCapDSN : Z := 0x0003.
Definition pcieExtCapStart : nat := 256.

(** [binary.LittleEndian.Uint32] *)
Definition uint32_le (data : string) (i : nat) : Z :=
  Z.lor (byte_at data i) (Z.lor (Z.shiftl (byte_at data (i + 1)) 8)
    (Z.lor (Z.shiftl (byte_at data (i + 2)) 16) (Z.shiftl (byte_at data (i + 3)) 24))).

Definition upper_hex (n : nat) : ascii := ascii_of_nat (if n <? 10 then 48 + n else 55 + n).

(** [strings.ToUpper(hex.EncodeToString(b))] *)
Fixpoint hex_upper (s : string) : string :=
  match s with
  | EmptyString => EmptyString
  | String c s' =>
      String (upper_hex (nat_of_ascii c / 16)) (String (upper_hex (nat_of_ascii c mod 16)) (hex_upper s'))
  end.

Fixpoint config_dsn_loop (fuel : nat) (cfg : string) (off : nat) : option string :=
  match fuel with
  | O => None
  | S fuel' =>
      if off + 4 <=? String.length cfg then
        let hdr := uint32_le cfg off in
        if (hdr =? 0)%Z then None
        else
          let id := Z.land hdr 0xffff in
          let next := Z.to_nat (Z.land (Z.shiftr hdr 20) 0xfff) in
          if (id =? pcieCapDSN)%Z && (off + 12 <=? String.length cfg) then Some (hex_upper (bytes cfg (off + 4) 8))
          else if (next =? 0) || (next <=? off) then None
          else config_dsn_loop fuel' cfg next
      else None
  end.

Definition configDSN (cfg : string) : option string := config_dsn_loop 4096 cfg pcieExtCapStart.

(** ** Sysfs *)

Inductive FileError := NotExist | Permission | OtherFileError (e : err).

(** [Join] of path elements is [filepath.Join] on the paths used here. *)
Class Sysfs := {
  sysfs_entries : string → result (list string);
  sysfs_read : string → string + FileError;
  file_err : FileError → err;
  filepath_join : string → string → string }.

(** The part after the last dot; the whole string when there is none, or when
    nothing follows it. *)
Fixpoint after_last_dot (s : string) : option string :=
  match s with
  | EmptyString => None
  | String c s' =>
      match after_last_dot s' with
      | Some a => Some a
      | None => if bool_decide (c = "."%char) then Some s' else None
      end
  end.

Definition pciFunction (addr : string) : string :=
  match after_last_dot addr with
  | Some f => if f == "" then addr else f
  | None => addr
  end.

(** One board serial, one function: the one of the lowest address. *)
Definition uniqueBySerial (devices : list Device) : list Device :=
  if length devices <? 2 then devices
  else
    (foldl (λ '(seen, out) d,
       if bool_decide (SerialNumber d ∈ seen) then (seen, out)
       else (SerialNumber d :: seen, out ++ [d])) ([] : list string, []) (merge_sort pci_le devices)).2.

Section Scan.
Context `{Sysfs}.

Definition readPCIID (path : string) : result Z :=
  match sysfs_read path with
  | inr e => Err (file_err e)
  | inl b =>
      match ParseHex16 (TrimPrefix (ToLower (TrimSpace b)) "0x") with
      | Some v => Ok v
      | None => Err (EFmt "%s: invalid number" [path])
      end
  end.

Definition serial_in (name b : string) : option string :=
  if name == "serial" then (let s := TrimSpace b in if s != "" then Some s else None)
  else if name == "vpd" then vpdSerial b
  else configDSN b.

Fixpoint read_serial_loop (devDir : string) (names : list string) : result string :=
  match names with
  | [] => Err (EFmt "no serial in serial, vpd, or config DSN" [])
  | name :: names' =>
      let path := filepath_join devDir name in
      match sysfs_read path with
      | inr NotExist => read_serial_loop devDir names'
      | inr Permission => Err (EFmt "permission denied reading %s (need root for VPD/config)" [path])
      | inr e => Err (EWrap "read %s: %w" [path] (file_err e))
      | inl b =>
          match serial_in name b with
          | Some s => Ok s
          | None => read_serial_loop devDir names'
          end
      end
  end.

Definition readSerial (devDir : string) : result string := read_serial_loop devDir ["serial"; "vpd"; "config"].

(** One entry: skipped, a device, or an error that ends the scan. *)
Definition scan_entry (root : string) (restrict : Z) (addr : string) : result (option Device) :=
  if pciFunction addr != "0" then Ok None
  else
    let devDir := filepath_join root addr in
    match readPCIID (filepath_join devDir "vendor") with
    | Err _ => Ok None
    | Ok vendor =>
        if (restrict != 0%Z) && (vendor != restrict) then Ok None
        else match vendor_spec vendor with
        | None => Ok None
        | Some spec =>
            let deviceID := match readPCIID (filepath_join devDir "device") with Ok d => d | Err _ => 0%Z end in
            let name := productName spec deviceID in
            if name == "" then Ok None
            else
              let! serial := wrap_err "%s device %s: %w" [VsName spec; addr] (readSerial devDir) in
              Ok (Some {| PCIAddress := addr; VendorID := vendor; DeviceID := deviceID; SerialNumber := serial;
                          ProductName := name |})
        end
    end.

Definition scan_step (root : string) (restrict : Z) (devices : list Device) (addr : string) : result (list Device) :=
  let! d := scan_entry root restrict addr in
  Ok (match d with Some d => devices ++ [d] | None => devices end).

Definition Enumerate (SysfsRoot : string) (restrict : Z) : result (list Device) :=
  let root := if SysfsRoot == "" then defaultSysfsPCI else SysfsRoot in
  let! entries := wrap_err "read pci sysfs %s: %w" [root] (sysfs_entries root) in
  let! devices := fold_result (scan_step root restrict) [] entries in
  Ok (uniqueBySerial devices).

End Scan.
