(* ===== verification/PciScanFacts.v ===== *)
(** * The PCI scan: what it reads and what it promises the inventory *)

From Stdlib Require Import Ascii ZArith.
From stdpp Require Import base gmap strings list fin_maps sorting relations.
From S2P Require Import Prelude GoStrings Discovery DiscoveryFacts PciScan.

(** ** One function per board *)

Lemma string_le_cons a s b t :
  string_le (String a s) (String b t) ↔ (N_of_ascii a < N_of_ascii b)%N ∨ a = b ∧ string_le s t.
Proof.
  unfold string_le, String.leb. cbn [String.compare]. unfold Ascii.compare.
  destruct (N.compare_spec (N_of_ascii a) (N_of_ascii b)) as [Heq|Hlt|Hgt].
  - assert (a = b) as -> by (rewrite <- (ascii_N_embedding a), <- (ascii_N_embedding b); congruence).
    split; [auto|]. intros [?|[_ ?]]; [lia|done].
  - split; [auto|done].
  - split; [done|]. intros [?|[-> _]]; lia.
Qed.

#[local] Instance string_le_trans : Transitive string_le.
Proof.
  intros s. induction s as [|a s IH]; intros t u Hst Htu.
  { by destruct u. }
  destruct t as [|b t]; [done|]. destruct u as [|c u]; [done|].
  rewrite string_le_cons in *. destruct Hst as [Hab|[-> Hst]]; destruct Htu as [Hbc|[-> Htu]].
  - left. lia.
  - by left.
  - by left.
  - right. split; [done|by apply (IH t)].
Qed.

#[local] Instance pci_le_total : Total pci_le.
Proof. intros a b. apply String.leb_total. Qed.

#[local] Instance pci_le_trans : Transitive pci_le.
Proof. intros a b c. apply string_le_trans. Qed.

Definition uniq_step : list string * list Device → Device → list string * list Device :=
  λ '(seen, out) d, if bool_decide (SerialNumber d ∈ seen) then (seen, out)
                    else (SerialNumber d :: seen, out ++ [d]).

Lemma uniq_fold l :
  let '(seen, out) := foldl uniq_step ([], []) l in
  (∀ s, s ∈ seen ↔ s ∈ SerialNumber <$> out) ∧ NoDup (SerialNumber <$> out) ∧
  (∀ d, d ∈ out → d ∈ l) ∧
  (∀ i d, l !! i = Some d → ∃ j d', l !! j = Some d' ∧ j ≤ i ∧ d' ∈ out ∧ SerialNumber d' = SerialNumber d).
Proof.
  induction l as [|x l IH] using rev_ind; [by split_and!; [set_solver|constructor|done|]|].
  rewrite foldl_snoc. destruct (foldl uniq_step ([], []) l) as [seen out]. destruct IH as (Hs & Hnd & Hin & Hlow).
  cbn [uniq_step].
  assert (Hold : ∀ (out' : list Device) i d, (∀ d, d ∈ out → d ∈ out') → l !! i = Some d →
    ∃ j d', (l ++ [x]) !! j = Some d' ∧ j ≤ i ∧ d' ∈ out' ∧ SerialNumber d' = SerialNumber d).
  { intros out' i d Hsub Hi. destruct (Hlow i d Hi) as (j & d' & Hj & Hle & Ho & He). exists j, d'.
    split_and!; [by apply lookup_app_l_Some|done|by apply Hsub|done]. }
  case_bool_decide as Hx.
  - split_and!; [apply Hs|done|intros d Hd; apply elem_of_app; left; by apply Hin|].
    intros i d Hi. destruct (decide (i < length l)) as [Hlt|Hge].
    + rewrite lookup_app_l in Hi by done. by apply Hold.
    + rewrite lookup_app_r in Hi by lia. apply list_lookup_singleton_Some in Hi as [Hi <-].
      rewrite Hs in Hx. apply list_elem_of_fmap in Hx as (d' & Heq & Hd').
      destruct (list_elem_of_lookup_1 l d' (Hin d' Hd')) as [j Hj]. exists j, d'.
      split_and!; [by apply lookup_app_l_Some| |done|done].
      apply lookup_lt_Some in Hj. lia.
  - split_and!.
    + intros s. rewrite fmap_app, elem_of_app, elem_of_cons, Hs. cbn. rewrite list_elem_of_singleton. tauto.
    + rewrite fmap_app. apply NoDup_app. split_and!; [done| |apply NoDup_singleton].
      intros s Hs1 ->%list_elem_of_singleton. apply Hx. by apply Hs.
    + intros d [Hd| ->%list_elem_of_singleton]%elem_of_app; apply elem_of_app; [left; by apply Hin|right; left].
    + intros i d Hi. destruct (decide (i < length l)) as [Hlt|Hge].
      * rewrite lookup_app_l in Hi by done. apply Hold; [|done]. set_solver.
      * pose proof Hi as Hi'. rewrite lookup_app_r in Hi by lia. apply list_lookup_singleton_Some in Hi as [_ <-].
        exists i, x. split_and!; [done|done|set_solver|done].
Qed.

Lemma uniqueBySerial_unfold l : 2 ≤ length l → uniqueBySerial l = (foldl uniq_step ([], []) (merge_sort pci_le l)).2.
Proof. intros Hl. unfold uniqueBySerial. by rewrite (proj2 (Nat.ltb_ge _ _)). Qed.

(** One board, one device: the enumerated devices have distinct serials,
    each is one of the functions found, and each function found is represented
    by a device of the same serial at an address that does not come after its
    own. *)
Lemma uniqueBySerial_spec l :
  NoDup (SerialNumber <$> uniqueBySerial l) ∧ (∀ d, d ∈ uniqueBySerial l → d ∈ l) ∧
  (∀ d, d ∈ l → ∃ d', d' ∈ uniqueBySerial l ∧ SerialNumber d' = SerialNumber d ∧ (d' = d ∨ pci_le d' d)).
Proof.
  destruct (decide (2 ≤ length l)) as [Hl|Hl].
  2:{ unfold uniqueBySerial. rewrite (proj2 (Nat.ltb_lt _ _)) by lia. split_and!; [|done|intros d Hd; eauto].
      destruct l as [|d [|]]; [constructor|apply NoDup_singleton|cbn in Hl; lia]. }
  rewrite uniqueBySerial_unfold by done. pose proof (uniq_fold (merge_sort pci_le l)) as Hu.
  destruct (foldl uniq_step _ _) as [seen out]. destruct Hu as (_ & Hnd & Hin & Hlow). cbn [snd].
  split_and!; [done| |].
  - intros d Hd. rewrite <- (merge_sort_Permutation pci_le). by apply Hin.
  - intros d Hd. rewrite <- (merge_sort_Permutation pci_le) in Hd. apply list_elem_of_lookup in Hd as [i Hi].
    destruct (Hlow i d Hi) as (j & d' & Hj & Hle & Ho & He). exists d'. split_and!; [done|done|].
    destruct (decide (i = j)) as [->|Hne]; [left; congruence|right].
    pose proof (StronglySorted_merge_sort pci_le l) as Hsort.
    rewrite <- (take_drop (S j) (merge_sort pci_le l)) in Hsort.
    apply (StronglySorted_app_1_elem_of _ _ _ _ _ Hsort).
    + apply (list_elem_of_lookup_2 _ j). by rewrite lookup_take_lt by lia.
    + apply (list_elem_of_lookup_2 _ (i - S j)). rewrite lookup_drop. by replace (S j + (i - S j)) with i by lia.
Qed.

(** ** The scan and the inventory *)

Lemma LiveDevices_serials found live :
  LiveDevices (Some (Ok found)) = Ok live → NoDup (SerialNumber <$> found) → NoDup (SerialNumber <$> live).
Proof. intros [= <-]. apply NoDup_fmap_filter. Qed.

Section Scan.
Context `{Sysfs}.

(** A device the scan may report. *)
Definition is_dpu_function (restrict : Z) (d : Device) : Prop :=
  pciFunction (PCIAddress d) = "0" ∧ (restrict = 0%Z ∨ VendorID d = restrict) ∧
  ∃ spec, vendor_spec (VendorID d) = Some spec ∧ ProductName d = productName spec (DeviceID d) ∧ ProductName d ≠ "".

Lemma scan_entry_ok root restrict addr d :
  scan_entry root restrict addr = Ok (Some d) → is_dpu_function restrict d.
Proof.
  unfold scan_entry. destruct (bool_decide_reflect (pciFunction addr = "0")) as [Hf|Hf]; cbn [negb]; [|done].
  cbv zeta. destruct (readPCIID _) as [vendor|]; [|done].
  destruct (_ && _) eqn:Hr; [done|]. destruct (vendor_spec vendor) as [spec|] eqn:Hs; [|done].
  set (dev := match readPCIID _ with Ok d => d | Err _ => 0%Z end).
  destruct (bool_decide_reflect (productName spec dev = "")) as [Hp|Hp]; [done|].
  intros Hd. apply result_bind_ok in Hd as (serial & _ & [= <-]). split; [done|]. split.
  - cbn. apply andb_false_iff in Hr as [Hr|Hr]; apply negb_false_iff, bool_decide_eq_true in Hr; auto.
  - exists spec. done.
Qed.

(** [C13] What the scan promises the inventory: the live devices it yields have
    distinct serials (which the assignment relies on) and non-blank addresses
    and serials, and each is function 0 of a known DPU product of a supported
    vendor, of the one vendor asked for when the scan is restricted.  In
    particular bridges and the SoC management function never become DPUs. *)
Theorem Enumerate_live root restrict live :
  LiveDevices (Some (Enumerate root restrict)) = Ok live →
  NoDup (SerialNumber <$> live) ∧
  Forall (λ d, ValidateIdentity d = Ok tt ∧ is_dpu_function restrict d) live.
Proof.
  destruct (Enumerate root restrict) as [found|e] eqn:He; [|done]. intros Hl.
  unfold Enumerate in He. cbv zeta in He. apply result_bind_ok in He as (entries & _ & He).
  apply result_bind_ok in He as (devices & Hd & [= <-]).
  destruct (uniqueBySerial_spec devices) as (Hnd & Hin & _).
  split; [by eapply LiveDevices_serials|]. injection Hl as <-. apply Forall_forall.
  intros d [Hv Hm]%list_elem_of_filter. split; [done|]. apply Hin in Hm. revert d Hv Hm.
  apply (fold_result_inv (λ ds, ∀ d, ValidateIdentity d = Ok tt → d ∈ ds → is_dpu_function restrict d)
    _ _ _ _ ltac:(by intros d _ ?%elem_of_nil)) with (2 := Hd).
  intros ds addr ds' _ Hds Hstep d Hv Hm. apply result_bind_ok in Hstep as (od & Ho & [= <-]).
  destruct od as [d'|]; [|by apply Hds]. apply elem_of_app in Hm as [Hm| ->%list_elem_of_singleton]; [by apply Hds|].
  by apply scan_entry_ok in Ho.
Qed.

End Scan.

(** ** The capability list *)

Definition cap_header (cfg : string) (off : nat) : Z := uint32_le cfg off.
Definition cap_next (cfg : string) (off : nat) : nat := Z.to_nat (Z.land (Z.shiftr (cap_header cfg off) 20) 0xfff).

(** A complete Device Serial Number capability at the offset. *)
Definition has_dsn (cfg : string) (off : nat) : Prop :=
  off + 12 ≤ String.length cfg ∧ cap_header cfg off ≠ 0%Z ∧ Z.land (cap_header cfg off) 0xffff = pcieCapDSN.

(** The list goes on: a non-empty header that is not the one sought, and a
    next offset further on. *)
Definition cap_link (cfg : string) (off next : nat) : Prop :=
  off + 4 ≤ String.length cfg ∧ cap_header cfg off ≠ 0%Z ∧ ¬ has_dsn cfg off ∧
  next = cap_next cfg off ∧ next ≠ 0 ∧ off < next.

Lemma cap_next_bound cfg off : cap_next cfg off ≤ 4095.
Proof.
  unfold cap_next. change 0xfff%Z with (Z.ones 12). rewrite Z.land_ones by lia.
  pose proof (Z.mod_pos_bound (Z.shiftr (cap_header cfg off) 20) (2 ^ 12) ltac:(lia)). lia.
Qed.

Lemma cap_link_det cfg off n1 n2 : cap_link cfg off n1 → cap_link cfg off n2 → n1 = n2.
Proof. intros (_ & _ & _ & -> & _) (_ & _ & _ & -> & _). done. Qed.

(** One round of the loop. *)
Lemma config_dsn_step fuel cfg off s :
  config_dsn_loop (S fuel) cfg off = Some s ↔
  has_dsn cfg off ∧ s = hex_upper (bytes cfg (off + 4) 8) ∨
  ∃ next, cap_link cfg off next ∧ config_dsn_loop fuel cfg next = Some s.
Proof.
  cbn [config_dsn_loop]. cbv zeta. fold (cap_header cfg off). fold (cap_next cfg off).
  unfold cap_link, has_dsn.
  destruct (Nat.leb_spec (off + 4) (String.length cfg)) as [H4|H4].
  2:{ split; [done|]. intros [((? & _) & _)|(? & (? & _) & _)]; lia. }
  destruct (Z.eqb_spec (cap_header cfg off) 0) as [H0|H0].
  { split; [done|]. intros [((_ & ? & _) & _)|(? & (_ & ? & _) & _)]; done. }
  destruct (Z.eqb_spec (Z.land (cap_header cfg off) 0xffff) pcieCapDSN) as [Hid|Hid];
    destruct (Nat.leb_spec (off + 12) (String.length cfg)) as [H12|H12]; cbn [andb].
  { split; [intros [= <-]; left; done|]. intros [[_ ->]|(? & (_ & _ & Hn & _) & _)]; [done|]. by destruct Hn. }
  all: assert (Hno : ¬ (off + 12 ≤ String.length cfg ∧ cap_header cfg off ≠ 0%Z ∧
    Z.land (cap_header cfg off) 0xffff = pcieCapDSN)) by (intros (? & _ & ?); first [lia|done]).
  all: destruct (Nat.eqb_spec (cap_next cfg off) 0) as [Hz|Hz]; cbn [orb];
    [split; [done|]; intros [[? _]|(n & (_ & _ & _ & -> & ? & _) & _)]; done|].
  all: destruct (Nat.leb_spec (cap_next cfg off) off) as [Hle|Hlt];
    [split; [done|]; intros [[? _]|(n & (_ & _ & _ & -> & _ & ?) & _)]; [done|lia]|].
  all: split; [intros Hl; right; exists (cap_next cfg off); done|].
  all: intros [[? _]|(n & (_ & _ & _ & -> & _) & Hl)]; done.
Qed.

(** The Device Serial Number is found exactly when the capability list
    leads to it: the parser answers with the eight bytes after the first
    complete serial-number header that is reachable from offset 0x100 over
    links that move forward, and with nothing otherwise; its fuel is never
    the reason it stops. *)
Theorem configDSN_iff cfg s :
  configDSN cfg = Some s ↔
  ∃ off, rtc (cap_link cfg) pcieExtCapStart off ∧ has_dsn cfg off ∧ s = hex_upper (bytes cfg (off + 4) 8).
Proof.
  unfold configDSN.
  assert (Hmain : ∀ fuel off, off ≤ 4095 → 4096 ≤ fuel + off →
    config_dsn_loop fuel cfg off = Some s ↔
    ∃ off', rtc (cap_link cfg) off off' ∧ has_dsn cfg off' ∧ s = hex_upper (bytes cfg (off' + 4) 8)).
  2:{ apply Hmain; unfold pcieExtCapStart; lia. }
  induction fuel as [|fuel IH]; intros off Ho Hf; [lia|]. rewrite config_dsn_step. split.
  - intros [[Hd ->]|(next & Hl & Hs)]; [by exists off|]. pose proof Hl as (_ & _ & _ & Hn & _ & Hlt).
    apply IH in Hs as (off' & Hr & Hd); [|subst next; apply cap_next_bound|lia].
    exists off'. split; [by eapply rtc_l|done].
  - intros (off' & Hr & Hd & ->). inversion Hr as [|? next ? Hl Hr']; subst; [by left|]. right. exists next.
    split; [done|]. pose proof Hl as (_ & _ & _ & Hn & _ & Hlt). apply IH; [subst next; apply cap_next_bound|lia|].
    by exists off'.
Qed.

(** ** Vital product data *)

Lemma byte_at_app a b i : byte_at (a +:+ b) (String.length a + i) = byte_at b i.
Proof. unfold byte_at. by induction a. Qed.

Lemma bytes_app a b i n : bytes (a +:+ b) (String.length a + i) n = bytes b i n.
Proof. unfold bytes. by induction a. Qed.

Lemma bytes_prefix a b : bytes (a +:+ b) 0 (String.length a) = a.
Proof.
  unfold bytes. induction a as [|c a IH]; [by destruct b|].
  change (String c (String.substring 0 (String.length a) (a +:+ b)) = String c a). by rewrite IH.
Qed.

(** The loops only look at what follows their position. *)
Lemma vpd_keywords_shift fuel a b i :
  vpd_keywords_loop fuel (a +:+ b) (String.length a + i) = vpd_keywords_loop fuel b i.
Proof.
  revert i. induction fuel as [|fuel IH]; intros i; [done|]. cbn [vpd_keywords_loop]. cbv zeta.
  rewrite str_length_app, <- !Nat.add_assoc, bytes_app, byte_at_app, bytes_app.
  replace (String.length a + (i + 3) <=? String.length a + String.length b) with (i + 3 <=? String.length b)
    by (apply eq_true_iff_eq; rewrite !Nat.leb_le; lia).
  replace (String.length a + String.length b <? String.length a + (i + (3 + Z.to_nat (byte_at b (i + 2)))))
    with (String.length b <? i + (3 + Z.to_nat (byte_at b (i + 2))))
    by (apply eq_true_iff_eq; rewrite !Nat.ltb_lt; lia).
  by rewrite IH.
Qed.

Lemma vpd_serial_shift fuel a b i :
  vpd_serial_loop fuel (a +:+ b) (String.length a + i) = vpd_serial_loop fuel b i.
Proof.
  revert i. induction fuel as [|fuel IH]; intros i; [done|]. cbn [vpd_serial_loop]. cbv zeta.
  rewrite str_length_app, <- !Nat.add_assoc, !byte_at_app, bytes_app.
  replace (String.length a + i <? String.length a + String.length b) with (i <? String.length b)
    by (apply eq_true_iff_eq; rewrite !Nat.ltb_lt; lia).
  replace (String.length a + String.length b <=? String.length a + (i + 2)) with (String.length b <=? i + 2)
    by (apply eq_true_iff_eq; rewrite !Nat.leb_le; lia).
  set (n := Z.to_nat (Z.lor _ _)).
  replace (String.length a + String.length b <? String.length a + (i + (3 + n))) with (String.length b <? i + (3 + n))
    by (apply eq_true_iff_eq; rewrite !Nat.ltb_lt; lia).
  by rewrite !IH.
Qed.

Definition byte (n : nat) : ascii := ascii_of_nat n.

Lemma byte_at_head n s : n ≤ 255 → byte_at (String (byte n) s) 0 = Z.of_nat n.
Proof. intros Hn. unfold byte_at, byte. cbn [String.get]. rewrite nat_ascii_embedding; lia. Qed.

(** A keyword entry and a large resource of the VPD format. *)
Definition vpd_entry (key val : string) : string := key +:+ String (byte (String.length val)) val.

Definition vpd_large (tag : nat) (body : string) : string :=
  String (byte (128 + tag)) (String (byte (String.length body mod 256)) (String (byte (String.length body / 256)) body)).

Definition vpd_entries (ks : list (string * string)) : string :=
  foldr (λ kv s, vpd_entry kv.1 kv.2 +:+ s) "" ks.

Definition entry_ok (kv : string * string) : Prop :=
  String.length kv.1 = 2 ∧ kv.1 ≠ "SN" ∧ String.length kv.2 ≤ 255.

(** One round of the keyword loop on an entry. *)
Lemma vpd_keywords_entry fuel key val rest :
  String.length key = 2 → String.length val ≤ 255 →
  vpd_keywords_loop (S fuel) (vpd_entry key val +:+ rest) 0 =
  if key == "SN" then Some (TrimSpace val) else vpd_keywords_loop fuel rest 0.
Proof.
  intros Hk Hv. unfold vpd_entry. destruct key as [|c1 [|c2 [|]]]; try discriminate Hk. clear Hk.
  set (n := String.length val) in *.
  change ((String c1 (String c2 "") +:+ String (byte n) val) +:+ rest)
    with (String c1 (String c2 (String (byte n) "")) +:+ (val +:+ rest)).
  cbn [vpd_keywords_loop]. cbv zeta.
  assert (Hlen : String.length (String c1 (String c2 (String (byte n) "")) +:+ (val +:+ rest)) =
    3 + (n + String.length rest)) by (rewrite !str_length_app; done).
  rewrite Hlen. rewrite (proj2 (Nat.leb_le _ _)) by lia.
  assert (Hn : byte_at (String c1 (String c2 (String (byte n) "")) +:+ (val +:+ rest)) (0 + 2) = Z.of_nat n)
    by (apply (byte_at_head n (val +:+ rest)); lia).
  rewrite Hn, Nat2Z.id, (proj2 (Nat.ltb_ge _ _)) by lia.
  change (bytes (String c1 (String c2 (String (byte n) "")) +:+ (val +:+ rest)) 0 2) with
    (bytes (String c1 (String c2 "") +:+ String (byte n) (val +:+ rest)) 0 (String.length (String c1 (String c2 "")))).
  rewrite bytes_prefix. case_bool_decide.
  - change (0 + 3) with (String.length (String c1 (String c2 (String (byte n) ""))) + 0).
    by rewrite bytes_app, bytes_prefix.
  - rewrite <- str_app_assoc.
    replace (0 + 3 + n) with (String.length (String c1 (String c2 (String (byte n) "")) +:+ val) + 0)
      by (rewrite str_length_app; cbn; lia).
    apply vpd_keywords_shift.
Qed.

Lemma vpdKeywords_found ks sn rest :
  Forall entry_ok ks → String.length sn ≤ 255 →
  vpdKeywords (vpd_entries ks +:+ vpd_entry "SN" sn +:+ rest) = Some (TrimSpace sn).
Proof.
  intros Hks Hsn. unfold vpdKeywords.
  assert (Hmain : ∀ fuel, length ks < fuel →
    vpd_keywords_loop fuel (vpd_entries ks +:+ vpd_entry "SN" sn +:+ rest) 0 = Some (TrimSpace sn)).
  { induction Hks as [|[k v] ks (Hk & Hne & Hv) _ IH]; intros [|fuel] Hf; [cbn in Hf; lia| |cbn in Hf; lia|].
    - cbn [vpd_entries foldr]. rewrite str_app_nil_l. by rewrite vpd_keywords_entry.
    - cbn [vpd_entries foldr fst snd]. rewrite str_app_assoc. rewrite vpd_keywords_entry by done.
      cbn [fst] in Hne. rewrite bool_decide_false by done. apply IH. cbn in Hf. lia. }
  apply Hmain. rewrite str_length_app.
  assert (Hlen : length ks ≤ String.length (vpd_entries ks)); [|lia].
  clear. induction ks as [|kv ks IH]; [done|]. cbn [vpd_entries foldr]. rewrite str_length_app.
  unfold vpd_entry at 1. rewrite str_length_app. cbn [length String.length] in *. unfold vpd_entries in IH. lia.
Qed.

Lemma low_high_byte lo hi : (0 ≤ lo < 256)%Z → Z.lor lo (Z.shiftl hi 8) = (lo + 256 * hi)%Z.
Proof.
  intros Hlo. pose proof (Z.add_lor_land lo (Z.shiftl hi 8)) as Hadd.
  assert (Hz : Z.land lo (Z.shiftl hi 8) = 0%Z).
  { apply Z.bits_inj'. intros n Hn. rewrite Z.land_spec, Z.bits_0. destruct (decide (n < 8)%Z).
    - rewrite Z.shiftl_spec_low by lia. apply andb_false_r.
    - rewrite <- (Z.mod_small lo (2 ^ 8)) by lia. by rewrite Z.mod_pow2_bits_high by lia. }
  rewrite Hz in Hadd. rewrite Z.shiftl_mul_pow2 in * by lia. change (2 ^ 8)%Z with 256%Z in *. lia.
Qed.

Lemma large_tag_bits tag :
  tag < 128 → Z.land (Z.of_nat (128 + tag)) 0x80 = 0x80%Z ∧ Z.land (Z.of_nat (128 + tag)) 0x7f = Z.of_nat tag.
Proof.
  intros Ht.
  assert (Hall : forallb (λ t, (Z.land (Z.of_nat (128 + t)) 0x80 =? 0x80)%Z &&
    (Z.land (Z.of_nat (128 + t)) 0x7f =? Z.of_nat t)%Z) (seq 0 128) = true) by (vm_compute; reflexivity).
  rewrite forallb_forall in Hall. specialize (Hall tag ltac:(apply in_seq; lia)).
  apply andb_true_iff in Hall as [H1 H2]. split; by apply Z.eqb_eq.
Qed.

(** One round of the resource loop on a large resource. *)
Lemma vpd_serial_large fuel tag body rest :
  tag < 128 → (Z.of_nat (String.length body) < 65536)%Z →
  vpd_serial_loop (S fuel) (vpd_large tag body +:+ rest) 0 =
  match (if tag =? 16 then vpdKeywords body else None) with
  | Some sn => Some sn
  | None => vpd_serial_loop fuel rest 0
  end.
Proof.
  intros Ht Hb. unfold vpd_large. set (n := String.length body) in *.
  set (hd := String (byte (128 + tag)) (String (byte (n mod 256)) (String (byte (n / 256)) ""))).
  change (String (byte (128 + tag)) (String (byte (n mod 256)) (String (byte (n / 256)) body)) +:+ rest)
    with (hd +:+ (body +:+ rest)).
  assert (Hlen : String.length (hd +:+ (body +:+ rest)) = 3 + (n + String.length rest))
    by (rewrite !str_length_app; done).
  assert (H0 : byte_at (hd +:+ (body +:+ rest)) 0 = Z.of_nat (128 + tag)) by (apply byte_at_head; lia).
  pose proof (Nat.mod_upper_bound n 256 ltac:(lia)) as Hmod.
  pose proof (Nat.div_mod n 256 ltac:(lia)) as Hdm.
  assert (Hdiv : n / 256 < 256) by lia.
  assert (H1 : byte_at (hd +:+ (body +:+ rest)) (0 + 1) = Z.of_nat (n mod 256))
    by (apply (byte_at_head (n mod 256) (String (byte (n / 256)) (body +:+ rest))); lia).
  assert (H2 : byte_at (hd +:+ (body +:+ rest)) (0 + 2) = Z.of_nat (n / 256))
    by (apply (byte_at_head (n / 256) (body +:+ rest)); lia).
  destruct (large_tag_bits tag Ht) as [Hb1 Hb2].
  cbn [vpd_serial_loop]. cbv zeta. rewrite Hlen, H0, H1, H2, Hb1, Hb2.
  rewrite (proj2 (Nat.ltb_lt _ _)) by lia. rewrite (proj2 (Z.eqb_neq _ _)) by lia.
  change (0x80 =? 0)%Z with false. cbv iota. rewrite (proj2 (Nat.leb_gt _ _)) by lia.
  assert (Hn : Z.to_nat (Z.lor (Z.of_nat (n mod 256)) (Z.shiftl (Z.of_nat (n / 256)) 8)) = n)
    by (rewrite low_high_byte by lia; clear -Hdm; lia).
  rewrite Hn, (proj2 (Nat.ltb_ge _ _)) by lia.
  change (0 + 3) with (String.length hd + 0). rewrite bytes_app, bytes_prefix.
  replace (Z.of_nat tag =? 0x10)%Z with (tag =? 16)
    by (apply eq_true_iff_eq; rewrite Nat.eqb_eq, Z.eqb_eq; lia).
  destruct (if tag =? 16 then vpdKeywords body else None); [done|].
  rewrite <- str_app_assoc. replace (String.length hd + 0 + n) with (String.length (hd +:+ body) + 0)
    by (rewrite str_length_app; lia).
  apply vpd_serial_shift.
Qed.

(** [C36] The VPD parser reads back what a VPD holds: in an image with an
    identifier string, a read-only area with any entries before the serial
    number entry, and anything after, the parser returns the serial, less
    surrounding spaces. *)
Theorem vpdSerial_roundtrip ident ks sn rest tail :
  (Z.of_nat (String.length ident) < 65536)%Z → Forall entry_ok ks → String.length sn ≤ 255 →
  (Z.of_nat (String.length (vpd_entries ks +:+ vpd_entry "SN" sn +:+ rest)) < 65536)%Z →
  vpdSerial (vpd_large 2 ident +:+ vpd_large 16 (vpd_entries ks +:+ vpd_entry "SN" sn +:+ rest) +:+ tail) =
  Some (TrimSpace sn).
Proof.
  intros Hi Hks Hsn Hlen. unfold vpdSerial. set (body := vpd_entries ks +:+ vpd_entry "SN" sn +:+ rest) in *.
  rewrite str_length_app. unfold vpd_large at 1. cbn [String.length Nat.add].
  rewrite vpd_serial_large by (done || lia). cbn [Nat.eqb]. rewrite vpd_serial_large by (done || lia).
  cbn [Nat.eqb]. unfold body. by rewrite vpdKeywords_found.
Qed.

(** ** A concrete bus *)

Definition demo_vpd : string := vpd_large 2 "BlueField-3" +:+ vpd_large 16 (vpd_entries [("PN", "900-9D3B6")] +:+
  vpd_entry "SN" " MT2345X " +:+ "") +:+ String (byte 120) "".

Lemma vpdSerial_roundtrip_witness : vpdSerial demo_vpd = Some "MT2345X".
Proof.
  apply (vpdSerial_roundtrip "BlueField-3" [("PN", "900-9D3B6")] " MT2345X " "" (String (byte 120) "")).
  - vm_compute. reflexivity.
  - constructor; [|constructor]. split; [reflexivity|]. split; [discriminate|cbn; lia].
  - cbn. lia.
  - vm_compute. reflexivity.
Defined.

(** Two functions of one board, and a bridge of another vendor. *)
Definition demo_files : gmap string string :=
  {[ "r/0000:0f:00.0/vendor" := "0x15b3"; "r/0000:0f:00.0/device" := "0xa2dc"; "r/0000:0f:00.0/vpd" := demo_vpd;
     "r/0000:1f:00.0/vendor" := "0x1dd8"; "r/0000:1f:00.0/device" := "0x1000" ]}.

#[local] Instance demo_sysfs : Sysfs := {|
  sysfs_entries _ := Ok ["0000:0f:00.0"; "0000:0f:00.1"; "0000:1f:00.0"];
  sysfs_read p := match demo_files !! p with Some b => inl b | None => inr NotExist end;
  file_err _ := ENew "file error";
  filepath_join a b := a +:+ "/" +:+ b |}.

Lemma Enumerate_live_witness :
  ∃ live, LiveDevices (Some (Enumerate "r" 0)) = Ok live ∧ length live = 1 ∧
  NoDup (SerialNumber <$> live) ∧ Forall (λ d, ValidateIdentity d = Ok tt ∧ is_dpu_function 0 d) live.
Proof.
  assert (Hok : match LiveDevices (Some (Enumerate "r" 0)) with Ok l => length l | Err _ => 0 end = 1)
    by (vm_compute; reflexivity).
  destruct (LiveDevices (Some (Enumerate "r" 0))) as [live|e] eqn:Hl; [|discriminate Hok].
  exists live. split; [reflexivity|]. split; [exact Hok|]. exact (Enumerate_live "r" 0 live Hl).
Defined.
