(* ===== verification/CelNative.v ===== *)
(** * Unwrapping CEL values (celNative of pkg/mapping/cel.go)

    [celNative] turns what an expression evaluates to into the plain tree that
    unstructured objects hold.  A CEL value is a [ref.Val] of cel-go, the
    interface [RefVal]: its conversions to Go types, each of which may be refused,
    and the value it wraps.  A Go value that reaches the function is a [goval]. *)

From Stdlib Require Import Ascii ZArith Lia.
From stdpp Require Import base gmap strings list fin_maps.
From S2P Require Import Prelude GoStrings Unstructured MappingSpec MappingEngine.

(** [GSlice] is []any, [GMap] is map[string]any; [GSliceOf] and [GMapOf] are
    slices and maps of other types, which the code reaches by reflection.  A
    scalar is a string, a bool or a number. *)
Inductive goval (R : Type) : Type :=
| GNil
| GRef (r : R)
| GSlice (l : list (goval R))
| GMap (m : list (string * goval R))
| GSliceOf (l : list (goval R))
| GMapOf (m : list (goval R * goval R))
| GScalar (v : value).
Arguments GNil {R}. Arguments GRef {R}. Arguments GSlice {R}. Arguments GMap {R}.
Arguments GSliceOf {R}. Arguments GMapOf {R}. Arguments GScalar {R}.

(** [ConvertToNative] to each Go type, [Value], and [fmt.Sprint] of a value. *)
Class RefVal (R : Type) := {
  to_slice : R → option (list (goval R));
  to_map : R → option (list (string * goval R));
  to_string : R → option string;
  to_bool : R → option bool;
  to_int64 : R → option Z;
  to_float64 : R → option Z;
  Value : R → goval R;
  Sprint : goval R → string }.

Section CelNative.
Context {R : Type} `{EqDecision R} `{RefVal R}.

(** The scalar conversions, in the order they are tried. *)
Definition to_scalar (r : R) : option value :=
  match to_string r, to_bool r, to_int64 r, to_float64 r with
  | Some s, _, _, _ => Some (VString s)
  | None, Some b, _, _ => Some (VBool b)
  | None, None, Some z, _ => Some (VInt z)
  | None, None, None, Some f => Some (VFloat f)
  | None, None, None, None => None
  end.

Definition is_self (r : R) (inner : goval R) : bool :=
  match inner with GNil => true | GRef r' => bool_decide (r' = r) | _ => false end.

Fixpoint celNative (fuel : nat) (v : goval R) : option (goval R) :=
  match fuel with
  | O => None
  | S n =>
      match v with
      | GRef r =>
          match to_slice r, to_map r, to_scalar r with
          | Some l, _, _ => celNative n (GSlice l)
          | None, Some m, _ => celNative n (GMap m)
          | None, None, Some s => Some (GScalar s)
          | None, None, None => let inner := Value r in if is_self r inner then Some inner else celNative n inner
          end
      | GSlice l | GSliceOf l => GSlice <$> mapM (celNative n) l
      | GMap m => GMap <$> mapM (λ kv, x ← celNative n kv.2; Some (kv.1, x)) m
      | GMapOf m => GMap <$> mapM (λ kv, k ← celNative n kv.1; x ← celNative n kv.2; Some (Sprint k, x)) m
      | GNil | GScalar _ => Some v
      end
  end.

(** ** Plain trees *)

(** No wrapper is left: only []any, map[string]any, scalars and nil. *)
Fixpoint plain (v : goval R) : Prop :=
  match v with
  | GNil | GScalar _ => True
  | GSlice l => (fix all (l : list (goval R)) : Prop := match l with [] => True | x :: l' => plain x ∧ all l' end) l
  | GMap m =>
      (fix all (m : list (string * goval R)) : Prop := match m with [] => True | (_, x) :: m' => plain x ∧ all m' end) m
  | GRef _ | GSliceOf _ | GMapOf _ => False
  end.

Lemma plain_slice l : plain (GSlice l) ↔ Forall plain l.
Proof. induction l as [|x l IH]; cbn; [done|]. rewrite Forall_cons. cbn in IH. by rewrite IH. Qed.

Lemma plain_map m : plain (GMap m) ↔ Forall (λ kv, plain kv.2) m.
Proof. induction m as [|[k x] m IH]; cbn; [done|]. rewrite Forall_cons. cbn in IH. by rewrite IH. Qed.

(** The tree an unstructured object holds. *)
Fixpoint to_value (v : goval R) : value :=
  match v with
  | GScalar v => v
  | GSlice l => VList ((fix go (l : list (goval R)) := match l with [] => [] | x :: l' => to_value x :: go l' end) l)
  | GMap m =>
      VMap ((fix go (m : list (string * goval R)) : gmap string value :=
               match m with [] => ∅ | (k, x) :: m' => <[k := to_value x]> (go m') end) m)
  | _ => VNil
  end.

(** ** Depth *)

Context (rdepth : R → nat).

Fixpoint depth (v : goval R) : nat :=
  match v with
  | GNil | GScalar _ => 0
  | GRef r => S (rdepth r)
  | GSlice l | GSliceOf l => S ((fix go (l : list (goval R)) := match l with [] => 0 | x :: l' => depth x `max` go l' end) l)
  | GMap m =>
      S ((fix go (m : list (string * goval R)) := match m with [] => 0 | (_, x) :: m' => depth x `max` go m' end) m)
  | GMapOf m =>
      S ((fix go (m : list (goval R * goval R)) := match m with [] => 0 | (k, x) :: m' => depth k `max` depth x `max` go m' end) m)
  end.

Lemma depth_slice n l : depth (GSlice l) < S n → Forall (λ x, depth x < n) l.
Proof.
  intros Hd. cbn in Hd. apply PeanoNat.Nat.succ_lt_mono in Hd. induction l as [|x l IH]; [done|]. constructor; [lia|apply IH; lia].
Qed.

Lemma depth_map n m : depth (GMap m) < S n → Forall (λ kv, depth kv.2 < n) m.
Proof.
  intros Hd. cbn in Hd. apply PeanoNat.Nat.succ_lt_mono in Hd. induction m as [|[k x] m IH]; [done|]. constructor; [cbn; lia|apply IH; lia].
Qed.

Lemma depth_map_of n m : depth (GMapOf m) < S n → Forall (λ kv, depth kv.1 < n ∧ depth kv.2 < n) m.
Proof.
  intros Hd. cbn in Hd. apply PeanoNat.Nat.succ_lt_mono in Hd. induction m as [|[k x] m IH]; [done|]. constructor; [cbn; lia|apply IH; lia].
Qed.

(** A CEL value is a finite tree, and no value wraps itself. *)
Class FiniteRef : Prop := {
  slice_below r l : to_slice r = Some l → depth (GSlice l) ≤ rdepth r;
  map_below r m : to_map r = Some m → depth (GMap m) ≤ rdepth r;
  value_below r : to_slice r = None → to_map r = None → to_scalar r = None → depth (Value r) ≤ rdepth r }.

Context `{FiniteRef}.

(** The step on the parts of a tree. *)
Lemma parts_total {A B} (f g : A → option B) (P : B → Prop) l :
  Forall (λ x, ∃ y, f x = Some y ∧ g x = Some y ∧ P y) l →
  ∃ ys, mapM f l = Some ys ∧ mapM g l = Some ys ∧ Forall P ys.
Proof.
  induction 1 as [|x l (y & Hf & Hg & HP) _ (ys & Hfs & Hgs & HPs)]; [by exists []|].
  exists (y :: ys). split; [|split; [|by constructor]].
  - change (mapM f (x :: l)) with (y' ← f x; ys' ← mapM f l; Some (y' :: ys')). by rewrite Hf, Hfs.
  - change (mapM g (x :: l)) with (y' ← g x; ys' ← mapM g l; Some (y' :: ys')). by rewrite Hg, Hgs.
Qed.

Lemma slice_total n n' l :
  (∀ n' v, depth v < n → n ≤ n' → ∃ out, celNative n v = Some out ∧ celNative n' v = Some out ∧ plain out) →
  depth (GSlice l) < S n → n ≤ n' →
  ∃ out, GSlice <$> mapM (celNative n) l = Some out ∧ GSlice <$> mapM (celNative n') l = Some out ∧ plain out.
Proof.
  intros IH Hd Hn. edestruct (parts_total (celNative n) (celNative n') plain l) as (ys & -> & -> & Hp).
  - eapply Forall_impl; [apply (depth_slice n), Hd|]. intros x Hx. by apply IH.
  - exists (GSlice ys). split; [done|]. split; [done|]. by apply plain_slice.
Qed.

Lemma celNative_total n n' v :
  depth v < n → n ≤ n' → ∃ out, celNative n v = Some out ∧ celNative n' v = Some out ∧ plain out.
Proof.
  revert n' v. induction n as [|n IH]; intros n' v Hd Hn; [lia|]. destruct n' as [|n']; [lia|]. apply le_S_n in Hn.
  destruct v as [|r|l|m|l|m|x]; cbn [celNative].
  - by exists GNil.
  - cbn in Hd. destruct (to_slice r) as [l|] eqn:Hl; [apply IH; [apply slice_below in Hl; lia|done]|].
    destruct (to_map r) as [m|] eqn:Hm; [apply IH; [apply map_below in Hm; lia|done]|].
    destruct (to_scalar r) as [x|] eqn:Hs; [by exists (GScalar x)|]. cbv zeta.
    pose proof (value_below r Hl Hm Hs) as Hv. destruct (is_self r (Value r)) eqn:Hself; [|apply IH; [lia|done]].
    destruct (Value r) as [|r'| | | | |]; try done; [by exists GNil|]. cbn in Hself. apply bool_decide_eq_true in Hself as ->.
    cbn in Hv. lia.
  - by apply slice_total.
  - edestruct (parts_total (λ kv, x ← celNative n kv.2; Some (kv.1, x)) (λ kv, x ← celNative n' kv.2; Some (kv.1, x))
      (λ kv, plain kv.2) m) as (ys & -> & -> & Hp); [|exists (GMap ys); rewrite plain_map; done].
    eapply Forall_impl; [apply (depth_map n), Hd|]. intros [k x] Hx. destruct (IH n' x Hx Hn) as (y & Hy & Hy' & Hp).
    exists (k, y). cbn. by rewrite Hy, Hy'.
  - by apply slice_total.
  - edestruct (parts_total (λ kv, k ← celNative n kv.1; x ← celNative n kv.2; Some (Sprint k, x))
      (λ kv, k ← celNative n' kv.1; x ← celNative n' kv.2; Some (Sprint k, x))
      (λ kv, plain kv.2) m) as (ys & -> & -> & Hp); [|exists (GMap ys); rewrite plain_map; done].
    eapply Forall_impl; [apply (depth_map_of n), Hd|]. intros [k x] [Hk Hx].
    destruct (IH n' k Hk Hn) as (k' & Hk1 & Hk2 & _), (IH n' x Hx Hn) as (y & Hy & Hy' & Hp).
    exists (Sprint k', y). cbn. by rewrite Hk1, Hk2, Hy, Hy'.
  - by exists (GScalar x).
Qed.

(** A plain tree is left as it is. *)
Lemma celNative_fixes n v : depth v < n → plain v → celNative n v = Some v.
Proof.
  revert v. induction n as [|n IH]; intros v Hd Hv; [lia|].
  destruct v as [|r|l|m|l|m|x]; cbn [celNative]; try done.
  - apply plain_slice in Hv. apply (depth_slice n) in Hd. assert (mapM (celNative n) l = Some l) as ->; [|done].
    apply mapM_Some_2. apply Forall_Forall2_diag. by eapply Forall_impl; [apply Forall_and; split; [exact Hd|exact Hv]|intros ? [??]; apply IH].
  - apply plain_map in Hv. apply (depth_map n) in Hd.
    assert (mapM (λ kv, x ← celNative n kv.2; Some (kv.1, x)) m = Some m) as ->; [|done].
    apply mapM_Some_2, Forall_Forall2_diag. eapply Forall_impl; [apply Forall_and; split; [exact Hd|exact Hv]|].
    intros [k x] [Hx Hp]. cbn in *. by rewrite (IH x Hx Hp).
Qed.

(** [C26] Unwrapping gives plain trees.  On every finite CEL value the recursion ends,
    within as many calls as the value is deep, and what it returns has no CEL
    wrapper and no typed slice or map in it, at any depth: only []any,
    map[string]any, strings, bools, numbers and nil, which is what unstructured
    objects may hold.  A plain tree is returned unchanged. *)
Theorem celNative_plain v :
  ∃ out, plain out ∧ (∀ n, depth v < n → celNative n v = Some out) ∧ (plain v → out = v).
Proof.
  destruct (celNative_total (S (depth v)) (S (depth v)) v) as (out & Ho & _ & Hp); [lia|done|].
  exists out. split; [done|]. split.
  - intros n Hn. destruct (celNative_total (S (depth v)) n v) as (out' & Ho' & Hn' & _); [lia|lia|].
    by rewrite Hn', <- Ho', Ho.
  - intros Hv. rewrite celNative_fixes in Ho by (done || lia). by injection Ho as <-.
Qed.

(** What the interpreter's interface asks for: the tree of a CEL value. *)
Definition native_value (r : R) : value := to_value (default GNil (celNative (S (S (rdepth r))) (GRef r))).

End CelNative.

(** ** A concrete CEL value *)

(** Strings, ints, uints (which convert to none of the types tried) and pairs. *)
Inductive cval := CStr (s : string) | CInt (z : Z) | CUint (z : Z) | CPair (a b : cval).

#[global] Instance cval_eq_dec : EqDecision cval.
Proof. solve_decision. Defined.

#[global] Instance cval_ref : RefVal cval := {|
  to_slice r := match r with CPair a b => Some [GRef a; GRef b] | _ => None end;
  to_map _ := None;
  to_string r := match r with CStr s => Some s | _ => None end;
  to_bool _ := None;
  to_int64 r := match r with CInt z => Some z | _ => None end;
  to_float64 _ := None;
  Value r := match r with CUint z => GScalar (VInt z) | _ => GNil end;
  Sprint v := match v with GScalar (VString s) => s | _ => "" end |}.

Fixpoint cval_depth (r : cval) : nat :=
  match r with CPair a b => S (S (cval_depth a) `max` (S (cval_depth b) `max` 0)) | _ => 0 end.

#[global] Instance cval_finite : FiniteRef cval_depth.
Proof. split; intros r; destruct r; cbn; naive_solver lia. Qed.

(** A typed map whose values are wrapped. *)
Definition wrapped : goval cval := GMapOf [(GRef (CStr "ports"), GRef (CPair (CInt 1) (CUint 2)))].

Lemma celNative_plain_witness :
  ∃ out, plain out ∧ celNative 5 wrapped = Some out ∧
    to_value out = VMap {[ "ports" := VList [VInt 1; VInt 2] ]}.
Proof.
  destruct (celNative_plain cval_depth wrapped) as (out & Hp & Hn & _).
  exists out. split; [exact Hp|]. assert (Ho : celNative 5 wrapped = Some out) by (apply Hn; vm_compute; lia).
  split; [exact Ho|]. vm_compute in Ho. injection Ho as <-. reflexivity.
Defined.
