(* ===== verification/Base64.v ===== *)
(** * Base64 (encoding/base64, StdEncoding)

    Helm stores a release in a Secret as the base64 text of a gzip stream.  The
    encoder works on groups of three bytes, with [=] as padding; the decoder
    ignores line breaks, wants the padding, and does not look at the unused bits
    of the last group. *)

From Stdlib Require Import Ascii ZArith Lia ZifyNat.
From stdpp Require Import base strings list.
From S2P Require Import Prelude GoStrings.

Definition byte_val (c : ascii) : nat := nat_of_ascii c.

(** The n-th letter of the alphabet. *)
Definition b64_char (n : nat) : ascii :=
  if n <? 26 then ascii_of_nat (65 + n)
  else if n <? 52 then ascii_of_nat (97 + (n - 26))
  else if n <? 62 then ascii_of_nat (48 + (n - 52))
  else if n =? 62 then "+"%char else "/"%char.

Definition b64_val (c : ascii) : option nat :=
  let n := byte_val c in
  if (65 <=? n) && (n <=? 90) then Some (n - 65)
  else if (97 <=? n) && (n <=? 122) then Some (n - 97 + 26)
  else if (48 <=? n) && (n <=? 57) then Some (n - 48 + 52)
  else if n =? 43 then Some 62
  else if n =? 47 then Some 63
  else None.

Fixpoint EncodeToString (s : string) : string :=
  match s with
  | "" => ""
  | String a "" =>
      String (b64_char (byte_val a / 4)) (String (b64_char (byte_val a mod 4 * 16)) "==")
  | String a (String b "") =>
      String (b64_char (byte_val a / 4)) (String (b64_char (byte_val a mod 4 * 16 + byte_val b / 16))
        (String (b64_char (byte_val b mod 16 * 4)) "="))
  | String a (String b (String c s')) =>
      String (b64_char (byte_val a / 4)) (String (b64_char (byte_val a mod 4 * 16 + byte_val b / 16))
        (String (b64_char (byte_val b mod 16 * 4 + byte_val c / 64)) (String (b64_char (byte_val c mod 64))
          (EncodeToString s'))))
  end.

Definition line_break (c : ascii) : bool := bool_decide (c = "010"%char) || bool_decide (c = "013"%char).

Fixpoint drop_breaks (s : string) : string :=
  match s with
  | "" => ""
  | String c s' => if line_break c then drop_breaks s' else String c (drop_breaks s')
  end.

Definition pad : ascii := "="%char.

(** Groups of four; padding ends the text. *)
Fixpoint decode_quanta (s : string) : option string :=
  match s with
  | "" => Some ""
  | String c1 (String c2 (String c3 (String c4 s'))) =>
      match b64_val c1, b64_val c2 with
      | Some v1, Some v2 =>
          let x := ascii_of_nat (v1 * 4 + v2 / 16) in
          if bool_decide (c3 = pad) then
            if bool_decide (c4 = pad) && (s' == "") then Some (String x "") else None
          else match b64_val c3 with
          | None => None
          | Some v3 =>
              let y := ascii_of_nat (v2 mod 16 * 16 + v3 / 4) in
              if bool_decide (c4 = pad) then (if s' == "" then Some (String x (String y "")) else None)
              else match b64_val c4 with
              | None => None
              | Some v4 =>
                  (λ r, String x (String y (String (ascii_of_nat (v3 mod 4 * 64 + v4)) r))) <$> decode_quanta s'
              end
          end
      | _, _ => None
      end
  | _ => None
  end.

(** [None]: CorruptInputError. *)
Definition DecodeString (s : string) : option string := decode_quanta (drop_breaks s).

(** ** The round trip *)

Lemma b64_char_spec n : n < 64 →
  b64_val (b64_char n) = Some n ∧ b64_char n ≠ pad ∧ line_break (b64_char n) = false ∧ byte_val (b64_char n) ≠ 31.
Proof.
  intros Hn.
  assert (Hall : forallb (λ n, bool_decide (b64_val (b64_char n) = Some n) && bool_decide (b64_char n ≠ pad) &&
    negb (line_break (b64_char n)) && bool_decide (byte_val (b64_char n) ≠ 31)) (seq 0 64) = true)
    by (vm_compute; reflexivity).
  rewrite forallb_forall in Hall. specialize (Hall n ltac:(apply in_seq; lia)).
  rewrite !andb_true_iff, !bool_decide_eq_true, negb_true_iff in Hall. tauto.
Qed.

Lemma byte_val_bound c : byte_val c < 256.
Proof. apply nat_ascii_bounded. Qed.

Lemma byte_val_inv c n : n = byte_val c → ascii_of_nat n = c.
Proof. intros ->. apply ascii_nat_embedding. Qed.

(** Induction in steps of three bytes. *)
Lemma three_ind (P : string → Prop) :
  P "" → (∀ a, P (String a "")) → (∀ a b, P (String a (String b ""))) →
  (∀ a b c s, P s → P (String a (String b (String c s)))) → ∀ s, P s.
Proof.
  intros H0 H1 H2 H3 s.
  assert (Hall : ∀ n s, String.length s ≤ n → P s); [|by apply (Hall (String.length s))].
  clear s. induction n as [|n IH]; intros s Hs.
  - destruct s; [done|cbn in Hs; lia].
  - destruct s as [|a [|b [|c s]]]; auto. apply H3, IH. cbn in Hs. lia.
Qed.

Ltac b64_bounds :=
  repeat match goal with
  | |- context [byte_val ?c] =>
      lazymatch goal with H : byte_val c < 256 |- _ => fail | _ => pose proof (byte_val_bound c) end
  end.

Ltac b64_letter :=
  match goal with
  | |- context [b64_val (b64_char ?n)] =>
      let H := fresh in assert (H : n < 64) by (b64_bounds; zify; Z.div_mod_to_equations; lia);
      rewrite (proj1 (b64_char_spec n H))
  | |- context [bool_decide (b64_char ?n = pad)] =>
      let H := fresh in assert (H : n < 64) by (b64_bounds; zify; Z.div_mod_to_equations; lia);
      rewrite (bool_decide_eq_false_2 _ (proj1 (proj2 (b64_char_spec n H))))
  end.

Ltac b64_byte := apply byte_val_inv; b64_bounds; zify; Z.div_mod_to_equations; lia.

Lemma drop_breaks_encode s : drop_breaks (EncodeToString s) = EncodeToString s.
Proof.
  assert (Hc : ∀ n, n < 64 → ∀ s, drop_breaks (String (b64_char n) s) = String (b64_char n) (drop_breaks s)).
  { intros n Hn s'. cbn. by rewrite (proj1 (proj2 (proj2 (b64_char_spec n Hn)))). }
  induction s as [|a|a b|a b c s IH] using three_ind; cbn [EncodeToString]; [done|..];
    (repeat rewrite Hc by (b64_bounds; zify; Z.div_mod_to_equations; lia)); [done|done|by rewrite IH].
Qed.

Lemma Decode_Encode s : DecodeString (EncodeToString s) = Some s.
Proof.
  unfold DecodeString. rewrite drop_breaks_encode.
  induction s as [|a|a b|a b c s IH] using three_ind; cbn [EncodeToString decode_quanta]; [done|..];
    repeat b64_letter; rewrite ?bool_decide_eq_true_2 by done; cbn [andb];
    rewrite ?bool_decide_eq_true_2 by done.
  - do 2 f_equal. b64_byte.
  - do 2 f_equal; [b64_byte|]. f_equal. b64_byte.
  - rewrite IH. cbn [fmap option_fmap option_map]. f_equal. f_equal; [b64_byte|]. f_equal; [b64_byte|].
    f_equal. b64_byte.
Qed.

(** The text of a non-empty input never starts like a gzip stream. *)
Lemma Encode_head s c t : EncodeToString s = String c t → byte_val c ≠ 31.
Proof.
  assert (Hq : ∀ a, byte_val (b64_char (byte_val a / 4)) ≠ 31).
  { intros a. apply (b64_char_spec (byte_val a / 4)). b64_bounds. zify. Z.div_mod_to_equations. lia. }
  destruct s as [|a [|b [|d s]]]; cbn [EncodeToString]; [done|..]; intros Heq; injection Heq as Hc _;
    rewrite <- Hc; apply Hq.
Qed.

Lemma Encode_nonempty s : s ≠ "" → EncodeToString s ≠ "".
Proof. by destruct s as [|a [|b [|d s]]]. Qed.
