(* ===== verification/HelmStorage.v ===== *)
(** * Helm releases in Secrets (pkg/lifecycle/secret_helm_client.go)

    Helm v3 keeps each revision of a release in a Secret.  [SecretHelmClient]
    reads the newest one, stamps ownership labels on it when it is claimed, and
    refuses every other mutation.

    The API server is the interface [SecretAPI].  gzip and JSON are the
    interface [StorageCodec]: base64 is modelled, so that what reading and
    writing a payload share is the one law that decoding inverts encoding. *)

From Stdlib Require Import Ascii ZArith.
From stdpp Require Import base gmap strings list fin_maps.
From S2P Require Import Prelude GoStrings Unstructured Version InstallConfig Release HelmInstaller Ensure Conditions Controller Base64.

Definition helmStorageSecretType : string := "helm.sh/release.v1".
Definition helmReleaseNameLabel : string := "name".
Definition helmReleaseVersionLabel : string := "version".
Definition helmStatusSuperseded : string := "superseded".
Definition statusKey : string := "status".

(** ** Payloads *)

Record helmStorageRelease := {
  DocName : string;
  DocNamespace : string;
  DocVersion : Z;
  DocStatus : string;
  DocChartName : string;
  DocChartVersion : string;
  DocLabels : option (gmap string string) }.

#[global] Instance helmStorageRelease_eq_dec : EqDecision helmStorageRelease.
Proof. solve_decision. Defined.

(** encoding/json and compress/gzip. *)
Class StorageCodec := {
  json_marshal : helmStorageRelease → result string;
  json_unmarshal : string → result helmStorageRelease;
  gzip_bytes : string → result string;
  gzip_read : string → result string }.

Definition is_ascii_text (s : string) : Prop := all_chars (λ c, nat_of_ascii c <? 128) s = true.

(** JSON replaces bytes that are not UTF-8; ASCII text is kept. *)
Definition plain_doc (d : helmStorageRelease) : Prop :=
  Forall is_ascii_text [DocName d; DocNamespace d; DocStatus d; DocChartName d; DocChartVersion d] ∧
  map_Forall (λ k v, is_ascii_text k ∧ is_ascii_text v) (default ∅ (DocLabels d)) ∧
  (min_int64 ≤ DocVersion d ≤ max_int64)%Z.

(** The magic number of RFC 1952. *)
Definition gzip_magic (raw : string) : bool :=
  match raw with
  | String a (String b _) => (nat_of_ascii a =? 31) && (nat_of_ascii b =? 139)
  | _ => false
  end.

Class StorageCodecLaws `{StorageCodec} : Prop := {
  json_total : ∀ d, plain_doc d → is_ok (json_marshal d) = true;
  json_inverse : ∀ d b, plain_doc d → json_marshal d = Ok b → json_unmarshal b = Ok d;
  gzip_total : ∀ b, is_ok (gzip_bytes b) = true;
  gzip_header : ∀ b z, gzip_bytes b = Ok z → gzip_magic z = true;
  gzip_inverse : ∀ b z, gzip_bytes b = Ok z → gzip_read z = Ok b }.

Section Codec.
Context `{StorageCodec}.

Definition gunzipBytes (raw : string) : result string :=
  if negb (gzip_magic raw) then Err (EFmt "not gzip" []) else gzip_read raw.

Definition encodeHelmStorageRelease (doc : helmStorageRelease) : result string :=
  let! body := json_marshal doc in
  let! buf := gzip_bytes body in
  Ok (EncodeToString buf).

Definition decodeHelmStorageRelease (data : string) : result helmStorageRelease :=
  if data == "" then Err (EFmt "helm release payload is empty" [])
  else
    let raw := default data (DecodeString data) in
    let raw :=
      match gunzipBytes raw with
      | Ok unzipped => unzipped
      | Err _ =>
          match DecodeString raw with
          | Some decoded => match gunzipBytes decoded with Ok unzipped => unzipped | Err _ => raw end
          | None => raw
          end
      end in
    json_unmarshal raw.

End Codec.

(** ** Secrets *)

(** [None] is the nil map. *)
Record Secret := {
  SecName : string;
  SecNamespace : string;
  SecType : string;
  SecLabels : option (gmap string string);
  SecData : option (gmap string string);
  SecResourceVersion : string }.

#[global] Instance Secret_eq_dec : EqDecision Secret.
Proof. solve_decision. Defined.

Definition with_labels (ls : gmap string string) (s : Secret) : Secret :=
  {| SecName := SecName s; SecNamespace := SecNamespace s; SecType := SecType s; SecLabels := Some ls;
     SecData := SecData s; SecResourceVersion := SecResourceVersion s |}.

(** The digits of an unsigned literal up to the first one that leaves 64 bits
    ([inl]), or all of them ([inr]); [None] when a byte is not a digit. *)
Fixpoint scan_uint64 (acc : Z) (s : string) : option (unit + Z) :=
  match s with
  | "" => Some (inr acc)
  | String c s' =>
      match digit_val 10 c with
      | None => None
      | Some d =>
          let n := (acc * 10 + d)%Z in
          if (2 ^ 64 - 1 <? n)%Z then Some (inl ()) else scan_uint64 n s'
      end
  end.

(** The int that [strconv.Atoi] returns beside an error that is dropped: zero
    for bad syntax, the nearest int when out of range. *)
Definition atoi_value (s : string) : Z :=
  let '(neg, body) := match s with
                      | String "-" s' => (true, s')
                      | String "+" s' => (false, s')
                      | _ => (false, s)
                      end in
  match body, scan_uint64 0 body with
  | "", _ | _, None => 0%Z
  | _, Some (inl _) => if neg : bool then min_int64 else max_int64
  | _, Some (inr v) => if neg then Z.max min_int64 (- v) else Z.min max_int64 v
  end.

(** The best secret so far with its revision. *)
Definition newer (best : option (Secret * Z)) (item : Secret) : option (Secret * Z) :=
  if (SecType item != helmStorageSecretType) && (SecType item != "") then best
  else
    let ver := atoi_value (label (SecLabels item) helmReleaseVersionLabel) in
    let status := label (SecLabels item) statusKey in
    if (status != "") && (status != HelmStatusDeployed) && (status != helmStatusSuperseded) then best
    else match best with
    | None => Some (item, ver)
    | Some (_, bestVer) =>
        if (bestVer <? ver)%Z || ((ver =? bestVer)%Z && (status == HelmStatusDeployed))
        then Some (item, ver) else best
    end.

Definition latestHelmSecret (items : list Secret) : option Secret := fst <$> foldl newer None items.

Section Release.
Context `{StorageCodec}.

Definition releaseFromHelmSecret (sec : Secret) : result HelmRelease :=
  let raw := match SecData sec with Some d => default "" (d !! "release") | None => "" end in
  let! doc := decodeHelmStorageRelease raw in
  let labels := default ∅ (DocLabels doc) ∪ default ∅ (SecLabels sec) in
  Ok {| RelName := if DocName doc == "" then label (SecLabels sec) helmReleaseNameLabel else DocName doc;
        RelNamespace := if DocNamespace doc == "" then SecNamespace sec else DocNamespace doc;
        RelChartName := DocChartName doc;
        RelChartVersion := DocChartVersion doc;
        RelStatus := if DocStatus doc == "" then label (SecLabels sec) statusKey else DocStatus doc;
        Revision := DocVersion doc;
        LastKnownGood := "";
        Labels := Some labels |}.

End Release.

(** ** The API server *)

(** [sec_list] is the list in a namespace with the release-name label. *)
Class SecretAPI (W : Type) := {
  sec_list : W → string → string → W * result (list Secret);
  sec_get : W → string → string → W * result Secret;
  sec_create : W → Secret → W * option err;
  sec_update : W → Secret → W * option err;
  sec_delete : W → Secret → W * option err;
  SIsNotFound : err → bool;
  SIsForbidden : err → bool;
  SIsConflict : err → bool;
  SIsAlreadyExists : err → bool;
  (** apierrors.NewConflict of a resource and a cause *)
  NewConflict : string → err → err }.

(** ** The client *)

Section Client.
Context {W : Type} `{SecretAPI W} `{StorageCodec} `{ControllerUtil}.

(** [s != nil && s.Client != nil] *)
Context (HasClient : bool).

Definition fail_with (w : W) (e : err) : outcome W := (w, (zero_release, Some e)).

Definition secret_GetRelease (w : W) (namespace name : string) : outcome W :=
  if negb HasClient then fail_with w ErrReleaseNotFound
  else
    let '(w, r) := sec_list w namespace name in
    match r with
    | Err e => fail_with w (if SIsForbidden e || SIsNotFound e then ErrReleaseNotFound else e)
    | Ok items =>
        match latestHelmSecret items with
        | None => fail_with w ErrReleaseNotFound
        | Some sec =>
            match releaseFromHelmSecret sec with
            | Err e => fail_with w e
            | Ok rel => (w, (rel, None))
            end
        end
    end.

Definition secret_Install (w : W) (_ : InstallConfig) (_ : option (gmap string value)) : outcome W :=
  fail_with w ErrHelmMutationNotConfigured.

Definition refuseUnlessOwned (w : W) (cfg : InstallConfig) : outcome W :=
  let '(w, (rel, e)) := secret_GetRelease w (IcNamespace cfg) (ReleaseName cfg) in
  match e with
  | Some e => fail_with w e
  | None =>
      if negb (ManagedByAdapter rel) then fail_with w ErrReleaseUnmanaged
      else fail_with w ErrHelmMutationNotConfigured
  end.

Definition secret_Upgrade (w : W) (cfg : InstallConfig) (_ : option (gmap string value)) : outcome W :=
  refuseUnlessOwned w cfg.

Definition secret_Rollback (w : W) (cfg : InstallConfig) (_ : string) : outcome W := refuseUnlessOwned w cfg.

Definition secret_Uninstall (w : W) (cfg : InstallConfig) : outcome W :=
  let '(w, (rel, e)) := secret_GetRelease w (IcNamespace cfg) (ReleaseName cfg) in
  match e with
  | Some e => fail_with w e
  | None =>
      if negb (AllowsDelete (ClassifyReleaseOwnership rel)) then fail_with w ErrReleaseUnmanaged
      else fail_with w ErrHelmMutationNotConfigured
  end.

Definition latestStorageSecret (w : W) (namespace name : string) : W * result Secret :=
  let '(w, r) := sec_list w namespace name in
  (w, match r with
      | Err e => Err e
      | Ok items => match latestHelmSecret items with Some sec => Ok sec | None => Err ErrReleaseNotFound end
      end).

Definition alreadyAdoptedLabels (labels : option (gmap string string)) : bool :=
  (label labels ReleaseOwnerLabel == ReleaseOwner) && (label labels ReleaseModeLabel == ReleaseModeAdopted).

(** One run of the claim; the state carries [claimed]. *)
Definition claim_attempt (cfg : InstallConfig) (s : W * HelmRelease) : (W * HelmRelease) * option err :=
  let '(w, claimed) := s in
  let get w := secret_GetRelease w (IcNamespace cfg) (ReleaseName cfg) in
  let '(w, (rel, e)) := get w in
  match e with
  | Some e => ((w, claimed), Some e)
  | None =>
      if negb (matchesPinnedRelease rel cfg) then ((w, rel), Some ErrReleaseUnmanaged)
      else
        let '(w, r) := latestStorageSecret w (IcNamespace cfg) (ReleaseName cfg) in
        match r with
        | Err e => ((w, claimed), Some e)
        | Ok sec =>
            if alreadyAdoptedLabels (SecLabels sec) then ((w, rel), None)
            else
              let '(w, r) := sec_get w (SecNamespace sec) (SecName sec) in
              match r with
              | Err e => ((w, claimed), Some e)
              | Ok fresh =>
                  if alreadyAdoptedLabels (SecLabels fresh) then
                    let '(w, (claimed, e)) := get w in ((w, claimed), e)
                  else
                    let '(w, e) := sec_update w (with_labels (stampAdoptedLabels (SecLabels fresh)) fresh) in
                    match e with
                    | Some e => ((w, claimed), Some e)
                    | None => let '(w, (claimed, e)) := get w in ((w, claimed), e)
                    end
              end
        end
  end.

Definition secret_ClaimRelease (w : W) (cfg : InstallConfig) : outcome W :=
  match ValidateInstallConfig cfg with
  | Err e => fail_with w e
  | Ok _ =>
      let '((w, claimed), e) := Retry _ SIsConflict (claim_attempt cfg) (w, zero_release) in
      (w, (claimed, e))
  end.

End Client.

(** ** The payload round trip *)

Section RoundTrip.
Context `{StorageCodecLaws}.

(** What the encoder writes. *)
Lemma encode_spec doc : plain_doc doc → ∃ z body,
  encodeHelmStorageRelease doc = Ok (EncodeToString z) ∧ z ≠ "" ∧
  gunzipBytes z = Ok body ∧ json_unmarshal body = Ok doc.
Proof.
  intros Hp. unfold encodeHelmStorageRelease.
  destruct (json_marshal doc) as [body|e] eqn:Hj; [|by pose proof (json_total doc Hp) as Ht; rewrite Hj in Ht].
  cbn [result_bind].
  destruct (gzip_bytes body) as [z|e] eqn:Hz; [|by pose proof (gzip_total body) as Ht; rewrite Hz in Ht].
  exists z, body. split; [done|]. split; [intros ->; by pose proof (gzip_header body "" Hz)|].
  split; [|by apply (json_inverse doc body Hp Hj)].
  unfold gunzipBytes. rewrite (gzip_header body z Hz). by apply gzip_inverse.
Qed.

Lemma storage_decodes doc payload :
  plain_doc doc → encodeHelmStorageRelease doc = Ok payload → decodeHelmStorageRelease payload = Ok doc.
Proof.
  intros Hp He. destruct (encode_spec doc Hp) as (z & body & Hz & Hne & Hg & Hd). rewrite He in Hz.
  injection Hz as ->. unfold decodeHelmStorageRelease.
  rewrite bool_decide_eq_false_2 by (by apply Encode_nonempty). by rewrite Decode_Encode; cbn; rewrite Hg.
Qed.

(** [C20] The storage codec inverts itself: a release document of ASCII text can
    be encoded, and the decoder gives the document back, from the payload as
    Helm writes it and from the payload encoded once more, as the API server
    hands it out. *)
Theorem storage_roundtrip doc :
  plain_doc doc →
  ∃ payload, encodeHelmStorageRelease doc = Ok payload ∧
    decodeHelmStorageRelease payload = Ok doc ∧
    decodeHelmStorageRelease (EncodeToString payload) = Ok doc.
Proof.
  intros Hp. destruct (encode_spec doc Hp) as (z & body & Hz & Hne & Hg & Hd).
  exists (EncodeToString z). split; [done|]. split; [by apply storage_decodes|].
  unfold decodeHelmStorageRelease. rewrite bool_decide_eq_false_2 by (by do 2 apply Encode_nonempty).
  rewrite Decode_Encode. cbn [default from_option id].
  destruct (gunzipBytes (EncodeToString z)) as [u|e] eqn:Hu; [|by rewrite Decode_Encode, Hg].
  exfalso. unfold gunzipBytes in Hu. destruct (gzip_magic (EncodeToString z)) eqn:Hm; [|done].
  destruct (EncodeToString z) as [|c [|c' t]] eqn:He; [done|done|].
  cbn in Hm. apply andb_true_iff in Hm as [Hm _]. apply Nat.eqb_eq in Hm. by apply Encode_head in He.
Qed.

End RoundTrip.

(** ** A concrete codec *)

Fixpoint bits_text (p : positive) : string :=
  match p with
  | xH => ""
  | xO p => String "0" (bits_text p)
  | xI p => String "1" (bits_text p)
  end.

Fixpoint text_bits (s : string) : positive :=
  match s with
  | "" => xH
  | String c s' => if bool_decide (c = "0"%char) then xO (text_bits s') else xI (text_bits s')
  end.

Lemma text_bits_text p : text_bits (bits_text p) = p.
Proof. induction p as [p IH|p IH|]; cbn; by rewrite ?IH. Qed.

#[global] Instance helmStorageRelease_countable : Countable helmStorageRelease.
Proof.
  refine (inj_countable'
    (λ d, (DocName d, DocNamespace d, DocVersion d, DocStatus d, DocChartName d, DocChartVersion d, DocLabels d))
    (λ '(a, b, c, d, e, f, g), {| DocName := a; DocNamespace := b; DocVersion := c; DocStatus := d;
       DocChartName := e; DocChartVersion := f; DocLabels := g |}) _).
  by intros [].
Defined.

Definition gzip_head : string := String "031" (String (ascii_of_nat 139) "").

Definition bits_codec : StorageCodec := {|
  json_marshal d := Ok (bits_text (encode d));
  json_unmarshal s := match decode (text_bits s) with Some d => Ok d | None => Err (ENew "syntax") end;
  gzip_bytes b := Ok (gzip_head +:+ b);
  gzip_read z := match strip_prefix gzip_head z with Some b => Ok b | None => Err (ENew "header") end |}.

#[local] Existing Instance bits_codec.

Lemma bits_codec_laws : StorageCodecLaws.
Proof.
  split; cbn; try done.
  - intros d b _ [= <-]. by rewrite text_bits_text, decode_encode.
  - by intros b z [= <-].
  - by intros b z [= <-].
Qed.

Definition demo_doc : helmStorageRelease :=
  {| DocName := "opi-lcm-probe"; DocNamespace := "opi"; DocVersion := 3; DocStatus := "deployed";
     DocChartName := "probe"; DocChartVersion := "1.2.3"; DocLabels := Some {[ "status" := "deployed" ]} |}.

Lemma storage_roundtrip_witness :
  ∃ payload, encodeHelmStorageRelease demo_doc = Ok payload ∧
    decodeHelmStorageRelease payload = Ok demo_doc ∧
    decodeHelmStorageRelease (EncodeToString payload) = Ok demo_doc.
Proof.
  apply (@storage_roundtrip bits_codec bits_codec_laws demo_doc). split; [|split].
  - repeat constructor.
  - apply map_Forall_singleton. split; reflexivity.
  - vm_compute. split; discriminate.
Defined.
