(* ===== verification/HelmCluster.v ===== *)
(** * The cluster Helm client (pkg/lifecycle/cluster_helm_client.go)

    [ClusterHelmClient] reads releases like [SecretHelmClient] and installs a
    local chart: it renders the templates, applies the manifests, and stores each
    revision in a Secret of its own.  It refuses the release name of the live DPF
    operator.  The manifests' API, the chart directory and the YAML decoder are
    interfaces. *)

From Stdlib Require Import Ascii ZArith.
From stdpp Require Import base gmap strings list fin_maps.
From S2P Require Import Prelude GoStrings Unstructured Version InstallConfig Release HelmInstaller MappingSpec MappingEngine Ensure Conditions Controller Base64 HelmStorage.

Definition HelmProbeReleaseName : string := "opi-lcm-probe".
Definition HelmProbeNamespace : string := "opi-lcm-probe".
Definition HelmProbeChartName : string := "opi-lcm-probe".
Definition helmInstanceLabel : string := "app.kubernetes.io/instance".

Definition ProbeHelmConfig (version : string) : InstallConfig :=
  {| Vendor := VendorNVIDIA; IcNamespace := HelmProbeNamespace; ChartName := HelmProbeChartName;
     ChartRepo := "https://example.invalid/opi-lcm-probe"; ChartVersion := version;
     ReleaseName := HelmProbeReleaseName; IcReleaseOwner := ReleaseOwner; HelmArgs := [];
     OLMPublished := false; OLMPackage := ""; OLMChannel := ""; OLMCatalog := "" |}.

(** ** Rendering *)

(** [strings.NewReplacer(...).Replace]: at each place the first old string of
    the list that is there is replaced, and the scan goes on behind it. *)
Fixpoint first_match (pairs : list (string * string)) (s : string) : option (string * string) :=
  match pairs with
  | [] => None
  | (old, new) :: pairs' =>
      match strip_prefix old s with
      | Some rest => Some (new, rest)
      | None => first_match pairs' s
      end
  end.

Fixpoint replace_all (fuel : nat) (pairs : list (string * string)) (s : string) : string :=
  match fuel with
  | O => s
  | S fuel' =>
      match first_match pairs s with
      | Some (new, rest) => new +:+ replace_all fuel' pairs rest
      | None =>
          match s with
          | "" => ""
          | String c s' => String c (replace_all fuel' pairs s')
          end
      end
  end.

Definition Replace (pairs : list (string * string)) (s : string) : string :=
  replace_all (S (String.length s)) pairs s.

Definition chart_values (cfg : InstallConfig) : list (string * string) :=
  [("{{ .Release.Name }}", ReleaseName cfg); ("{{ .Release.Namespace }}", IcNamespace cfg);
   ("{{ .Chart.Version }}", ChartVersion cfg)].

(** The chart directory and the decoders of its files. *)
Class ChartFS (W : Type) := {
  fs_read : W → string → result string;
  fs_dir : W → string → result (list (string * bool));
  path_join : string → string → string;
  chart_yaml : string → result (string * string);
  decode_manifest : string → result (gmap string value) }.

Record ConfigMap := { CmNamespace : string; CmName : string }.

(** [obj_get] answers with the resource version of the stored object. *)
Class ManifestAPI (W : Type) := {
  obj_get : W → gmap string value → W * result string;
  obj_create : W → gmap string value → W * option err;
  obj_update : W → gmap string value → string → W * option err;
  cm_list : W → string → string → W * result (list ConfigMap);
  cm_delete : W → ConfigMap → W * option err }.

(** ** The client *)

Section Cluster.
Context {W : Type} `{SecretAPI W} `{ManifestAPI W} `{ChartFS W} `{StorageCodec} `{MetaAPI} `{ControllerUtil}.
Context (HasClient : bool) (ChartRoot : string).

Notation GetRel w cfg := (secret_GetRelease HasClient w (IcNamespace cfg) (ReleaseName cfg)).

Definition guardMutation (cfg : InstallConfig) : result unit :=
  if length (HelmArgs cfg) != 0 then Err (EFmt "helm execution arguments are not allowed" [])
  else if IcReleaseOwner cfg != ReleaseOwner then Err (EFmt "release owner is not this adapter" [])
  else if (ReleaseName cfg == "") || (IcNamespace cfg == "") || (ChartName cfg == "") || (ChartVersion cfg == "")
  then Err (EFmt "helm release identity is incomplete" [])
  else if ReleaseName cfg == NVIDIAReleaseName then Err ErrHelmMutationNotConfigured
  else if TrimSpace ChartRoot == "" then Err ErrHelmMutationNotConfigured
  else Ok tt.

Definition ownedRelease (w : W) (cfg : InstallConfig) : outcome W :=
  let '(w, (rel, e)) := GetRel w cfg in
  match e with
  | Some e => fail_with w e
  | None => if negb (ManagedByAdapter rel) then fail_with w ErrReleaseUnmanaged else (w, (rel, None))
  end.

(** A template: the file, filled in and decoded. *)
Definition render_template (w : W) (cfg : InstallConfig) (dir name : string) : result (gmap string value) :=
  let! raw := fs_read w (path_join (path_join dir "templates") name) in
  let! obj := decode_manifest (Replace (chart_values cfg) raw) in
  Ok (if GetNamespace obj == "" then SetNamespace (IcNamespace cfg) obj else obj).

Definition is_template (entry : string * bool) : bool := negb entry.2 && HasSuffix entry.1 ".yaml".

Definition render_step (w : W) (cfg : InstallConfig) (dir : string) (out : list (gmap string value))
    (entry : string * bool) : result (list (gmap string value)) :=
  if negb (is_template entry) then Ok out
  else let! obj := render_template w cfg dir entry.1 in Ok (out ++ [obj]).

Definition renderChart (w : W) (cfg : InstallConfig) : result (list (gmap string value)) :=
  let dir := path_join ChartRoot (ChartVersion cfg) in
  let! meta := fs_read w (path_join dir "Chart.yaml") in
  let! chart := chart_yaml meta in
  if (chart.1 != ChartName cfg) || (chart.2 != ChartVersion cfg) then
    Err (EFmt "chart %s@%s does not match config" [chart.1; chart.2])
  else
    let! entries := fs_dir w (path_join dir "templates") in
    let! out := fold_result (render_step w cfg dir) [] entries in
    if length out == 0 then Err (EFmt "chart %s has no templates" [ChartName cfg]) else Ok out.

Definition alreadyExistsAsConflict (what : string) (e : err) : err :=
  if negb (SIsAlreadyExists e) then e else NewConflict what e.

(** One run of [applyOne]. *)
Definition apply_attempt (obj : gmap string value) (w : W) : W * option err :=
  let '(w, r) := obj_get w obj in
  match r with
  | Err e =>
      if SIsNotFound e then
        let '(w, e) := obj_create w obj in
        (w, match e with Some e => Some (alreadyExistsAsConflict (GetName obj) e) | None => None end)
      else (w, Some e)
  | Ok rv => obj_update w obj rv
  end.

Definition cluster_applyOne (w : W) (obj : gmap string value) : W * option err :=
  Retry _ SIsConflict (apply_attempt obj) w.

Fixpoint applyManifests (w : W) (objs : list (gmap string value)) : W * option err :=
  match objs with
  | [] => (w, None)
  | obj :: objs' =>
      let '(w, e) := cluster_applyOne w obj in
      match e with Some e => (w, Some e) | None => applyManifests w objs' end
  end.

Definition helmReleaseSecretName (release : string) (rev : Z) : string :=
  "sh.helm.release.v1." +:+ release +:+ ".v" +:+ Itoa rev.

Definition storage_labels (cfg : InstallConfig) (rev : Z) (status : string) : gmap string string :=
  {[ helmReleaseNameLabel := ReleaseName cfg; helmStorageOwnerLabel := helmStorageOwner; statusKey := status;
     helmReleaseVersionLabel := Itoa rev; ReleaseOwnerLabel := IcReleaseOwner cfg;
     ReleaseModeLabel := ReleaseModeInstalled ]}.

Definition storage_doc (cfg : InstallConfig) (rev : Z) (status : string) : helmStorageRelease :=
  {| DocName := ReleaseName cfg; DocNamespace := IcNamespace cfg; DocVersion := rev; DocStatus := status;
     DocChartName := ChartName cfg; DocChartVersion := ChartVersion cfg;
     DocLabels := Some (storage_labels cfg rev status) |}.

Definition storage_secret (cfg : InstallConfig) (rev : Z) (status payload : string) : Secret :=
  {| SecName := helmReleaseSecretName (ReleaseName cfg) rev; SecNamespace := IcNamespace cfg;
     SecType := helmStorageSecretType; SecLabels := Some (storage_labels cfg rev status);
     SecData := Some {[ "release" := payload ]}; SecResourceVersion := "" |}.

Definition with_version (rv : string) (s : Secret) : Secret :=
  {| SecName := SecName s; SecNamespace := SecNamespace s; SecType := SecType s; SecLabels := SecLabels s;
     SecData := SecData s; SecResourceVersion := rv |}.

(** One run of the write in [storeSecret]. *)
Definition store_attempt (sec : Secret) (w : W) : W * option err :=
  let '(w, r) := sec_get w (SecNamespace sec) (SecName sec) in
  match r with
  | Err e =>
      if SIsNotFound e then
        let '(w, e) := sec_create w sec in
        (w, match e with Some e => Some (alreadyExistsAsConflict (SecName sec) e) | None => None end)
      else (w, Some e)
  | Ok existing => sec_update w (with_version (SecResourceVersion existing) sec)
  end.

Definition storeSecret (w : W) (cfg : InstallConfig) (rel : HelmRelease) (status : string) : W * option err :=
  match encodeHelmStorageRelease (storage_doc cfg (Revision rel) status) with
  | Err e => (w, Some e)
  | Ok payload => Retry _ SIsConflict (store_attempt (storage_secret cfg (Revision rel) status payload)) w
  end.

Definition with_revision (rev : Z) (lastGood : string) (rel : HelmRelease) : HelmRelease :=
  {| RelName := RelName rel; RelNamespace := RelNamespace rel; RelChartName := RelChartName rel;
     RelChartVersion := RelChartVersion rel; RelStatus := RelStatus rel; Revision := rev;
     LastKnownGood := lastGood; Labels := Labels rel |}.

Definition writeRevision (w : W) (cfg : InstallConfig) (rev : Z) (lastGood : string) : outcome W :=
  match renderChart w cfg with
  | Err e => fail_with w e
  | Ok manifests =>
      let '(w, e) := applyManifests w manifests in
      match e with
      | Some e => fail_with w e
      | None =>
          let rel := with_revision rev lastGood (OwnedRelease cfg) in
          let '(w, e) := storeSecret w cfg rel HelmStatusDeployed in
          match e with
          | Some e => fail_with w e
          | None => GetRel w cfg
          end
      end
  end.

(** One run of [markSuperseded]. *)
Definition supersede_attempt (ns name : string) (w : W) : W * option err :=
  let '(w, r) := sec_get w ns name in
  match r with
  | Err e => (w, Some e)
  | Ok fresh => sec_update w (with_labels (<[statusKey := helmStatusSuperseded]> (default ∅ (SecLabels fresh))) fresh)
  end.

Definition markSuperseded (w : W) (cfg : InstallConfig) (rev : Z) : W * option err :=
  Retry _ SIsConflict (supersede_attempt (IcNamespace cfg) (helmReleaseSecretName (ReleaseName cfg) rev)) w.

(** The loop of [findRevision]. *)
Fixpoint find_version (chartVersion : string) (items : list Secret) : option HelmRelease :=
  match items with
  | [] => None
  | sec :: items' =>
      match releaseFromHelmSecret sec with
      | Ok rel => if versionsEqual (RelChartVersion rel) chartVersion then Some rel
                  else find_version chartVersion items'
      | Err _ => find_version chartVersion items'
      end
  end.

Definition findRevision (w : W) (cfg : InstallConfig) (chartVersion : string) : W * result HelmRelease :=
  let '(w, r) := sec_list w (IcNamespace cfg) (ReleaseName cfg) in
  (w, match r with
      | Err e => Err e
      | Ok items => match find_version chartVersion items with Some rel => Ok rel | None => Err ErrRollbackFailed end
      end).

Fixpoint delete_config_maps (w : W) (items : list ConfigMap) : W * option err :=
  match items with
  | [] => (w, None)
  | cm :: items' =>
      let '(w, e) := cm_delete w cm in
      match e with
      | Some e => if SIsNotFound e then delete_config_maps w items' else (w, Some e)
      | None => delete_config_maps w items'
      end
  end.

Definition deleteReleaseObjects (w : W) (cfg : InstallConfig) : W * option err :=
  let '(w, r) := cm_list w (IcNamespace cfg) (ReleaseName cfg) in
  match r with
  | Err e => (w, Some e)
  | Ok items => delete_config_maps w items
  end.

Fixpoint delete_secrets (w : W) (items : list Secret) : W * option err :=
  match items with
  | [] => (w, None)
  | sec :: items' =>
      if SecType sec != helmStorageSecretType then delete_secrets w items'
      else
        let '(w, e) := sec_delete w sec in
        match e with
        | Some e => if SIsNotFound e then delete_secrets w items' else (w, Some e)
        | None => delete_secrets w items'
        end
  end.

Definition deleteReleaseSecrets (w : W) (cfg : InstallConfig) : W * option err :=
  let '(w, r) := sec_list w (IcNamespace cfg) (ReleaseName cfg) in
  match r with
  | Err e => (w, Some e)
  | Ok items => delete_secrets w items
  end.

Definition errorsIsNotFound (e : err) : bool :=
  (e == ErrReleaseNotFound) || Contains (Error e) (Error ErrReleaseNotFound).

Definition cluster_Install (w : W) (cfg : InstallConfig) (_ : option (gmap string value)) : outcome W :=
  match guardMutation cfg with
  | Err e => fail_with w e
  | Ok _ =>
      let '(w, (_, e)) := GetRel w cfg in
      match e with
      | None => fail_with w ErrReleaseExists
      | Some e => if negb (errorsIsNotFound e) then fail_with w e else writeRevision w cfg 1 ""
      end
  end.

Definition cluster_Upgrade (w : W) (cfg : InstallConfig) (_ : option (gmap string value)) : outcome W :=
  match guardMutation cfg with
  | Err e => fail_with w e
  | Ok _ =>
      let '(w, (cur, e)) := ownedRelease w cfg in
      match e with
      | Some e => fail_with w e
      | None =>
          let '(w, e) := markSuperseded w cfg (Revision cur) in
          match e with
          | Some e => fail_with w e
          | None => writeRevision w cfg (wrap_int64 (Revision cur + 1)) (RelChartVersion cur)
          end
      end
  end.

Definition at_chart (name version : string) (cfg : InstallConfig) : InstallConfig :=
  {| Vendor := Vendor cfg; IcNamespace := IcNamespace cfg; ChartName := name; ChartRepo := ChartRepo cfg;
     ChartVersion := version; ReleaseName := ReleaseName cfg; IcReleaseOwner := IcReleaseOwner cfg;
     HelmArgs := HelmArgs cfg; OLMPublished := OLMPublished cfg; OLMPackage := OLMPackage cfg;
     OLMChannel := OLMChannel cfg; OLMCatalog := OLMCatalog cfg |}.

Definition cluster_Rollback (w : W) (cfg : InstallConfig) (toVersion : string) : outcome W :=
  match guardMutation cfg ;;! ValidateReleaseVersion toVersion with
  | Err e => fail_with w e
  | Ok _ =>
      let '(w, (cur, e)) := ownedRelease w cfg in
      match e with
      | Some e => fail_with w e
      | None =>
          let '(w, r) := findRevision w cfg toVersion in
          match r with
          | Err e => fail_with w e
          | Ok prev =>
              let '(w, e) := markSuperseded w cfg (Revision cur) in
              match e with
              | Some e => fail_with w e
              | None =>
                  writeRevision w (at_chart (RelChartName prev) (RelChartVersion prev) cfg)
                    (wrap_int64 (Revision cur + 1)) (RelChartVersion prev)
              end
          end
      end
  end.

Definition cluster_Uninstall (w : W) (cfg : InstallConfig) : outcome W :=
  match guardMutation cfg with
  | Err e => fail_with w e
  | Ok _ =>
      let '(w, (rel, e)) := ownedRelease w cfg in
      match e with
      | Some e => fail_with w e
      | None =>
          if negb (AllowsDelete (ClassifyReleaseOwnership rel)) then fail_with w ErrReleaseUnmanaged
          else
            let '(w, e) := deleteReleaseObjects w cfg in
            match e with
            | Some e => fail_with w e
            | None =>
                let '(w, e) := deleteReleaseSecrets w cfg in
                match e with
                | Some e => fail_with w e
                | None => (w, (rel, None))
                end
            end
      end
  end.

(** The production client: the interface's methods, with the claim promoted from
    the embedded [SecretHelmClient] and no store of last-known-good releases. *)
Definition cluster_client (ctxErr : W → option err) : HelmClient W := {|
  CtxErr := ctxErr;
  GetRelease w ns n := secret_GetRelease HasClient w ns n;
  Install := cluster_Install;
  Upgrade := cluster_Upgrade;
  Rollback := cluster_Rollback;
  Uninstall := cluster_Uninstall;
  store := None;
  claimer := Some (secret_ClaimRelease HasClient) |}.

End Cluster.
