(* ===== verification/HelmClusterFacts.v ===== *)
(** * What the cluster Helm client can do to the cluster

    The calls to the API server are recorded, whatever it answers.  The installer
    over this client, in the production wiring, reads the release and at most
    stamps the ownership labels on its storage Secret: every way to create,
    change or delete anything else goes through [guardMutation], which refuses
    the pinned release. *)

From Stdlib Require Import Ascii ZArith.
From stdpp Require Import base gmap strings list fin_maps.
From S2P Require Import Prelude GoStrings Unstructured Version InstallConfig Release HelmInstaller MappingSpec MappingEngine Ensure Conditions Controller ControllerFacts Base64 HelmStorage HelmCluster.

(** ** An invariant of the installer *)

Section Preserved.
Context {W : Type} `{HelmClient W}.
Context (HasClient AllowDowngrade : bool) (MaxAttempts : Z).
Context (I : W → Prop) (cfg : InstallConfig) (adopt : bool).
Context (Iget : ∀ w, I w → I (GetRelease w (IcNamespace cfg) (ReleaseName cfg)).1).
Context (Iinstall : ∀ w v, I w → I (Install w cfg v).1).
Context (Iupgrade : ∀ w v, I w → I (Upgrade w cfg v).1).
Context (Irollback : ∀ w to, I w → I (Rollback w cfg to).1).
Context (Istore : store = None).
Context (Iclaim : ∀ cl, claimer = Some cl → adopt = true → ∀ w, I w → I (cl w cfg).1).

(** Run the next call and keep the invariant of its world. *)
Ltac next_call Hi :=
  match goal with
  | |- context [GetRelease ?w _ _] =>
      let H := fresh in pose proof (Iget w Hi) as H; destruct (GetRelease w _ _) as [? [? ?]]; cbn [fst] in H
  | |- context [Install ?w _ ?v] =>
      let H := fresh in pose proof (Iinstall w v Hi) as H; destruct (Install w _ v) as [? [? ?]]; cbn [fst] in H
  | |- context [Upgrade ?w _ ?v] =>
      let H := fresh in pose proof (Iupgrade w v Hi) as H; destruct (Upgrade w _ v) as [? [? ?]]; cbn [fst] in H
  | |- context [Rollback ?w _ ?v] =>
      let H := fresh in pose proof (Irollback w v Hi) as H; destruct (Rollback w _ v) as [? [? ?]]; cbn [fst] in H
  end.

Ltac branches := repeat (done || case_match || (progress cbn [fst])).

Lemma reconcile_keeps w actual lastGood e status :
  I w → I (reconcileAfterFailure w cfg actual lastGood e status).1.
Proof. intros Hi. unfold reconcileAfterFailure. by destruct (_ && _). Qed.

Lemma rollback_keeps w actual before lastGood e :
  I w → I (rollbackAfterFailure w cfg actual before lastGood e).1.
Proof.
  intros Hi. unfold rollbackAfterFailure. cbv zeta. destruct (_ || _); [done|].
  next_call Hi. destruct o; [next_call H0; branches|branches].
Qed.

Lemma upgrade_loop_keeps n w values before lastGood le :
  I w → I (upgrade_loop n w cfg values before lastGood le).1.
Proof.
  revert w le. induction n as [|n IH]; intros w le Hi; cbn [upgrade_loop].
  - next_call Hi. by apply rollback_keeps.
  - destruct (CtxErr w); [next_call Hi; by apply reconcile_keeps|].
    next_call Hi. destruct o as [e|]; [|by destruct (_ || _); [apply IH|]].
    next_call H0. cbv zeta. destruct (_ && _ && _); [done|].
    destruct (errors_is e ErrReleaseUnknown); [by destruct o|].
    destruct (_ || _ || _); [|by apply IH]. destruct o; [done|]. by apply reconcile_keeps.
Qed.

Lemma ensure_locked_keeps w i :
  AdoptExisting i = adopt → I w → I (ensure_locked AllowDowngrade MaxAttempts w i cfg).1.
Proof.
  intros Ha Hi. unfold ensure_locked. cbv zeta. next_call Hi.
  destruct (is_err o ErrReleaseNotFound); [next_call H0; by destruct o0|].
  destruct o; [done|]. destruct (negb (ManagedByAdapter h)).
  - unfold claimOrLeaveUnmanaged. destruct (AdoptExisting i) eqn:Hadopt; [|done]. cbn [negb orb].
    destruct (negb _); [done|]. destruct claimer as [cl|] eqn:Hc; [|done].
    pose proof (Iclaim cl eq_refl (eq_sym Ha) w0 H0) as Hcl.
    destruct (cl w0 cfg) as [w1 [claimed [e|]]]; [done|]. by destruct (_ || _).
  - unfold remembered, remember. rewrite Istore.
    destruct (Action _); try done; by apply upgrade_loop_keeps.
Qed.

End Preserved.

(** ** The calls to the API server *)

Inductive ApiEvent :=
| EvList (ns name : string) (r : result (list Secret))
| EvGet (ns name : string) (r : result Secret)
| EvCreate (s : Secret)
| EvUpdate (s : Secret)
| EvDelete (s : Secret)
| EvObjGet (obj : gmap string value)
| EvObjCreate (obj : gmap string value)
| EvObjUpdate (obj : gmap string value)
| EvCmList (ns name : string)
| EvCmDelete (cm : ConfigMap).

Section Logged.
Context {W : Type} `{SecretAPI W} `{ManifestAPI W} `{ChartFS W}.

Definition record {A} (ev : A → ApiEvent) (log : list ApiEvent) (r : W * A) : (W * list ApiEvent) * A :=
  ((r.1, log ++ [ev r.2]), r.2).

#[global] Instance logged_secrets : SecretAPI (W * list ApiEvent) := {|
  sec_list wl ns n := record (EvList ns n) wl.2 (sec_list wl.1 ns n);
  sec_get wl ns n := record (EvGet ns n) wl.2 (sec_get wl.1 ns n);
  sec_create wl s := record (λ _, EvCreate s) wl.2 (sec_create wl.1 s);
  sec_update wl s := record (λ _, EvUpdate s) wl.2 (sec_update wl.1 s);
  sec_delete wl s := record (λ _, EvDelete s) wl.2 (sec_delete wl.1 s);
  SIsNotFound := SIsNotFound; SIsForbidden := SIsForbidden; SIsConflict := SIsConflict;
  SIsAlreadyExists := SIsAlreadyExists; NewConflict := NewConflict |}.

#[global] Instance logged_manifests : ManifestAPI (W * list ApiEvent) := {|
  obj_get wl o := record (λ _, EvObjGet o) wl.2 (obj_get wl.1 o);
  obj_create wl o := record (λ _, EvObjCreate o) wl.2 (obj_create wl.1 o);
  obj_update wl o rv := record (λ _, EvObjUpdate o) wl.2 (obj_update wl.1 o rv);
  cm_list wl ns n := record (λ _, EvCmList ns n) wl.2 (cm_list wl.1 ns n);
  cm_delete wl cm := record (λ _, EvCmDelete cm) wl.2 (cm_delete wl.1 cm) |}.

#[global] Instance logged_charts : ChartFS (W * list ApiEvent) := {|
  fs_read wl := fs_read wl.1;
  fs_dir wl := fs_dir wl.1;
  path_join := path_join; chart_yaml := chart_yaml; decode_manifest := decode_manifest |}.

End Logged.

(** ** The newest storage Secret *)

Definition secret_revision (s : Secret) : Z := atoi_value (label (SecLabels s) helmReleaseVersionLabel).

(** A Secret that holds a revision of a release: of Helm's type or untyped, and
    not of a failed or uninstalled revision. *)
Definition storage_secret (s : Secret) : Prop :=
  SecType s ∈ [helmStorageSecretType; ""] ∧
  label (SecLabels s) statusKey ∈ [""; HelmStatusDeployed; helmStatusSuperseded].

(** One step of the scan: another Secret is skipped when it is no storage Secret
    or not newer, and taken otherwise. *)
Lemma newer_step best s :
  newer best s = best ∧ (storage_secret s → ∃ b v, best = Some (b, v) ∧ (secret_revision s ≤ v)%Z) ∨
  newer best s = Some (s, secret_revision s) ∧ storage_secret s ∧ ∀ b v, best = Some (b, v) → (v ≤ secret_revision s)%Z.
Proof.
  unfold newer, storage_secret. fold (secret_revision s). rewrite !elem_of_cons, !elem_of_nil.
  destruct ((SecType s != helmStorageSecretType) && _) eqn:Et.
  { rewrite andb_true_iff, !negb_true_iff, !bool_decide_eq_false in Et. left. intuition. }
  rewrite andb_false_iff, !negb_false_iff, !bool_decide_eq_true in Et.
  destruct ((label (SecLabels s) statusKey != "") && _ && _) eqn:Es.
  { rewrite !andb_true_iff, !negb_true_iff, !bool_decide_eq_false in Es. left. intuition. }
  rewrite !andb_false_iff, !negb_false_iff, !bool_decide_eq_true in Es.
  assert (Hst : (SecType s = helmStorageSecretType ∨ SecType s = "" ∨ False) ∧
    (label (SecLabels s) statusKey = "" ∨ label (SecLabels s) statusKey = HelmStatusDeployed ∨
     label (SecLabels s) statusKey = helmStatusSuperseded ∨ False)) by intuition.
  destruct best as [[b v]|]; [|by right].
  destruct (Z.ltb_spec v (secret_revision s)); [right; split; [done|split; [done|intros ? ? [= <- <-]; lia]]|].
  destruct (Z.eqb_spec (secret_revision s) v); cbn [orb andb]; [case_bool_decide|].
  1: right; split; [done|split; [done|intros ? ? [= <- <-]; lia]].
  all: left; split; [done|]; intros _; by exists b, v.
Qed.

Lemma newer_scan items best :
  (∀ b v, best = Some (b, v) → v = secret_revision b ∧ storage_secret b) →
  match foldl newer best items with
  | None => best = None
  | Some (b, v) => v = secret_revision b ∧ storage_secret b ∧ (b ∈ items ∨ best = Some (b, v)) ∧
      (∀ t, t ∈ items → storage_secret t → (secret_revision t ≤ v)%Z) ∧
      ∀ b' v', best = Some (b', v') → (v' ≤ v)%Z
  end.
Proof.
  revert best. induction items as [|s items IH]; intros best Hb; cbn [foldl].
  { destruct best as [[b v]|]; [|done]. destruct (Hb b v eq_refl) as [-> ?].
    split_and!; [done|done|by right|set_solver|by intros ? ? [= <- <-]]. }
  destruct (newer_step best s) as [[-> Hs]|(-> & Hst & Hle)].
  - specialize (IH best Hb). destruct (foldl newer best items) as [[b v]|]; [|done].
    destruct IH as (Hv & Hsb & Hin & Hmax & Hbest). split_and!; [done|done|set_solver| |done].
    intros t [->|Ht]%elem_of_cons Hst; [|by apply Hmax].
    destruct (Hs Hst) as (b0 & v0 & ? & ?). pose proof (Hbest _ _ ltac:(done)). lia.
  - specialize (IH (Some (s, secret_revision s)) ltac:(by intros ? ? [= <- <-])).
    destruct (foldl newer _ items) as [[b v]|]; [|done].
    destruct IH as (Hv & Hsb & Hin & Hmax & Hbest). pose proof (Hbest _ _ eq_refl). split_and!; [done|done| | |].
    + left. destruct Hin as [?|[= <- _]]; set_solver.
    + intros t [->|Ht]%elem_of_cons Hst'; [done|by apply Hmax].
    + intros b' v' Hbv%Hle. lia.
Qed.

(** ** Observe and claim *)

Section Claim.
Context {W : Type} `{SecretAPI W} `{ManifestAPI W} `{ChartFS W} `{StorageCodec} `{MetaAPI} `{ControllerUtil}.
Context (HasClient : bool) (ChartRoot : string) (ctxErr : W → option err).

Notation LW := (W * list ApiEvent)%type.
Notation pin := (pinned VendorNVIDIA).

(** The storage Secret that holds the newest revision in a listing: a Helm
    storage Secret, deployed, superseded or without a status, with the greatest
    revision label of them. *)
Definition newest_storage (items : list Secret) (sec : Secret) : Prop :=
  sec ∈ items ∧ storage_secret sec ∧ ∀ t, t ∈ items → storage_secret t → (secret_revision t ≤ secret_revision sec)%Z.

(** A listing of the release's Secrets showed it deployed at the pin. *)
Definition seen_at_pin (pre : list ApiEvent) : Prop :=
  ∃ items sec rel,
    EvList (IcNamespace pin) (ReleaseName pin) (Ok items) ∈ pre ∧
    newest_storage items sec ∧ releaseFromHelmSecret sec = Ok rel ∧
    RelName rel = ReleaseName pin ∧ RelNamespace rel = IcNamespace pin ∧
    RelChartName rel = ChartName pin ∧ RelStatus rel = HelmStatusDeployed ∧
    versionsEqual (RelChartVersion rel) (ChartVersion pin) = true.

(** The key of the newest storage Secret of a listing of the pinned release. *)
Definition pinned_secret_key (pre : list ApiEvent) (ns n : string) : Prop :=
  ∃ items sec,
    EvList (IcNamespace pin) (ReleaseName pin) (Ok items) ∈ pre ∧
    newest_storage items sec ∧ ns = SecNamespace sec ∧ n = SecName sec.

(** Only the pinned release's Secrets are listed and only its newest storage
    Secret is read.  An update writes what the read of that very Secret
    returned, with the two ownership labels set and nothing else changed, after
    the release was seen at the pin. *)
Definition claims_only (adopt : bool) (pre : list ApiEvent) (ev : ApiEvent) : Prop :=
  match ev with
  | EvList ns n _ => ns = IcNamespace pin ∧ n = ReleaseName pin
  | EvGet ns n _ => pinned_secret_key pre ns n
  | EvUpdate s =>
      adopt = true ∧ seen_at_pin pre ∧
      ∃ ns n fresh, pinned_secret_key pre ns n ∧ EvGet ns n (Ok fresh) ∈ pre ∧
        alreadyAdoptedLabels (SecLabels fresh) = false ∧
        s = with_labels (<[ReleaseModeLabel := ReleaseModeAdopted]>
              (<[ReleaseOwnerLabel := ReleaseOwner]> (default ∅ (SecLabels fresh)))) fresh
  | _ => False
  end.

Notation safe adopt := (λ wl : LW, justified_log (claims_only adopt) wl.2).

Lemma latest_newest items sec : latestHelmSecret items = Some sec → newest_storage items sec.
Proof.
  unfold latestHelmSecret. pose proof (newer_scan items None ltac:(done)) as Hs.
  destruct (foldl newer None items) as [[b v]|]; [|done]. cbn. intros [= <-].
  destruct Hs as (-> & ? & [?|?] & ? & _); [|done]. by split_and!.
Qed.

(** The client's read: the listing it appends, and what the release came from. *)
Lemma get_listed (wl : LW) ns name :
  (secret_GetRelease HasClient wl ns name).1.2 = wl.2 ∧ (secret_GetRelease HasClient wl ns name).2.2 ≠ None ∨
  ∃ r, (secret_GetRelease HasClient wl ns name).1.2 = wl.2 ++ [EvList ns name r] ∧
    ∀ rel, (secret_GetRelease HasClient wl ns name).2 = (rel, None) →
      ∃ items sec, r = Ok items ∧ newest_storage items sec ∧ releaseFromHelmSecret sec = Ok rel.
Proof.
  unfold secret_GetRelease. destruct HasClient; [|by left]. right. cbn [negb sec_list logged_secrets].
  unfold record. destruct (sec_list wl.1 ns name) as [w r]; cbn [fst snd]. exists r.
  destruct r as [items|e]; [|split; [done|by intros]].
  destruct (latestHelmSecret items) as [sec|] eqn:Hl; [|by split].
  destruct (releaseFromHelmSecret sec) as [rel|e] eqn:Hr; [|by split].
  split; [done|]. intros rel' [= <-]. exists items, sec. eauto using latest_newest.
Qed.

Lemma get_safe adopt (wl : LW) :
  safe adopt wl → safe adopt (secret_GetRelease HasClient wl (IcNamespace pin) (ReleaseName pin)).1.
Proof.
  intros Hs. destruct (get_listed wl (IcNamespace pin) (ReleaseName pin)) as [[-> _]|(r & -> & _)]; [done|].
  by apply justified_snoc.
Qed.

Lemma guard_refuses_pin : is_ok (guardMutation ChartRoot pin) = false.
Proof. reflexivity. Qed.

Lemma seen_app pre ops : seen_at_pin pre → seen_at_pin (pre ++ ops).
Proof. intros (items & sec & rel & Hin & Hr). exists items, sec, rel. rewrite elem_of_app. auto. Qed.

Lemma key_app pre ops ns n : pinned_secret_key pre ns n → pinned_secret_key (pre ++ ops) ns n.
Proof. intros (items & sec & Hin & Hr). exists items, sec. rewrite elem_of_app. auto. Qed.

Lemma claim_attempt_safe (s : LW * HelmRelease) :
  safe true s.1 → safe true (claim_attempt HasClient pin s).1.1.
Proof.
  destruct s as [wl claimed]. cbn [fst]. intros Hs. unfold claim_attempt.
  pose proof (get_listed wl (IcNamespace pin) (ReleaseName pin)) as Hg.
  pose proof (get_safe true wl Hs) as Hs1.
  destruct (secret_GetRelease HasClient wl _ _) as [wl1 [rel [e|]]]; cbn [fst snd] in *; [done|].
  destruct (matchesPinnedRelease rel pin) eqn:Hm; [|done]. cbn [negb].
  assert (Hseen : seen_at_pin wl1.2).
  { destruct Hg as [[_ ?]|(r & -> & Hr)]; [done|]. destruct (Hr rel eq_refl) as (items & sec & -> & Hl & Hd).
    unfold matchesPinnedRelease in Hm. rewrite !andb_true_iff, !bool_decide_eq_true in Hm.
    destruct Hm as [[[[? ?] ?] ?] ?]. exists items, sec, rel. split; [set_solver|done]. }
  unfold latestStorageSecret. cbn [sec_list logged_secrets]. unfold record at 1.
  destruct (sec_list wl1.1 _ _) as [w2 r2]; cbn [fst snd].
  set (log2 := wl1.2 ++ _). assert (Hs2 : justified_log (claims_only true) log2) by by apply justified_snoc.
  assert (Hseen2 : seen_at_pin log2) by by apply seen_app.
  destruct r2 as [items|e]; [|done].
  destruct (latestHelmSecret items) as [sec|] eqn:Hl; [|done].
  assert (Hkey : pinned_secret_key log2 (SecNamespace sec) (SecName sec)).
  { exists items, sec. split; [unfold log2; set_solver|]. by split; [apply latest_newest|]. }
  destruct (alreadyAdoptedLabels (SecLabels sec)); [done|].
  cbn [sec_get logged_secrets]. unfold record at 1. cbn [fst snd].
  destruct (sec_get w2 _ _) as [w3 r3]; cbn [fst snd].
  set (log3 := log2 ++ _). assert (Hs3 : justified_log (claims_only true) log3) by by apply justified_snoc.
  assert (Hseen3 : seen_at_pin log3) by by apply seen_app.
  destruct r3 as [fresh|e]; [|done].
  destruct (alreadyAdoptedLabels (SecLabels fresh)) eqn:Hf.
  { pose proof (get_safe true (w3, log3) Hs3) as Hs4. by destruct (secret_GetRelease _ _ _ _) as [? [? ?]]. }
  cbn [sec_update logged_secrets]. unfold record at 1. cbn [fst snd].
  destruct (sec_update w3 _) as [w4 e4]; cbn [fst snd].
  set (log4 := log3 ++ _). assert (Hs4 : justified_log (claims_only true) log4).
  { apply justified_snoc; [done|]. split; [done|]. split; [done|]. do 2 eexists. exists fresh.
    split; [by apply key_app|]. split; [unfold log3; rewrite elem_of_app; right; by left|done]. }
  destruct e4; [done|].
  pose proof (get_safe true (w4, log4) Hs4) as Hs5. by destruct (secret_GetRelease _ _ _ _) as [? [? ?]].
Qed.

Lemma claim_safe (wl : LW) :
  safe true wl → safe true (secret_ClaimRelease HasClient wl pin).1.
Proof.
  intros Hs. unfold secret_ClaimRelease. destruct (ValidateInstallConfig pin); [|done].
  destruct (Retry_ind (λ s : LW * HelmRelease, safe true s.1) (@SIsConflict LW logged_secrets) (claim_attempt HasClient pin)
              (wl, zero_release)) as (s' & Hs' & ->); [apply claim_attempt_safe|done|].
  pose proof (claim_attempt_safe s' Hs') as Hr. by destruct (claim_attempt HasClient pin s') as [[? ?] ?].
Qed.

(** [C3] In the production wiring the installer observes and claims.  Whatever
    the API server answers, whatever charts there are and whatever the intent,
    [Ensure] over the cluster client never creates or deletes a Secret and never
    touches a manifest object or a ConfigMap.  It lists
    only the Secrets of the pinned release and reads back only the newest storage
    Secret of such a listing.  Its only write is the claim: that very Secret as
    the read returned it, with exactly the two ownership labels set, only with
    AdoptExisting, and only after the release was seen deployed at the pinned
    chart version. *)
Theorem Ensure_cluster_claims_only AllowDowngrade MaxAttempts (w : W) i :
  justified_log (claims_only (AdoptExisting i))
    (Ensure (H := cluster_client (W := LW) HasClient ChartRoot (λ wl, ctxErr wl.1))
       HasClient AllowDowngrade MaxAttempts (w, []) i).1.2.
Proof.
  unfold Ensure. destruct (CtxErr _); [apply justified_nil|].
  destruct (negb HasClient); [apply justified_nil|].
  case_bool_decide; [apply justified_nil|].
  destruct (DefaultInstallConfig (IVendor i)) as [cfg|e] eqn:Ed; [|apply justified_nil].
  destruct (ApplyVersionPolicy i cfg) as [cfg' pol] eqn:Ep.
  apply (f_equal fst) in Ep. rewrite ApplyVersionPolicy_cfg in Ep. cbn in Ep. subst cfg'.
  case_bool_decide; [apply justified_nil|].
  destruct (ValidateArtifactRef cfg) as [[]|e] eqn:Ev; [|apply justified_nil].
  rewrite (Default_artifact _ _ Ed Ev).
  apply (ensure_locked_keeps AllowDowngrade MaxAttempts (safe (AdoptExisting i)) pin (AdoptExisting i));
    [intros; by apply get_safe|done|done|done|done| |done|apply justified_nil].
  intros cl [= <-] -> wl. apply claim_safe.
Qed.

End Claim.
