(* ===== verification/HelmHistory.v ===== *)
(** * The cluster Helm client keeps a history of revisions

    The abstract state of a release is the list of the charts of its revisions,
    numbered from 1.  On a healthy API server (the laws of [SecretStore]) the
    client's operations refine it: an install starts a history, an upgrade and a
    rollback append to it, an uninstall empties it, and an operation that fails
    on the way leaves it as it was. *)

From Stdlib Require Import Ascii ZArith.
From stdpp Require Import base gmap strings list fin_maps pretty.
From S2P Require Import Prelude GoStrings Unstructured Version InstallConfig Release HelmInstaller MappingSpec MappingEngine Ensure Conditions Controller ControllerFacts Base64 HelmStorage HelmCluster.

(** ** Revision numbers in labels *)

Lemma digits_grow acc s n : (0 ≤ acc)%Z → digits 10 acc s = Some n → (acc ≤ n)%Z.
Proof.
  revert acc. induction s as [|c s IH]; intros acc Ha; cbn [digits]; [intros; simplify_eq; lia|].
  destruct (digit_val 10 c) as [d|] eqn:Hd; [|done]. apply digit_val_nonneg in Hd.
  intros Hn%IH; lia.
Qed.

Lemma scan_digits acc s n :
  (0 ≤ acc)%Z → digits 10 acc s = Some n → (n < 2 ^ 64)%Z → scan_uint64 acc s = Some (inr n).
Proof.
  revert acc. induction s as [|c s IH]; intros acc Ha; cbn [digits scan_uint64]; [intros; by simplify_eq|].
  destruct (digit_val 10 c) as [d|] eqn:Hd; [|done]. apply digit_val_nonneg in Hd. intros Hn Hb.
  pose proof (digits_grow (acc * 10 + d) s n ltac:(lia) Hn). destruct (Z.ltb_spec (2 ^ 64 - 1) (acc * 10 + d)); [lia|].
  apply IH; [lia|done|done].
Qed.

Lemma atoi_value_digit c s : is_digit c = true →
  atoi_value (String c s) =
    match scan_uint64 0 (String c s) with
    | None => 0%Z
    | Some (inl _) => max_int64
    | Some (inr v) => Z.min max_int64 v
    end.
Proof. by destruct c as [[] [] [] [] [] [] [] []]. Qed.

(** The revision label reads back as the revision. *)
Lemma atoi_value_Itoa n : (0 ≤ n ≤ max_int64)%Z → atoi_value (Itoa n) = n.
Proof.
  intros [H0 H1]. destruct (Itoa_digits n H0) as (Hd & Hc & Hne).
  destruct (Itoa n) as [|c s] eqn:E; [done|]. cbn [all_chars] in Hc.
  apply andb_true_iff in Hc as [Hc _]. rewrite atoi_value_digit by done.
  rewrite (scan_digits 0 _ n) by (done || (unfold max_int64 in H1; lia)). lia.
Qed.

Lemma Itoa_ascii n : (0 ≤ n)%Z → is_ascii_text (Itoa n).
Proof.
  intros H0. destruct (Itoa_digits n H0) as (_ & Hc & _). unfold is_ascii_text.
  revert Hc. generalize (Itoa n). induction s as [|c s IH]; [done|]. cbn [all_chars].
  rewrite !andb_true_iff. intros [Hd Hs]. split; [|by apply IH].
  clear -Hd. by destruct c as [[] [] [] [] [] [] [] []].
Qed.

#[global] Instance helmReleaseSecretName_inj release : Inj (=) (=) (helmReleaseSecretName release).
Proof.
  intros i j Hij. unfold helmReleaseSecretName in Hij.
  apply (inj (String.app _)) in Hij. apply (inj (String.app _)) in Hij. apply (inj (String.app _)) in Hij.
  by apply (inj pretty).
Qed.

(** ** The newest Secret *)

Definition version_of (s : Secret) : Z := atoi_value (label (SecLabels s) helmReleaseVersionLabel).

(** A Secret that [latestHelmSecret] considers. *)
Definition readable (s : Secret) : Prop :=
  SecType s = helmStorageSecretType ∧ label (SecLabels s) statusKey ∈ [HelmStatusDeployed; helmStatusSuperseded].

Lemma newer_readable best s : readable s →
  (newer best s = Some (s, version_of s) ∧ ∀ b v, best = Some (b, v) → (v ≤ version_of s)%Z) ∨
  (newer best s = best ∧ ∃ b v, best = Some (b, v) ∧ (version_of s ≤ v)%Z).
Proof.
  intros [Ht Hs]. unfold newer. rewrite Ht, bool_decide_eq_true_2 by done. cbn [negb andb].
  assert (Hst : negb (bool_decide (label (SecLabels s) statusKey = "")) &&
    negb (bool_decide (label (SecLabels s) statusKey = HelmStatusDeployed)) &&
    negb (bool_decide (label (SecLabels s) statusKey = helmStatusSuperseded)) = false).
  { apply elem_of_cons in Hs as [->|Hs]; [done|]. apply list_elem_of_singleton in Hs as ->. done. }
  rewrite Hst; clear Hst. fold (version_of s). destruct best as [[b v]|]; [|by left].
  destruct (Z.ltb_spec v (version_of s)); [left; split; [done|intros ? ? [= <- <-]; lia]|].
  destruct (Z.eqb_spec (version_of s) v) as [Heq|]; cbn [orb andb]; [case_bool_decide|].
  1: left; split; [done|intros ? ? [= <- <-]; lia].
  all: right; split; [done|by exists b, v].
Qed.

(** The scan ends at an element with the greatest version. *)
Lemma newer_max items best :
  Forall readable items →
  (∀ b v, best = Some (b, v) → v = version_of b) →
  match foldl newer best items with
  | None => best = None ∧ items = []
  | Some (b, v) => v = version_of b ∧ (b ∈ items ∨ best = Some (b, v)) ∧
      Forall (λ s, (version_of s ≤ v)%Z) items ∧ (∀ b' v', best = Some (b', v') → (v' ≤ v)%Z)
  end.
Proof.
  revert best. induction items as [|s items IH]; intros best Hr Hb; cbn [foldl].
  - destruct best as [[b v]|]; [|done]. pose proof (Hb b v eq_refl). split_and!; [done|by right|done|].
    intros b' v' [= <- <-]. lia.
  - apply Forall_cons in Hr as [Hs Hr]. destruct (newer_readable best s Hs) as [[Hn Hle]|[Hn (b0 & v0 & Hb0 & Hle)]].
    + rewrite Hn. specialize (IH (Some (s, version_of s)) Hr ltac:(by intros ? ? [= <- <-])).
      destruct (foldl newer _ items) as [[b v]|]; [|by destruct IH].
      destruct IH as (Hv & Hin & Hall & Hmax). pose proof (Hmax _ _ eq_refl) as Hsv. split_and!; [done| |by constructor|].
      * left. destruct Hin as [Hin|[= <- _]]; set_solver.
      * intros b' v' Hbest%Hle. lia.
    + rewrite Hn. specialize (IH best Hr Hb).
      destruct (foldl newer best items) as [[b v]|]; [|by destruct IH; simplify_eq].
      destruct IH as (Hv & Hin & Hall & Hmax). split_and!; [done|set_solver| |done].
      constructor; [|done]. pose proof (Hmax _ _ Hb0). lia.
Qed.

(** With one greatest version, that Secret is the newest, in any order. *)
Lemma latest_unique items s :
  Forall readable items → s ∈ items →
  (∀ t, t ∈ items → t ≠ s → (version_of t < version_of s)%Z) →
  latestHelmSecret items = Some s.
Proof.
  intros Hr Hs Hmax. unfold latestHelmSecret. pose proof (newer_max items None Hr ltac:(done)) as Hf.
  destruct (foldl newer None items) as [[b v]|]; [|by destruct Hf as [_ ->]; set_solver].
  destruct Hf as (-> & [Hb|Hb] & Hall & _); [|done]. cbn.
  destruct (decide (b = s)) as [->|Hne]; [done|]. exfalso.
  pose proof (Hmax b Hb Hne). rewrite Forall_forall in Hall. specialize (Hall s Hs). lia.
Qed.

(** ** A healthy API server *)

Definition sec_key (s : Secret) : string * string := (SecNamespace s, SecName s).

(** What the list options select. *)
Definition in_release (ns name : string) (s : Secret) : Prop :=
  SecNamespace s = ns ∧ label (SecLabels s) helmReleaseNameLabel = name.

#[global] Instance in_release_dec ns name s : Decision (in_release ns name s).
Proof. unfold in_release. apply _. Defined.

(** What the API server documents, with nobody else writing: a list shows the
    stored objects in some order; a get misses with NotFound; a create needs a
    free name; an update needs the stored resource version; writes assign a new
    one. *)
Class SecretStore (W : Type) `{SecretAPI W} := {
  stored : W → gmap (string * string) Secret;
  stored_key w k s : stored w !! k = Some s → sec_key s = k;
  list_law w ns n : ∃ items, sec_list w ns n = (w, Ok items) ∧
    items ≡ₚ filter (in_release ns n) (map_to_list (stored w)).*2;
  get_hit w ns n s : stored w !! (ns, n) = Some s → sec_get w ns n = (w, Ok s);
  get_miss w ns n : stored w !! (ns, n) = None →
    ∃ e, sec_get w ns n = (w, Err e) ∧ SIsNotFound e = true;
  create_law w s : stored w !! sec_key s = None →
    ∃ w' rv, sec_create w s = (w', None) ∧ stored w' = <[sec_key s := with_version rv s]> (stored w);
  update_law w s old : stored w !! sec_key s = Some old → SecResourceVersion s = SecResourceVersion old →
    ∃ w' rv, sec_update w s = (w', None) ∧ stored w' = <[sec_key s := with_version rv s]> (stored w);
  delete_law w s : is_Some (stored w !! sec_key s) →
    ∃ w', sec_delete w s = (w', None) ∧ stored w' = delete (sec_key s) (stored w) }.

(** The chart's objects are no Helm storage: applying and deleting them leaves
    the Secrets alone. *)
Class ObjectsApart (W : Type) `{SecretStore W} `{ManifestAPI W} : Prop := {
  apart_get w o : stored (obj_get w o).1 = stored w;
  apart_create w o : stored (obj_create w o).1 = stored w;
  apart_update w o rv : stored (obj_update w o rv).1 = stored w;
  apart_list w ns n : stored (cm_list w ns n).1 = stored w;
  apart_delete w cm : stored (cm_delete w cm).1 = stored w }.

(** ** The abstract history *)

(** A chart: name and version. *)
Notation chart := (string * string)%type.

Definition ascii_chart (c : chart) : Prop := is_ascii_text c.1 ∧ is_ascii_text c.2.

Definition chart_of (cfg : InstallConfig) : chart := (ChartName cfg, ChartVersion cfg).

(** What the operations do to the history of a release. *)
Inductive change :=
| CInstall
| CUpgrade
| CRollback (to : string)
| CUninstall.

Inductive evolves (cfg : InstallConfig) : change → list chart → list chart → Prop :=
| evolves_install : evolves cfg CInstall [] [chart_of cfg]
| evolves_upgrade hist : hist ≠ [] → evolves cfg CUpgrade hist (hist ++ [chart_of cfg])
| evolves_rollback hist c to :
    c ∈ hist → versionsEqual c.2 to = true → evolves cfg (CRollback to) hist (hist ++ [c])
| evolves_uninstall hist : hist ≠ [] → evolves cfg CUninstall hist [].

(** The release that stands for revision [i]. *)
Definition release_at (cfg : InstallConfig) (i : Z) (c : chart) : HelmRelease :=
  {| RelName := ReleaseName cfg; RelNamespace := IcNamespace cfg; RelChartName := c.1; RelChartVersion := c.2;
     RelStatus := HelmStatusDeployed; Revision := i; LastKnownGood := "";
     Labels := Some (storage_labels cfg i HelmStatusDeployed) |}.

(** ** The labels of a revision *)

Lemma union_absorb (m1 m2 : gmap string string) :
  (∀ k, is_Some (m2 !! k) → is_Some (m1 !! k)) → m1 ∪ m2 = m1.
Proof.
  intros Hd. apply map_eq. intros k. rewrite lookup_union. specialize (Hd k).
  destruct (m1 !! k), (m2 !! k); try done. by destruct (Hd ltac:(done)).
Qed.

Lemma storage_labels_spec cfg i st :
  let l := Some (storage_labels cfg i st) in
  label l helmReleaseNameLabel = ReleaseName cfg ∧ label l helmStorageOwnerLabel = helmStorageOwner ∧
  label l statusKey = st ∧ label l helmReleaseVersionLabel = Itoa i ∧
  label l ReleaseOwnerLabel = IcReleaseOwner cfg ∧ label l ReleaseModeLabel = ReleaseModeInstalled.
Proof. cbn [label]. unfold storage_labels. generalize (Itoa i). intros v. by split_and!; simplify_map_eq. Qed.

Lemma storage_labels_supersede cfg i st st' :
  <[statusKey := st']> (storage_labels cfg i st) = storage_labels cfg i st'.
Proof.
  unfold storage_labels. generalize (Itoa i). intros v. apply map_eq. intros k.
  destruct (decide (k = statusKey)) as [->|Hk]; [by simplify_map_eq|].
  rewrite lookup_insert_ne by done. rewrite !lookup_insert. by repeat case_decide.
Qed.

Lemma storage_labels_union cfg i st st' :
  storage_labels cfg i st ∪ storage_labels cfg i st' = storage_labels cfg i st.
Proof.
  apply union_absorb. intros k. unfold storage_labels. generalize (Itoa i). intros v.
  rewrite !lookup_insert_is_Some', !lookup_singleton_is_Some. naive_solver.
Qed.

Section History.
Context {W : Type} `{SecretStore W} `{ManifestAPI W} `{!ObjectsApart W} `{ChartFS W}.
Context `{StorageCodecLaws} `{MetaAPI} `{ControllerUtil}.
Context (ChartRoot : string).

(** The Secret of revision [i], with the status [st] in its labels. *)
Record stands_for (cfg : InstallConfig) (i : Z) (st : string) (c : chart) (s : Secret) : Prop := {
  sf_key : sec_key s = (IcNamespace cfg, helmReleaseSecretName (ReleaseName cfg) i);
  sf_type : SecType s = helmStorageSecretType;
  sf_labels : SecLabels s = Some (storage_labels cfg i st);
  sf_data : ∃ payload, SecData s = Some {[ "release" := payload ]} ∧
    decodeHelmStorageRelease payload = Ok (storage_doc (at_chart c.1 c.2 cfg) i HelmStatusDeployed) }.

Definition slot (cfg : InstallConfig) (i : nat) : string * string :=
  (IcNamespace cfg, helmReleaseSecretName (ReleaseName cfg) (Z.of_nat (S i))).

(** The stored Secrets of the release are its revisions 1 to n; all but the last
    are labelled superseded, and the last one is labelled [st]. *)
Record history_of (m : gmap (string * string) Secret) (cfg : InstallConfig) (hist : list chart) (st : string) : Prop := {
  ho_slot i c : hist !! i = Some c → ∃ s, m !! slot cfg i = Some s ∧
    stands_for cfg (Z.of_nat (S i)) (if S i =? length hist then st else helmStatusSuperseded) c s;
  ho_only k s : m !! k = Some s → in_release (IcNamespace cfg) (ReleaseName cfg) s →
    ∃ i, i < length hist ∧ k = slot cfg i;
  ho_free i : length hist ≤ i → m !! slot cfg i = None;
  ho_status : st ∈ [HelmStatusDeployed; helmStatusSuperseded];
  ho_ascii : Forall ascii_chart hist;
  ho_bound : (Z.of_nat (length hist) ≤ max_int64)%Z }.

(** No Secret outside the release is changed. *)
Definition framed (cfg : InstallConfig) (m m' : gmap (string * string) Secret) : Prop :=
  ∀ k s, m !! k = Some s → ¬ in_release (IcNamespace cfg) (ReleaseName cfg) s → m' !! k = Some s.

Lemma stands_for_release cfg i st c s :
  ReleaseName cfg ≠ "" → IcNamespace cfg ≠ "" →
  stands_for cfg i st c s → releaseFromHelmSecret s = Ok (release_at cfg i c).
Proof.
  intros Hn Hns [Hk Ht Hl (payload & Hd & Hp)]. unfold releaseFromHelmSecret. rewrite Hd, lookup_singleton_eq.
  cbn [default from_option id]. rewrite Hp. cbn [result_bind DocName DocNamespace DocStatus DocChartName
    DocChartVersion DocVersion DocLabels storage_doc at_chart ReleaseName IcNamespace ChartName ChartVersion].
  rewrite !bool_decide_eq_false_2 by done. rewrite Hl. cbn [default from_option id].
  unfold release_at. by rewrite <- (storage_labels_union cfg i HelmStatusDeployed st).
Qed.

(** The configured release can be kept: it has a name, it is this adapter's, and
    it is ASCII text. *)
Record keepable (cfg : InstallConfig) : Prop := {
  kp_name : ReleaseName cfg ≠ "";
  kp_ns : IcNamespace cfg ≠ "";
  kp_owner : IcReleaseOwner cfg = ReleaseOwner;
  kp_ascii : is_ascii_text (ReleaseName cfg) ∧ is_ascii_text (IcNamespace cfg) }.

Lemma guarded_keepable cfg :
  guardMutation ChartRoot cfg = Ok tt →
  Forall is_ascii_text [ReleaseName cfg; IcNamespace cfg; ChartName cfg; ChartVersion cfg] → keepable cfg.
Proof.
  unfold guardMutation. intros Hg (Hr & Hn & _)%Forall_cons_1%(and_iff_compat_l _ (Forall_cons _ _ _)).
  repeat case_test; bool_hyps; try discriminate. by split.
Qed.

Section Release.
Context (cfg : InstallConfig) (Hcfg : keepable cfg).

Lemma stands_for_in i st c s : stands_for cfg i st c s → in_release (IcNamespace cfg) (ReleaseName cfg) s.
Proof. intros [Hk _ Hl _]. injection Hk as Hns _. split; [done|]. rewrite Hl. apply storage_labels_spec. Qed.

(** The listed Secrets are the revisions. *)
Lemma listed_revisions w hist st items s :
  history_of (stored w) cfg hist st →
  items ≡ₚ filter (in_release (IcNamespace cfg) (ReleaseName cfg)) (map_to_list (stored w)).*2 →
  s ∈ items ↔ ∃ i c, hist !! i = Some c ∧ stored w !! slot cfg i = Some s.
Proof.
  intros Hh ->. rewrite list_elem_of_filter, list_elem_of_fmap. split.
  - intros [Hin ([k s'] & -> & Hk%elem_of_map_to_list)]. cbn [snd] in *.
    destruct (ho_only _ _ _ _ Hh k s' Hk Hin) as (i & Hi & ->).
    destruct (lookup_lt_is_Some_2 hist i Hi) as [c Hc]. eauto.
  - intros (i & c & Hc & Hs). split.
    + destruct (ho_slot _ _ _ _ Hh i c Hc) as (s' & Hs' & Hsf). rewrite Hs in Hs'. injection Hs' as <-.
      by apply (stands_for_in _ _ _ _ Hsf).
    + exists (slot cfg i, s). split; [done|]. by apply elem_of_map_to_list.
Qed.

Lemma history_slot w hist st i c s :
  history_of (stored w) cfg hist st → hist !! i = Some c → stored w !! slot cfg i = Some s →
  stands_for cfg (Z.of_nat (S i)) (if S i =? length hist then st else helmStatusSuperseded) c s.
Proof.
  intros Hh Hc Hs. destruct (ho_slot _ _ _ _ Hh i c Hc) as (s' & Hs' & Hsf). rewrite Hs in Hs'. by injection Hs' as <-.
Qed.

Lemma stands_for_version hist w st i c s :
  history_of (stored w) cfg hist st → hist !! i = Some c → stored w !! slot cfg i = Some s →
  version_of s = Z.of_nat (S i) ∧ readable s.
Proof.
  intros Hh Hc Hs. destruct (history_slot _ _ _ _ _ _ Hh Hc Hs) as [_ Ht Hl _].
  pose proof (ho_bound _ _ _ _ Hh) as Hb. apply lookup_lt_Some in Hc.
  unfold version_of, readable. rewrite Hl.
  destruct (storage_labels_spec cfg (Z.of_nat (S i)) (if S i =? length hist then st else helmStatusSuperseded))
    as (_ & _ & -> & -> & _). split; [apply atoi_value_Itoa; lia|]. split; [done|].
  destruct (S i =? length hist); [apply (ho_status _ _ _ _ Hh)|set_solver].
Qed.

(** Reading the release gives the newest revision. *)
Lemma get_newest w hist st :
  history_of (stored w) cfg hist st →
  secret_GetRelease true w (IcNamespace cfg) (ReleaseName cfg) =
    match last hist with
    | None => fail_with w ErrReleaseNotFound
    | Some c => (w, (release_at cfg (Z.of_nat (length hist)) c, None))
    end.
Proof.
  intros Hh. unfold secret_GetRelease. cbn [negb].
  destruct (list_law w (IcNamespace cfg) (ReleaseName cfg)) as (items & -> & Hp).
  pose proof (listed_revisions w hist st items) as Hin.
  assert (Hr : Forall readable items).
  { rewrite Forall_forall. intros s (i & c & Hc & Hs)%(Hin s Hh Hp). by eapply stands_for_version. }
  destruct hist as [|c hist _] using rev_ind.
  { destruct items as [|s items]; [done|]. exfalso.
    by destruct (proj1 (Hin s Hh Hp) ltac:(by left)) as (i & c & Hc & _). }
  assert (Hc : (hist ++ [c]) !! length hist = Some c) by by rewrite lookup_app_r, Nat.sub_diag.
  destruct (ho_slot _ _ _ _ Hh _ _ Hc) as (s & Hs & Hsf).
  rewrite (latest_unique items s Hr).
  - rewrite last_snoc, length_app. cbn [length]. rewrite Nat.add_1_r.
    by rewrite (stands_for_release _ _ _ _ _ (kp_name _ Hcfg) (kp_ns _ Hcfg) Hsf).
  - apply Hin; eauto.
  - intros t (j & d & Hd & Ht)%(Hin t Hh Hp) Hne.
    destruct (stands_for_version _ _ _ _ _ _ Hh Hd Ht) as [-> _].
    destruct (stands_for_version _ _ _ _ _ _ Hh Hc Hs) as [-> _].
    pose proof (lookup_lt_Some _ _ _ Hd) as Hj. rewrite length_app in Hj. cbn in Hj.
    destruct (decide (j = length hist)) as [->|]; [congruence|lia].
Qed.

(** ** Retries *)

(** A run that does not end in a conflict is not repeated. *)
Lemma Retry_once {S} retriable (f : S → S * option err) s :
  match (f s).2 with Some e => retriable e = false | None => True end →
  Retry S retriable f s = f s.
Proof.
  intros Hf. pose proof (Retry_spec S retriable f s) as Hr.
  inversion Hr as [s0 Hs|s0 s' e r Hs' He Hn]; [done|]. subst. rewrite Hs' in Hf. cbn in Hf. congruence.
Qed.

(** An invariant of the attempts holds after the retries. *)
Lemma Retry_keeps {S} (I : S → Prop) retriable (f : S → S * option err) s :
  (∀ s, I s → I (f s).1) → I s → I (Retry S retriable f s).1.
Proof. intros Hf Hs. destruct (Retry_ind I retriable f s Hf Hs) as (s' & Hs' & ->). by apply Hf. Qed.

(** ** The steps of an operation *)

Lemma apply_keeps w objs : stored (applyManifests w objs).1 = stored w.
Proof.
  revert w. induction objs as [|o objs IH]; intros w; cbn [applyManifests]; [done|].
  assert (Ho : stored (cluster_applyOne w o).1 = stored w).
  { unfold cluster_applyOne. apply (Retry_keeps (λ w', stored w' = stored w)); [|done].
    intros w1 Hw1. unfold apply_attempt. pose proof (apart_get w1 o) as Hg.
    destruct (obj_get w1 o) as [w2 [rv|e]]; cbn [fst] in Hg; [|destruct (SIsNotFound e); cbn [fst]; [|congruence]].
    - rewrite apart_update. congruence.
    - pose proof (apart_create w2 o) as Hc. destruct (obj_create w2 o) as [w3 e3]. cbn [fst] in *. congruence. }
  destruct (cluster_applyOne w o) as [w1 [e|]]; cbn [fst] in *; [done|]. by rewrite IH.
Qed.

Lemma slot_inj i j : slot cfg i = slot cfg j → i = j.
Proof. intros Hij%(f_equal snd). apply (inj (helmReleaseSecretName _)) in Hij. lia. Qed.

(** Writing a slot of the release changes no other Secret. *)
Lemma framed_insert m hist st i s : history_of m cfg hist st → framed cfg m (<[slot cfg i := s]> m).
Proof.
  intros Hh k t Hk Hn. rewrite lookup_insert_ne; [done|]. intros <-.
  destruct (hist !! i) as [c|] eqn:Hi.
  - destruct (ho_slot _ _ _ _ Hh i c Hi) as (t' & Ht' & Hsf). rewrite Hk in Ht'. injection Ht' as <-.
    by apply Hn, (stands_for_in _ _ _ _ Hsf).
  - apply lookup_ge_None in Hi. by rewrite (ho_free _ _ _ _ Hh i Hi) in Hk.
Qed.

Lemma supersede w hist st :
  history_of (stored w) cfg hist st → hist ≠ [] →
  ∃ w', markSuperseded w cfg (Z.of_nat (length hist)) = (w', None) ∧
    history_of (stored w') cfg hist helmStatusSuperseded ∧ framed cfg (stored w) (stored w').
Proof.
  intros Hh Hne. destruct hist as [|c hist _] using rev_ind; [done|]. clear Hne.
  assert (Hc : (hist ++ [c]) !! length hist = Some c) by by rewrite lookup_app_r, Nat.sub_diag.
  destruct (ho_slot _ _ _ _ Hh _ _ Hc) as (s & Hs & Hsf).
  assert (Hlen : length (hist ++ [c]) = S (length hist)) by (rewrite length_app; cbn; lia).
  rewrite Hlen, Nat.eqb_refl in Hsf.
  set (s' := with_labels (<[statusKey := helmStatusSuperseded]> (default ∅ (SecLabels s))) s).
  assert (Hk : sec_key s' = slot cfg (length hist)) by apply Hsf.
  destruct (update_law w s' s) as (w' & rv & Hu & Hw'); [by rewrite Hk|done|].
  exists w'. assert (Ha : supersede_attempt (IcNamespace cfg)
      (helmReleaseSecretName (ReleaseName cfg) (Z.of_nat (length (hist ++ [c])))) w = (w', None)).
  { unfold supersede_attempt. rewrite Hlen, (get_hit w _ _ s Hs). exact Hu. }
  unfold markSuperseded. split; [by rewrite Retry_once; rewrite Ha|]. rewrite Hw', Hk.
  split; [|by apply (framed_insert _ _ _ _ _ Hh)]. split.
  - intros i d Hd. rewrite Hlen. destruct (decide (i = length hist)) as [->|Hi].
    + rewrite Hc in Hd. injection Hd as <-. rewrite lookup_insert_eq. eexists. split; [done|].
      destruct Hsf as [Hsk Hst Hsl Hsd]. rewrite Nat.eqb_refl. split; [done|done| |done].
      unfold s'. cbn [with_version with_labels SecLabels]. rewrite Hsl. cbn [default from_option id].
      by rewrite storage_labels_supersede.
    + destruct (ho_slot _ _ _ _ Hh i d Hd) as (t & Ht & Htf). exists t.
      rewrite lookup_insert_ne by (by intros ?%slot_inj). split; [done|].
      rewrite Hlen in Htf. by destruct (Nat.eqb_spec (S i) (S (length hist))); [lia|].
  - intros k t. destruct (decide (slot cfg (length hist) = k)) as [<-|Hk'].
    + intros _ _. exists (length hist). rewrite Hlen. split; [lia|done].
    + rewrite lookup_insert_ne by done. apply (ho_only _ _ _ _ Hh).
  - intros i Hi. rewrite lookup_insert_ne; [by apply (ho_free _ _ _ _ Hh)|]. intros <-%slot_inj. lia.
  - set_solver.
  - apply (ho_ascii _ _ _ _ Hh).
  - apply (ho_bound _ _ _ _ Hh).
Qed.

Lemma storage_doc_plain i c :
  ascii_chart c → (0 ≤ i ≤ max_int64)%Z → plain_doc (storage_doc (at_chart c.1 c.2 cfg) i HelmStatusDeployed).
Proof.
  intros [Hc1 Hc2] Hi. destruct Hcfg as [_ _ Ho [Hr Hn]]. split; [|split].
  - by repeat constructor.
  - cbn [storage_doc DocLabels default from_option id]. unfold storage_labels.
    cbn [at_chart ReleaseName IcReleaseOwner]. rewrite Ho.
    pose proof (Itoa_ascii i ltac:(lia)). generalize dependent (Itoa i). intros v Hv.
    repeat (apply map_Forall_insert_2; [by split|]). apply map_Forall_empty.
  - cbn. unfold min_int64. lia.
Qed.

(** A history on which the next slot is filled in. *)
Lemma history_snoc m hist c s :
  history_of m cfg hist helmStatusSuperseded → ascii_chart c → (Z.of_nat (length hist) < max_int64)%Z →
  stands_for cfg (Z.of_nat (S (length hist))) HelmStatusDeployed c s →
  history_of (<[slot cfg (length hist) := s]> m) cfg (hist ++ [c]) HelmStatusDeployed.
Proof.
  intros Hh Hc Hb Hs.
  assert (Hlen : length (hist ++ [c]) = S (length hist)) by (rewrite length_app; cbn; lia).
  split; rewrite ?Hlen.
  - intros i d [Hd|[Hi Hd]]%lookup_app_Some.
    + pose proof (lookup_lt_Some _ _ _ Hd). rewrite lookup_insert_ne by (intros ?%slot_inj; lia).
      destruct (ho_slot _ _ _ _ Hh i d Hd) as (t & Ht & Htf). exists t. split; [done|].
      destruct (Nat.eqb_spec (S i) (S (length hist))); [lia|]. by destruct (S i =? length hist).
    + apply list_lookup_singleton_Some in Hd as [Hi0 <-]. assert (i = length hist) as -> by lia.
      exists s. by rewrite lookup_insert_eq, Nat.eqb_refl.
  - intros k t. destruct (decide (slot cfg (length hist) = k)) as [<-|Hk].
    + intros _ _. exists (length hist). split; [lia|done].
    + rewrite lookup_insert_ne by done. intros Hk1 Hk2.
      destruct (ho_only _ _ _ _ Hh k t Hk1 Hk2) as (i & Hi & ->). exists i. split; [lia|done].
  - intros i Hi. rewrite lookup_insert_ne by (intros ?%slot_inj; lia). apply (ho_free _ _ _ _ Hh). lia.
  - set_solver.
  - apply Forall_app. split; [apply (ho_ascii _ _ _ _ Hh)|by constructor].
  - lia.
Qed.

(** Storing the next revision. *)
Lemma store_next w hist c rel :
  history_of (stored w) cfg hist helmStatusSuperseded → ascii_chart c →
  (Z.of_nat (length hist) < max_int64)%Z → Revision rel = Z.of_nat (S (length hist)) →
  ∃ w', storeSecret w (at_chart c.1 c.2 cfg) rel HelmStatusDeployed = (w', None) ∧
    history_of (stored w') cfg (hist ++ [c]) HelmStatusDeployed ∧ framed cfg (stored w) (stored w').
Proof.
  intros Hh Hc Hb Hrev. unfold storeSecret. rewrite Hrev.
  pose proof (storage_doc_plain (Z.of_nat (S (length hist))) c Hc ltac:(lia)) as Hp.
  destruct (encode_spec _ Hp) as (z & body & He & _). rewrite He.
  set (sec := storage_secret _ _ _ _).
  assert (Hk : sec_key sec = slot cfg (length hist)) by done.
  assert (Hnone : stored w !! slot cfg (length hist) = None) by by apply (ho_free _ _ _ _ Hh).
  destruct (create_law w sec) as (w' & rv & Hcr & Hw'); [by rewrite Hk|].
  destruct (get_miss w (SecNamespace sec) (SecName sec)) as (e & Hget & Hnf); [exact Hnone|].
  assert (Ha : store_attempt sec w = (w', None)).
  { unfold store_attempt. by rewrite Hget, Hnf, Hcr. }
  exists w'. split; [by rewrite Retry_once; rewrite Ha|]. rewrite Hw', Hk.
  split; [|by apply (framed_insert _ _ _ _ _ Hh)]. apply history_snoc; [done|done|done|]. split; [done|done|done|].
  eexists. split; [done|]. by apply storage_decodes.
Qed.

(** Writing the next revision: all of it, or the history is as it was. *)
Lemma write_next w hist c lastGood :
  history_of (stored w) cfg hist helmStatusSuperseded → ascii_chart c →
  (Z.of_nat (length hist) < max_int64)%Z →
  let cfg' := at_chart c.1 c.2 cfg in
  let r := writeRevision true ChartRoot w cfg' (Z.of_nat (S (length hist))) lastGood in
  framed cfg (stored w) (stored r.1) ∧ ((r.2 = (release_at cfg (Z.of_nat (S (length hist))) c, None) ∧
     history_of (stored r.1) cfg (hist ++ [c]) HelmStatusDeployed) ∨
  (∃ e, r.2 = (zero_release, Some e) ∧ history_of (stored r.1) cfg hist helmStatusSuperseded ∧
     ∀ ms, renderChart ChartRoot w cfg' = Ok ms → is_Some (applyManifests w ms).2)).
Proof.
  intros Hh Hc Hb. cbv zeta. unfold writeRevision.
  destruct (renderChart ChartRoot w _) as [ms|e]; [|split; [by intros ?|]; right; by exists e].
  pose proof (apply_keeps w ms) as Hk.
  destruct (applyManifests w ms) as [w1 [e|]] eqn:Ha; cbn [fst] in Hk.
  { cbn [fail_with fst snd]. rewrite Hk. split; [by intros ?|]. right. exists e. split_and!; [done|done|]. intros ? [= <-]. by rewrite Ha. }
  rewrite <- Hk in Hh. set (rel := with_revision _ _ _).
  destruct (store_next w1 hist c rel Hh Hc Hb eq_refl) as (w2 & -> & Hh2 & Hf).
  change (IcNamespace (at_chart c.1 c.2 cfg)) with (IcNamespace cfg).
  change (ReleaseName (at_chart c.1 c.2 cfg)) with (ReleaseName cfg).
  rewrite (get_newest w2 _ _ Hh2), last_snoc, length_app. cbn. rewrite <- Hk, Nat.add_1_r.
  split; [done|by left].
Qed.

(** *** Uninstall *)

Lemma delete_cms_keeps w items : stored (delete_config_maps w items).1 = stored w.
Proof.
  revert w. induction items as [|cm items IH]; intros w; cbn [delete_config_maps]; [done|].
  pose proof (apart_delete w cm) as Hd. destruct (cm_delete w cm) as [w1 [e|]]; cbn [fst] in Hd.
  - destruct (SIsNotFound e); [by rewrite IH|done].
  - by rewrite IH.
Qed.

Lemma delete_objects_keeps w : stored (deleteReleaseObjects w cfg).1 = stored w.
Proof.
  unfold deleteReleaseObjects. pose proof (apart_list w (IcNamespace cfg) (ReleaseName cfg)) as Hl.
  destruct (cm_list w _ _) as [w1 [items|e]]; cbn [fst] in Hl; [by rewrite delete_cms_keeps|done].
Qed.

(** Deleting stored Secrets one by one empties their keys and nothing else. *)
Lemma delete_secrets_spec w items :
  NoDup (sec_key <$> items) →
  (∀ s, s ∈ items → SecType s = helmStorageSecretType ∧ stored w !! sec_key s = Some s) →
  ∃ w', delete_secrets w items = (w', None) ∧
    ∀ k, stored w' !! k = if decide (k ∈ sec_key <$> items) then None else stored w !! k.
Proof.
  revert w. induction items as [|s items IH]; intros w Hnd Hin; cbn [delete_secrets].
  { exists w. split; [done|]. intros k. by rewrite decide_False by set_solver. }
  apply NoDup_cons in Hnd as [Hs Hnd]. destruct (Hin s ltac:(by left)) as [Ht Hw].
  rewrite bool_decide_eq_true_2 by done. cbn [negb].
  destruct (delete_law w s) as (w1 & -> & Hw1); [by eexists|].
  destruct (IH w1 Hnd) as (w2 & -> & Hw2).
  { intros t Ht'. destruct (Hin t ltac:(by right)) as [Htt Htw]. split; [done|].
    rewrite Hw1, lookup_delete_ne; [done|]. intros Heq. apply Hs. rewrite Heq. by apply list_elem_of_fmap_2. }
  exists w2. split; [done|]. intros k. rewrite Hw2, Hw1. rewrite fmap_cons.
  destruct (decide (k = sec_key s)) as [->|Hk].
  - rewrite decide_False by done. rewrite decide_True by (by left). apply lookup_delete_eq.
  - rewrite lookup_delete_ne by done. apply decide_ext. set_solver.
Qed.

Lemma delete_all w hist st :
  history_of (stored w) cfg hist st →
  ∃ w', deleteReleaseSecrets w cfg = (w', None) ∧ history_of (stored w') cfg [] HelmStatusDeployed ∧
    framed cfg (stored w) (stored w').
Proof.
  intros Hh. unfold deleteReleaseSecrets.
  destruct (list_law w (IcNamespace cfg) (ReleaseName cfg)) as (items & -> & Hp).
  pose proof (listed_revisions w hist st items) as Hin.
  assert (Hkey : ∀ s i, stored w !! slot cfg i = Some s → sec_key s = slot cfg i) by (intros; by eapply stored_key).
  destruct (delete_secrets_spec w items) as (w' & -> & Hw').
  - rewrite Hp. eapply sublist_NoDup, fmap_sublist, sublist_filter.
    rewrite <- list_fmap_compose. rewrite (list_fmap_ext _ fst); [apply NoDup_fst_map_to_list|].
    intros _ [k s] Hks%list_elem_of_lookup_2%elem_of_map_to_list. by apply (stored_key w).
  - intros s (i & c & Hc & Hs)%(Hin s Hh Hp). rewrite (Hkey s i Hs). split; [|done].
    by destruct (history_slot _ _ _ _ _ _ Hh Hc Hs).
  - assert (Hgone : ∀ i, stored w' !! slot cfg i = None).
    { intros i. rewrite Hw'. destruct (decide _) as [|Hn]; [done|]. destruct (hist !! i) as [c|] eqn:Hi.
      - exfalso. destruct (ho_slot _ _ _ _ Hh i c Hi) as (s & Hs & _). apply Hn.
        rewrite <- (Hkey s i Hs). apply list_elem_of_fmap_2, Hin; eauto.
      - apply (ho_free _ _ _ _ Hh). by apply lookup_ge_None. }
    exists w'. split; [done|]. split; [split|]; try done.
    + intros k s Hk Hs. rewrite Hw' in Hk. destruct (decide _) as [|Hn]; [done|].
      destruct (ho_only _ _ _ _ Hh k s Hk Hs) as (i & Hi & ->). exfalso. apply Hn.
      destruct (lookup_lt_is_Some_2 hist i Hi) as [c Hc].
      rewrite <- (Hkey s i Hk). apply list_elem_of_fmap_2, Hin; eauto.
    + set_solver.
    + intros k s Hk Hs. rewrite Hw'. destruct (decide _) as [Hd|]; [|done]. exfalso.
      apply list_elem_of_fmap in Hd as (t & -> & (i & c & Hc & Ht)%(Hin t Hh Hp)).
      rewrite (Hkey t i Ht) in Hk. rewrite Ht in Hk. injection Hk as ->.
      apply Hs. eapply stands_for_in, history_slot; eauto.
Qed.

(** *** The operations *)

Lemma release_managed i c : ManagedByAdapter (release_at cfg i c) = true.
Proof.
  unfold ManagedByAdapter, release_at. cbn [Labels].
  destruct (storage_labels_spec cfg i HelmStatusDeployed) as (_ & _ & _ & _ & -> & _).
  rewrite (kp_owner _ Hcfg). done.
Qed.

Lemma release_deletable i c : AllowsDelete (ClassifyReleaseOwnership (release_at cfg i c)) = true.
Proof.
  unfold ClassifyReleaseOwnership, release_at. cbn [Labels RelName]. cbv zeta.
  destruct (storage_labels_spec cfg i HelmStatusDeployed) as (_ & -> & _ & _ & -> & ->).
  rewrite bool_decide_eq_false_2 by apply (kp_name _ Hcfg). rewrite (kp_owner _ Hcfg). reflexivity.
Qed.

Lemma owned_newest w hist c st :
  history_of (stored w) cfg (hist ++ [c]) st →
  ownedRelease true w cfg = (w, (release_at cfg (Z.of_nat (S (length hist))) c, None)).
Proof.
  intros Hh. unfold ownedRelease. rewrite (get_newest _ _ _ Hh), last_snoc, length_app. cbn [length].
  by rewrite Nat.add_1_r, release_managed.
Qed.

Lemma owned_none w st :
  history_of (stored w) cfg [] st → ownedRelease true w cfg = fail_with w ErrReleaseNotFound.
Proof. intros Hh. unfold ownedRelease. by rewrite (get_newest _ _ _ Hh). Qed.

(** The chart that [findRevision] finds is one of the history. *)
Lemma find_in_history w hist st to :
  history_of (stored w) cfg hist st →
  ∃ r, findRevision w cfg to = (w, r) ∧
    match r with
    | Ok rel => ∃ i c, hist !! i = Some c ∧ rel = release_at cfg (Z.of_nat (S i)) c ∧ versionsEqual c.2 to = true
    | Err e => e = ErrRollbackFailed ∧ ∀ c, c ∈ hist → versionsEqual c.2 to = false
    end.
Proof.
  intros Hh. unfold findRevision. destruct (list_law w (IcNamespace cfg) (ReleaseName cfg)) as (items & -> & Hp).
  eexists. split; [done|]. pose proof (λ s, listed_revisions w hist st items s Hh Hp) as Hin. clear Hp.
  assert (Hsome : ∀ s, s ∈ items → ∃ i c, hist !! i = Some c ∧
    releaseFromHelmSecret s = Ok (release_at cfg (Z.of_nat (S i)) c)).
  { intros s (i & c & Hc & Hs)%Hin. exists i, c. split; [done|].
    eapply stands_for_release, history_slot; eauto using kp_name, kp_ns. }
  assert (Hall : ∀ c, c ∈ hist → ∃ s i, s ∈ items ∧ releaseFromHelmSecret s = Ok (release_at cfg i c)).
  { intros c (i & Hc)%list_elem_of_lookup_1. destruct (ho_slot _ _ _ _ Hh i c Hc) as (s & Hs & Hsf).
    exists s, (Z.of_nat (S i)). split; [apply Hin; eauto|]. by eapply stands_for_release; eauto using kp_name, kp_ns. }
  clear Hin. destruct (find_version to items) as [rel|] eqn:Hf.
  - clear Hall. induction items as [|s items IH]; [done|]. cbn [find_version] in Hf.
    destruct (Hsome s ltac:(by left)) as (i & c & Hc & Hr). rewrite Hr in Hf.
    destruct (versionsEqual _ _) eqn:Hv; [injection Hf as <-; eauto|].
    apply IH; [|done]. intros t Ht. apply Hsome. by right.
  - split; [done|]. intros c (s & i & Hs & Hr)%Hall. clear Hall Hsome.
    induction items as [|t items IH]; [by apply not_elem_of_nil in Hs|]. cbn [find_version] in Hf.
    apply elem_of_cons in Hs as [<-|Hs].
    + rewrite Hr in Hf. by destruct (versionsEqual _ _) eqn:Hv; [|].
    + apply IH; [|done]. destruct (releaseFromHelmSecret t) as [rel|]; [|done].
      by destruct (versionsEqual _ _).
Qed.

(** ** The simulation *)

Definition run_change (op : change) (values : option (gmap string value)) (w : W) : outcome W :=
  match op with
  | CInstall => cluster_Install true ChartRoot w cfg values
  | CUpgrade => cluster_Upgrade true ChartRoot w cfg values
  | CRollback to => cluster_Rollback true ChartRoot w cfg to
  | CUninstall => cluster_Uninstall true ChartRoot w cfg
  end.

Definition newest (hist : list chart) : option HelmRelease :=
  release_at cfg (Z.of_nat (length hist)) <$> last hist.

(** A call that succeeds takes the abstract step and answers with the newest
    revision (an uninstall: with the one it removed); a call that fails leaves
    the history as it was.  No other Secret is changed. *)
Definition simulates (op : change) (hist : list chart) (w : W) (r : outcome W) : Prop :=
  framed cfg (stored w) (stored r.1) ∧
  match r.2.2 with
  | None => ∃ hist', evolves cfg op hist hist' ∧ history_of (stored r.1) cfg hist' HelmStatusDeployed ∧
      newest (if decide (hist' = []) then hist else hist') = Some r.2.1
  | Some _ => ∃ st, history_of (stored r.1) cfg hist st
  end.

(** The chart renders and its objects can be written, now and later. *)
Definition deploys (c : chart) : Prop :=
  ∀ w, ∃ ms, renderChart ChartRoot w (at_chart c.1 c.2 cfg) = Ok ms ∧ (applyManifests w ms).2 = None.

Lemma framed_refl m : framed cfg m m.
Proof. by intros ?. Qed.

Lemma framed_trans m1 m2 m3 : framed cfg m1 m2 → framed cfg m2 m3 → framed cfg m1 m3.
Proof. intros H12 H23 k s Hk Hs. by apply H23, Hs; apply H12. Qed.

Lemma newest_snoc hist c : newest (hist ++ [c]) = Some (release_at cfg (Z.of_nat (S (length hist))) c).
Proof. unfold newest. by rewrite last_snoc, length_app, Nat.add_1_r. Qed.

(** The last write of an operation, seen as the abstract step. *)
Lemma write_simulates op w0 w hist c lastGood :
  history_of (stored w) cfg hist helmStatusSuperseded → framed cfg (stored w0) (stored w) → ascii_chart c →
  (Z.of_nat (length hist) < max_int64)%Z → evolves cfg op hist (hist ++ [c]) →
  let r := writeRevision true ChartRoot w (at_chart c.1 c.2 cfg) (Z.of_nat (S (length hist))) lastGood in
  simulates op hist w0 r ∧ (deploys c → r.2.2 = None).
Proof.
  intros Hh Hf Hc Hb Hev. cbv zeta. destruct (write_next w hist c lastGood Hh Hc Hb) as [Hf' Hr].
  split; [split; [by eapply framed_trans|]|]; destruct Hr as [[Hr Hh']|(e & Hr & Hh' & Hno)]; rewrite Hr; cbn [snd fst].
  - exists (hist ++ [c]). rewrite decide_False by (by destruct hist). by rewrite newest_snoc.
  - by eexists.
  - done.
  - intros Hd. destruct (Hd w) as (ms & Hms & Hap). apply Hno in Hms. rewrite Hap in Hms. by destruct Hms.
Qed.

Lemma fail_simulates op hist w st e :
  history_of (stored w) cfg hist st → simulates op hist w (fail_with w e).
Proof. intros Hh. split; [apply framed_refl|]. cbn. by exists st. Qed.

Lemma wrap_succ n : (Z.of_nat n < max_int64)%Z → wrap_int64 (Z.of_nat n + 1) = Z.of_nat (S n).
Proof. unfold max_int64, wrap_int64. intros Hn. rewrite Z.mod_small; lia. Qed.

Context (Hguard : guardMutation ChartRoot cfg = Ok tt).

Lemma install_simulates w hist st values :
  history_of (stored w) cfg hist st → ascii_chart (chart_of cfg) → (Z.of_nat (length hist) < max_int64)%Z →
  simulates CInstall hist w (run_change CInstall values w) ∧
  (hist = [] → deploys (chart_of cfg) → (run_change CInstall values w).2.2 = None).
Proof.
  intros Hh Hc Hb. cbn [run_change]. unfold cluster_Install. rewrite Hguard, (get_newest _ _ _ Hh).
  destruct hist as [|c hist _] using rev_ind.
  - cbn [last fail_with]. change (negb (errorsIsNotFound ErrReleaseNotFound)) with false. cbv iota.
    destruct (write_simulates CInstall w w [] (chart_of cfg) "") as [Hs Hd];
      [|apply framed_refl|done|done|constructor|].
    { destruct Hh as [H1' H2' H3' H4' H5' H6']. split; try done. set_solver. }
    destruct cfg. split; [exact Hs|intros _; exact Hd].
  - rewrite last_snoc. split; [by eapply fail_simulates|]. by destruct hist.
Qed.

Lemma at_chart_of : at_chart (chart_of cfg).1 (chart_of cfg).2 cfg = cfg.
Proof. by destruct cfg. Qed.

Lemma upgrade_simulates w hist st values :
  history_of (stored w) cfg hist st → ascii_chart (chart_of cfg) → (Z.of_nat (length hist) < max_int64)%Z →
  simulates CUpgrade hist w (run_change CUpgrade values w) ∧
  (hist ≠ [] → deploys (chart_of cfg) → (run_change CUpgrade values w).2.2 = None).
Proof.
  intros Hh Hc Hb. cbn [run_change]. unfold cluster_Upgrade. rewrite Hguard.
  destruct hist as [|c hist _] using rev_ind.
  { rewrite (owned_none _ _ Hh). split; [by eapply fail_simulates|done]. }
  rewrite (owned_newest _ _ _ _ Hh). cbn [release_at Revision RelChartVersion].
  destruct (supersede w _ _ Hh) as (w1 & Hm & Hh1 & Hf1); [by destruct hist|].
  rewrite length_app in Hm, Hb. cbn [length] in Hm, Hb. rewrite Nat.add_1_r in Hm, Hb.
  rewrite Hm, wrap_succ by done.
  destruct (write_simulates CUpgrade w w1 (hist ++ [c]) (chart_of cfg) c.2) as [Hs Hd];
    [done|done|done|rewrite length_app; cbn; lia|constructor; by destruct hist|].
  rewrite at_chart_of, length_app in Hs, Hd. cbn [length] in Hs, Hd. rewrite Nat.add_1_r in Hs, Hd.
  split; [exact Hs|intros _; exact Hd].
Qed.

Lemma rollback_simulates w hist st to values :
  history_of (stored w) cfg hist st → (Z.of_nat (length hist) < max_int64)%Z →
  simulates (CRollback to) hist w (run_change (CRollback to) values w) ∧
  (ValidateReleaseVersion to = Ok tt → (∃ c, c ∈ hist ∧ versionsEqual c.2 to = true) →
   (∀ c, c ∈ hist → deploys c) → (run_change (CRollback to) values w).2.2 = None).
Proof.
  intros Hh Hb. cbn [run_change]. unfold cluster_Rollback. rewrite Hguard. cbn [result_bind].
  destruct (ValidateReleaseVersion to) as [[]|e]; [|split; [by eapply fail_simulates|done]].
  destruct hist as [|c hist _] using rev_ind.
  { rewrite (owned_none _ _ Hh). split; [by eapply fail_simulates|]. intros _ (d & Hd & _). set_solver. }
  rewrite (owned_newest _ _ _ _ Hh). destruct (find_in_history w _ _ to Hh) as (r & -> & Hr).
  destruct r as [prev|e].
  2:{ destruct Hr as [-> Hr]. split; [by eapply fail_simulates|]. intros _ (d & Hd & Hv). by rewrite Hr in Hv. }
  destruct Hr as (i & d & Hd & -> & Hv). cbn [release_at Revision RelChartVersion RelChartName].
  destruct (supersede w _ _ Hh) as (w1 & Hm & Hh1 & Hf1); [by destruct hist|].
  pose proof (list_elem_of_lookup_2 _ _ _ Hd) as Hin.
  assert (Hdc : ascii_chart d). { pose proof (ho_ascii _ _ _ _ Hh) as Ha. rewrite Forall_forall in Ha. by apply Ha. }
  destruct (write_simulates (CRollback to) w w1 (hist ++ [c]) d d.2) as [Hs Hdep]; [done|done|done|done|by constructor|].
  rewrite length_app in Hm, Hb, Hs, Hdep. cbn [length] in Hm, Hb, Hs, Hdep.
  rewrite Nat.add_1_r in Hm, Hb, Hs, Hdep. rewrite Hm, wrap_succ by done.
  split; [exact Hs|intros _ _ Hall; by apply Hdep, Hall].
Qed.

Lemma uninstall_simulates w hist st values :
  history_of (stored w) cfg hist st →
  simulates CUninstall hist w (run_change CUninstall values w) ∧
  (hist ≠ [] → (∀ w, (deleteReleaseObjects w cfg).2 = None) → (run_change CUninstall values w).2.2 = None).
Proof.
  intros Hh. cbn [run_change]. unfold cluster_Uninstall. rewrite Hguard.
  destruct hist as [|c hist _] using rev_ind.
  { rewrite (owned_none _ _ Hh). split; [by eapply fail_simulates|done]. }
  rewrite (owned_newest _ _ _ _ Hh), release_deletable. cbn [negb].
  pose proof (delete_objects_keeps w) as Hk. destruct (deleteReleaseObjects w cfg) as [w1 [e|]] eqn:Hd; cbn [fst] in Hk.
  { split; [|intros _ Hall; specialize (Hall w); by rewrite Hd in Hall].
    split; cbn; rewrite Hk; [apply framed_refl|by exists st]. }
  rewrite <- Hk in Hh. destruct (delete_all w1 _ _ Hh) as (w2 & -> & Hh2 & Hf). split; [|done].
  split; [cbn; by rewrite <- Hk|]. exists []. rewrite decide_True, newest_snoc by done.
  split; [constructor; by destruct hist|done].
Qed.

End Release.

(** [C4] The cluster Helm client refines a history of revisions.  On a healthy
    API server, for a release the client may change, whose Secrets hold a
    history: a call that succeeds appends the configured chart (install and
    upgrade), the chart of an earlier revision with the wanted version
    (rollback), or empties the history (uninstall), and answers with the newest
    revision; a call that fails anywhere on the way leaves the history, so the
    release can still be read and the call repeated.  Only the last revision is
    labelled deployed, and no Secret of another release is changed. *)
Theorem cluster_refines_history cfg w hist st op values :
  guardMutation ChartRoot cfg = Ok tt →
  Forall is_ascii_text [ReleaseName cfg; IcNamespace cfg; ChartName cfg; ChartVersion cfg] →
  (Z.of_nat (length hist) < max_int64)%Z →
  history_of (stored w) cfg hist st →
  simulates cfg op hist w (run_change cfg op values w).
Proof.
  intros Hg Ha Hb Hh. assert (Hk := guarded_keepable cfg Hg Ha).
  assert (ascii_chart (chart_of cfg)) by (by rewrite !Forall_cons in Ha; destruct Ha as (_ & _ & ? & ? & _)).
  destruct op as [| |to|]; [eapply install_simulates|eapply upgrade_simulates
    |eapply rollback_simulates|eapply uninstall_simulates]; eauto.
Qed.

(** [C19] The cluster Helm client makes progress: on a healthy API server, when the
    history allows the operation (install on none, upgrade or uninstall on one,
    rollback to a valid version it contains) and the charts concerned render and
    apply and the objects can be deleted, the call succeeds. *)
Theorem cluster_progress cfg w hist hist' st op values :
  guardMutation ChartRoot cfg = Ok tt →
  Forall is_ascii_text [ReleaseName cfg; IcNamespace cfg; ChartName cfg; ChartVersion cfg] →
  (Z.of_nat (length hist) < max_int64)%Z →
  history_of (stored w) cfg hist st →
  evolves cfg op hist hist' →
  match op with CRollback to => ValidateReleaseVersion to = Ok tt | _ => True end →
  (∀ c, c = chart_of cfg ∨ c ∈ hist → deploys cfg c) →
  (∀ w, (deleteReleaseObjects w cfg).2 = None) →
  (run_change cfg op values w).2.2 = None.
Proof.
  intros Hg Ha Hb Hh Hev Hop Hdep Hdel. assert (Hk := guarded_keepable cfg Hg Ha).
  assert (ascii_chart (chart_of cfg)) by (by rewrite !Forall_cons in Ha; destruct Ha as (_ & _ & ? & ? & _)).
  destruct Hev as [|hist Hne|hist c to Hc Hv|hist Hne].
  - eapply install_simulates; eauto.
  - eapply upgrade_simulates; eauto.
  - eapply rollback_simulates; eauto.
  - eapply uninstall_simulates; eauto.
Qed.

End History.
