(* ===== verification/HelmHistoryWitness.v ===== *)
(** * A concrete API server for the cluster Helm client

    Secrets in a map with a counter for resource versions, objects in a list, and
    a chart directory with two versions of the probe chart.  The theorems about
    the history of revisions are applied to it. *)

From Stdlib Require Import Ascii ZArith.
From stdpp Require Import base gmap strings list fin_maps pretty.
From S2P Require Import Prelude GoStrings Unstructured Version InstallConfig Release HelmInstaller MappingSpec MappingEngine JsonMeta Ensure Conditions Controller ControllerFacts Base64 HelmStorage HelmCluster HelmClusterFacts HelmHistory.

Record Server := {
  SvSecrets : gmap (string * string) Secret;
  SvWrites : N;
  SvObjects : list (gmap string value) }.

Definition srv_not_found : err := ENew "not found".
Definition srv_conflict : err := ENew "conflict".
Definition srv_exists : err := ENew "already exists".

(** The Secrets that sit at their own keys. *)
Definition srv_view (w : Server) : gmap (string * string) Secret :=
  filter (λ ks, sec_key ks.2 = ks.1) (SvSecrets w).

(** A write of the map: the clock ticks and the Secret gets its reading. *)
Definition srv_put (w : Server) (s : Secret) : Server :=
  {| SvSecrets := <[sec_key s := with_version (pretty (SvWrites w + 1)%N) s]> (srv_view w);
     SvWrites := SvWrites w + 1; SvObjects := SvObjects w |}.

#[local] Instance server_secrets : SecretAPI Server := {|
  sec_list w ns n := (w, Ok (filter (in_release ns n) (map_to_list (srv_view w)).*2));
  sec_get w ns n := (w, match srv_view w !! (ns, n) with Some s => Ok s | None => Err srv_not_found end);
  sec_create w s := match srv_view w !! sec_key s with
                    | Some _ => (w, Some srv_exists)
                    | None => (srv_put w s, None)
                    end;
  sec_update w s := match srv_view w !! sec_key s with
                    | Some old => if SecResourceVersion s == SecResourceVersion old then (srv_put w s, None)
                                  else (w, Some srv_conflict)
                    | None => (w, Some srv_not_found)
                    end;
  sec_delete w s := match srv_view w !! sec_key s with
                    | Some _ => ({| SvSecrets := delete (sec_key s) (srv_view w); SvWrites := SvWrites w;
                                    SvObjects := SvObjects w |}, None)
                    | None => (w, Some srv_not_found)
                    end;
  SIsNotFound e := e == srv_not_found;
  SIsForbidden _ := false;
  SIsConflict e := e == srv_conflict;
  SIsAlreadyExists e := e == srv_exists;
  NewConflict _ _ := srv_conflict |}.

#[local] Instance server_objects : ManifestAPI Server := {|
  obj_get w _ := (w, Err srv_not_found);
  obj_create w o := ({| SvSecrets := SvSecrets w; SvWrites := SvWrites w; SvObjects := SvObjects w ++ [o] |}, None);
  obj_update w _ _ := (w, None);
  cm_list w _ _ := (w, Ok []);
  cm_delete w _ := (w, None) |}.

Definition chart_files : gmap string string :=
  {[ "charts/1.0.0/Chart.yaml" := "opi-lcm-probe@1.0.0";
     "charts/1.0.0/templates/cm.yaml" := "probe of {{ .Release.Name }}";
     "charts/1.1.0/Chart.yaml" := "opi-lcm-probe@1.1.0";
     "charts/1.1.0/templates/cm.yaml" := "probe of {{ .Release.Name }} at {{ .Chart.Version }}" ]}.

#[local] Instance server_charts : ChartFS Server := {|
  fs_read _ p := match chart_files !! p with Some s => Ok s | None => Err srv_not_found end;
  fs_dir _ _ := Ok [("cm.yaml", false); ("NOTES.txt", false)];
  path_join a b := a +:+ "/" +:+ b;
  chart_yaml s := match cut_last "@" s with Some c => Ok c | None => Err srv_not_found end;
  decode_manifest s := Ok (SetName s ∅) |}.

#[local] Existing Instance bits_codec.
#[local] Existing Instance bits_codec_laws.
#[local] Existing Instance demo_util.

Lemma srv_view_idemp w : filter (λ ks, sec_key ks.2 = ks.1) (srv_view w) = srv_view w.
Proof. unfold srv_view. rewrite map_filter_filter. apply map_filter_ext. naive_solver. Qed.

Lemma srv_view_put w s : srv_view (srv_put w s) = <[sec_key s := with_version (pretty (SvWrites w + 1)%N) s]> (srv_view w).
Proof. unfold srv_view at 1, srv_put. cbn [SvSecrets]. rewrite map_filter_insert_True by done. by rewrite srv_view_idemp. Qed.

#[local] Program Instance server_store : SecretStore Server := {| stored := srv_view |}.
Next Obligation. by intros w k s [_ Hk]%map_lookup_filter_Some. Qed.
Next Obligation. intros w ns n. by eexists. Qed.
Next Obligation. intros w ns n s Hs. cbn. by rewrite Hs. Qed.
Next Obligation. intros w ns n Hs. cbn. rewrite Hs. by eexists. Qed.
Next Obligation. intros w s Hs. cbn. rewrite Hs. do 2 eexists. split; [done|apply srv_view_put]. Qed.
Next Obligation.
  intros w s old Hs Hrv. cbn. rewrite Hs, bool_decide_eq_true_2 by done. do 2 eexists. split; [done|apply srv_view_put].
Qed.
Next Obligation.
  intros w s [old Hs]. cbn. rewrite Hs. eexists. split; [done|]. unfold srv_view at 1. cbn [SvSecrets].
  by rewrite map_filter_delete, srv_view_idemp.
Qed.

#[local] Instance server_apart : ObjectsApart Server.
Proof. by split. Qed.

Definition empty_server : Server := {| SvSecrets := ∅; SvWrites := 0; SvObjects := [] |}.
Definition probe : InstallConfig := ProbeHelmConfig "1.0.0".

Lemma empty_history : history_of (stored empty_server) probe [] HelmStatusDeployed.
Proof. split; try done. set_solver. Qed.

Lemma cluster_refines_history_witness :
  simulates probe CInstall [] empty_server (run_change "charts" probe CInstall None empty_server).
Proof.
  apply (cluster_refines_history "charts" probe empty_server [] HelmStatusDeployed CInstall None).
  - reflexivity.
  - repeat constructor.
  - reflexivity.
  - apply empty_history.
Defined.

Lemma probe_deploys c : c = chart_of probe ∨ c ∈ [] → deploys "charts" probe c.
Proof. intros [->|[]%not_elem_of_nil] w. eexists. split; [vm_compute; reflexivity|reflexivity]. Qed.

Lemma cluster_progress_witness : (run_change "charts" probe CInstall None empty_server).2.2 = None.
Proof.
  apply (cluster_progress "charts" probe empty_server [] [chart_of probe] HelmStatusDeployed CInstall None).
  - reflexivity.
  - repeat constructor.
  - reflexivity.
  - apply empty_history.
  - constructor.
  - done.
  - apply probe_deploys.
  - reflexivity.
Defined.

(** Install, upgrade and rollback: three revisions, the last one at the first
    version; then uninstall, and nothing is left. *)
Example probe_life :
  let run op v w := (run_change "charts" (ProbeHelmConfig v) op None w).1 in
  let w := run (CRollback "1.0.0") "1.1.0" (run CUpgrade "1.1.0" (run CInstall "1.0.0" empty_server)) in
  let labels n := match SvSecrets w !! (HelmProbeNamespace, helmReleaseSecretName HelmProbeReleaseName n) with
                  | Some s => label (SecLabels s) statusKey
                  | None => ""
                  end in
  let rel := (secret_GetRelease true w HelmProbeNamespace HelmProbeReleaseName).2.1 in
  (labels <$> [1; 2; 3; 4]%Z) = ["superseded"; "superseded"; "deployed"; ""] ∧
  Revision rel = 3%Z ∧ RelChartVersion rel = "1.0.0" ∧
  SvSecrets (run CUninstall "1.1.0" w) = ∅.
Proof. vm_compute. done. Qed.

(** The installer finds the pinned release of somebody else, and with
    AdoptExisting claims it: one update, the two labels. *)
Definition pin_config : InstallConfig := pinned VendorNVIDIA.

Definition foreign_server : Server :=
  let doc := {| DocName := ReleaseName pin_config; DocNamespace := IcNamespace pin_config; DocVersion := 1;
                DocStatus := HelmStatusDeployed; DocChartName := ChartName pin_config;
                DocChartVersion := ChartVersion pin_config; DocLabels := None |} in
  let payload := match encodeHelmStorageRelease doc with Ok p => p | Err _ => "" end in
  let sec := {| SecName := helmReleaseSecretName (ReleaseName pin_config) 1; SecNamespace := IcNamespace pin_config;
                SecType := helmStorageSecretType;
                SecLabels := Some {[ helmReleaseNameLabel := ReleaseName pin_config;
                                     helmReleaseVersionLabel := "1"; statusKey := HelmStatusDeployed;
                                     helmStorageOwnerLabel := helmStorageOwner ]};
                SecData := Some {[ "release" := payload ]}; SecResourceVersion := "7" |} in
  {| SvSecrets := {[ sec_key sec := sec ]}; SvWrites := 7; SvObjects := [] |}.

Definition is_write (ev : ApiEvent) : bool :=
  match ev with EvList _ _ _ | EvGet _ _ _ | EvObjGet _ | EvCmList _ _ => false | _ => true end.

Example claim_example :
  let i := {| IVendor := VendorNVIDIA; PinnedVersion := ""; ISource := IntentSpec; Known := true; AdoptExisting := true |} in
  let r := Ensure (H := cluster_client (W := Server * list ApiEvent) true "" (λ _, None))
             true false 0 (foreign_server, []) i in
  RAction r.2.1 = InstallAdopted ∧ r.2.2 = None ∧ length (List.filter is_write r.1.2) = 1.
Proof. vm_compute. done. Qed.
