(* ===== verification/Locks.v ===== *)
(** * Release locks (ReleaseLocks of pkg/lifecycle/helm_client.go)

    [acquire] looks the mutex of a key up under the table's own mutex, makes it
    on first use, and locks it after the table's mutex is free again.  The
    goroutines are threads of a step relation at that grain: taking the table's
    mutex, looking the key up, leaving the table with the mutex found or made,
    locking it, unlocking it.  Any number of
    threads run programs of nested acquisitions. *)

From Stdlib Require Import Ascii ZArith Lia.
From stdpp Require Import base gmap strings list fin_maps.
From S2P Require Import Prelude GoStrings.

(** The two tables of the process: [defaultReleaseLocks] and [claimReleaseLocks]. *)
Inductive LockTable := DefaultLocks | ClaimLocks.

#[global] Instance LockTable_eq_dec : EqDecision LockTable.
Proof. solve_decision. Defined.

#[global] Instance LockTable_countable : Countable LockTable.
Proof.
  refine (inj_countable' (λ t, match t with DefaultLocks => true | ClaimLocks => false end)
    (λ b, if b then DefaultLocks else ClaimLocks) _). by intros [].
Defined.

(** A key of a table. *)
Definition lock : Type := LockTable * string.

(** [acquire] and the call of the function it returned, last in first out as
    deferred calls run. *)
Inductive action := Acquire (lk : lock) | Unlock.

#[global] Instance action_eq_dec : EqDecision action.
Proof. solve_decision. Defined.

(** Where a thread stands in [acquire]: outside, holding the table's mutex
    before and after the lookup, or waiting for the key's mutex. *)
Inductive phase :=
| Running
| InTable (lk : lock)
| Looked (lk : lock) (found : option nat)
| WaitFor (lk : lock) (mutex : nat).

#[global] Instance phase_eq_dec : EqDecision phase.
Proof. solve_decision. Defined.

Record thread := {
  acts : list action;
  where_ : phase;
  held : list (lock * nat) }.

(** [tables]: the [mu] of a table with its holder; [m]: the maps; [owner]: the
    mutexes that are locked. *)
Record LockState := {
  tables : gmap LockTable nat;
  m : gmap lock nat;
  fresh : nat;
  owner : gmap nat nat;
  threads : list thread }.

Definition with_threads (ts : list thread) (s : LockState) : LockState :=
  {| tables := tables s; m := m s; fresh := fresh s; owner := owner s; threads := ts |}.

Inductive step (s : LockState) : LockState → Prop :=
(** l.mu.Lock() *)
| step_enter t lk rest h :
    threads s !! t = Some {| acts := Acquire lk :: rest; where_ := Running; held := h |} →
    tables s !! lk.1 = None →
    step s {| tables := <[lk.1 := t]> (tables s); m := m s; fresh := fresh s; owner := owner s;
              threads := <[t := {| acts := rest; where_ := InTable lk; held := h |}]> (threads s) |}
(** lk, ok := l.m[key] *)
| step_look t lk rest h :
    threads s !! t = Some {| acts := rest; where_ := InTable lk; held := h |} →
    step s {| tables := tables s; m := m s; fresh := fresh s; owner := owner s;
              threads := <[t := {| acts := rest; where_ := Looked lk (m s !! lk); held := h |}]> (threads s) |}
(** l.mu.Unlock() *)
| step_found t lk rest h mutex :
    threads s !! t = Some {| acts := rest; where_ := Looked lk (Some mutex); held := h |} →
    step s {| tables := delete lk.1 (tables s); m := m s; fresh := fresh s; owner := owner s;
              threads := <[t := {| acts := rest; where_ := WaitFor lk mutex; held := h |}]> (threads s) |}
(** lk = &sync.Mutex{}; l.m[key] = lk; l.mu.Unlock() *)
| step_made t lk rest h :
    threads s !! t = Some {| acts := rest; where_ := Looked lk None; held := h |} →
    step s {| tables := delete lk.1 (tables s); m := <[lk := fresh s]> (m s); fresh := S (fresh s); owner := owner s;
              threads := <[t := {| acts := rest; where_ := WaitFor lk (fresh s); held := h |}]> (threads s) |}
(** lk.Lock() *)
| step_lock t lk mutex rest h :
    threads s !! t = Some {| acts := rest; where_ := WaitFor lk mutex; held := h |} →
    owner s !! mutex = None →
    step s {| tables := tables s; m := m s; fresh := fresh s; owner := <[mutex := t]> (owner s);
              threads := <[t := {| acts := rest; where_ := Running; held := (lk, mutex) :: h |}]> (threads s) |}
(** lk.Unlock() *)
| step_unlock t lk mutex rest h :
    threads s !! t = Some {| acts := Unlock :: rest; where_ := Running; held := (lk, mutex) :: h |} →
    step s {| tables := tables s; m := m s; fresh := fresh s; owner := delete mutex (owner s);
              threads := <[t := {| acts := rest; where_ := Running; held := h |}]> (threads s) |}.

(** The process starts: nothing is locked and the maps are empty. *)
Definition start (progs : list (list action)) : LockState :=
  {| tables := ∅; m := ∅; fresh := 0; owner := ∅;
     threads := (λ p, {| acts := p; where_ := Running; held := [] |}) <$> progs |}.

Definition finished (th : thread) : Prop := acts th = [] ∧ where_ th = Running.

#[global] Instance finished_dec th : Decision (finished th).
Proof. unfold finished. apply _. Defined.

(** ** Lock order *)

Section Order.
Context (rank : lock → nat).

(** What is locked is above all that is held, and everything is unlocked. *)
Fixpoint disciplined (hs : list lock) (p : list action) : Prop :=
  match p with
  | [] => hs = []
  | Acquire lk :: p' => Forall (λ h, rank h < rank lk) hs ∧ disciplined (lk :: hs) p'
  | Unlock :: p' => match hs with [] => False | _ :: hs' => disciplined hs' p' end
  end.

Definition thread_ok (th : thread) : Prop :=
  NoDup (held th).*1 ∧
  match where_ th with
  | Running => disciplined (held th).*1 (acts th)
  | InTable lk | Looked lk _ | WaitFor lk _ => Forall (λ h, rank h < rank lk) (held th).*1 ∧ disciplined (lk :: (held th).*1) (acts th)
  end.

(** The table whose mutex a thread holds. *)
Definition table_of (w : phase) : option LockTable :=
  match w with InTable lk | Looked lk _ => Some lk.1 | _ => None end.

Definition in_table (T : LockTable) (th : thread) : Prop := table_of (where_ th) = Some T.
Definition holds (mutex : nat) (th : thread) : Prop := ∃ lk, (lk, mutex) ∈ held th.

(** What the table says of a thread's locks and of its lookup. *)
Definition known (tbl : gmap lock nat) (th : thread) : Prop :=
  Forall (λ lm, tbl !! lm.1 = Some lm.2) (held th) ∧
  match where_ th with Looked lk found => tbl !! lk = found | WaitFor lk mutex => tbl !! lk = Some mutex | _ => True end.

Record lock_inv (s : LockState) : Prop := {
  li_threads : Forall thread_ok (threads s);
  li_known : Forall (known (m s)) (threads s);
  li_table T t : tables s !! T = Some t ↔ ∃ th, threads s !! t = Some th ∧ in_table T th;
  li_owner mutex t : owner s !! mutex = Some t ↔ ∃ th lk, threads s !! t = Some th ∧ (lk, mutex) ∈ held th;
  li_fresh lk mutex : m s !! lk = Some mutex → mutex < fresh s;
  li_inj lk lk' mutex : m s !! lk = Some mutex → m s !! lk' = Some mutex → lk = lk' }.

Lemma start_inv progs : Forall (disciplined []) progs → lock_inv (start progs).
Proof.
  intros Hp. split; cbn.
  - apply Forall_fmap, (Forall_impl _ _ _ Hp). intros p Hd. split; [constructor|done].
  - apply Forall_fmap, Forall_true. intros p. by split.
  - intros T t. rewrite lookup_empty. split; [done|]. intros (th & Hth & Hw).
    apply list_lookup_fmap_Some in Hth as (p & -> & _). done.
  - intros mutex t. rewrite lookup_empty. split; [done|]. intros (th & lk & Hth & Hin).
    apply list_lookup_fmap_Some in Hth as (p & -> & _). by apply not_elem_of_nil in Hin.
  - done.
  - done.
Qed.

(** *** One thread moves *)

(** The state of a thread after one of the threads was replaced. *)
Lemma thread_at (ts : list thread) t th0 th' u th :
  ts !! t = Some th0 →
  <[t := th']> ts !! u = Some th ↔ (u = t ∧ th = th') ∨ (u ≠ t ∧ ts !! u = Some th).
Proof.
  intros Ht. rewrite list_lookup_insert_Some. apply lookup_lt_Some in Ht. naive_solver.
Qed.

(** The claims of the other threads are as before. *)
Lemma exists_thread (ts : list thread) t th0 th' u (P : thread → Prop) :
  ts !! t = Some th0 →
  (∃ th, <[t := th']> ts !! u = Some th ∧ P th) ↔ (u = t ∧ P th') ∨ (u ≠ t ∧ ∃ th, ts !! u = Some th ∧ P th).
Proof. intros Ht. setoid_rewrite (thread_at ts t th0 th' u _ Ht). naive_solver. Qed.

Lemma li_owner' s mutex t : lock_inv s → owner s !! mutex = Some t ↔ ∃ th, threads s !! t = Some th ∧ holds mutex th.
Proof. intros Hi. rewrite (li_owner s Hi). unfold holds. naive_solver. Qed.

(** A thread moves: the invariant of the new state from its local parts. *)
Lemma thread_moves s t th th' tables' m' fresh' owner' :
  lock_inv s → threads s !! t = Some th → thread_ok th' → known m' th' →
  m s ⊆ m' →
  (∀ u th1 lk, u ≠ t → threads s !! u = Some th1 → where_ th1 = Looked lk None → m s !! lk = None → m' !! lk = None) →
  (∀ T u, tables' !! T = Some u ↔ (u = t ∧ in_table T th') ∨ (u ≠ t ∧ tables s !! T = Some u)) →
  (∀ mutex u, owner' !! mutex = Some u ↔ (u = t ∧ holds mutex th') ∨ (u ≠ t ∧ owner s !! mutex = Some u)) →
  (∀ lk mutex, m' !! lk = Some mutex → mutex < fresh') →
  (∀ lk lk' mutex, m' !! lk = Some mutex → m' !! lk' = Some mutex → lk = lk') →
  lock_inv {| tables := tables'; m := m'; fresh := fresh'; owner := owner'; threads := <[t := th']> (threads s) |}.
Proof.
  intros Hi Ht Hok Hk Hm Hnone HT Ho Hf Hinj. split; cbn [tables m fresh owner threads]; [| | | |done|done].
  - apply Forall_insert; [apply (li_threads s Hi)|done].
  - apply Forall_lookup. intros u th1 Hu. apply (thread_at _ _ _ th' u th1 Ht) in Hu as [[-> ->]|[Hne Hu]]; [done|].
    destruct (Forall_lookup_1 _ _ _ _ (li_known s Hi) Hu) as [H1 H2].
    split; [eapply Forall_impl; [exact H1|]; intros lm Hlm; by apply (lookup_weaken _ _ _ _ Hlm)|].
    destruct (where_ th1) as [| |lk [mx|]|] eqn:Hw; try done; [by eapply lookup_weaken|by eapply Hnone|by eapply lookup_weaken].
  - intros T u. rewrite HT, (li_table s Hi). by rewrite <- (exists_thread _ _ _ th' u (in_table T) Ht).
  - intros mutex u. rewrite Ho, (li_owner' s mutex u Hi). rewrite <- (exists_thread _ _ _ th' u (holds mutex) Ht).
    unfold holds. naive_solver.
Qed.

Section Moves.
Context (s : LockState) (Hi : lock_inv s) (t : nat) (th th' : thread) (Ht : threads s !! t = Some th).

Lemma same_owner mutex u :
  held th' = held th →
  owner s !! mutex = Some u ↔ (u = t ∧ holds mutex th') ∨ (u ≠ t ∧ owner s !! mutex = Some u).
Proof.
  intros Hh. rewrite (li_owner' s mutex u Hi). unfold holds. rewrite Hh.
  destruct (decide (u = t)) as [->|]; naive_solver.
Qed.

Lemma same_tables T u :
  (in_table T th ↔ in_table T th') →
  tables s !! T = Some u ↔ (u = t ∧ in_table T th') ∨ (u ≠ t ∧ tables s !! T = Some u).
Proof.
  intros Hn. rewrite (li_table s Hi). destruct (decide (u = t)) as [->|]; naive_solver.
Qed.

Lemma left_table (lk : lock) T u :
  in_table lk.1 th → ¬ in_table T th' →
  delete lk.1 (tables s) !! T = Some u ↔ (u = t ∧ in_table T th') ∨ (u ≠ t ∧ tables s !! T = Some u).
Proof.
  intros Hw Hn. assert (Hl : tables s !! lk.1 = Some t).
  { apply (li_table s Hi). by exists th. }
  rewrite lookup_delete_Some. split.
  - intros [Hne HT]. right. split; [|done]. intros ->. apply (li_table s Hi) in HT as (th1 & Hth1 & Hw1).
    unfold in_table in *. congruence.
  - intros [[_ ?]|[Hne HT]]; [done|]. split; [|done]. intros <-. rewrite Hl in HT. by injection HT.
Qed.

Lemma new_mutex_held lk mutex lk' : known (m s) th → m s !! lk = Some mutex → (lk', mutex) ∈ held th → lk' = lk.
Proof. intros [Hk _] Hl Hin. rewrite Forall_forall in Hk. apply Hk in Hin. by eapply (li_inj s Hi). Qed.

End Moves.

(** The lookups of the others stand when the table does not change. *)
Lemma lookups_stand (s : LockState) (t : nat) :
  ∀ u th1 lk, u ≠ t → threads s !! u = Some th1 → where_ th1 = Looked lk None → m s !! lk = None → m s !! lk = None.
Proof. done. Qed.

Lemma enter_inv s t lk rest h :
  lock_inv s → threads s !! t = Some {| acts := Acquire lk :: rest; where_ := Running; held := h |} →
  tables s !! lk.1 = None →
  lock_inv {| tables := <[lk.1 := t]> (tables s); m := m s; fresh := fresh s; owner := owner s;
              threads := <[t := {| acts := rest; where_ := InTable lk; held := h |}]> (threads s) |}.
Proof.
  intros Hi Ht HT. pose proof (Forall_lookup_1 _ _ _ _ (li_threads s Hi) Ht) as Hok.
  pose proof (Forall_lookup_1 _ _ _ _ (li_known s Hi) Ht) as Hk.
  eapply thread_moves; eauto using li_fresh, li_inj, lookups_stand.
  - intros T u. rewrite lookup_insert_Some. unfold in_table. cbn [where_ table_of].
    assert (Hu : tables s !! T = Some u → u ≠ t ∧ lk.1 ≠ T).
    { intros HTu. split; [|congruence]. intros ->. apply (li_table s Hi) in HTu as (th1 & Hth1 & Hin).
      rewrite Ht in Hth1. by injection Hth1 as <-. }
    naive_solver.
  - intros mutex u. by eapply same_owner.
Qed.

Lemma lock_mutex_inv s t lk mutex rest h :
  lock_inv s → threads s !! t = Some {| acts := rest; where_ := WaitFor lk mutex; held := h |} →
  owner s !! mutex = None →
  lock_inv {| tables := tables s; m := m s; fresh := fresh s; owner := <[mutex := t]> (owner s);
              threads := <[t := {| acts := rest; where_ := Running; held := (lk, mutex) :: h |}]> (threads s) |}.
Proof.
  intros Hi Ht Ho. pose proof (Forall_lookup_1 _ _ _ _ (li_threads s Hi) Ht) as (Hnd & Hlt & Hd).
  pose proof (Forall_lookup_1 _ _ _ _ (li_known s Hi) Ht) as [Hk Hw]. cbn in Hnd, Hlt, Hd, Hk, Hw.
  eapply thread_moves; eauto using li_fresh, li_inj, lookups_stand.
  - split; [|done]. cbn. constructor; [|done]. intros Hin. rewrite Forall_forall in Hlt. specialize (Hlt _ Hin). lia.
  - split; [|done]. by constructor.
  - intros T u. by eapply same_tables.
  - intros mx u. rewrite lookup_insert_Some.
    assert (Hh : holds mx {| acts := rest; where_ := Running; held := (lk, mutex) :: h |} ↔
      mx = mutex ∨ holds mx {| acts := rest; where_ := WaitFor lk mutex; held := h |}).
    { unfold holds. cbn. setoid_rewrite elem_of_cons. naive_solver. }
    rewrite Hh. pose proof (same_owner s Hi t _ _ Ht mx u eq_refl) as Hs.
    destruct (decide (u = t)), (decide (mutex = mx)); naive_solver.
Qed.

Lemma unlock_inv s t lk mutex rest h :
  lock_inv s → threads s !! t = Some {| acts := Unlock :: rest; where_ := Running; held := (lk, mutex) :: h |} →
  lock_inv {| tables := tables s; m := m s; fresh := fresh s; owner := delete mutex (owner s);
              threads := <[t := {| acts := rest; where_ := Running; held := h |}]> (threads s) |}.
Proof.
  intros Hi Ht. pose proof (Forall_lookup_1 _ _ _ _ (li_threads s Hi) Ht) as (Hnd & Hd).
  pose proof (Forall_lookup_1 _ _ _ _ (li_known s Hi) Ht) as Hk. cbn in Hnd, Hd.
  apply NoDup_cons in Hnd as [Hnin Hnd]. pose proof Hk as [Hkh _]. apply Forall_cons in Hkh as [Hm Hkh]. cbn in Hm.
  assert (Hno : ¬ holds mutex {| acts := rest; where_ := Running; held := h |}).
  { intros (lk' & Hin). cbn in Hin. rewrite Forall_forall in Hkh. pose proof (Hkh _ Hin) as Hm'. cbn in Hm'.
    rewrite (li_inj s Hi lk lk' mutex Hm Hm') in Hnin. apply Hnin. by apply (list_elem_of_fmap_2 fst _ (lk', mutex)). }
  eapply thread_moves; eauto using li_fresh, li_inj, lookups_stand.
  - by split.
  - by split.
  - intros T u. by eapply same_tables.
  - intros mx u. rewrite lookup_delete_Some, (li_owner' s mx u Hi).
    assert (Hh : holds mx {| acts := Unlock :: rest; where_ := Running; held := (lk, mutex) :: h |} ↔
      mx = mutex ∨ holds mx {| acts := rest; where_ := Running; held := h |}).
    { unfold holds. cbn. setoid_rewrite elem_of_cons. naive_solver. }
    assert (Hown : owner s !! mutex = Some t).
    { apply (li_owner' s _ _ Hi). eexists. split; [done|]. exists lk. by left. }
    assert (Hother : u ≠ t → (∃ th, threads s !! u = Some th ∧ holds mx th) → mutex ≠ mx).
    { intros Hu Hx ->. apply (li_owner' s _ _ Hi) in Hx. rewrite Hown in Hx. by injection Hx. }
    destruct (decide (u = t)) as [->|Hu]; naive_solver.
Qed.

(** The key's first mutex: no other thread is in the table, so none of them has
    looked the key up. *)
Lemma make_inv s t lk rest h :
  lock_inv s → threads s !! t = Some {| acts := rest; where_ := Looked lk None; held := h |} →
  lock_inv {| tables := delete lk.1 (tables s); m := <[lk := fresh s]> (m s); fresh := S (fresh s); owner := owner s;
              threads := <[t := {| acts := rest; where_ := WaitFor lk (fresh s); held := h |}]> (threads s) |}.
Proof.
  intros Hi Ht. pose proof (Forall_lookup_1 _ _ _ _ (li_threads s Hi) Ht) as Hok.
  pose proof (Forall_lookup_1 _ _ _ _ (li_known s Hi) Ht) as [Hk Hm]. cbn in Hm.
  assert (Hsub : m s ⊆ <[lk := fresh s]> (m s)) by by apply insert_subseteq.
  assert (Halone : ∀ u th1, u ≠ t → threads s !! u = Some th1 → ¬ in_table lk.1 th1).
  { intros u th1 Hu Hth1 Hin. assert (H1 : tables s !! lk.1 = Some u) by (apply (li_table s Hi); eauto).
    assert (H2 : tables s !! lk.1 = Some t) by (apply (li_table s Hi); by eexists). congruence. }
  eapply thread_moves; eauto.
  - split; cbn; [|by rewrite lookup_insert_eq]. eapply Forall_impl; [exact Hk|]. intros lm Hlm. by apply (lookup_weaken _ _ _ _ Hlm).
  - intros u th1 lk1 Hu Hth1 Hw Hn. rewrite lookup_insert_ne; [done|]. intros <-. eapply Halone; [done|done|].
    unfold in_table. by rewrite Hw.
  - intros T u. by eapply left_table.
  - intros mx u. by eapply same_owner.
  - intros lk' mx [[_ <-]|[_ Hmx]]%lookup_insert_Some; [lia|]. apply (li_fresh s Hi) in Hmx. lia.
  - intros lk1 lk2 mx [[<- <-]|[Hn1 Hm1]]%lookup_insert_Some [[<- Heq]|[Hn2 Hm2]]%lookup_insert_Some; try done.
    + apply (li_fresh s Hi) in Hm2. lia.
    + subst. apply (li_fresh s Hi) in Hm1. lia.
    + by eapply (li_inj s Hi).
Qed.

Lemma step_inv s s' : lock_inv s → step s s' → lock_inv s'.
Proof.
  intros Hi [t lk rest h Ht HT|t lk rest h Ht|t lk rest h mutex Ht|t lk rest h Ht|t lk mutex rest h Ht Ho|t lk mutex rest h Ht];
    [by apply enter_inv| | |by apply make_inv|by apply lock_mutex_inv|by eapply unlock_inv].
  all: pose proof (Forall_lookup_1 _ _ _ _ (li_threads s Hi) Ht) as Hok.
  all: pose proof (Forall_lookup_1 _ _ _ _ (li_known s Hi) Ht) as [Hk Hm].
  - eapply thread_moves; eauto using li_fresh, li_inj, lookups_stand; [by split| |].
    + intros T u. by eapply same_tables.
    + intros mx u. by eapply same_owner.
  - eapply thread_moves; eauto using li_fresh, li_inj, lookups_stand; [by split| |].
    + intros T u. by eapply left_table.
    + intros mx u. by eapply same_owner.
Qed.

Lemma reachable_inv progs s :
  Forall (disciplined []) progs → rtc step (start progs) s → lock_inv s.
Proof.
  intros Hp Hr. assert (H : ∀ s1 s2, rtc step s1 s2 → lock_inv s1 → lock_inv s2).
  { intros s1 s2. induction 1; eauto using step_inv. }
  eapply H; [done|]. by apply start_inv.
Qed.

(** *** Progress *)

(** Some element has the greatest rank. *)
Lemma has_max {A} (f : A → nat) (l : list A) : l ≠ [] → ∃ x, x ∈ l ∧ ∀ y, y ∈ l → f y ≤ f x.
Proof.
  induction l as [|a l IH]; [done|]. intros _. destruct l as [|b l].
  - exists a. split; [by left|]. intros y ->%list_elem_of_singleton. done.
  - destruct IH as (x & Hx & Hm); [done|]. destruct (decide (f x ≤ f a)).
    + exists a. split; [by left|]. intros y [->|Hy]%elem_of_cons; [done|]. specialize (Hm y Hy). lia.
    + exists x. split; [by right|]. intros y [->|Hy]%elem_of_cons; [lia|]. by apply Hm.
Qed.

(** The rank of the lock that a thread waits for. *)
Definition awaited (th : thread) : nat := match where_ th with WaitFor lk _ => rank lk | _ => 0 end.

Definition waits (th : thread) : Prop := match where_ th with WaitFor _ _ => True | _ => False end.

#[global] Instance waits_dec th : Decision (waits th).
Proof. unfold waits. destruct (where_ th); apply _. Defined.

(** A thread in a table can leave it. *)
Lemma table_moves s t a w h T :
  threads s !! t = Some {| acts := a; where_ := w; held := h |} → table_of w = Some T → ∃ s', step s s'.
Proof.
  intros Ht HT. destruct w as [|lk|lk [mx|]|lk mx]; try done; eexists;
    [by eapply step_look|by eapply step_found|by eapply step_made].
Qed.

(** A thread that is neither done nor waiting lets the process move. *)
Lemma busy_moves s t th :
  lock_inv s → threads s !! t = Some th → ¬ finished th → ¬ waits th → ∃ s', step s s'.
Proof.
  intros Hi Ht Hf Hw. destruct th as [acts w h]; unfold finished, waits in *; cbn in *.
  destruct (table_of w) as [T|] eqn:HT; [by eapply table_moves|]. destruct w; try done.
  destruct acts as [|[lk|] rest]; [naive_solver| |].
  - destruct (tables s !! lk.1) as [u|] eqn:HTu; [|eexists; by eapply step_enter].
    apply (li_table s Hi) in HTu as ([acts' w' h'] & Hu & Hw'). by eapply table_moves.
  - pose proof (Forall_lookup_1 _ _ _ _ (li_threads s Hi) Ht) as (_ & Hd). cbn in Hd.
    destruct h as [|[lk mx] h]; [done|]. eexists. by eapply step_unlock.
Qed.

(** Nobody waits in a circle: the thread that waits for the highest lock can
    have it, since whoever holds it would wait for a higher one. *)
Lemma waiting_moves s t lk mx a h :
  lock_inv s → Forall (λ th, finished th ∨ waits th) (threads s) →
  threads s !! t = Some {| acts := a; where_ := WaitFor lk mx; held := h |} →
  (∀ th, th ∈ threads s → waits th → awaited th ≤ rank lk) → ∃ s', step s s'.
Proof.
  intros Hi Hall Ht Hmax. destruct (owner s !! mx) as [u|] eqn:Ho; [|eexists; by eapply step_lock].
  exfalso. apply (li_owner s Hi) in Ho as (th & lk' & Hu & Hin).
  pose proof (Forall_lookup_1 _ _ _ _ Hall Hu) as Hfw.
  pose proof (Forall_lookup_1 _ _ _ _ (li_threads s Hi) Hu) as (_ & Hok).
  pose proof (Forall_lookup_1 _ _ _ _ (li_known s Hi) Hu) as [Hk _].
  pose proof (Forall_lookup_1 _ _ _ _ (li_known s Hi) Ht) as [_ Hw]. cbn in Hw.
  rewrite Forall_forall in Hk. pose proof (Hk _ Hin) as Hk'. cbn in Hk'.
  pose proof (li_inj s Hi _ _ _ Hk' Hw) as ->.
  assert (Hlk : lk ∈ (held th).*1) by by apply (list_elem_of_fmap_2 fst _ (lk, mx)).
  destruct Hfw as [[Ha Hr]|Hwait].
  - rewrite Hr, Ha in Hok. cbn in Hok. rewrite Hok in Hlk. by apply not_elem_of_nil in Hlk.
  - pose proof (Hmax th ltac:(by eapply list_elem_of_lookup_2) Hwait) as Hle.
    unfold waits, awaited in *. destruct (where_ th) as [| | |lk2 mx2]; try done.
    destruct Hok as [Hlt _]. rewrite Forall_forall in Hlt. specialize (Hlt lk Hlk). lia.
Qed.

Lemma progress s : lock_inv s → ¬ Forall finished (threads s) → ∃ s', step s s'.
Proof.
  intros Hi Hn. destruct (decide (Forall (λ th, finished th ∨ waits th) (threads s))) as [Hall|Hex].
  - apply not_Forall_Exists, Exists_exists in Hn as (th0 & Hth0 & Hnf); [|apply _].
    assert (Hne : filter waits (threads s) ≠ []).
    { intros Hnil. assert (Hin : th0 ∈ filter waits (threads s)).
      { apply list_elem_of_filter. split; [|done]. rewrite Forall_forall in Hall. by destruct (Hall _ Hth0). }
      rewrite Hnil in Hin. by apply not_elem_of_nil in Hin. }
    destruct (has_max awaited _ Hne) as ([a w h] & [Hw Hin]%list_elem_of_filter & Hmax).
    apply list_elem_of_lookup_1 in Hin as [t Ht]. unfold waits in Hw. cbn in Hw. destruct w as [| | |lk mx]; try done.
    eapply waiting_moves; [done|done|done|]. intros th Hth Hwt.
    apply (Hmax th). apply list_elem_of_filter. by split.
  - apply not_Forall_Exists, Exists_exists in Hex as (th & Hth & Hno); [|apply _].
    apply list_elem_of_lookup_1 in Hth as [t Ht]. eapply busy_moves; [done|done|naive_solver|naive_solver].
Qed.

(** *** Termination *)

Definition action_cost (a : action) : nat := match a with Acquire _ => 4 | Unlock => 1 end.

(** The steps that a thread has left. *)
Definition remaining (th : thread) : nat :=
  sum_list_with action_cost (acts th) +
  match where_ th with Running => 0 | InTable _ => 3 | Looked _ _ => 2 | WaitFor _ _ => 1 end.

Definition all_remaining (s : LockState) : nat := sum_list_with remaining (threads s).

Lemma sum_insert (ts : list thread) t th th' :
  ts !! t = Some th →
  sum_list_with remaining (<[t := th']> ts) + remaining th = sum_list_with remaining ts + remaining th'.
Proof.
  revert t. induction ts as [|x ts IH]; intros [|t] Ht; [done|done| |].
  - injection Ht as ->. cbn. lia.
  - change (<[S t := th']> (x :: ts)) with (x :: <[t := th']> ts). cbn [sum_list_with].
    specialize (IH t Ht). lia.
Qed.

(** Every step is one of the steps that were left. *)
Lemma step_counts s s' : step s s' → all_remaining s = S (all_remaining s').
Proof.
  unfold all_remaining. intros []; cbn [threads];
    match goal with Ht : threads s !! ?t = Some ?th |- context [<[?t := ?th']> _] =>
      pose proof (sum_insert _ _ _ th' Ht) as Hsum; cbn in Hsum; lia end.
Qed.

Lemma nsteps_counts n s s' : nsteps step n s s' → all_remaining s = n + all_remaining s'.
Proof. induction 1 as [|n s1 s2 s3 Hs _ IH]; [done|]. apply step_counts in Hs. lia. Qed.

Lemma finished_remaining s : Forall finished (threads s) → all_remaining s = 0.
Proof.
  unfold all_remaining. induction 1 as [|[a w h] ts [Ha Hw] _ IH]; [done|]. cbn in *. subst. cbn. lia.
Qed.

(** [C15] A lock has one holder.  Any number of threads run nested acquisitions in
    the order of their ranks; whichever way their steps interleave, two threads
    that hold the same key of the same table are one thread: the first use of a
    key makes its only mutex. *)
Theorem acquire_mutual_exclusion progs s t1 t2 th1 th2 lk mx1 mx2 :
  Forall (disciplined []) progs → rtc step (start progs) s →
  threads s !! t1 = Some th1 → threads s !! t2 = Some th2 →
  (lk, mx1) ∈ held th1 → (lk, mx2) ∈ held th2 → t1 = t2.
Proof.
  intros Hp Hr Ht1 Ht2 H1 H2. pose proof (reachable_inv _ _ Hp Hr) as Hi.
  pose proof (Forall_lookup_1 _ _ _ _ (li_known s Hi) Ht1) as [Hk1 _].
  pose proof (Forall_lookup_1 _ _ _ _ (li_known s Hi) Ht2) as [Hk2 _].
  rewrite Forall_forall in Hk1, Hk2. pose proof (Hk1 _ H1) as E1. pose proof (Hk2 _ H2) as E2. cbn in E1, E2.
  rewrite E1 in E2. injection E2 as <-.
  assert (O1 : owner s !! mx1 = Some t1) by (apply (li_owner s Hi); eauto).
  assert (O2 : owner s !! mx1 = Some t2) by (apply (li_owner s Hi); eauto).
  congruence.
Qed.

(** A state in which every thread is done has nothing locked. *)
Lemma finished_unlocked s : lock_inv s → Forall finished (threads s) → owner s = ∅ ∧ tables s = ∅.
Proof.
  intros Hi Hf. rewrite Forall_lookup in Hf. split; apply map_eq; intros k; rewrite lookup_empty; apply eq_None_not_Some.
  - intros [t Ho]. apply (li_owner s Hi) in Ho as (th & lk & Ht & Hin). destruct (Hf _ _ Ht) as [Ha Hw].
    pose proof (Forall_lookup_1 _ _ _ _ (li_threads s Hi) Ht) as (_ & Hd). rewrite Hw, Ha in Hd. cbn in Hd.
    apply fmap_nil_inv in Hd. rewrite Hd in Hin. by apply not_elem_of_nil in Hin.
  - intros [t HT]. apply (li_table s Hi) in HT as (th & Ht & Hw). destruct (Hf _ _ Ht) as [_ Hw']. unfold in_table in Hw. by rewrite Hw' in Hw.
Qed.

(** Ordered programs run to the end: what a run of [n] steps from the start can
    still do. *)
Lemma ordered_runs progs n s :
  Forall (disciplined []) progs → nsteps step n (start progs) s →
  n ≤ all_remaining (start progs) ∧
  (n < all_remaining (start progs) → ∃ s', step s s') ∧
  (n = all_remaining (start progs) → Forall finished (threads s) ∧ owner s = ∅ ∧ tables s = ∅).
Proof.
  intros Hp Hn. pose proof (nsteps_counts _ _ _ Hn) as Hc.
  assert (Hi : lock_inv s). { apply (reachable_inv progs); [done|]. by eapply rtc_nsteps_2. }
  split; [lia|]. split.
  - intros Hlt. apply progress; [done|]. intros Hf%finished_remaining. lia.
  - intros ->. assert (Hf : Forall finished (threads s)).
    { destruct (decide (Forall finished (threads s))) as [|Hnf]; [done|]. exfalso.
      destruct (progress s Hi Hnf) as [s' Hs%step_counts]. lia. }
    split; [done|]. by apply finished_unlocked.
Qed.

End Order.

(** Two goroutines meet on a fresh key: one waits while the other holds it. *)
Example contended :
  let k : lock := (DefaultLocks, "ns/rel") in
  let p := [Acquire k; Unlock] in
  ∃ s, rtc step (start [p; p]) s ∧
    threads s = [ {| acts := [Unlock]; where_ := Running; held := [(k, 0)] |};
                  {| acts := [Unlock]; where_ := WaitFor k 0; held := [] |} ].
Proof.
  cbv zeta. eexists. split.
  - eapply rtc_l; [eapply (step_enter _ 0); reflexivity|].
    eapply rtc_l; [eapply (step_look _ 0); reflexivity|].
    eapply rtc_l; [eapply (step_made _ 0); reflexivity|].
    eapply rtc_l; [eapply (step_lock _ 0); reflexivity|].
    eapply rtc_l; [eapply (step_enter _ 1); reflexivity|].
    eapply rtc_l; [eapply (step_look _ 1); reflexivity|].
    eapply rtc_l; [eapply (step_found _ 1); reflexivity|]. apply rtc_refl.
  - reflexivity.
Qed.

(** The state after the first of them has the lock. *)
Definition demo_key : lock := (DefaultLocks, "ns/rel").
Definition demo_progs : list (list action) := [[Acquire demo_key; Unlock]; [Acquire demo_key; Unlock]].
Definition first_holds : LockState :=
  {| tables := ∅; m := {[ demo_key := 0 ]}; fresh := 1; owner := {[ 0 := 0 ]};
     threads := [ {| acts := [Unlock]; where_ := Running; held := [(demo_key, 0)] |};
                  {| acts := [Acquire demo_key; Unlock]; where_ := Running; held := [] |} ] |}.

Lemma first_holds_reached : rtc step (start demo_progs) first_holds.
Proof.
  eapply rtc_l; [eapply (step_enter _ 0); reflexivity|].
  eapply rtc_l; [eapply (step_look _ 0); reflexivity|].
  eapply rtc_l; [eapply (step_made _ 0); reflexivity|].
  eapply rtc_l; [eapply (step_lock _ 0); reflexivity|]. apply rtc_refl.
Qed.

Lemma acquire_mutual_exclusion_witness :
  ¬ ∃ t2 th2 mx2, t2 ≠ 0 ∧ threads first_holds !! t2 = Some th2 ∧ (demo_key, mx2) ∈ held th2.
Proof.
  intros (t2 & th2 & mx2 & Hne & H2 & Hin2). apply Hne. symmetry.
  eapply (acquire_mutual_exclusion (λ _, 0) demo_progs first_holds 0 t2 _ th2 demo_key 0 mx2);
    [|exact first_holds_reached|reflexivity|exact H2|by left|exact Hin2].
  repeat constructor.
Defined.
