(* ===== verification/LocksFacts.v ===== *)
(** * The adapter's lock order

    Which locks a reconcile takes: the config's, then the pinned release's in the
    install or the cleanup pass, then the claim's.  The calls made under the
    release lock are those that the recorded runs of the two passes show, against
    the production client, which locks a release itself in its mutations. *)

From Stdlib Require Import Ascii ZArith Lia.
From stdpp Require Import base gmap strings list fin_maps.
From S2P Require Import Prelude GoStrings Unstructured Version InstallConfig Release HelmInstaller HelmInstallerFacts MappingSpec MappingEngine Cleanup CleanupFacts HelmStorage HelmCluster Locks.

Notation pin := (pinned VendorNVIDIA).

Definition configLockKey (ns name : string) : string := "dpuoperatorconfig/" +:+ ns +:+ "/" +:+ name.

Definition config_lock (ns name : string) : lock := (DefaultLocks, configLockKey ns name).
Definition release_lock (cfg : InstallConfig) : lock := (DefaultLocks, releaseKey (IcNamespace cfg) (ReleaseName cfg)).
Definition claim_lock (cfg : InstallConfig) : lock := (ClaimLocks, releaseKey (IcNamespace cfg) (ReleaseName cfg)).

(** acquire, the locked part, and the deferred unlock *)
Definition locked (lk : lock) (body : list action) : list action := Acquire lk :: body ++ [Unlock].

Section Client.
Context (ChartRoot : string).

(** The cluster client's mutations: the guard, then the release's lock. *)
Definition mutation_locks (cfg : InstallConfig) : list action :=
  match guardMutation ChartRoot cfg with Ok _ => locked (release_lock cfg) [] | Err _ => [] end.

(** The claim: the settings are checked, then the claim's lock. *)
Definition claim_locks (cfg : InstallConfig) : list action :=
  match ValidateInstallConfig cfg with Ok _ => locked (claim_lock cfg) [] | Err _ => [] end.

Definition helm_op_locks (op : HelmOp) : list action :=
  match op with
  | OInstall cfg _ | OUpgrade cfg _ | ORollback cfg _ | OUninstall cfg => mutation_locks cfg
  | OClaim cfg => claim_locks cfg
  | _ => []
  end.

Definition clean_op_locks (op : CleanOp) : list action :=
  match op with CUninstall cfg _ => mutation_locks cfg | _ => [] end.

(** A pass that calls the client holds the release lock from its first call to
    its return; one that returns before takes none. *)
Definition pass_locks {A} (locks : A → list action) (calls : list A) : list action :=
  match calls with [] => [] | _ => locked (release_lock pin) (mjoin (locks <$> calls)) end.

End Client.

(** The order: configs, the pinned release, the claim. *)
Definition lock_rank (lk : lock) : nat :=
  match lk with
  | (ClaimLocks, _) => 2
  | (DefaultLocks, k) => if k == releaseKey (IcNamespace pin) (ReleaseName pin) then 1 else 0
  end.

Lemma config_below_release ns name : lock_rank (config_lock ns name) = 0.
Proof. unfold config_lock, configLockKey. cbn. by rewrite bool_decide_eq_false_2. Qed.

Lemma disciplined_locked rank hs lk body rest :
  Forall (λ h, rank h < rank lk) hs → disciplined rank (lk :: hs) (body ++ Unlock :: rest) →
  disciplined rank hs (locked lk body ++ rest).
Proof. intros Hh Hb. unfold locked. cbn. split; [done|]. by rewrite <- app_assoc. Qed.

Section Passes.
Context (ChartRoot : string) (ns name : string).

(** What is held while a pass calls the client. *)
Notation under := [release_lock pin; config_lock ns name].

Lemma calls_disciplined (calls : list (list action)) rest :
  Forall (λ p, p = [] ∨ p = locked (claim_lock pin) []) calls →
  disciplined lock_rank under rest → disciplined lock_rank under (mjoin calls ++ rest).
Proof.
  induction 1 as [|p calls [->| ->] _ IH]; intros Hr; cbn; [done|by apply IH|].
  split; [|by apply IH]. by repeat constructor.
Qed.

Lemma pass_disciplined {A} (locks : A → list action) calls :
  Forall (λ c, locks c = [] ∨ locks c = locked (claim_lock pin) []) calls →
  disciplined lock_rank [] (locked (config_lock ns name) (pass_locks locks calls)).
Proof.
  intros Hc. rewrite <- (app_nil_r (locked _ _)). apply disciplined_locked; [constructor|].
  unfold pass_locks. destruct calls as [|c calls]; [done|]. apply disciplined_locked.
  - constructor; [|constructor]. rewrite config_below_release. vm_compute. lia.
  - apply calls_disciplined; [|done]. by apply Forall_fmap.
Qed.

Lemma pin_mutation_locks : mutation_locks ChartRoot pin = [].
Proof. reflexivity. Qed.

Lemma pin_claim_locks : claim_locks pin = locked (claim_lock pin) [].
Proof. vm_compute. reflexivity. Qed.

Context {W : Type} `{HelmClient W} `{ResourceIndex W}.

(** The locks of one reconcile: an install pass or a cleanup pass, under the
    config's lock. *)
Inductive reconcile_locks : list action → Prop :=
| reconcile_none : reconcile_locks (locked (config_lock ns name) [])
| reconcile_install hc ad ma w i :
    reconcile_locks (locked (config_lock ns name) (pass_locks (helm_op_locks ChartRoot)
      (Ensure (W := W * list HelmOp) hc ad ma (w, []) i).1.2))
| reconcile_cleanup hh crd w cfg :
    reconcile_locks (locked (config_lock ns name) (pass_locks (clean_op_locks ChartRoot)
      (CleanupInstallations (W := W * list CleanOp) hh crd (w, []) cfg).1.2)).

Lemma reconcile_disciplined p : reconcile_locks p → disciplined lock_rank [] p.
Proof.
  intros [|hc ad ma w i|hh crd w cfg].
  - by apply (pass_disciplined (helm_op_locks ChartRoot) []).
  - apply pass_disciplined. destruct (Ensure_run hc ad ma w i) as (l & -> & Hl). cbn [app].
    eapply Forall_impl; [apply (ro_pinned _ _ _ _ Hl)|].
    intros [] Hop; cbn in Hop |- *; try (by left); try (by destruct Hop as [-> _]; left); subst.
    + by left.
    + right. apply pin_claim_locks.
  - apply pass_disciplined. rewrite Forall_forall. intros op Hop.
    destruct (cleanup_log hh crd w cfg) as [[Hun _ _]|[Hg _ _]].
    + destruct (Hun op Hop) as [(? & ? & ->)|(? & ? & ->)]; by left.
    + destruct Hg as (r1 & refs & r2 & ue & rest & Hl & _ & _ & _ & _ & Hrest). rewrite Hl in Hop.
      destruct op as [| |cfg' e'| |]; try (by left). left. cbn.
      assert (cfg' = pin) as ->; [|apply pin_mutation_locks].
      apply elem_of_app in Hop as [Hop|Hop]; [rewrite !elem_of_cons, elem_of_nil in Hop; naive_solver|].
      destruct Hrest as [->|(live & le & dels & -> & Hdels)]; [by apply not_elem_of_nil in Hop|].
      apply elem_of_cons in Hop as [Hop|Hop]; [done|]. by destruct (Hdels _ Hop) as (d & e & ? & _).
Qed.

(** The steps of a program: an acquire is three, an unlock one. *)
Definition steps_of (progs : list (list action)) : nat := all_remaining (start progs).

End Passes.

(** [C16] Reconciles never deadlock, and their locking terminates.  Take any number
    of reconciles at once, of any configs, each an install pass or a cleanup pass
    over the cluster client, whatever the cluster answers.  However their lock
    operations interleave, a run is never longer than the operations there are,
    and while it is shorter one of the threads can take its next step; at the end
    every thread is done and every lock is free. *)
Theorem reconciles_complete {W} `{HelmClient W} `{ResourceIndex W} ChartRoot progs n s :
  Forall (λ p, ∃ ns name, reconcile_locks ChartRoot ns name (W := W) p) progs →
  nsteps step n (start progs) s →
  n ≤ steps_of progs ∧
  (n < steps_of progs → ∃ s', step s s') ∧
  (n = steps_of progs → Forall finished (threads s) ∧ owner s = ∅ ∧ tables s = ∅).
Proof.
  intros Hp. apply (ordered_runs lock_rank). eapply Forall_impl; [exact Hp|].
  intros p (ns & name & Hr). by eapply reconcile_disciplined.
Qed.

#[local] Existing Instance CleanupFacts.cluster_index.

(** A cleanup and an install of the same config at once. *)
Definition two_reconciles : list (list action) :=
  let i := {| IVendor := VendorNVIDIA; PinnedVersion := ""; ISource := IntentNone; Known := true; AdoptExisting := true |} in
  [locked (config_lock "ns" "cfg") (pass_locks (clean_op_locks "")
     (CleanupInstallations (W := Cluster * list CleanOp) true false (demo_cluster false, []) (Some demo_config)).1.2);
   locked (config_lock "ns" "cfg") (pass_locks (helm_op_locks "")
     (Ensure (W := Cluster * list HelmOp) true false 0 (demo_cluster false, []) i).1.2)].

Lemma reconciles_complete_witness : (∃ s', step (start two_reconciles) s') ∧ steps_of two_reconciles = 20.
Proof.
  assert (Hn : steps_of two_reconciles = 20) by (vm_compute; reflexivity). split; [|exact Hn].
  eapply (reconciles_complete (W := Cluster) "" two_reconciles 0 (start two_reconciles));
    [|constructor|rewrite Hn; lia].
  constructor; [|constructor; [|constructor]]; exists "ns", "cfg".
  - exact (reconcile_cleanup "" "ns" "cfg" true false (demo_cluster false) (Some demo_config)).
  - exact (reconcile_install "" "ns" "cfg" true false 0 (demo_cluster false) _).
Defined.
