(* ===== verification/Vsp.v ===== *)
(** * The vendor plugin (pkg/vsp)

    [Server] answers the daemon's calls: the handshake (Init, GetDevices), the
    echo of SetNumVfs, and the two network-function calls, which only report
    whether DPF accepted the intent.  The daemon side dials it ([Handshake]) and
    stamps the Ready condition ([ReportReady]).

    The cluster client is the interface [VspAPI], the gRPC connection the
    interface [Wire], and the socket's directory the interface [SocketOS]. *)

From Stdlib Require Import Ascii ZArith.
From stdpp Require Import base gmap strings list fin_maps.
From S2P Require Import Prelude GoStrings Unstructured MappingSpec MappingEngine Version InstallConfig Release HelmInstaller Cleanup Operator Ensure Conditions Controller Translation Discovery.

Definition DefaultSocket : string := "/var/run/dpu-daemon/vendor-plugin/vendor-plugin.sock".
Definition SocketDirPerm : Z := 448. (* 0o700 *)
Definition defaultIP : string := "127.0.0.1".
Definition defaultPort : Z := 50051.
Definition healthOK : string := "Healthy".

(** ** Messages *)

Record IpPort := { Ip : string; Port : Z }.
Record PbDevice := { DevID : string; DevHealth : string }.
Record NFRequest := { Input : string; Output : string }.
Record InitRequest := { DpuMode : bool; DpuIdentifier : string }.
Record PingResponse := { Timestamp : Z; ResponderId : string; Healthy : bool }.

#[global] Instance PbDevice_eq_dec : EqDecision PbDevice.
Proof. solve_decision. Defined.

(** The getters of a generated message accept nil. *)
Definition GetInput (r : option NFRequest) : string := match r with Some r => Input r | None => "" end.
Definition GetOutput (r : option NFRequest) : string := match r with Some r => Output r | None => "" end.
Definition GetID (d : option PbDevice) : string := match d with Some d => DevID d | None => "" end.
Definition GetHealth (d : option PbDevice) : string := match d with Some d => DevHealth d | None => "" end.

(** ** The cluster *)

(** An object as the client lists it. *)
Record VObj := {
  VoNamespace : string;
  VoName : string;
  VoAnnotations : gmap string string;
  VoDeleting : bool;
  VoObject : gmap string value }.

Definition with_object (o : gmap string value) (v : VObj) : VObj :=
  {| VoNamespace := VoNamespace v; VoName := VoName v; VoAnnotations := VoAnnotations v;
     VoDeleting := VoDeleting v; VoObject := o |}.

(** [v_list] lists a kind in every namespace; [v_now] is the clock as RFC 3339
    text. *)
Class VspAPI (W : Type) := {
  v_list : W → ObjectRef → W * result (list VObj);
  v_get : W → ObjectRef → string → string → W * result VObj;
  v_status_update : W → VObj → W * option err;
  VIsConflict : err → bool;
  v_now : W → string }.

Definition DPUServiceGVK : ObjectRef := gvk "svc.dpu.nvidia.com" "v1alpha1" "DPUService".
Definition DataProcessingUnitGVK : ObjectRef := gvk "config.openshift.io" "v1" "DataProcessingUnit".
Definition DpuOperatorConfigGVK : ObjectRef := gvk "config.openshift.io" "v1" "DpuOperatorConfig".

(** ** handoff.go *)

Record NetworkFunctionHandoff (W : Type) := {
  CreateIntentAccepted : W → option NFRequest → W * option err;
  DeleteIntentAccepted : W → option NFRequest → W * option err }.
Arguments CreateIntentAccepted {W}.
Arguments DeleteIntentAccepted {W}.

Definition refused_create : err :=
  EFmt "network-function create refused: DPF has not accepted a DPUService intent" [].
Definition refused_delete : err := EFmt "network-function delete refused: DPF intent cannot be observed" [].

Definition RejectHandoff {W} : NetworkFunctionHandoff W := {|
  CreateIntentAccepted w _ := (w, Some refused_create);
  DeleteIntentAccepted w _ := (w, Some refused_delete) |}.

Definition StaticHandoff {W} (CreateErr DeleteErr : option err) : NetworkFunctionHandoff W := {|
  CreateIntentAccepted w _ := (w, CreateErr);
  DeleteIntentAccepted w _ := (w, DeleteErr) |}.

Definition validateNFRequest (req : option NFRequest) : result unit :=
  reject_if (bool_decide (req = None) || (TrimSpace (GetInput req) == "") || (TrimSpace (GetOutput req) == ""))
    (EFmt "network-function request missing input/output identity" []).

Definition accepted (item : VObj) : bool :=
  negb (VoDeleting item) &&
  negb (TrimSpace (nested_string (VoObject item) ["spec"; "helmChart"; "source"; "chart"]) == "").

Section Handoff.
Context {W : Type} `{VspAPI W} (HasClient : bool).

Definition acceptedDPUServices (w : W) : W * result (list VObj) :=
  if negb HasClient then (w, Err (EFmt "observe DPF DPUService intent: no cluster client" []))
  else
    let '(w, r) := v_list w DPUServiceGVK in
    (w, match r with
        | Err e => Err (EWrap "observe DPF DPUService intent: %w" [] e)
        | Ok items => Ok (List.filter accepted items)
        end).

Definition cluster_create (w : W) (req : option NFRequest) : W * option err :=
  match validateNFRequest req with
  | Err e => (w, Some e)
  | Ok _ =>
      let '(w, r) := acceptedDPUServices w in
      (w, match r with
          | Err e => Some e
          | Ok found => if length found == 0 then Some refused_create else None
          end)
  end.

Definition cluster_delete (w : W) (req : option NFRequest) : W * option err :=
  match validateNFRequest req with
  | Err e => (w, Some e)
  | Ok _ =>
      if negb HasClient then (w, Some refused_delete)
      else
        let '(w, r) := acceptedDPUServices w in
        (w, match r with
            | Err e => Some (EWrap "network-function delete refused: DPF intent cannot be observed: %w" [] e)
            | Ok _ => None
            end)
  end.

Definition ClusterHandoff : NetworkFunctionHandoff W :=
  {| CreateIntentAccepted := cluster_create; DeleteIntentAccepted := cluster_delete |}.

End Handoff.

Definition handoffOrReject {W} (h : option (NetworkFunctionHandoff W)) : NetworkFunctionHandoff W :=
  match h with Some h => h | None => RejectHandoff end.

(** ** grpc_server.go *)

(** [opi_api] and [dpu-api] have the same messages; the device lists hold
    pointers. *)
Abbreviation DeviceList := (gmap string (option PbDevice)) (only parsing).

Section Server.
Context {W : Type}.

(** The server's fields: the enumerator and the handoff may be nil. *)
Record Server := {
  Enumerator : option (W → W * result (list Device));
  SocketPath : string;
  Handoff : option (NetworkFunctionHandoff W) }.

Definition NewServer (enum : option (W → W * result (list Device))) (socket : string) : Server :=
  {| Enumerator := enum; SocketPath := if socket == "" then DefaultSocket else socket; Handoff := None |}.

Implicit Type s : Server.

Definition Init (_ : InitRequest) : result IpPort := Ok {| Ip := defaultIP; Port := defaultPort |}.

Definition list_device (devices : DeviceList) (d : Device) : DeviceList :=
  <[PCIAddress d := Some {| DevID := SerialNumber d; DevHealth := healthOK |}]> devices.

Definition GetDevices s (w : W) : W * result DeviceList :=
  match Enumerator s with
  | None => (w, Err (EFmt "no hardware enumerator configured" []))
  | Some enum =>
      let '(w, r) := enum w in
      (w, match LiveDevices (Some r) with
          | Err e => Err (EWrap "enumerate nvidia dpu: %w" [] e)
          | Ok found => Ok (foldl list_device ∅ found)
          end)
  end.

Definition SetNumVfs (vfCnt : Z) : result Z := Ok vfCnt.

Definition CreateNetworkFunction s (w : W) (req : option NFRequest) : W * result unit :=
  let '(w, e) := CreateIntentAccepted (handoffOrReject (Handoff s)) w req in
  (w, match e with Some e => Err e | None => Ok tt end).

Definition DeleteNetworkFunction s (w : W) (req : option NFRequest) : W * result unit :=
  let '(w, e) := DeleteIntentAccepted (handoffOrReject (Handoff s)) w req in
  (w, match e with Some e => Err e | None => Ok tt end).

Definition Ping (now : Z) : result PingResponse :=
  Ok {| Timestamp := now; ResponderId := "opi-nvidia-vsp"; Healthy := true |}.

Definition NeedLeaderElection : bool := false.

(** *** opi_handshake.go *)

Definition opi_Init (req : InitRequest) : result IpPort :=
  let! ip := Init {| DpuMode := DpuMode req; DpuIdentifier := DpuIdentifier req |} in
  Ok {| Ip := Ip ip; Port := Port ip |}.

Definition copy_device (d : option PbDevice) : option PbDevice :=
  Some {| DevID := GetID d; DevHealth := GetHealth d |}.

Definition opi_GetDevices s (w : W) : W * result DeviceList :=
  let '(w, r) := GetDevices s w in
  (w, let! got := r in Ok (copy_device <$> got)).

Definition opi_SetNumVfs (vfCnt : Z) : result Z := SetNumVfs vfCnt.

(** *** Start *)

(** [listen] binds the socket; [serve] runs until the listener fails or the
    context ends, and tells whether the context had ended. *)
Class SocketOS := {
  path_dir : string → string;
  mkdir_all : W → string → Z → W * option err;
  os_remove : W → string → W * option err;
  os_IsNotExist : err → bool;
  listen : W → string → W * option err;
  serve : W → W * (option err * bool) }.

Definition Start `{SocketOS} s (w : W) : W * option err :=
  let '(w, e) := mkdir_all w (path_dir (SocketPath s)) SocketDirPerm in
  match e with
  | Some e => (w, Some (EWrap "create vendor plugin socket dir: %w" [] e))
  | None =>
      let '(w, e) := os_remove w (SocketPath s) in
      if (match e with Some e => negb (os_IsNotExist e) | None => false end)
      then (w, match e with Some e => Some (EWrap "remove stale vendor plugin socket: %w" [] e) | None => None end)
      else
        let '(w, e) := listen w (SocketPath s) in
        match e with
        | Some e => (w, Some (EWrap "listen %s: %w" [SocketPath s] e))
        | None =>
            let '(w, (e, ctxDone)) := serve w in
            (w, if ctxDone then None else e)
        end
  end.

End Server.
Arguments Server : clear implicits.

(** ** daemon_client.go *)

Record HandshakeDevice := { HdID : string; HdHealth : string }.
Record HandshakeResult := { HrIP : string; HrPort : Z; HrDevices : gmap string (option HandshakeDevice) }.

(** A connection: making it, and the two calls over it (an error is the server's
    or the transport's).  [wait] is the select between the end of the context
    ([true]) and the interval. *)
Class Wire (W : Type) := {
  new_client : string → option err;
  call_Init : W → string → InitRequest → W * result IpPort;
  call_GetDevices : W → string → W * result (gmap string (option PbDevice));
  wait : W → Z → W * bool }.

(** [100 * time.Millisecond], in nanoseconds. *)
Definition interval : Z := 100 * 10 ^ 6.

Section Daemon.
Context {W : Type} `{Wire W}.

Definition copy_handshake (d : option PbDevice) : option HandshakeDevice :=
  Some {| HdID := GetID d; HdHealth := GetHealth d |}.

Definition Handshake (w : W) (socket : string) (dpuMode : bool) (identifier : string) : W * result HandshakeResult :=
  let socket := if socket == "" then DefaultSocket else socket in
  match new_client socket with
  | Some e => (w, Err (EWrap "dial %s: %w" [socket] e))
  | None =>
      let '(w, r) := call_Init w socket {| DpuMode := dpuMode; DpuIdentifier := identifier |} in
      match r with
      | Err e => (w, Err (EWrap "Init: %w" [] e))
      | Ok ip =>
          let '(w, r) := call_GetDevices w socket in
          (w, match r with
              | Err e => Err (EWrap "GetDevices: %w" [] e)
              | Ok got => Ok {| HrIP := Ip ip; HrPort := Port ip; HrDevices := copy_handshake <$> got |}
              end)
      end
  end.

(** The loop, with fuel: [None] is a loop that is still running. *)
Fixpoint HandshakeUntil (fuel : nat) (w : W) (socket : string) (dpuMode : bool) (identifier : string)
    : option (W * result HandshakeResult) :=
  match fuel with
  | O => None
  | S fuel' =>
      let '(w, r) := Handshake w socket dpuMode identifier in
      match r with
      | Ok got => Some (w, Ok got)
      | Err last =>
          let '(w, done) := wait w interval in
          if done : bool then Some (w, Err (EWrap "handshake: %w" [] last))
          else HandshakeUntil fuel' w socket dpuMode identifier
      end
  end.

End Daemon.

(** ** ready.go *)

(** [unstructured.NestedSlice(obj, "status", "conditions")], its error dropped. *)
Definition status_conditions (o : gmap string value) : list value :=
  match o !! "status" with
  | Some (VMap m) => match m !! "conditions" with Some (VList l) => l | _ => [] end
  | _ => []
  end.

(** A missing or nil status becomes an object; the slice is set when it is one. *)
Definition set_status_conditions (out : list value) (o : gmap string value) : gmap string value :=
  let o := match o !! "status" with None | Some VNil => <["status" := VMap ∅]> o | _ => o end in
  match o !! "status" with
  | Some (VMap m) => <["status" := VMap (<["conditions" := VList out]> m)]> o
  | _ => o
  end.

(** [upsertReadyCondition] on an object: the object to write, if any. *)
Definition upsert_ready (healthy : bool) (now : string) (v : VObj) : option VObj :=
  match upsertReadyCondition healthy now (status_conditions (VoObject v)) with
  | None => None
  | Some out => Some (with_object (set_status_conditions out (VoObject v)) v)
  end.

Definition named_device (d : option HandshakeDevice) : option HandshakeDevice :=
  match d with
  | None => None
  | Some d => if TrimSpace (HdID d) == "" then None else Some d
  end.

(** The devices of the handshake that are not nil and have an ID. *)
Definition named_devices (hs : HandshakeResult) : list HandshakeDevice :=
  omap (λ kd, named_device kd.2) (map_to_list (HrDevices hs)).

Definition device_healthy (d : HandshakeDevice) : bool := (HdHealth d == "") || EqualFold (HdHealth d) "HEALTHY".

Definition matchDPUSerial (obj : VObj) (serials : gset string) : bool :=
  bool_decide (ann_at (VoAnnotations obj) SerialNumberAnnotation ∈ serials).

Definition matchAll (_ : VObj) (_ : gset string) : bool := true.

Section Ready.
Context {W : Type} `{VspAPI W} `{ControllerUtil}.

(** One run of [patchReady]. *)
Definition patch_attempt (g : ObjectRef) (obj : VObj) (healthy : bool) (w : W) : W * option err :=
  let '(w, r) := v_get w g (VoNamespace obj) (VoName obj) in
  match r with
  | Err e => (w, Some e)
  | Ok fresh =>
      match upsert_ready healthy (v_now w) fresh with
      | None => (w, None)
      | Some next => v_status_update w next
      end
  end.

Definition patchReady (w : W) (g : ObjectRef) (obj : VObj) (healthy : bool) : W * option err :=
  Retry _ VIsConflict (patch_attempt g obj healthy) w.

Fixpoint patch_all (w : W) (g : ObjectRef) (serials : gset string) (healthy : bool)
    (match_ : VObj → gset string → bool) (items : list VObj) : W * option err :=
  match items with
  | [] => (w, None)
  | obj :: items' =>
      if negb (match_ obj serials) then patch_all w g serials healthy match_ items'
      else
        let '(w, e) := patchReady w g obj healthy in
        match e with
        | Some e => (w, Some e)
        | None => patch_all w g serials healthy match_ items'
        end
  end.

Definition reportReadyOnGVKs (w : W) (g : ObjectRef) (serials : gset string) (healthy : bool)
    (match_ : VObj → gset string → bool) : W * option err :=
  let '(w, r) := v_list w g in
  match r with
  | Err e => (w, Some e)
  | Ok items => patch_all w g serials healthy match_ items
  end.

Definition ReportReady (HasClient : bool) (w : W) (hs : option HandshakeResult) : W * option err :=
  match hs with
  | None => (w, None)
  | Some hs =>
      if negb HasClient then (w, None)
      else
        let devs := named_devices hs in
        let serials : gset string := list_to_set (HdID <$> devs) in
        let healthy := existsb device_healthy devs in
        if size serials == 0 then (w, None)
        else
          let '(w, e) := reportReadyOnGVKs w DataProcessingUnitGVK serials healthy matchDPUSerial in
          match e with
          | Some e => (w, Some e)
          | None => reportReadyOnGVKs w DpuOperatorConfigGVK serials healthy matchAll
          end
  end.

End Ready.
