(* ===== verification/VspFacts.v ===== *)
(** * What the vendor plugin reports

    The handshake, seen from the daemon, lists exactly the live devices; a
    network function is accepted exactly when DPF has a chart-bearing DPUService;
    the Ready report touches nothing but the Ready condition of the units the
    handshake names; the daemon's retry loop ends with its context. *)

From Stdlib Require Import Ascii ZArith Lia.
From stdpp Require Import base gmap strings list fin_maps.
From S2P Require Import Prelude GoStrings Unstructured MappingSpec MappingEngine Version InstallConfig Release HelmInstaller Cleanup Operator Ensure Conditions Controller ControllerFacts Translation Discovery Vsp.

(** ** The handshake *)

Lemma list_device_lookup (found : list Device) (acc : gmap string (option PbDevice)) pci :
  NoDup (PCIAddress <$> found) →
  (∀ d, d ∈ found → PCIAddress d = pci →
     foldl list_device acc found !! pci = Some (Some {| DevID := SerialNumber d; DevHealth := healthOK |})) ∧
  (pci ∉ PCIAddress <$> found → foldl list_device acc found !! pci = acc !! pci).
Proof.
  revert acc. induction found as [|x found IH]; intros acc Hnd; cbn [foldl].
  { split; [by intros d ?%not_elem_of_nil|done]. }
  rewrite fmap_cons in Hnd. apply NoDup_cons in Hnd as [Hx Hnd]. destruct (IH (list_device acc x) Hnd) as [Hin Hout].
  split.
  - intros d [->|Hd]%elem_of_cons Hp; [|by apply Hin]. rewrite Hout by (by rewrite <- Hp).
    unfold list_device. rewrite Hp. apply lookup_insert_eq.
  - rewrite fmap_cons, not_elem_of_cons. intros [Hne Hn]. rewrite Hout by done. by apply lookup_insert_ne.
Qed.

(** The daemon and the server in one process, the transport transparent. *)
Definition direct_wire {W} (s : Server W) (pause : W → Z → W * bool) : Wire W := {|
  new_client _ := None;
  call_Init w _ req := (w, opi_Init req);
  call_GetDevices w _ := opi_GetDevices s w;
  wait := pause |}.

Lemma Handshake_devices {W} (s : Server W) pause (enum : W → W * result (list Device)) w w' found socket mode id :
  Enumerator s = Some enum → enum w = (w', Ok found) → NoDup (PCIAddress <$> found) →
  ∃ hs, Handshake (H := direct_wire s pause) w socket mode id = (w', Ok hs) ∧
    HrIP hs = defaultIP ∧ HrPort hs = defaultPort ∧
    ∀ pci hd, HrDevices hs !! pci = Some hd ↔
      ∃ d, d ∈ found ∧ ValidateIdentity d = Ok tt ∧ PCIAddress d = pci ∧
        hd = Some {| HdID := SerialNumber d; HdHealth := healthOK |}.
Proof.
  intros He Hw Hnd. unfold Handshake. cbn [new_client direct_wire call_Init call_GetDevices].
  unfold opi_Init, Init. cbn [result_bind]. unfold opi_GetDevices, GetDevices. rewrite He, Hw. cbn [LiveDevices result_bind].
  eexists. split; [done|]. split; [done|]. split; [done|]. intros pci hd. cbn [HrDevices].
  set (live := filter (λ d, ValidateIdentity d = Ok tt) found).
  assert (Hlive : NoDup (PCIAddress <$> live)).
  { eapply sublist_NoDup; [exact Hnd|]. apply fmap_sublist, sublist_filter. }
  destruct (list_device_lookup live ∅ pci Hlive) as [Hin Hout]. rewrite !lookup_fmap. split.
  - intros Hl. destruct (decide (pci ∈ PCIAddress <$> live)) as [Hp|Hp]; [|by rewrite Hout in Hl].
    apply list_elem_of_fmap in Hp as (d & -> & Hd). rewrite (Hin d Hd eq_refl) in Hl. cbn in Hl. injection Hl as <-.
    apply list_elem_of_filter in Hd as [Hv Hd]. by exists d.
  - intros (d & Hd & Hv & Hp & ->). rewrite (Hin d); [done| |done]. by apply list_elem_of_filter.
Qed.

(** The handshake is exact.  When the enumerator finds devices at distinct PCI
    addresses, the handshake of the daemon through the opi-api services succeeds,
    with the fixed address and port; it names a device at a PCI address exactly
    when a found device with a valid identity is there, with that device's serial
    number and healthy. *)
Theorem Handshake_live {W} (s : Server W) pause (enum : W → W * result (list Device)) w w' found socket mode id :
  Enumerator s = Some enum → enum w = (w', Ok found) → NoDup (PCIAddress <$> found) →
  ∃ hs, Handshake (H := direct_wire s pause) w socket mode id = (w', Ok hs) ∧
    HrIP hs = defaultIP ∧ HrPort hs = defaultPort ∧
    ∀ pci hd, HrDevices hs !! pci = Some hd ↔
      ∃ d, d ∈ found ∧ ValidateIdentity d = Ok tt ∧ PCIAddress d = pci ∧
        hd = Some {| HdID := SerialNumber d; HdHealth := healthOK |}.
Proof. apply Handshake_devices. Qed.

(** The annotator's serial number is the one the handshake reports: a unit that
    carries the identity annotations of a live NVIDIA device is one that the Ready
    report of the next handshake addresses. *)
Lemma annotated_unit_named {W} (s : Server W) pause (enum : W → W * result (list Device)) w w' found socket mode id d anns obj :
  Enumerator s = Some enum → enum w = (w', Ok found) → NoDup (PCIAddress <$> found) →
  d ∈ found → VendorID d = NVIDIAVendorID → IdentityAnnotations d = Ok anns → anns ⊆ VoAnnotations obj →
  ∃ hs, Handshake (H := direct_wire s pause) w socket mode id = (w', Ok hs) ∧
    matchDPUSerial obj (list_to_set (HdID <$> named_devices hs)) = true.
Proof.
  intros He Hw Hnd Hd Hv Hi Hsub.
  destruct (Handshake_devices s pause enum w w' found socket mode id He Hw Hnd) as (hs & Hh & _ & _ & Hdev).
  exists hs. split; [done|]. unfold IdentityAnnotations in Hi. apply seq_ok in Hi as [Hval Hi].
  rewrite Hv in Hi. change (AnnotationsFor NVIDIAVendorID) with (Some nvidia_keys) in Hi.
  assert (Hser : anns !! SerialNumberAnnotation = Some (SerialNumber d)).
  { cbn [KeySerial nvidia_keys] in Hi. rewrite bool_decide_eq_true_2 in Hi by done. injection Hi as <-.
    case_match; by simplify_map_eq. }
  unfold matchDPUSerial, ann_at. rewrite (lookup_weaken _ _ _ _ Hser Hsub).
  apply bool_decide_eq_true_2, elem_of_list_to_set, list_elem_of_fmap.
  exists {| HdID := SerialNumber d; HdHealth := healthOK |}. split; [done|].
  apply list_elem_of_omap. exists (PCIAddress d, Some {| HdID := SerialNumber d; HdHealth := healthOK |}).
  split; [apply elem_of_map_to_list, Hdev; by exists d|].
  unfold ValidateIdentity in Hval. cbn. by repeat case_bool_decide.
Qed.

(** ** Network functions *)

Definition complete_request (req : option NFRequest) : Prop :=
  ∃ r, req = Some r ∧ TrimSpace (Input r) ≠ "" ∧ TrimSpace (Output r) ≠ "".

Lemma validate_complete req : validateNFRequest req = Ok tt ↔ complete_request req.
Proof.
  unfold validateNFRequest, complete_request. rewrite reject_if_ok, !orb_false_iff, !bool_decide_eq_false.
  destruct req as [r|]; cbn [GetInput GetOutput]; naive_solver.
Qed.

(** A DPUService that DPF keeps and that names a chart. *)
Definition live_intent (item : VObj) : Prop :=
  VoDeleting item = false ∧ TrimSpace (nested_string (VoObject item) ["spec"; "helmChart"; "source"; "chart"]) ≠ "".

Lemma accepted_some items :
  length (List.filter accepted items) ≠ 0 ↔ ∃ item, item ∈ items ∧ live_intent item.
Proof.
  assert (Hacc : ∀ item, accepted item = true ↔ live_intent item).
  { intros item. unfold accepted, live_intent. by rewrite andb_true_iff, !negb_true_iff, bool_decide_eq_false. }
  split.
  - destruct (List.filter accepted items) as [|item l] eqn:Hf; [done|]. intros _.
    assert (Hin : In item (List.filter accepted items)) by (rewrite Hf; by left).
    apply filter_In in Hin as [Hin Ha]. exists item. split; [by apply list_elem_of_In|by apply Hacc].
  - intros (item & Hin%list_elem_of_In & Ha%Hacc) Hl. apply length_zero_iff_nil in Hl.
    assert (Hf : In item (List.filter accepted items)) by by apply filter_In. by rewrite Hl in Hf.
Qed.

(** [C21] A network function is never reported created before DPF has its intent:
    with the cluster handoff the call succeeds exactly when the request has an
    input and an output, the DPUServices can be listed, and one that is not being
    deleted names a chart; with no handoff it always fails.  A delete succeeds
    exactly when the request is complete and DPF can be observed. *)
Theorem NetworkFunction_gate {W} `{VspAPI W} (s : Server W) hasClient w req :
  let observed items := hasClient = true ∧ (v_list w DPUServiceGVK).2 = Ok items in
  (Handoff s = Some (ClusterHandoff hasClient) →
    ((CreateNetworkFunction s w req).2 = Ok tt ↔
       complete_request req ∧ ∃ items, observed items ∧ ∃ item, item ∈ items ∧ live_intent item) ∧
    ((DeleteNetworkFunction s w req).2 = Ok tt ↔ complete_request req ∧ ∃ items, observed items)) ∧
  (Handoff s = None → (CreateNetworkFunction s w req).2 ≠ Ok tt ∧ (DeleteNetworkFunction s w req).2 ≠ Ok tt).
Proof.
  cbv zeta. split; [intros Hs; split|intros Hs; unfold CreateNetworkFunction, DeleteNetworkFunction; by rewrite Hs].
  - unfold CreateNetworkFunction. rewrite Hs, <- validate_complete. cbn [handoffOrReject CreateIntentAccepted ClusterHandoff].
    unfold cluster_create, acceptedDPUServices. destruct (validateNFRequest req) as [[]|e]; [|naive_solver].
    destruct hasClient; cbn [negb snd]; [|naive_solver]. destruct (v_list w DPUServiceGVK) as [w1 [items|e]]; cbn [snd]; [|naive_solver].
    assert (Hiff : (∃ items', (true = true ∧ Ok items = Ok items') ∧ ∃ item, item ∈ items' ∧ live_intent item) ↔
      ∃ item, item ∈ items ∧ live_intent item) by naive_solver.
    rewrite Hiff, <- accepted_some. case_bool_decide; naive_solver.
  - unfold DeleteNetworkFunction. rewrite Hs, <- validate_complete. cbn [handoffOrReject DeleteIntentAccepted ClusterHandoff].
    unfold cluster_delete, acceptedDPUServices. destruct (validateNFRequest req) as [[]|e]; [|naive_solver].
    destruct hasClient; cbn [negb snd]; [|naive_solver].
    destruct (v_list w DPUServiceGVK) as [w1 [items|e]]; cbn [snd]; naive_solver.
Qed.

(** ** The retry loop *)

Section Until.
Context {W : Type} `{Wire W}.

(** What is left of the context: every wait that the context survives uses some
    of it up, and a handshake adds nothing. *)
Context (budget : W → nat).
Context (Hwait : ∀ w n w', wait w n = (w', false) → budget w' < budget w).
Context (Hinit : ∀ w socket req, budget (call_Init w socket req).1 ≤ budget w).
Context (Hdevices : ∀ w socket, budget (call_GetDevices w socket).1 ≤ budget w).

Lemma Handshake_budget w socket mode id : budget (Handshake w socket mode id).1 ≤ budget w.
Proof.
  unfold Handshake. cbv zeta. destruct (new_client _); [done|].
  set (sock := if bool_decide (socket = "") then DefaultSocket else socket).
  pose proof (Hinit w sock {| DpuMode := mode; DpuIdentifier := id |}) as Hi.
  destruct (call_Init w sock _) as [w1 [ip|e]]; cbn [fst] in *; [|done].
  pose proof (Hdevices w1 sock) as Hd. destruct (call_GetDevices w1 sock) as [w2 r]. cbn [fst] in *. lia.
Qed.

(** The daemon's retry loop ends with its context: if the context survives only
    finitely many waits, the loop returns within that many rounds, with the first
    handshake that succeeds or with the error of the last one. *)
Theorem HandshakeUntil_terminates w socket mode id :
  ∃ w' r, HandshakeUntil (S (budget w)) w socket mode id = Some (w', r) ∧
    ((∃ w0 hs, Handshake w0 socket mode id = (w', Ok hs) ∧ r = Ok hs) ∨
     (∃ w0 w1 e, Handshake w0 socket mode id = (w1, Err e) ∧ wait w1 interval = (w', true) ∧
        r = Err (EWrap "handshake: %w" [] e))).
Proof.
  remember (budget w) as n eqn:Hn. assert (Hle : budget w ≤ n) by lia. clear Hn.
  revert w Hle. induction n as [|n IH]; intros w Hle; cbn [HandshakeUntil].
  all: pose proof (Handshake_budget w socket mode id) as Hb.
  all: destruct (Handshake w socket mode id) as [w1 [hs|e]] eqn:Hh; cbn [fst] in Hb;
    [exists w1, (Ok hs); split; [done|]; left; by exists w, hs|].
  all: destruct (wait w1 interval) as [w2 []] eqn:Hw;
    [eexists w2, _; split; [done|]; right; by exists w, w1, e|].
  all: apply Hwait in Hw; try lia.
  apply IH. lia.
Qed.

End Until.

(** ** The Ready report *)

Inductive ReadyEvent :=
| RList (g : ObjectRef) (r : result (list VObj))
| RGet (g : ObjectRef) (ns name : string) (r : result VObj)
| RUpdate (v : VObj).

Section ReadyLog.
Context {W : Type} `{VspAPI W}.

#[global] Instance logged_vsp : VspAPI (W * list ReadyEvent) := {|
  v_list wl g := let r := v_list wl.1 g in ((r.1, wl.2 ++ [RList g r.2]), r.2);
  v_get wl g ns n := let r := v_get wl.1 g ns n in ((r.1, wl.2 ++ [RGet g ns n r.2]), r.2);
  v_status_update wl v := let r := v_status_update wl.1 v in ((r.1, wl.2 ++ [RUpdate v]), r.2);
  VIsConflict := VIsConflict;
  v_now wl := v_now wl.1 |}.

End ReadyLog.

(** Outside the conditions of its status the object is as it was. *)
Definition same_but_conditions (o o' : gmap string value) : Prop :=
  delete "status" o' = delete "status" o ∧
  ∀ m, o !! "status" = Some (VMap m) → ∃ m', o' !! "status" = Some (VMap m') ∧ delete "conditions" m' = delete "conditions" m.

Lemma set_conditions_frame out o : same_but_conditions o (set_status_conditions out o).
Proof.
  unfold set_status_conditions, same_but_conditions.
  destruct (o !! "status") as [[]|] eqn:Hs; rewrite ?lookup_insert_eq, ?Hs, ?insert_insert_eq, ?delete_insert_eq;
    (split; [done|]); intros m' Hm; try discriminate Hm.
  injection Hm as <-. rewrite lookup_insert_eq. eexists. split; [done|]. by rewrite delete_insert_eq.
Qed.

(** After the write the conditions are the ones computed, unless status is
    something other than an object. *)
Definition serials_of (hs : HandshakeResult) : gset string := list_to_set (HdID <$> named_devices hs).
Definition any_healthy (hs : HandshakeResult) : bool := existsb device_healthy (named_devices hs).

Section Report.
Context {W : Type} `{VspAPI W} `{ControllerUtil}.
Context (hs : HandshakeResult).

Notation LW := (W * list ReadyEvent)%type.

(** An object that the report may stamp: a unit with a serial of the handshake, or
    a config, from a listing. *)
Definition addressed (pre : list ReadyEvent) (g : ObjectRef) (ns name : string) : Prop :=
  ∃ items obj, RList g (Ok items) ∈ pre ∧ obj ∈ items ∧ VoNamespace obj = ns ∧ VoName obj = name ∧
    (g = DataProcessingUnitGVK ∧ ann_at (VoAnnotations obj) SerialNumberAnnotation ∈ serials_of hs ∨
     g = DpuOperatorConfigGVK).

(** Every write is a fresh read with its Ready condition brought up to date. *)
Definition stamps_ready (pre : list ReadyEvent) (ev : ReadyEvent) : Prop :=
  match ev with
  | RList g _ => g = DataProcessingUnitGVK ∨ g = DpuOperatorConfigGVK
  | RGet g ns name _ => addressed pre g ns name
  | RUpdate v => ∃ g ns name fresh now out,
      RGet g ns name (Ok fresh) ∈ pre ∧ addressed pre g ns name ∧
      upsertReadyCondition (any_healthy hs) now (status_conditions (VoObject fresh)) = Some out ∧
      v = with_object (set_status_conditions out (VoObject fresh)) fresh ∧
      same_but_conditions (VoObject fresh) (VoObject v)
  end.

Notation safe wl := (justified_log stamps_ready (snd wl)).

Lemma addressed_app pre ops g ns name : addressed pre g ns name → addressed (pre ++ ops) g ns name.
Proof. intros (items & obj & Hin & Hr). exists items, obj. rewrite elem_of_app. auto. Qed.

Lemma addressed_prefix pre pre' g ns name : pre `prefix_of` pre' → addressed pre g ns name → addressed pre' g ns name.
Proof. intros [ops ->]. apply addressed_app. Qed.

Lemma patch_attempt_safe g obj (wl : LW) :
  addressed wl.2 g (VoNamespace obj) (VoName obj) → safe wl →
  safe (patch_attempt g obj (any_healthy hs) wl).1 ∧ wl.2 `prefix_of` (patch_attempt g obj (any_healthy hs) wl).1.2.
Proof.
  intros Ha Hs. unfold patch_attempt. cbn [v_get logged_vsp]. cbv zeta.
  destruct (v_get wl.1 g _ _) as [w1 [fresh|e]]; cbn [fst snd].
  2:{ split; [by apply justified_snoc|by eexists]. }
  assert (Hs1 : justified_log stamps_ready (wl.2 ++ [RGet g (VoNamespace obj) (VoName obj) (Ok fresh)])) by by apply justified_snoc.
  unfold upsert_ready. destruct (upsertReadyCondition _ _ _) as [out|] eqn:Hu; [|split; [done|by eexists]].
  cbn [v_status_update logged_vsp fst snd]. split; [|rewrite <- app_assoc; by eexists].
  apply justified_snoc; [done|]. exists g, (VoNamespace obj), (VoName obj), fresh, (v_now w1), out.
  split; [set_solver|]. split; [by apply addressed_app|]. split; [done|]. split; [done|]. apply set_conditions_frame.
Qed.

Lemma patch_safe g obj (wl : LW) :
  addressed wl.2 g (VoNamespace obj) (VoName obj) → safe wl →
  safe (patchReady wl g obj (any_healthy hs)).1 ∧ wl.2 `prefix_of` (patchReady wl g obj (any_healthy hs)).1.2.
Proof.
  intros Ha Hs. unfold patchReady.
  destruct (Retry_ind (λ wl' : LW, safe wl' ∧ wl.2 `prefix_of` wl'.2)
    (@VIsConflict LW _) (patch_attempt g obj (any_healthy hs)) wl) as (wl' & [Hs' Hp'] & ->); [|done|].
  - intros wl' [Hs' Hp']. destruct (patch_attempt_safe g obj wl') as [? Hp]; [by eapply addressed_prefix|done|].
    split; [done|]. by etrans.
  - destruct (patch_attempt_safe g obj wl') as [? Hp]; [by eapply addressed_prefix|done|]. split; [done|]. by etrans.
Qed.

Lemma patch_all_safe g match_ items (wl : LW) :
  (∀ obj, obj ∈ items → match_ obj (serials_of hs) = true → addressed wl.2 g (VoNamespace obj) (VoName obj)) →
  safe wl → safe (patch_all wl g (serials_of hs) (any_healthy hs) match_ items).1.
Proof.
  revert wl. induction items as [|obj items IH]; intros wl Ha Hs; cbn [patch_all]; [done|].
  destruct (match_ obj (serials_of hs)) eqn:Hm; cbn [negb].
  - destruct (patch_safe g obj wl) as [Hs1 Hp1]; [apply Ha; [by left|done]|done|].
    destruct (patchReady wl g obj _) as [wl1 [e|]]; cbn [fst] in *; [done|].
    apply IH; [|done]. intros obj' Hin Hm'. eapply addressed_prefix; [exact Hp1|]. apply Ha; [by right|done].
  - apply IH; [|done]. intros obj' Hin. apply Ha. by right.
Qed.

Lemma report_gvk_safe g match_ (wl : LW) :
  g = DataProcessingUnitGVK ∧ match_ = matchDPUSerial ∨ g = DpuOperatorConfigGVK →
  safe wl → safe (reportReadyOnGVKs wl g (serials_of hs) (any_healthy hs) match_).1.
Proof.
  intros Hg Hs. unfold reportReadyOnGVKs. cbn [v_list logged_vsp]. cbv zeta.
  destruct (v_list wl.1 g) as [w1 r]; cbn [fst snd].
  assert (Hs1 : justified_log stamps_ready (wl.2 ++ [RList g r])) by (apply justified_snoc; [done|naive_solver]).
  destruct r as [items|e]; [|done]. apply patch_all_safe; [|done].
  intros obj Hin Hm. exists items, obj. cbn [snd]. split; [set_solver|]. split; [done|]. split; [done|]. split; [done|].
  destruct Hg as [[-> ->]| ->]; [left|by right]. split; [done|]. by apply bool_decide_eq_true_1 in Hm.
Qed.

Lemma report_stamps hasClient (w : W) :
  justified_log stamps_ready (ReportReady hasClient (w, []) (Some hs) : LW * option err).1.2.
Proof.
  unfold ReportReady. fold (serials_of hs) (any_healthy hs).
  destruct hasClient; [|apply justified_nil]. cbn [negb]. cbv zeta. fold (serials_of hs) (any_healthy hs).
  case_bool_decide; [apply justified_nil|].
  pose proof (report_gvk_safe DataProcessingUnitGVK matchDPUSerial (w, []) (or_introl (conj eq_refl eq_refl)) (justified_nil _)) as H1'.
  destruct (reportReadyOnGVKs (w, []) _ _ _ _) as [wl1 [e|]]; cbn [fst] in *; [done|].
  apply report_gvk_safe; [by right|done].
Qed.


End Report.

(** ** Concrete runs *)

Definition demo_device : Device :=
  {| PCIAddress := "0000:03:00.0"; VendorID := NVIDIAVendorID; DeviceID := 0xa2dc; SerialNumber := "MT2333";
     ProductName := "BlueField-3" |}.

Definition demo_vsp : Server nat :=
  {| Enumerator := Some (λ n, (n, Ok [demo_device; zero_device])); SocketPath := DefaultSocket; Handoff := None |}.

(** A context that survives five waits. *)
Definition demo_pause (n : nat) (_ : Z) : nat * bool := match n with O => (O, true) | S n' => (n', false) end.

Lemma Handshake_live_witness :
  ∃ hs, Handshake (H := direct_wire demo_vsp demo_pause) 5 "" true "id" = (5, Ok hs) ∧
    HrIP hs = defaultIP ∧ HrPort hs = defaultPort ∧
    ∀ pci hd, HrDevices hs !! pci = Some hd ↔
      ∃ d, d ∈ [demo_device; zero_device] ∧ ValidateIdentity d = Ok tt ∧ PCIAddress d = pci ∧
        hd = Some {| HdID := SerialNumber d; HdHealth := healthOK |}.
Proof.
  apply (Handshake_live demo_vsp demo_pause (λ n, (n, Ok [demo_device; zero_device])) 5 5); [done|done|].
  vm_compute. repeat constructor; set_solver.
Defined.

Definition lost : err := ENew "connection refused".

(** A socket that nobody serves. *)
Definition dead_wire : Wire nat := {|
  new_client _ := None;
  call_Init n _ _ := (n, Err lost);
  call_GetDevices n _ := (n, Err lost);
  wait := demo_pause |}.

Lemma HandshakeUntil_terminates_witness :
  ∃ w' r, HandshakeUntil (H := dead_wire) 6 5 "" true "id" = Some (w', r) ∧
    ((∃ w0 hs, Handshake (H := dead_wire) w0 "" true "id" = (w', Ok hs) ∧ r = Ok hs) ∨
     (∃ w0 w1 e, Handshake (H := dead_wire) w0 "" true "id" = (w1, Err e) ∧ wait (Wire := dead_wire) w1 interval = (w', true) ∧
        r = Err (EWrap "handshake: %w" [] e))).
Proof.
  apply (HandshakeUntil_terminates (H := dead_wire) (λ n, n)).
  - intros [|n] z w' [= <-]. lia.
  - done.
  - done.
Defined.

(** Objects of a kind by name; a write stores the object. *)
Definition VCluster : Type := gmap (string * string) VObj.

#[local] Instance vcluster_api : VspAPI VCluster := {|
  v_list w g := (w, Ok (map_to_list (filter (λ kv, kv.1.1 = RefKind g) w)).*2);
  v_get w g _ n := (w, match w !! (RefKind g, n) with Some v => Ok v | None => Err (ENew "not found") end);
  v_status_update w v :=
    (if decide (is_Some (w !! ("DataProcessingUnit", VoName v)))
     then <[("DataProcessingUnit", VoName v) := v]> w else <[("DpuOperatorConfig", VoName v) := v]> w, None);
  VIsConflict _ := false;
  v_now _ := "2026-01-01T00:00:00Z" |}.

#[local] Existing Instance demo_util.

Definition unit_of (name serial : string) : VObj :=
  {| VoNamespace := ""; VoName := name; VoAnnotations := {[ SerialNumberAnnotation := serial ]};
     VoDeleting := false; VoObject := ∅ |}.

Definition ready_status (v : option VObj) : list string :=
  match v with
  | Some v => omap (λ c, match c with VMap m => if str_at m "type" == "Ready" then Some (str_at m "status") else None | _ => None end)
                (status_conditions (VoObject v))
  | None => []
  end.

(** Health is not per unit: with one healthy and one unhealthy device in the
    handshake, the unit of the unhealthy device is stamped Ready True too, since
    the report computes one health for all devices. *)
Theorem ReportReady_shares_health :
  let w : VCluster := {[ ("DataProcessingUnit", "good") := unit_of "good" "A";
                         ("DataProcessingUnit", "bad") := unit_of "bad" "B";
                         ("DataProcessingUnit", "other") := unit_of "other" "C" ]} in
  let hs := {| HrIP := defaultIP; HrPort := defaultPort;
               HrDevices := {[ "03" := Some {| HdID := "A"; HdHealth := "Healthy" |};
                               "04" := Some {| HdID := "B"; HdHealth := "Unhealthy" |} ]} |} in
  let r := ReportReady true w (Some hs) in
  r.2 = None ∧ ready_status (r.1 !! ("DataProcessingUnit", "good")) = ["True"] ∧
  ready_status (r.1 !! ("DataProcessingUnit", "bad")) = ["True"] ∧
  ready_status (r.1 !! ("DataProcessingUnit", "other")) = [].
Proof. vm_compute. done. Qed.

(** A handshake that finds nothing leaves an earlier Ready as it is. *)
Example ReportReady_keeps_stale :
  let hs d := {| HrIP := defaultIP; HrPort := defaultPort; HrDevices := d |} in
  let w : VCluster := {[ ("DataProcessingUnit", "u") := unit_of "u" "A" ]} in
  let w := (ReportReady true w (Some (hs {[ "03" := Some {| HdID := "A"; HdHealth := "Healthy" |} ]}))).1 in
  ready_status ((ReportReady true w (Some (hs ∅))).1 !! ("DataProcessingUnit", "u")) = ["True"].
Proof. vm_compute. done. Qed.

Definition live_service : VObj :=
  {| VoNamespace := "ns"; VoName := "svc"; VoAnnotations := ∅; VoDeleting := false;
     VoObject := {[ "spec" := VMap {[ "helmChart" := VMap {[ "source" := VMap {[ "chart" := VString "c" ]} ]} ]} ]} |}.

Definition gate_server : Server VCluster :=
  {| Enumerator := None; SocketPath := ""; Handoff := Some (ClusterHandoff true) |}.

Lemma NetworkFunction_gate_witness :
  let w : VCluster := {[ ("DPUService", "svc") := live_service ]} in
  (CreateNetworkFunction gate_server w (Some {| Input := "a"; Output := "b" |})).2 = Ok tt.
Proof.
  cbv zeta. apply (proj1 (proj1 (NetworkFunction_gate gate_server true _ _) eq_refl)). split.
  - eexists. split; [done|]. split; vm_compute; discriminate.
  - eexists. split; [split; [done|vm_compute; reflexivity]|]. exists live_service.
    split; [by left|]. split; [done|]. vm_compute. discriminate.
Defined.
