(* ===== verification/ClusterClients.v ===== *)
(** * The production index and OLM client

    [ClientResourceIndex] of pkg/lifecycle/cleanup.go lists what depends on a
    release before it is removed and deletes the dataplane objects afterwards;
    [ClusterOLMClient] of pkg/lifecycle/olm_client.go reads the vendor's OLM
    Subscription and can claim it.  Both are instances of the interfaces that the
    cleanup and the OLM installer are proved against. *)

From Stdlib Require Import Ascii ZArith.
From stdpp Require Import base gmap strings list fin_maps.
From S2P Require Import Prelude GoStrings Unstructured MappingSpec Version InstallConfig Release HelmInstaller Cleanup CleanupFacts Operator Ensure Translation.

(** ** ClientResourceIndex *)

Definition opiConfigGroup : string := "config.openshift.io".

(** What the index reads of a listed object. *)
Record IndexItem := {
  IiNamespace : string;
  IiName : string;
  IiLabels : option (gmap string string);
  IiSource : string }.

(** [ix_configs]: the DpuOperatorConfigs, with whether each is being deleted;
    [ix_list]: a kind, in one namespace unless that is empty; [ix_get]: the
    namespace and name of the object that was read. *)
Class IndexAPI (W : Type) := {
  ix_configs : W → W * result (list (ConfigObject * bool));
  ix_list : W → ObjectRef → string → W * result (list IndexItem);
  ix_get : W → ObjectRef → string → string → W * result (string * string);
  ix_delete : W → ObjectRef → string → string → W * option err;
  XIsNoMatch : err → bool;
  XIsNotFound : err → bool }.

Section Index.
Context {W : Type} `{IndexAPI W}.
Context (HasClient : bool).

Definition index_ref (g : ObjectRef) (item : IndexItem) : CObject :=
  {| CGroup := Group g; CVersion := Version g; CKind := RefKind g; CNamespace := IiNamespace item;
     CName := IiName item; COwner := label (IiLabels item) ReleaseOwnerLabel; CTenant := "";
     CReferenced := IiSource item != "" |}.

Definition listGVK (w : W) (g : ObjectRef) (ns : string) : W * result (list CObject) :=
  let '(w, r) := ix_list w g ns in
  (w, let! items := r in Ok (index_ref g <$> items)).

Definition other_tenant (exceptConfig : string) (item : ConfigObject * bool) : bool :=
  negb ((CfgName item.1 == exceptConfig) || item.2) &&
  ((ResolveVendor (Some item.1) == VendorNVIDIA) || (ResolveVendor (Some item.1) == VendorAMD)).

Definition opi_kinds : list ObjectRef :=
  [gvk opiConfigGroup "v1" "DataProcessingUnit"; gvk opiConfigGroup "v1" "ServiceFunctionChain"].

(** A loop over kinds: what could be listed; a listing that fails is skipped. *)
Fixpoint list_kinds_skipping (w : W) (gs : list ObjectRef) (ns : string) (acc : list CObject) : W * list CObject :=
  match gs with
  | [] => (w, acc)
  | g :: gs' =>
      let '(w, r) := listGVK w g ns in
      match r with
      | Err _ => list_kinds_skipping w gs' ns acc
      | Ok items => list_kinds_skipping w gs' ns (acc ++ items)
      end
  end.

(** The two loops, after the tenants were counted. *)
Definition list_dependents (w : W) (tenants : nat) (releaseNamespace : string) : W * (CleanupRefs * option err) :=
  let '(w, opi) := list_kinds_skipping w opi_kinds "" [] in
  let '(w, plane) := list_kinds_skipping w requiredDPFCRDs releaseNamespace [] in
  (w, ({| OtherTenants := tenants; OPI := opi; Dataplane := plane; CRDDependents := length opi + length plane |}, None)).

Definition client_Refs (w : W) (exceptConfig releaseNamespace : string) : W * (CleanupRefs * option err) :=
  if negb HasClient then (w, (no_refs, None))
  else
    let '(w, r) := ix_configs w in
    match r with
    | Err e => if negb (XIsNoMatch e) then (w, (no_refs, Some e)) else list_dependents w 0 releaseNamespace
    | Ok cfgs => list_dependents w (length (List.filter (other_tenant exceptConfig) cfgs)) releaseNamespace
    end.

Definition IgnoreNotFound (e : err) : option err := if XIsNotFound e then None else Some e.

Definition client_DeleteDataplane (w : W) (ref : CObject) : W * option err :=
  if negb HasClient then (w, Some (EFmt "no cluster client" []))
  else
    let '(w, r) := ix_get w (CObject_GVK ref) (CNamespace ref) (CName ref) in
    match r with
    | Err e => (w, IgnoreNotFound e)
    | Ok (ns, name) =>
        if (ns != CNamespace ref) || (name != CName ref) then (w, Some (EFmt "namespace or name mismatch" []))
        else
          let '(w, e) := ix_delete w (CObject_GVK ref) ns name in
          (w, match e with Some e => IgnoreNotFound e | None => None end)
    end.

Definition client_index : ResourceIndex W := {| Refs := client_Refs; DeleteDataplane := client_DeleteDataplane |}.

End Index.

(** ** ClusterOLMClient *)

(** [olm_mapping]: the mapper, or nil, asked for the Subscription kind; [csv_get]:
    the spec.version of a ClusterServiceVersion. *)
Class OLMAPI (W : Type) := {
  olm_mapping : W → option bool;
  sub_get : W → string → string → W * result SubscriptionObject;
  sub_update : W → SubscriptionObject → W * option err;
  csv_get : W → string → string → W * result string;
  OIsNoMatch : err → bool;
  OIsNotFound : err → bool }.

Section ClusterOLM.
Context {W : Type} `{OLMAPI W}.
Context (HasClient : bool).

Definition cluster_APIsPresent (w : W) : bool := default false (olm_mapping w).

Definition with_sub_version (v : string) (s : OLMSubscription) : OLMSubscription :=
  {| SubName := SubName s; SubNamespace := SubNamespace s; SubPackage := SubPackage s; SubChannel := SubChannel s;
     SubCatalog := SubCatalog s; SubCSV := SubCSV s; SubVersion := v; SubLabels := SubLabels s |}.

Definition fillCSVVersion (w : W) (sub : OLMSubscription) : W * OLMSubscription :=
  if negb HasClient || (SubCSV sub == "") then (w, sub)
  else
    let '(w, r) := csv_get w (SubNamespace sub) (SubCSV sub) in
    (w, match r with
        | Err _ => sub
        | Ok ver => if ver != "" then with_sub_version ver sub else sub
        end).

Definition cluster_GetSubscription (w : W) (namespace name : string) : W * (OLMSubscription * option err) :=
  if negb (cluster_APIsPresent w) then (w, (zero_subscription, Some ErrOLMNotPresent))
  else if negb HasClient then (w, (zero_subscription, Some ErrSubscriptionNotFound))
  else
    let '(w, r) := sub_get w namespace name in
    match r with
    | Err e =>
        (w, (zero_subscription,
             Some (if OIsNoMatch e then ErrOLMNotPresent else if OIsNotFound e then ErrSubscriptionNotFound else e)))
    | Ok obj =>
        let '(w, sub) := fillCSVVersion w (subscriptionFromUnstructured obj) in
        (w, (sub, None))
    end.

Definition cluster_Subscribe (w : W) (_ : InstallConfig) : W * (OLMSubscription * option err) :=
  (w, (zero_subscription, Some ErrOLMMutationNotConfigured)).

Definition with_sub_labels (ls : gmap string string) (o : SubscriptionObject) : SubscriptionObject :=
  {| SoName := SoName o; SoNamespace := SoNamespace o; SoLabels := Some ls; SoPackage := SoPackage o;
     SoChannel := SoChannel o; SoSource := SoSource o; SoInstalledCSV := SoInstalledCSV o;
     SoCurrentCSV := SoCurrentCSV o |}.

Definition cluster_ClaimSubscription (w : W) (cfg : InstallConfig) : W * (OLMSubscription * option err) :=
  let '(w, (sub, e)) := cluster_GetSubscription w (IcNamespace cfg) (ReleaseName cfg) in
  match e with
  | Some e => (w, (zero_subscription, Some e))
  | None =>
      if negb (matchesPinnedOLM sub cfg) then (w, (sub, Some ErrSubscriptionUnmanaged))
      else
        let '(w, r) := sub_get w (IcNamespace cfg) (ReleaseName cfg) in
        match r with
        | Err e => (w, (zero_subscription, Some e))
        | Ok obj =>
            let '(w, e) := sub_update w (with_sub_labels (stampAdoptedLabels (SoLabels obj)) obj) in
            match e with
            | Some e => (w, (zero_subscription, Some e))
            | None => cluster_GetSubscription w (IcNamespace cfg) (ReleaseName cfg)
            end
        end
  end.

Definition cluster_olm : OLMClient W := {|
  APIsPresent := cluster_APIsPresent;
  GetSubscription := cluster_GetSubscription;
  Subscribe := cluster_Subscribe;
  ClaimSubscription := cluster_ClaimSubscription |}.

End ClusterOLM.

(** ** The manager's probe and index *)

(** [mapper]: nil, or the error of a lookup. *)
Definition rest_HasAPI (mapper : option (string → string → string → option err)) (group kind version : string) : bool :=
  match mapper with None => false | Some m => bool_decide (m group kind version = None) end.

(** [types] and [reads] are what the client lists and reads; nil without one. *)
Definition RESTClusterProbe (mapper : option (string → string → string → option err))
    (discovery : option (result (option string))) (types : option (result (list string)))
    (reads : string → string → option DeployRead) : ClusterProbe := {|
  ServerVersion := rest_server_version discovery;
  HasAPI := rest_HasAPI mapper;
  NeedsKamaji := rest_needs_kamaji types;
  Deployment ns name := rest_deployment ns name (reads ns name) |}.

(** The client of the manager: its mapper, its listing and its reads. *)
Record ProbeClient := {
  PcMapper : string → string → string → option err;
  PcTypes : result (list string);
  PcReads : string → string → DeployRead }.

Definition clusterProbe (Probe : option ClusterProbe) (Client : option ProbeClient)
    (Discovery : option (result (option string))) : option ClusterProbe :=
  match Probe, Client, Discovery with
  | Some p, _, _ => Some p
  | None, None, None => None
  | None, _, _ =>
      Some (RESTClusterProbe (PcMapper <$> Client) Discovery (PcTypes <$> Client)
              (λ ns name, (λ c, PcReads c ns name) <$> Client))
  end.

(** The index given, else the cluster's, else an empty one. *)
Definition resourceIndex {W} (Index cluster : option (ResourceIndex W)) : ResourceIndex W :=
  match Index, cluster with
  | Some i, _ => i
  | None, Some c => c
  | None, None => {| Refs w _ _ := (w, (no_refs, None)); DeleteDataplane w _ := (w, None) |}
  end.

Definition requiredPrereqControllers : list namedDeploy :=
  [ {| NdNamespace := "cert-manager"; NdName := "cert-manager" |};
    {| NdNamespace := DefaultNamespace; NdName := "argo-cd-argocd-server" |} ].

Definition ReadyClusterProbe : ClusterProbe :=
  let present : gmap string bool :=
    foldl (λ m g, <[apiKey (Group g) (RefKind g) := true]> m)
      {[ apiKey "cert-manager.io" "Certificate" := true; apiKey "argoproj.io" "Application" := true ]} requiredDPFCRDs in
  let deploys : gmap string ResourceCheck :=
    foldl (λ m d, <[releaseKey (NdNamespace d) (NdName d) :=
                     {| RcName := NdName d; RcPresent := true; RcHealthy := true; RcMessage := "" |}]> m)
      ∅ (requiredDPFControllers ++ requiredPrereqControllers) in
  static_probe {| SpVersion := SupportedKubernetesVersion; SpVersionErr := None; SpPresent := present;
                  KamajiNeed := false; Deployments := Some deploys |}.
