(* ===== verification/ClusterClientsFacts.v ===== *)
(** * What cleanup and the OLM installer do through the production clients

    The calls to the API server are recorded.  Cleanup over [ClientResourceIndex]
    deletes only listed, unreferenced dataplane objects of the pinned namespace;
    the OLM installer over [ClusterOLMClient] never creates anything and at most
    stamps the ownership labels on the Subscription it read. *)

From Stdlib Require Import Ascii ZArith.
From stdpp Require Import base gmap strings list fin_maps.
From S2P Require Import Prelude GoStrings Unstructured MappingSpec Version InstallConfig Release HelmInstaller Cleanup CleanupFacts Operator Ensure Translation ClusterClients.

Notation pin := (pinned VendorNVIDIA).

(** ** An invariant of cleanup *)

Section CleanupKeeps.
Context {W : Type} `{HelmClient W} `{ResourceIndex W}.

(** [known w d]: the dependents listed up to [w] include [d]. *)
Context (I : W → Prop) (known : W → CObject → Prop).
Context (Iget : ∀ w ns n, I w → I (GetRelease w ns n).1).
Context (Iuninstall : ∀ w cfg, I w → I (Uninstall w cfg).1).
Context (Irefs : ∀ w ex, I w → I (Refs w ex (IcNamespace pin)).1).
Context (Idelete : ∀ w d opi ns, I w → known w d → deletable ns opi d → I (DeleteDataplane w d).1).
Context (Kget : ∀ w ns n d, known w d → known (GetRelease w ns n).1 d).
Context (Kuninstall : ∀ w cfg d, known w d → known (Uninstall w cfg).1 d).
Context (Krefs : ∀ w ex d, known w d → known (Refs w ex (IcNamespace pin)).1 d).
Context (Kdelete : ∀ w d' d, known w d → known (DeleteDataplane w d').1 d).
Context (Klist : ∀ w ex d, d ∈ Dataplane (Refs w ex (IcNamespace pin)).2.1 → known (Refs w ex (IcNamespace pin)).1 d).

Lemma delete_plane_keeps w live ds del sk opi ns :
  I w → Forall (λ d, known w d ∧ deletable ns opi d) ds → I (delete_plane w live ds del sk).1.
Proof.
  revert w del sk. induction ds as [|d ds IH]; intros w del sk Hi Hd; cbn [delete_plane]; [done|].
  apply Forall_cons in Hd as [[Hk Hd] Hds]. destruct (stillProtected d live); [by apply IH|].
  pose proof (Idelete w d opi ns Hi Hk Hd) as Hi1.
  assert (Hds1 : Forall (λ d', known (DeleteDataplane w d).1 d' ∧ deletable ns opi d') ds).
  { eapply Forall_impl; [exact Hds|]. intros d' [Hk' Hd']. split; [by apply Kdelete|done]. }
  destruct (DeleteDataplane w d) as [w1 [e|]]; by apply IH.
Qed.

Lemma execute_keeps w except plan release sk opi ns :
  I w → Forall (λ d, known w d ∧ deletable ns opi d) (PlanDataplane plan) →
  I (execute_plan w pin except plan release sk).1.
Proof.
  intros Hi Hd. unfold execute_plan. cbv zeta.
  pose proof (Iget w (IcNamespace pin) (ReleaseName pin) Hi) as Hi1.
  pose proof (λ d, Kget w (IcNamespace pin) (ReleaseName pin) d) as Hk1.
  destruct (GetRelease w _ _) as [w1 [r1 e1]]; cbn [fst] in *.
  destruct (is_err e1 ErrReleaseNotFound); [done|]. destruct e1; [done|]. destruct (_ || _); [done|].
  pose proof (Iuninstall w1 pin Hi1) as Hi2. pose proof (λ d, Kuninstall w1 pin d) as Hk2.
  destruct (Uninstall w1 pin) as [w2 [r2 [e2|]]]; cbn [fst] in *; [by destruct (errors_is e2 ErrReleaseNotFound)|].
  pose proof (Irefs w2 except Hi2) as Hi3. pose proof (λ d, Krefs w2 except d) as Hk3.
  destruct (Refs w2 except _) as [w3 [live e3]]; cbn [fst] in *.
  pose proof (delete_plane_keeps w3 live (PlanDataplane plan) [] sk opi ns Hi3) as Hi4.
  destruct (delete_plane w3 live (PlanDataplane plan) [] sk) as [w4 [deleted skipped]]. apply Hi4.
  eapply Forall_impl; [exact Hd|]. intros d [Hk Hdel]. auto.
Qed.

Lemma cleanup_keeps hh crd w cfg : I w → I (CleanupInstallations hh crd w cfg).1.
Proof.
  intros Hi. unfold CleanupInstallations. destruct (policiesFrom cfg) as [[removal adoption] nt].
  destruct (negb hh); [done|]. change (DefaultInstallConfig VendorNVIDIA) with (Ok pin). cbv beta iota zeta.
  pose proof (Iget w (IcNamespace pin) (ReleaseName pin) Hi) as Hi1.
  destruct (GetRelease w _ _) as [w1 [r1 e1]]; cbn [fst] in *.
  destruct (is_err e1 ErrReleaseNotFound); [done|]. destruct e1; [done|].
  set (except := match cfg with Some o => CfgName o | None => "" end).
  pose proof (Irefs w1 except Hi1) as Hi2. pose proof (λ d, Klist w1 except d) as Hk2.
  destruct (Refs w1 except _) as [w2 [refs e2]]; cbn [fst snd] in *. destruct e2; [done|].
  destruct (DeleteRelease _); cbn [negb]; [|by case_bool_decide].
  apply (execute_keeps _ _ _ _ _ (OPI refs) (RelNamespace r1)); [done|].
  rewrite DecideCleanup_dataplane. case_match; [|constructor].
  rewrite Forall_forall. intros d [Hd Hin]%list_elem_of_filter. split; [by apply Hk2|done].
Qed.

End CleanupKeeps.

(** ** Cleanup through the index *)

Inductive IndexEvent :=
| XConfigs
| XList (g : ObjectRef) (ns : string) (r : result (list IndexItem))
| XGet (g : ObjectRef) (ns name : string)
| XDelete (g : ObjectRef) (ns name : string).

Section IndexLog.
Context {W : Type} `{HelmClient W} `{IndexAPI W}.

#[global] Instance logged_index_api : IndexAPI (W * list IndexEvent) := {|
  ix_configs wl := let r := ix_configs wl.1 in ((r.1, wl.2 ++ [XConfigs]), r.2);
  ix_list wl g ns := let r := ix_list wl.1 g ns in ((r.1, wl.2 ++ [XList g ns r.2]), r.2);
  ix_get wl g ns n := let r := ix_get wl.1 g ns n in ((r.1, wl.2 ++ [XGet g ns n]), r.2);
  ix_delete wl g ns n := let r := ix_delete wl.1 g ns n in ((r.1, wl.2 ++ [XDelete g ns n]), r.2);
  XIsNoMatch := XIsNoMatch;
  XIsNotFound := XIsNotFound |}.

(** The Helm client beside it; what it does is recorded elsewhere. *)
Definition beside_index : HelmClient (W * list IndexEvent) := {|
  CtxErr wl := CtxErr wl.1;
  GetRelease wl ns n := let r := GetRelease wl.1 ns n in ((r.1, wl.2), r.2);
  Install wl cfg v := let r := Install wl.1 cfg v in ((r.1, wl.2), r.2);
  Upgrade wl cfg v := let r := Upgrade wl.1 cfg v in ((r.1, wl.2), r.2);
  Rollback wl cfg to := let r := Rollback wl.1 cfg to in ((r.1, wl.2), r.2);
  Uninstall wl cfg := let r := Uninstall wl.1 cfg in ((r.1, wl.2), r.2);
  store := None;
  claimer := None |}.

(** A listing of the pinned namespace showed the object: a dataplane kind, labelled
    as nobody's or as this adapter's, not emitted by the translator. *)
Definition free_dataplane (pre : list IndexEvent) (g : ObjectRef) (ns name : string) : Prop :=
  g ∈ requiredDPFCRDs ∧
  ∃ items item, XList g (IcNamespace pin) (Ok items) ∈ pre ∧ item ∈ items ∧
    IiNamespace item = ns ∧ IiName item = name ∧ IiSource item = "" ∧
    label (IiLabels item) ReleaseOwnerLabel ∈ [""; ReleaseOwner].

Definition deletes_free (pre : list IndexEvent) (ev : IndexEvent) : Prop :=
  match ev with XDelete g ns name => free_dataplane pre g ns name | _ => True end.

Definition listed (wl : W * list IndexEvent) (d : CObject) : Prop :=
  ∃ g items item, g ∈ requiredDPFCRDs ∧ XList g (IcNamespace pin) (Ok items) ∈ wl.2 ∧ item ∈ items ∧ d = index_ref g item.

Notation safe wl := (justified_log deletes_free (snd wl)).
Notation LW := (W * list IndexEvent)%type.

Lemma item_listed_app (w w' : W) log ops d : listed (w, log) d → listed (w', log ++ ops) d.
Proof. intros (g & items & item & Hg & Hin & Hr). exists g, items, item. cbn in *. rewrite elem_of_app. auto. Qed.

(** A loop over kinds appends listings, and what it collects was listed. *)
Lemma list_kinds_listed (gs : list ObjectRef) ns acc (wl : LW) :
  let r := list_kinds_skipping wl gs ns acc in
  (safe wl → safe r.1) ∧ wl.2 `prefix_of` r.1.2 ∧
  ∀ d, d ∈ r.2 → d ∈ acc ∨ ∃ g items item, g ∈ gs ∧ XList g ns (Ok items) ∈ r.1.2 ∧ item ∈ items ∧ d = index_ref g item.
Proof.
  revert wl acc. induction gs as [|g gs IH]; intros wl acc; cbn [list_kinds_skipping].
  { split_and!; [done|done|auto]. }
  unfold listGVK. cbn [ix_list logged_index_api]. cbv zeta.
  destruct (ix_list wl.1 g ns) as [w1 r]; cbn [fst snd].
  assert (Hs1 : safe wl → justified_log deletes_free (wl.2 ++ [XList g ns r])) by (intros; by apply justified_snoc).
  destruct r as [items|e]; cbn [result_bind].
  - destruct (IH (w1, wl.2 ++ [XList g ns (Ok items)]) (acc ++ (index_ref g <$> items))) as (H1' & H2' & H3').
    cbn [snd] in *. split_and!; [by auto|etrans; [|exact H2']; by eexists|].
    intros d Hd. destruct (H3' d Hd) as [Hin|(g' & items' & item & ? & ? & ? & ?)].
    + apply elem_of_app in Hin as [Hin|Hin]; [by left|]. apply list_elem_of_fmap in Hin as (item & -> & Hi).
      right. exists g, items, item. split_and!; [by left| |done|done].
      eapply elem_of_prefix; [|exact H2']. set_solver.
    + right. exists g', items', item. split_and!; [by right|done|done|done].
  - destruct (IH (w1, wl.2 ++ [XList g ns (Err e)]) acc) as (H1' & H2' & H3').
    cbn [snd] in *. split_and!; [by auto|etrans; [|exact H2']; by eexists|].
    intros d Hd. destruct (H3' d Hd) as [Hin|(g' & items' & item & ? & ? & ? & ?)]; [by left|].
    right. exists g', items', item. split_and!; [by right|done|done|done].
Qed.

Lemma dependents_listed (wl : LW) tenants :
  let r := list_dependents wl tenants (IcNamespace pin) in
  (safe wl → safe r.1) ∧ wl.2 `prefix_of` r.1.2 ∧ ∀ d, d ∈ Dataplane r.2.1 → listed r.1 d.
Proof.
  unfold list_dependents. cbv zeta.
  destruct (list_kinds_listed opi_kinds "" [] wl) as (Hs1 & Hp1 & _).
  destruct (list_kinds_skipping wl opi_kinds "" []) as [wl1 opi]; cbn [fst snd] in *.
  destruct (list_kinds_listed requiredDPFCRDs (IcNamespace pin) [] wl1) as (Hs2 & Hp2 & Hl).
  destruct (list_kinds_skipping wl1 requiredDPFCRDs _ []) as [wl2 plane]; cbn [fst snd Dataplane] in *.
  split_and!; [by auto|by etrans|]. intros d Hd. destruct (Hl d Hd) as [?%not_elem_of_nil|Hg]; [done|exact Hg].
Qed.

Lemma refs_listed hc (wl : LW) ex :
  let r := client_Refs hc wl ex (IcNamespace pin) in
  (safe wl → safe r.1) ∧ wl.2 `prefix_of` r.1.2 ∧ ∀ d, d ∈ Dataplane r.2.1 → listed r.1 d.
Proof.
  unfold client_Refs. destruct hc; [|cbn; split_and!; [done|done|by intros d ?%not_elem_of_nil]].
  cbn [negb ix_configs logged_index_api]. cbv zeta. destruct (ix_configs wl.1) as [w1 r]; cbn [fst snd].
  assert (Hs1 : safe wl → justified_log deletes_free (wl.2 ++ [XConfigs])) by (intros; by apply justified_snoc).
  assert (Hp1 : wl.2 `prefix_of` wl.2 ++ [XConfigs]) by by eexists.
  destruct r as [cfgs|e]; [|destruct (XIsNoMatch e); cbn [negb]].
  1: destruct (dependents_listed (w1, wl.2 ++ [XConfigs]) (length (List.filter (other_tenant ex) cfgs))) as (? & ? & ?).
  2: destruct (dependents_listed (w1, wl.2 ++ [XConfigs]) 0) as (? & ? & ?).
  1, 2: split_and!; [by auto|by etrans|done].
  split_and!; [done|done|by intros d ?%not_elem_of_nil].
Qed.

Lemma delete_free hc (wl : LW) d opi ns :
  safe wl → listed wl d → deletable ns opi d → safe (client_DeleteDataplane hc wl d).1.
Proof.
  intros Hs (g & items & item & Hg & Hin & Hi & ->) (_ & Ho & Hr). unfold client_DeleteDataplane.
  destruct hc; [|done]. cbn [negb ix_get logged_index_api]. cbv zeta.
  assert (Hgvk : CObject_GVK (index_ref g item) = g) by by destruct g.
  destruct (ix_get wl.1 _ _ _) as [w1 r]; cbn [fst snd].
  set (ev := XGet _ _ _). assert (Hs1 : justified_log deletes_free (wl.2 ++ [ev])) by by apply justified_snoc.
  destruct r as [[ns' name']|e]; [|done]. destruct (_ || _) eqn:Heq; [done|].
  cbn [ix_delete logged_index_api fst snd].
  apply justified_snoc; [done|]. rewrite Hgvk. bool_hyps. subst. split; [done|]. exists items, item.
  split; [set_solver|]. split; [done|]. split; [done|]. split; [done|].
  unfold referencedByOPI in Hr. apply orb_false_iff in Hr as [Hr _]. cbn in Hr.
  split; [by bool_hyps|]. cbn in Ho. set_solver.
Qed.

Lemma listed_prefix (wl wl' : LW) d : wl.2 `prefix_of` wl'.2 → listed wl d → listed wl' d.
Proof. destruct wl as [w log], wl' as [w' log']. cbn. intros [ops ->]. apply item_listed_app. Qed.

Lemma delete_prefix hc (wl : LW) d : wl.2 `prefix_of` (client_DeleteDataplane hc wl d).1.2.
Proof.
  unfold client_DeleteDataplane. destruct hc; [|done]. cbn [negb ix_get logged_index_api]. cbv zeta.
  destruct (ix_get wl.1 _ _ _) as [w1 [[ns' name']|e]]; cbn [fst snd]; [|by eexists].
  destruct (_ || _); [by eexists|]. cbn [ix_delete logged_index_api fst snd].
  rewrite <- app_assoc. by eexists.
Qed.

(** [C28] Cleanup deletes nothing it has not seen to be free.  Over the production
    index, whatever the API server and the Helm client answer, every object that
    cleanup deletes is of one of the five dataplane kinds, was listed before in the
    pinned namespace under that name, and was then labelled as nobody's or as this
    adapter's and did not carry the translator's source annotation. *)
Theorem Cleanup_deletes_listed hc hh crd (w : W) cfg :
  justified_log deletes_free
    (CleanupInstallations (H := beside_index) (H0 := client_index (W := LW) hc) hh crd (w, []) cfg).1.2.
Proof.
  apply (cleanup_keeps (H := beside_index) (H0 := client_index (W := LW) hc) (λ wl, safe wl) listed).
  - done.
  - done.
  - intros wl ex. apply refs_listed.
  - intros wl d opi ns. apply delete_free.
  - by intros [].
  - by intros [].
  - intros wl ex d. apply listed_prefix, refs_listed.
  - intros wl d' d. apply listed_prefix, delete_prefix.
  - intros wl ex. apply refs_listed.
  - apply justified_nil.
Qed.

End IndexLog.

(** A cluster in which the translator's unit and a DPU of the same name exist;
    [opi]: whether the OPI kinds can be listed now. *)
Definition index_world (opi : bool) : IndexAPI Cluster := {|
  ix_configs w := (w, Ok []);
  ix_list w g ns :=
    (w, if RefKind g == "DataProcessingUnit" then
          if opi then Ok [{| IiNamespace := ""; IiName := "svc"; IiLabels := None; IiSource := "" |}]
          else Err lost_connection
        else Ok (omap (λ d, if (CKind d == RefKind g) && ((ns == "") || (ns == CNamespace d))
                            then Some {| IiNamespace := CNamespace d; IiName := CName d; IiLabels := None; IiSource := "" |}
                            else None) (MDataplane (index_part w))));
  ix_get w _ ns n := (w, Ok (ns, n));
  ix_delete w g ns n :=
    on_index w (mem_delete (index_part w) (index_ref g {| IiNamespace := ns; IiName := n; IiLabels := None; IiSource := "" |}));
  XIsNoMatch _ := false;
  XIsNotFound _ := false |}.

(** A listing of the OPI objects that fails hides the references it would have
    shown: the DPUService that a DataProcessingUnit refers to is kept when the
    units can be listed, and deleted, with success reported, when they cannot. *)
Theorem index_hides_failed_listing :
  let run opi := CleanupInstallations (H0 := client_index (H := index_world opi) true)
                   true false (demo_cluster false) (Some demo_config) in
  (DeletedPlane (run true).2 = [] ∧ CrOpStatus (run true).2 = OpSucceeded) ∧
  (DeletedPlane (run false).2 = [Key demo_plane] ∧ CrOpStatus (run false).2 = OpSucceeded).
Proof. vm_compute. done. Qed.

(** ** The OLM installer through the cluster client *)

Inductive OLMEvent :=
| OSubGet (ns name : string) (r : result SubscriptionObject)
| OCsvGet (r : result string)
| OSubUpdate (o : SubscriptionObject).

Section OLMLog.
Context {W : Type} `{HelmClient W} `{OLMAPI W}.

#[global] Instance logged_olm_api : OLMAPI (W * list OLMEvent) := {|
  olm_mapping wl := olm_mapping wl.1;
  sub_get wl ns n := let r := sub_get wl.1 ns n in ((r.1, wl.2 ++ [OSubGet ns n r.2]), r.2);
  sub_update wl o := let r := sub_update wl.1 o in ((r.1, wl.2 ++ [OSubUpdate o]), r.2);
  csv_get wl ns n := let r := csv_get wl.1 ns n in ((r.1, wl.2 ++ [OCsvGet r.2]), r.2);
  OIsNoMatch := OIsNoMatch;
  OIsNotFound := OIsNotFound |}.

Definition beside_olm : HelmClient (W * list OLMEvent) := {|
  CtxErr wl := CtxErr wl.1;
  GetRelease wl ns n := let r := GetRelease wl.1 ns n in ((r.1, wl.2), r.2);
  Install wl cfg v := let r := Install wl.1 cfg v in ((r.1, wl.2), r.2);
  Upgrade wl cfg v := let r := Upgrade wl.1 cfg v in ((r.1, wl.2), r.2);
  Rollback wl cfg to := let r := Rollback wl.1 cfg to in ((r.1, wl.2), r.2);
  Uninstall wl cfg := let r := Uninstall wl.1 cfg in ((r.1, wl.2), r.2);
  store := None;
  claimer := None |}.

(** The Subscription was read, and with its own version or that of its CSV it is
    the pinned one. *)
Definition seen_pinned (pre : list OLMEvent) : Prop :=
  ∃ obj sub, OSubGet (IcNamespace pin) (ReleaseName pin) (Ok obj) ∈ pre ∧
    (sub = subscriptionFromUnstructured obj ∨
     ∃ v, OCsvGet (Ok v) ∈ pre ∧ sub = with_sub_version v (subscriptionFromUnstructured obj)) ∧
    matchesPinnedOLM sub pin = true.

Definition olm_claims_only (adopt : bool) (pre : list OLMEvent) (ev : OLMEvent) : Prop :=
  match ev with
  | OSubGet ns n _ => ns = IcNamespace pin ∧ n = ReleaseName pin
  | OCsvGet _ => True
  | OSubUpdate o =>
      adopt = true ∧ seen_pinned pre ∧
      ∃ obj, OSubGet (IcNamespace pin) (ReleaseName pin) (Ok obj) ∈ pre ∧
        o = with_sub_labels (stampAdoptedLabels (SoLabels obj)) obj
  end.

Notation LW := (W * list OLMEvent)%type.
Notation safe adopt wl := (justified_log (olm_claims_only adopt) (snd wl)).

Lemma seen_pinned_app pre ops : seen_pinned pre → seen_pinned (pre ++ ops).
Proof.
  intros (obj & sub & Hin & Hs & Hm). exists obj, sub. rewrite elem_of_app. split; [by left|]. split; [|done].
  destruct Hs as [->|(v & Hv & ->)]; [by left|]. right. exists v. rewrite elem_of_app. auto.
Qed.

(** The read of the Subscription: safe, and what it returns was seen. *)
Lemma get_subscription_safe hc adopt (wl : LW) :
  safe adopt wl →
  let r := cluster_GetSubscription hc wl (IcNamespace pin) (ReleaseName pin) in
  safe adopt r.1 ∧
  ∀ sub, r.2 = (sub, None) → matchesPinnedOLM sub pin = true → seen_pinned r.1.2.
Proof.
  intros Hs. unfold cluster_GetSubscription. destruct (cluster_APIsPresent wl); [|by split].
  destruct hc; [|by split]. cbn [negb sub_get logged_olm_api]. cbv zeta.
  destruct (sub_get wl.1 _ _) as [w1 r]; cbn [fst snd].
  set (log1 := wl.2 ++ _). assert (Hs1 : justified_log (olm_claims_only adopt) log1) by by apply justified_snoc.
  destruct r as [obj|e]; [|split; [done|]; by intros sub [=]].
  assert (Hin1 : OSubGet (IcNamespace pin) (ReleaseName pin) (Ok obj) ∈ log1) by set_solver.
  unfold fillCSVVersion. destruct (_ || _).
  { split; [done|]. intros sub [= <-] Hm. exists obj, (subscriptionFromUnstructured obj). auto. }
  cbn [csv_get logged_olm_api fst snd]. cbv zeta. match goal with |- context [csv_get w1 ?a ?b] => destruct (csv_get w1 a b) as [w2 r2] end; cbn [fst snd].
  assert (Hs2 : justified_log (olm_claims_only adopt) (log1 ++ [OCsvGet r2])) by by apply justified_snoc.
  destruct r2 as [v|e]; [destruct (negb _)|].
  all: split; [done|]; intros sub [= <-] Hm; exists obj; eexists; (split; [set_solver|]); (split; [|exact Hm]).
  - right. exists v. split; [set_solver|done].
  - by left.
  - by left.
Qed.

Lemma claim_subscription_safe hc (wl : LW) :
  safe true wl → safe true (cluster_ClaimSubscription hc wl pin).1.
Proof.
  intros Hs. unfold cluster_ClaimSubscription.
  destruct (get_subscription_safe hc true wl Hs) as [Hs1 Hseen].
  destruct (cluster_GetSubscription hc wl _ _) as [wl1 [sub [e|]]]; cbn [fst snd] in *; [done|].
  destruct (matchesPinnedOLM sub pin) eqn:Hm; [|done]. cbn [negb]. specialize (Hseen sub eq_refl Hm).
  cbn [sub_get logged_olm_api]. cbv zeta. destruct (sub_get wl1.1 _ _) as [w2 r2]; cbn [fst snd].
  set (log2 := wl1.2 ++ _). assert (Hs2 : justified_log (olm_claims_only true) log2) by by apply justified_snoc.
  destruct r2 as [obj|e]; [|done]. cbn [sub_update logged_olm_api fst snd].
  destruct (sub_update w2 _) as [w3 e3]; cbn [fst snd].
  set (log3 := log2 ++ _). assert (Hs3 : justified_log (olm_claims_only true) log3).
  { apply justified_snoc; [done|]. split; [done|]. split; [by apply seen_pinned_app|]. exists obj.
    split; [set_solver|done]. }
  destruct e3; [done|]. by apply (get_subscription_safe hc true (w3, log3)).
Qed.

(** The OLM installer observes and claims.  Over the cluster client, whatever
    the API server answers, it creates nothing; its only write is an update of the
    pinned Subscription as it was just read, with exactly the two ownership labels
    added, only with AdoptExisting, and only after the Subscription was seen at the
    pinned version. *)
Theorem OLM_cluster_claims_only hasOLM hc (w : W) cfg :
  let i := ParseIntent cfg in
  justified_log (olm_claims_only (AdoptExisting i))
    (olm_Ensure (H := beside_olm) (H0 := cluster_olm (W := LW) hc) hasOLM (w, []) i).1.2.
Proof.
  cbv zeta. pose proof (ParseIntent_vendor_clean cfg) as Hclean. generalize dependent (ParseIntent cfg). clear cfg.
  intros i [Htrim Hlower]. unfold olm_Ensure. destruct (CtxErr _); [apply justified_nil|]. destruct (negb hasOLM); [apply justified_nil|].
  case_bool_decide as Hamd; [apply justified_nil|]. destruct (negb (APIsPresent _)); [apply justified_nil|].
  destruct (DefaultInstallConfig (IVendor i)) as [cfg|e] eqn:Ed; [|apply justified_nil].
  destruct (ApplyVersionPolicy i cfg) as [cfg' pol] eqn:Ep.
  apply (f_equal fst) in Ep. rewrite ApplyVersionPolicy_cfg in Ep. cbn in Ep. subst cfg'.
  assert (cfg = pin) as ->.
  { unfold DefaultInstallConfig in Ed. rewrite Htrim, Hlower in Ed. cbv zeta in Ed.
    case_bool_decide; [by injection Ed as <-|]. by rewrite bool_decide_eq_false_2 in Ed. }
  case_bool_decide; [apply justified_nil|].
  destruct (get_subscription_safe hc (AdoptExisting i) (w, []) (justified_nil _)) as [Hs1 _].
  cbn [GetSubscription cluster_olm].
  destruct (cluster_GetSubscription hc (w, []) _ _) as [wl1 [sub [e|]]]; cbn [fst] in *;
    [by destruct (errors_is e ErrOLMNotPresent); [|destruct (errors_is e ErrSubscriptionNotFound)]|].
  destruct (negb (sub_ManagedByAdapter sub)); [|done].
  unfold olm_claimOrLeaveUnmanaged. destruct (AdoptExisting i) eqn:Ha; [|done]. cbn [negb orb].
  destruct (negb _); [done|]. cbn [ClaimSubscription cluster_olm].
  pose proof (claim_subscription_safe hc wl1 Hs1) as Hs2.
  destruct (cluster_ClaimSubscription hc wl1 pin) as [wl2 [claimed [e|]]]; [done|]. by destruct (_ || _).
Qed.

End OLMLog.

(** ** The probe *)

(** A manager without a discovery client never lets an install begin. *)
Lemma no_discovery_blocks ctxErr client vendor :
  DepOK (CheckDependencies ctxErr (clusterProbe None client None) vendor) = false.
Proof. unfold CheckDependencies. by destruct ctxErr, client. Qed.

(** Without a client nothing of the operator is ever observed as ready. *)
Lemma no_client_not_ready discovery :
  OsReady (ObserveOperator None (clusterProbe None None discovery) VendorNVIDIA) = false.
Proof. by destruct discovery. Qed.

Example ready_probe_passes :
  DepOK (CheckDependencies None (Some ReadyClusterProbe) VendorNVIDIA) = true ∧
  OsPhase (ObserveOperator None (Some ReadyClusterProbe) VendorNVIDIA) = OperatorReady.
Proof. vm_compute. done. Qed.
