(* ===== verification/Rbac.v ===== *)
(** * The RBAC generator (hack/gen-rbac/main.go)

    The markers from which the manager's ClusterRole is built are derived from the
    FieldMapping documents.  Go's map iteration order and the order that
    [slices.SortFunc] gives to equal elements are not specified: they are the
    interface [GoOrder]. *)

From Stdlib Require Import Ascii ZArith Lia.
From stdpp Require Import base gmap strings list fin_maps fin_sets sorting.
From S2P Require Import Prelude GoStrings Unstructured MappingSpec Discovery DiscoveryFacts.

Definition sourceVerbs : string := "get;list;watch;update;patch".
Definition targetVerbs : string := "get;list;watch;create;update;patch;delete".
Definition statusVerbs : string := "get;update;patch".
Definition finalizerVerbs : string := "update".

(** ** Plurals *)

Definition isVowel (b : ascii) : bool := char_in b "aeiou".

Definition pluralize (kind : string) : string :=
  let s := ToLower kind in
  if s == "" then s
  else if HasSuffix s "s" || HasSuffix s "x" || HasSuffix s "z" || HasSuffix s "ch" || HasSuffix s "sh" then s +:+ "es"
  else match String.rev s with
  | String "y" (String c front) =>
      if isVowel c then s +:+ "s" else String.rev (String c front) +:+ "ies"
  | _ => s +:+ "s"
  end.

(** ** Rules *)

Record rule := { group : string; resources : list string; verbs : string }.

#[global] Instance rule_eq_dec : EqDecision rule.
Proof. solve_decision. Defined.

(** The key is (group, verbs). *)
Abbreviation rule_acc := (gmap (string * string) (gset string)) (only parsing).

Definition add (acc : rule_acc) (grant : string * string * string) : rule_acc :=
  let '(g, resource, v) := grant in
  <[(g, v) := {[resource]} ∪ default ∅ (acc !! (g, v))]> acc.

(** What one mapping needs: (group, resource, verbs). *)
Definition grants (s : Spec) : list (string * string * string) :=
  let g := Group (Source s) in
  let src := pluralize (RefKind (Source s)) in
  [(g, src, sourceVerbs); (g, src +:+ "/status", statusVerbs); (g, src +:+ "/finalizers", finalizerVerbs)] ++
  ((λ e, (Group (Target e), pluralize (RefKind (Target e)), targetVerbs)) <$> SpecEmit s).

Definition accumulate (specs : list Spec) : rule_acc := foldl (λ acc s, foldl add acc (grants s)) ∅ specs.

(** [slices.Sort] of distinct strings. *)
Definition sorted_set (set : gset string) : list string := merge_sort string_le (elements set).

Definition rule_of (kv : (string * string) * gset string) : rule :=
  {| group := kv.1.1; resources := sorted_set kv.2; verbs := kv.1.2 |}.

(** The comparison: by group, then by the joined resources. *)
Definition rule_le (a b : rule) : Prop :=
  if decide (group a = group b) then string_le (Join ";" (resources a)) (Join ";" (resources b))
  else string_le (group a) (group b).

#[global] Instance rule_le_dec a b : Decision (rule_le a b).
Proof. unfold rule_le. destruct (decide (group a = group b)); apply _. Defined.

(** Map iteration visits every entry once; sorting permutes into order. *)
Class GoOrder := {
  range_map : rule_acc → list ((string * string) * gset string);
  SortFunc : list rule → list rule;
  range_map_perm acc : range_map acc ≡ₚ map_to_list acc;
  SortFunc_perm l : SortFunc l ≡ₚ l;
  SortFunc_sorted l : StronglySorted rule_le (SortFunc l) }.

(** ** The file *)

Definition newline : string := String "010" "".

Definition header (mappingDir pkg : string) : string :=
  Join newline
    ["// Code generated by hack/gen-rbac from " +:+ mappingDir +:+ ". DO NOT EDIT.";
     "//";
     "// Regenerate with: make generate-rbac";
     "//";
     "// These markers are what controller-gen turns into the manager ClusterRole.";
     "// They are derived from the FieldMapping documents, so onboarding a vendor";
     "// needs no Go edit: drop in a mapping and regenerate. The previous hand-written";
     "// markers were the one place a vendor port was not pure data, and a forgotten";
     "// group surfaced only at runtime as an apiserver Forbidden error.";
     "";
     "package " +:+ pkg;
     "";
     ""].

Definition marker (r : rule) : string :=
  "// +kubebuilder:rbac:groups=" +:+ group r +:+ ",resources=" +:+ Join ";" (resources r) +:+
  ",verbs=" +:+ verbs r +:+ newline.

Section Render.
Context `{GoOrder}.

Definition rules (specs : list Spec) : list rule := SortFunc (rule_of <$> range_map (accumulate specs)).

Definition render (specs : list Spec) (pkg mappingDir : string) : string :=
  foldl (λ b r, b +:+ marker r) (header mappingDir pkg) (rules specs).

(** *** main *)

Record GenFlags := { mappingDir : string; out : string; pkg : string; check : bool }.

(** How the process ends: a message on stderr and exit 1, or a line on stdout;
    and the file that was written, if one was. *)
Inductive GenEnd := Fatal (msg : string) | Printed (msg : string) (written : option (string * string)).

(** [specs]: what LoadDir answers; [onDisk]: the file's content; [mkdirErr] and
    [writeErr]: what making the directory and writing the file answer. *)
Definition main (f : GenFlags) (specs : result (list Spec)) (onDisk : result string)
    (mkdirErr writeErr : option err) : GenEnd :=
  match specs with
  | Err e => Fatal ("loading mappings from " +:+ mappingDir f +:+ ": " +:+ Error e)
  | Ok specs =>
      let want := render specs (pkg f) (mappingDir f) in
      if check f then
        match onDisk with
        | Err e => Fatal ("reading " +:+ out f +:+ ": " +:+ Error e +:+ " (run: make generate-rbac)")
        | Ok got =>
            if got != want then
              Fatal (out f +:+ " is stale: a mapping was changed without regenerating RBAC." +:+ newline +:+
                     "Run: make generate-rbac")
            else Printed (out f +:+ " is up to date" +:+ newline) None
        end
      else match mkdirErr with
      | Some e => Fatal (Error e)
      | None =>
          match writeErr with
          | Some e => Fatal ("writing " +:+ out f +:+ ": " +:+ Error e)
          | None => Printed ("wrote " +:+ out f +:+ newline) (Some (out f, want))
          end
      end
  end.

End Render.

(** ** What the markers grant *)

Lemma add_lookup acc g res v g' v' :
  add acc (g, res, v) !! (g', v') =
    if decide ((g, v) = (g', v')) then Some ({[res]} ∪ default ∅ (acc !! (g, v))) else acc !! (g', v').
Proof.
  unfold add. case_decide as Hk; [rewrite Hk; apply lookup_insert_eq|]. by apply lookup_insert_ne.
Qed.

(** The resources of a key. *)
Definition granted (acc : gmap (string * string) (gset string)) (g res v : string) : Prop :=
  ∃ set, acc !! (g, v) = Some set ∧ res ∈ set.

Lemma granted_add acc gr g res v : granted (add acc gr) g res v ↔ gr = (g, res, v) ∨ granted acc g res v.
Proof.
  destruct gr as [[g' res'] v']. unfold granted. rewrite add_lookup. case_decide as Hk.
  - injection Hk as -> ->. split.
    + intros (set & [= <-] & Hr). apply elem_of_union in Hr as [->%elem_of_singleton|Hr]; [by left|]. right.
      destruct (acc !! (g, v)) as [s|]; [by exists s|set_solver].
    + intros [[= ->]|(set & Hs & Hr)]; eexists; (split; [done|]); [set_solver|]. rewrite Hs. set_solver.
  - naive_solver.
Qed.

Lemma granted_grants acc grs g res v :
  granted (foldl add acc grs) g res v ↔ (g, res, v) ∈ grs ∨ granted acc g res v.
Proof.
  revert acc. induction grs as [|gr grs IH]; intros acc; cbn [foldl]; [set_solver|].
  rewrite IH, granted_add, elem_of_cons. naive_solver.
Qed.

Lemma granted_accumulate specs g res v :
  granted (accumulate specs) g res v ↔ ∃ s, s ∈ specs ∧ (g, res, v) ∈ grants s.
Proof.
  unfold accumulate. enough (Hgen : ∀ acc, granted (foldl (λ acc s, foldl add acc (grants s)) acc specs) g res v ↔
    (∃ s, s ∈ specs ∧ (g, res, v) ∈ grants s) ∨ granted acc g res v).
  { rewrite Hgen. unfold granted at 1. setoid_rewrite lookup_empty. naive_solver. }
  induction specs as [|s specs IH]; intros acc; cbn [foldl]; [set_solver|].
  rewrite IH, granted_grants. setoid_rewrite elem_of_cons. naive_solver.
Qed.

Lemma sorted_set_elem set x : x ∈ sorted_set set ↔ x ∈ set.
Proof. unfold sorted_set. rewrite merge_sort_Permutation. apply elem_of_elements. Qed.

Section Facts.
Context `{GoOrder}.

Lemma rules_elem specs r :
  r ∈ rules specs ↔ ∃ k set, accumulate specs !! k = Some set ∧ r = rule_of (k, set).
Proof.
  unfold rules. rewrite SortFunc_perm, list_elem_of_fmap. setoid_rewrite range_map_perm. split.
  - intros ([k set] & -> & Hk%elem_of_map_to_list). eauto.
  - intros (k & set & Hk & ->). exists (k, set). split; [done|]. by apply elem_of_map_to_list.
Qed.

(** The markers grant exactly what the mappings need: a resource of a group gets
    a set of verbs in some rule if and only if one of the mappings needs it: its
    source kind for reading and updating, with its status and finalizers, and each
    kind it emits for full management. *)
Theorem rules_grant_exactly specs g res v :
  (∃ r, r ∈ rules specs ∧ group r = g ∧ verbs r = v ∧ res ∈ resources r) ↔
  ∃ s, s ∈ specs ∧ (g, res, v) ∈ grants s.
Proof.
  rewrite <- granted_accumulate. unfold granted. setoid_rewrite rules_elem. split.
  - intros (r & (k & set & Hk & ->) & <- & <- & Hr). exists set. destruct k as [g' v'].
    split; [done|]. by apply sorted_set_elem.
  - intros (set & Hk & Hr). eexists. split; [by exists (g, v), set|]. split_and!; [done|done|by apply sorted_set_elem].
Qed.

End Facts.

(** ** The order of strings *)

Lemma ascii_compare_N a b : Ascii.compare a b = N.compare (N_of_ascii a) (N_of_ascii b).
Proof. reflexivity. Qed.

#[global] Instance string_le_trans : Transitive string_le.
Proof.
  unfold string_le, String.leb. intros s. induction s as [|a s IH]; intros [|b t] [|c u]; cbn [String.compare]; try done.
  rewrite !ascii_compare_N. specialize (IH t u).
  destruct (N.compare_spec (N_of_ascii a) (N_of_ascii b)), (N.compare_spec (N_of_ascii b) (N_of_ascii c)),
    (N.compare_spec (N_of_ascii a) (N_of_ascii c)); try done; try lia; auto.
Qed.

#[global] Instance string_le_total : Total string_le.
Proof. intros s t. unfold string_le. destruct (String.leb_total s t); auto. Qed.

#[global] Instance string_le_antisymm : AntiSymm (=) string_le.
Proof. intros s t. apply String.leb_antisym. Qed.

#[global] Instance rule_le_trans : Transitive rule_le.
Proof.
  intros a b c. unfold rule_le.
  destruct (decide (group a = group b)) as [Hab|Hab], (decide (group b = group c)) as [Hbc|Hbc];
    destruct (decide (group a = group c)) as [Hac|Hac]; intros H1 H2; try congruence.
  - by etrans.
  - exfalso. apply Hab, (anti_symm string_le); [done|]. by rewrite Hac.
  - by etrans.
Qed.

#[global] Instance rule_le_total : Total rule_le.
Proof.
  intros a b. unfold rule_le. destruct (decide (group a = group b)), (decide (group b = group a)); try congruence;
    apply (total string_le).
Qed.

(** ** Determinism *)

(** No two rules compare as equal. *)
Definition untied (rs : list rule) : Prop :=
  ∀ r1 r2, r1 ∈ rs → r2 ∈ rs → group r1 = group r2 → Join ";" (resources r1) = Join ";" (resources r2) → r1 = r2.

Lemma rule_le_tied a b : rule_le a b → rule_le b a →
  group a = group b ∧ Join ";" (resources a) = Join ";" (resources b).
Proof.
  unfold rule_le. destruct (decide (group a = group b)) as [Hg|Hg], (decide (group b = group a)); try congruence.
  - intros H1 H2. split; [done|]. by apply (anti_symm string_le).
  - intros H1 H2. exfalso. by apply Hg, (anti_symm string_le).
Qed.

(** The generated file is a function of the mappings: when no two of its rules
    compare as equal, whatever order Go visits its maps in and however it sorts, the
    output is the same, so that a file written by one run passes the check of
    another. *)
Theorem render_deterministic (o1 o2 : GoOrder) specs f mkdirErr :
  untied (rules (H := o1) specs) →
  render (H := o1) specs (pkg f) (mappingDir f) = render (H := o2) specs (pkg f) (mappingDir f) ∧
  (check f = true → main (H := o2) f (Ok specs) (Ok (render (H := o1) specs (pkg f) (mappingDir f))) mkdirErr None =
     Printed (out f +:+ " is up to date" +:+ newline) None).
Proof.
  intros Hu. assert (Hr : rules (H := o1) specs = rules (H := o2) specs).
  { apply (StronglySorted_unique_strong rule_le).
    - intros r1 r2 H1 H2 H12 H21. apply rule_le_tied in H12 as [Hg Hj]; [|done]. apply Hu; [done| |done|done].
      apply (@rules_elem o2) in H2. by apply (@rules_elem o1).
    - apply SortFunc_sorted.
    - apply SortFunc_sorted.
    - unfold rules. rewrite !SortFunc_perm. by rewrite !range_map_perm. }
  assert (Hren : render (H := o1) specs (pkg f) (mappingDir f) = render (H := o2) specs (pkg f) (mappingDir f))
    by (unfold render; by rewrite Hr).
  split; [done|]. intros Hc. unfold main. rewrite Hc, Hren, bool_decide_eq_true_2 by done. done.
Qed.

(** Go's choices, as merge sort of the map's entries in one order or the other. *)
Program Definition forward : GoOrder := {| range_map := map_to_list; SortFunc := merge_sort rule_le |}.
Next Obligation. done. Qed.
Next Obligation. intros l. apply merge_sort_Permutation. Qed.
Next Obligation. intros l. apply StronglySorted_merge_sort; apply _. Qed.

Program Definition backward : GoOrder := {| range_map acc := reverse (map_to_list acc); SortFunc := merge_sort rule_le |}.
Next Obligation. intros acc. apply reverse_Permutation. Qed.
Next Obligation. intros l. apply merge_sort_Permutation. Qed.
Next Obligation. intros l. apply StronglySorted_merge_sort; apply _. Qed.

Definition ref (g k : string) : ObjectRef := {| Group := g; Version := "v1"; RefKind := k |}.

Definition literal (s : string) : ValueExpr :=
  {| VFrom := ""; VCEL := ""; VLit := s; VDefault := VNil; VRequired := false |}.

Definition emits (g k : string) : Emit :=
  {| Target := ref g k; Name := literal "x"; Namespace := literal ""; When := ""; EmitForEach := None; Fields := [] |}.

Definition mapping_of (source : ObjectRef) (es : list Emit) : Spec :=
  {| SpecAPIVersion := APIVersion; SpecKind := Kind; SpecMetadata := {| MetaName := "m"; Description := "" |};
     Source := source; SpecDefaults := None; SpecEmit := es; Status := None; PruneWhen := "" |}.

Definition unit_mapping : Spec :=
  mapping_of (ref "config.openshift.io" "DataProcessingUnit")
    [emits "provisioning.dpu.nvidia.com" "BFB"; emits "provisioning.dpu.nvidia.com" "DPU"; emits "dpu.amd.com" "DSCNodePolicy"].

Definition demo_flags : GenFlags := {| mappingDir := "config/mappings"; out := "o.go"; pkg := "translation"; check := true |}.

Example markers_of_unit :
  marker <$> rules (H := forward) [unit_mapping] =
  ((λ s, s +:+ newline) <$>
   ["// +kubebuilder:rbac:groups=config.openshift.io,resources=dataprocessingunits,verbs=get;list;watch;update;patch";
    "// +kubebuilder:rbac:groups=config.openshift.io,resources=dataprocessingunits/finalizers,verbs=update";
    "// +kubebuilder:rbac:groups=config.openshift.io,resources=dataprocessingunits/status,verbs=get;update;patch";
    "// +kubebuilder:rbac:groups=dpu.amd.com,resources=dscnodepolicies,verbs=get;list;watch;create;update;patch;delete";
    "// +kubebuilder:rbac:groups=provisioning.dpu.nvidia.com,resources=bfbs;dpus,verbs=get;list;watch;create;update;patch;delete"]).
Proof. vm_compute. reflexivity. Qed.

Lemma untied_Forall rs :
  Forall (λ r1, Forall (λ r2, group r1 = group r2 → Join ";" (resources r1) = Join ";" (resources r2) → r1 = r2) rs) rs →
  untied rs.
Proof.
  intros Hf r1 r2 H1 H2. rewrite Forall_forall in Hf. specialize (Hf r1 H1). rewrite Forall_forall in Hf. by apply Hf.
Qed.

Lemma render_deterministic_witness :
  untied (rules (H := forward) [unit_mapping]) ∧
  main (H := backward) demo_flags (Ok [unit_mapping])
    (Ok (render (H := forward) [unit_mapping] "translation" "config/mappings")) None None =
    Printed "o.go is up to date
" None.
Proof.
  assert (Hu : untied (rules (H := forward) [unit_mapping])) 
    by (apply untied_Forall, (bool_decide_unpack _); vm_compute; exact I).
  split; [exact Hu|].
  exact (proj2 (render_deterministic forward backward [unit_mapping] demo_flags None Hu) eq_refl).
Defined.

(** A kind that is a source and is emitted in its own group ties two rules, and the
    output depends on the order of the map. *)
Theorem render_tie :
  let specs := [mapping_of (ref "config.openshift.io" "DataProcessingUnit") [emits "config.openshift.io" "DataProcessingUnit"]] in
  Forall (λ s, Validate s = Ok tt) specs ∧
  render (H := forward) specs "translation" "m" ≠ render (H := backward) specs "translation" "m".
Proof. cbv zeta. split; [repeat constructor|]. vm_compute. discriminate. Qed.
