(* ===== verification/Watches.v ===== *)
(** * Controllers and their watches

    [SetupWithManager] of the translator (translation_controller.go), the
    lifecycle manager (lifecycle_controller.go) and the annotator (annotator.go),
    and the functions that turn an event into requests (readiness.go,
    lifecycle_controller.go).  A watch starts an informer; the builder's
    [Complete] is a parameter. *)

From Stdlib Require Import Ascii ZArith Lia.
From stdpp Require Import base gmap strings list fin_maps.
From S2P Require Import Prelude GoStrings Unstructured MappingSpec MappingEngine Version InstallConfig Release HelmInstaller Cleanup Operator Ensure Conditions Controller Translation Discovery Vsp MappingWitness.

(** ** Requests *)

Record Request := { ReqNamespace : string; ReqName : string }.

#[global] Instance Request_eq_dec : EqDecision Request.
Proof. solve_decision. Defined.

Definition lcmConfigGVK : ObjectRef := DpuOperatorConfigGVK.
Definition crdGVK : ObjectRef := gvk "apiextensions.k8s.io" "v1" "CustomResourceDefinition".

Section Enqueue.
Context {W : Type}.

(** The listing of a kind: namespaces and names. *)
Context (list_kind : W → ObjectRef → W * result (list (string * string))).

Definition request_of (item : string * string) : Request := {| ReqNamespace := item.1; ReqName := item.2 |}.

Definition sourceRequests (spec : Spec) (w : W) : W * list Request :=
  let '(w, r) := list_kind w (Source spec) in
  (w, match r with Err _ => [] | Ok items => request_of <$> items end).

Definition enqueueIfLCMReady (spec : Spec) (w : W) (obj : gmap string value) : W * list Request :=
  if negb (lcmConditionReady obj) then (w, []) else sourceRequests spec w.

Definition enqueueIfTargetCRD (spec : Spec) (w : W) (obj : gmap string value) : W * list Request :=
  if negb (crdMatchesTarget spec obj) then (w, []) else sourceRequests spec w.

(** [HasClient]: neither the manager nor its client is nil. *)
Definition enqueueDpuOperatorConfigs (HasClient : bool) (w : W) : W * list Request :=
  if negb HasClient then (w, [])
  else
    let '(w, r) := list_kind w DpuOperatorConfigGVK in
    (w, match r with Err _ => [] | Ok items => request_of <$> items end).

End Enqueue.

(** ** SetupWithManager *)

Inductive handler := EnqueueObject | EnqueueOwner | EnqueueIfLCMReady | EnqueueIfTargetCRD | EnqueueConfigs.

Record watch := { WatchGVK : ObjectRef; WatchHandler : handler }.

Record ControllerSpec := { CtlName : string; CtlWatches : list watch; MaxConcurrentReconciles : Z }.

Definition for_ (g : ObjectRef) : watch := {| WatchGVK := g; WatchHandler := EnqueueObject |}.
Definition owns (g : ObjectRef) : watch := {| WatchGVK := g; WatchHandler := EnqueueOwner |}.
Definition watches (g : ObjectRef) (h : handler) : watch := {| WatchGVK := g; WatchHandler := h |}.

Section Setup.
Context {M : Type} (RESTMapping : M → ObjectRef → M * option err) (no_match : err → bool).

(** The translator of one mapping: [None] of [MaxConcurrentReconciles] is the
    builder's default, written 0. *)
Definition translation_SetupWithManager (has_mapper : bool) (spec : Spec) (m : M) : M * result ControllerSpec :=
  let targets := distinct ((λ e, Target e) <$> SpecEmit spec) in
  let '(m, r) := ownableTargets RESTMapping no_match has_mapper m targets in
  (m, let! owned := r in
      Ok {| CtlName := MetaName (SpecMetadata spec);
            CtlWatches := [for_ (Source spec)] ++ (owns <$> owned) ++
              [watches lcmConfigGVK EnqueueIfLCMReady; watches crdGVK EnqueueIfTargetCRD];
            MaxConcurrentReconciles := 0 |}).

End Setup.

Definition lifecycle_SetupWithManager : ControllerSpec :=
  {| CtlName := "lifecycle-manager";
     CtlWatches := [for_ DpuOperatorConfigGVK; watches nvidiaProbeGVK EnqueueConfigs];
     MaxConcurrentReconciles := 1 |}.

Definition annotator_SetupWithManager : ControllerSpec :=
  {| CtlName := "nvidia-hardware-discovery"; CtlWatches := [for_ DataProcessingUnitGVK]; MaxConcurrentReconciles := 0 |}.

(** ** Nothing waits for a missing kind *)

Lemma distinct_elem_acc (gs out : list ObjectRef) (g : ObjectRef) :
  g ∈ foldl (λ out g, if decide (g ∈ out) then out else out ++ [g]) out gs ↔ g ∈ out ∨ g ∈ gs.
Proof.
  revert out. induction gs as [|x gs IH]; intros out; cbn [foldl]; [set_solver|].
  rewrite IH. case_decide; set_solver.
Qed.

Lemma distinct_elem gs g : g ∈ distinct gs ↔ g ∈ gs.
Proof. unfold distinct. rewrite distinct_elem_acc. set_solver. Qed.

Section Owned.
Context {M : Type} (RESTMapping : M → ObjectRef → M * option err) (no_match : err → bool).

(** A mapper that only answers. *)
Context (Hpure : ∀ m g, (RESTMapping m g).1 = m).

Lemma ownable_served m gs out :
  ownable_loop RESTMapping no_match m gs = (m, Ok out) →
  ∀ g, g ∈ out ↔ g ∈ gs ∧ (RESTMapping m g).2 = None.
Proof.
  revert out. induction gs as [|x gs IH]; intros out; cbn [ownable_loop].
  { intros [= <-]. set_solver. }
  pose proof (Hpure m x) as Hm. destruct (RESTMapping m x) as [m1 e] eqn:Hx. cbn in Hm. subst m1.
  destruct e as [e|].
  - destruct (no_match e); [|done]. intros Hl g. rewrite (IH out Hl g), elem_of_cons. split; [naive_solver|].
    intros [[->|Hg] Hs]; [|done]. by rewrite Hx in Hs.
  - destruct (ownable_loop RESTMapping no_match m gs) as [m2 [out'|e]] eqn:Hl; [|done].
    intros [= -> <-] g. rewrite !elem_of_cons, (IH out' eq_refl g). split; [|naive_solver].
    intros [->|[? ?]]; [split; [by left|by rewrite Hx]|naive_solver].
Qed.

Lemma ownable_pure m gs : (ownable_loop RESTMapping no_match m gs).1 = m.
Proof.
  induction gs as [|x gs IH]; cbn [ownable_loop]; [done|].
  pose proof (Hpure m x) as Hm. destruct (RESTMapping m x) as [m1 [e|]]; cbn in Hm; subst m1.
  - by destruct (no_match e).
  - by destruct (ownable_loop RESTMapping no_match m gs) as [m2 r].
Qed.

(** The translator never waits for a kind that the cluster does not serve: of
    the kinds a mapping emits it owns exactly those that discovery serves at setup;
    beside them it watches only the mapping's source, the DpuOperatorConfigs and the
    CRDs. *)
Theorem translation_watches_served spec m ctl :
  (translation_SetupWithManager RESTMapping no_match true spec m).2 = Ok ctl →
  ∀ g h, {| WatchGVK := g; WatchHandler := h |} ∈ CtlWatches ctl ↔
    (h = EnqueueObject ∧ g = Source spec) ∨ (h = EnqueueIfLCMReady ∧ g = DpuOperatorConfigGVK) ∨
    (h = EnqueueIfTargetCRD ∧ g = crdGVK) ∨
    (h = EnqueueOwner ∧ (∃ e, e ∈ SpecEmit spec ∧ Target e = g) ∧ (RESTMapping m g).2 = None).
Proof.
  unfold translation_SetupWithManager, ownableTargets. cbn [negb]. cbv zeta.
  pose proof (ownable_pure m (distinct ((λ e, Target e) <$> SpecEmit spec))) as Hm.
  destruct (ownable_loop _ _ _ _) as [m1 [owned|e]] eqn:Ho; cbn in Hm; subst m1; cbn [snd result_bind]; [|done].
  intros [= <-] g h. cbn [CtlWatches]. unfold for_, owns, watches.
  rewrite elem_of_cons, elem_of_app, list_elem_of_fmap, elem_of_cons, list_elem_of_singleton.
  setoid_rewrite (ownable_served _ _ _ Ho). setoid_rewrite distinct_elem. setoid_rewrite list_elem_of_fmap.
  naive_solver.
Qed.

End Owned.

(** The lifecycle manager watches the DPU kind of the vendor's operator whether or
    not the cluster serves it. *)
Theorem lifecycle_watches_unserved :
  ∃ g h, {| WatchGVK := g; WatchHandler := h |} ∈ CtlWatches lifecycle_SetupWithManager ∧ g ∈ requiredDPFCRDs.
Proof. exists nvidiaProbeGVK, EnqueueConfigs. split; [right; by left|by left]. Qed.

(** ** No lost wake-up *)

(** What [lcmBlocks] answers on a list of configs. *)
Definition blocked (items : list (gmap string value)) : bool :=
  negb (length items == 0) && negb (existsb lcmConditionReady items).

Lemma lcmBlocks_blocked {W} `{TranslationAPI W} ls (w w' : W) items :
  list_configs = Some ls → ls w = (w', Ok items) → lcmBlocks w = (w', Ok (blocked items)).
Proof. intros Hl Hw. unfold lcmBlocks. rewrite Hl, Hw. by destruct items. Qed.

Lemma unblocked_by items1 items2 obj before :
  blocked (items1 ++ before ++ items2) = true → blocked (items1 ++ obj :: items2) = false → lcmConditionReady obj = true.
Proof.
  unfold blocked. rewrite !existsb_app. cbn [existsb]. rewrite !length_app. cbn [length].
  rewrite (bool_decide_eq_false_2 (length items1 + S (length items2) = 0)) by lia. cbn [negb andb].
  destruct (existsb lcmConditionReady items1), (existsb lcmConditionReady items2), (lcmConditionReady obj),
    (existsb lcmConditionReady before), (bool_decide (length items1 + (length before + length items2) = 0)); cbn; done.
Qed.

(** A CRD that serves the kind. *)
Definition crd_serves (crd : gmap string value) (g : ObjectRef) : Prop :=
  nested_string crd ["spec"; "group"] = Group g ∧ nested_string crd ["spec"; "names"; "kind"] = RefKind g ∧
  ∃ versions v, get_parts (VMap crd) ["spec"; "versions"] = Some (VList versions) ∧ v ∈ versions ∧
    version_serves (MappingSpec.Version g) v = true.

Lemma crdMatches_serves spec crd :
  crdMatchesTarget spec crd = true ↔ ∃ e, e ∈ SpecEmit spec ∧ crd_serves crd (Target e).
Proof.
  unfold crdMatchesTarget, crd_serves. cbv zeta. rewrite existsb_exists. setoid_rewrite <- list_elem_of_In.
  split.
  - intros (e & He & Hb). bool_hyps. exists e. split; [done|]. split; [done|]. split; [done|].
    destruct (get_parts (VMap crd) ["spec"; "versions"]) as [[]|]; try discriminate.
    match goal with H : existsb _ _ = true |- _ => apply existsb_exists in H as (v & Hv & Hs) end.
    exists l, v. rewrite list_elem_of_In. done.
  - intros (e & He & Hg & Hk & versions & v & Hv & Hin & Hs). exists e. split; [done|].
    rewrite Hg, Hk, Hv, !bool_decide_eq_true_2 by done. cbn [andb]. apply existsb_exists. exists v.
    by rewrite list_elem_of_In in Hin.
Qed.

(** [C27] No wake-up is lost.  A change of one DpuOperatorConfig (or a new one) that
    opens the translator's gate, and a CRD that begins to serve a kind the mapping
    emits, each request a reconcile of every source the cluster lists. *)
Theorem translator_woken {W} (list_kind : W → ObjectRef → W * result (list (string * string))) spec w w' sources :
  list_kind w (Source spec) = (w', Ok sources) →
  (∀ items1 items2 before obj,
     blocked (items1 ++ before ++ items2) = true → blocked (items1 ++ obj :: items2) = false →
     enqueueIfLCMReady list_kind spec w obj = (w', request_of <$> sources)) ∧
  (∀ crd e, e ∈ SpecEmit spec → crd_serves crd (Target e) →
     enqueueIfTargetCRD list_kind spec w crd = (w', request_of <$> sources)).
Proof.
  intros Hl. assert (Hs : sourceRequests list_kind spec w = (w', request_of <$> sources)).
  { unfold sourceRequests. by rewrite Hl. }
  split.
  - intros items1 items2 before obj Hb Hu. unfold enqueueIfLCMReady. by rewrite (unblocked_by _ _ _ _ Hb Hu).
  - intros crd e He Hc. unfold enqueueIfTargetCRD.
    by rewrite (proj2 (crdMatches_serves spec crd) (ex_intro _ e (conj He Hc))).
Qed.

(** ** Witnesses *)

(** A cluster that serves no DPUService: a mapper that answers for every other kind. *)
Definition no_such_kind : err := ENew "no matches for kind".
Definition mapper_without (g : ObjectRef) (m : unit) (g' : ObjectRef) : unit * option err :=
  (m, if decide (g' = g) then Some no_such_kind else None).

Lemma translation_watches_served_witness :
  ∃ ctl, (translation_SetupWithManager (mapper_without (Target demo_emit)) (λ _, true) true demo_spec tt).2 = Ok ctl ∧
    (∀ g h, {| WatchGVK := g; WatchHandler := h |} ∈ CtlWatches ctl ↔
      (h = EnqueueObject ∧ g = Source demo_spec) ∨ (h = EnqueueIfLCMReady ∧ g = DpuOperatorConfigGVK) ∨
      (h = EnqueueIfTargetCRD ∧ g = crdGVK) ∨
      (h = EnqueueOwner ∧ (∃ e, e ∈ SpecEmit demo_spec ∧ Target e = g) ∧
       (mapper_without (Target demo_emit) tt g).2 = None)) ∧
    length (CtlWatches ctl) = 3.
Proof.
  eexists. split; [reflexivity|]. split; [|reflexivity].
  apply (translation_watches_served (mapper_without (Target demo_emit)) (λ _, true) (λ 'tt _, eq_refl) demo_spec tt).
  reflexivity.
Defined.

Definition config_with (status : string) : gmap string value :=
  {[ "status" := VMap {[ "conditions" := VList [VMap {[ "type" := VString OperatorReadyConditionType; "status" := VString status ]}] ]} ]}.

Definition crd_of (g : ObjectRef) : gmap string value :=
  {[ "spec" := VMap {[ "group" := VString (Group g); "names" := VMap {[ "kind" := VString (RefKind g) ]};
       "versions" := VList [VMap {[ "name" := VString (MappingSpec.Version g); "served" := VBool true ]}] ]} ]}.

Definition two_sources (w : unit) (_ : ObjectRef) : unit * result (list (string * string)) :=
  (w, Ok [("tenant", "a"); ("tenant", "b")]).

(** The second of two configs becomes ready; the CRD of the emitted kind is served. *)
Lemma translator_woken_witness :
  enqueueIfLCMReady two_sources demo_spec tt (config_with "True") =
    (tt, [{| ReqNamespace := "tenant"; ReqName := "a" |}; {| ReqNamespace := "tenant"; ReqName := "b" |}]) ∧
  enqueueIfTargetCRD two_sources demo_spec tt (crd_of (Target demo_emit)) =
    (tt, [{| ReqNamespace := "tenant"; ReqName := "a" |}; {| ReqNamespace := "tenant"; ReqName := "b" |}]).
Proof.
  destruct (translator_woken two_sources demo_spec tt tt [("tenant", "a"); ("tenant", "b")] eq_refl) as [Hlcm Hcrd].
  split.
  - exact (Hlcm [config_with "False"] [] [config_with "False"] (config_with "True") eq_refl eq_refl).
  - apply (Hcrd (crd_of (Target demo_emit)) demo_emit); [by left|].
    split; [reflexivity|]. split; [reflexivity|].
    eexists _, _. split; [reflexivity|]. split; [by left|]. vm_compute. reflexivity.
Defined.
