(* ===== verification/Commands.v ===== *)
(** * The commands

    The [main] functions of cmd/main.go (the manager), cmd/vsp/main.go (the vendor
    plugin) and cmd/opi-daemon/main.go (the daemon), after their flags are parsed:
    what they build from the flags, in which order they set it up, and where they
    stop.  [os.Exit(1)] is the error of the setup monad.  The manager, the builder
    and the operating system are the interface [ManagerOS]; a run keeps the log of
    what it set up. *)

From Stdlib Require Import Ascii ZArith.
From stdpp Require Import base gmap strings list fin_maps.
From S2P Require Import Prelude GoStrings Unstructured MappingSpec MappingEngine MappingLoad Version InstallConfig Release HelmInstaller Cleanup Operator Ensure Conditions Controller Translation Discovery PciScan Vsp Watches.

(** ** Setting up *)

Record TLSConfig := { NextProtos : list string }.

(** Whether the metrics are behind authentication is [FilterProvider]. *)
Record MetricsOptions := {
  MetricsBind : string;
  SecureServing : bool;
  MetricsTLS : list (TLSConfig → TLSConfig);
  FilterProvider : bool;
  MetricsCert : option (string * string * string) }.

Record WebhookOptions := {
  WebhookTLS : list (TLSConfig → TLSConfig);
  WebhookCert : option (string * string * string) }.

Record ManagerOptions := {
  MgrMetrics : MetricsOptions;
  MgrWebhook : option WebhookOptions;
  HealthProbeBind : string;
  LeaderElection : bool;
  LeaderElectionID : string;
  UncachedSecrets : bool;
  ReleaseOnCancel : bool }.

(** What a process has done: a kind added to the scheme, the meta types of a group
    version, a controller completed, the admission handler, a runnable, a check. *)
Inductive setup_event :=
  | EvManager (o : ManagerOptions)
  | EvKnown (g : ObjectRef)
  | EvMeta (group version : string)
  | EvController (c : ControllerSpec)
  | EvWebhook
  | EvServer (socket : string)
  | EvHealthz
  | EvReadyz
  | EvStart.

Class ManagerOS (M : Type) := {
  new_manager : M → ManagerOptions → M * option err;
  rest_mapping : M → ObjectRef → M * option err;
  no_kind_match : err → bool;
  complete : M → ControllerSpec → M * option err;
  new_discovery : M → M * option err;
  has_webhook_server : bool;
  add_runnable : M → M * option err;
  add_healthz : M → M * option err;
  add_readyz : M → M * option err;
  start_manager : M → M * option err;
  os_stat : string → option err;
  temp_dir : string }.

Record Proc (M : Type) := mkProc { PWorld : M; PLog : list setup_event }.
Arguments mkProc {M}. Arguments PWorld {M}. Arguments PLog {M}.

Definition Setup (M A : Type) : Type := Proc M → Proc M * result A.

Section Monad.
Context {M : Type}.

Definition setup_ret {A} (a : A) : Setup M A := λ p, (p, Ok a).
Definition setup_bind {A B} (m : Setup M A) (k : A → Setup M B) : Setup M B :=
  λ p, let '(p, r) := m p in match r with Ok a => k a p | Err e => (p, Err e) end.
Definition lift {A} (r : result A) : Setup M A := λ p, (p, r).
Definition emit (ev : setup_event) : Setup M unit := λ p, (mkProc (PWorld p) (PLog p ++ [ev]), Ok tt).

(** A call that can fail; the event is logged when it succeeds. *)
Definition call (f : M → M * option err) (ev : setup_event) : Setup M unit :=
  λ p, let '(w, e) := f (PWorld p) in
       match e with
       | Some e => (mkProc w (PLog p), Err e)
       | None => (mkProc w (PLog p ++ [ev]), Ok tt)
       end.

(** A call that leaves no trace in the manager. *)
Definition query {A} (f : M → M * result A) : Setup M A :=
  λ p, let '(w, r) := f (PWorld p) in (mkProc w (PLog p), r).

Fixpoint for_each {A} (l : list A) (f : A → Setup M unit) : Setup M unit :=
  match l with
  | [] => setup_ret tt
  | x :: l' => setup_bind (f x) (λ _, for_each l' f)
  end.

(** The process's exit status. *)
Definition exit_code {A} (m : Setup M A) (p : Proc M) : Z := match (m p).2 with Ok _ => 0 | Err _ => 1 end.

End Monad.

Notation "x ←' m ;; k" := (setup_bind m (λ x, k)) (at level 100, m at next level, right associativity).
Notation "m ;;' k" := (setup_bind m (λ _, k)) (at level 100, right associativity).

Definition registerUnstructured {M} (g : ObjectRef) : Setup M unit :=
  emit (EvKnown g) ;;'
  emit (EvKnown (gvk (Group g) (MappingSpec.Version g) (RefKind g +:+ "List"))) ;;'
  emit (EvMeta (Group g) (MappingSpec.Version g)).

(** ** cmd/main.go *)

Record ManagerFlags := {
  FlMetrics : string;
  FlMetricsCertPath : string; FlMetricsCertName : string; FlMetricsCertKey : string;
  FlWebhookCertPath : string; FlWebhookCertName : string; FlWebhookCertKey : string;
  FlLeaderElect : bool;
  FlProbe : string;
  FlSecureMetrics : bool;
  FlHTTP2 : bool;
  FlMappingDir : string }.

(** The flags when none is given. *)
Definition manager_flag_defaults : ManagerFlags := {|
  FlMetrics := "0"; FlProbe := ":8081"; FlMappingDir := "config/mappings"; FlLeaderElect := false;
  FlSecureMetrics := true;
  FlWebhookCertPath := ""; FlWebhookCertName := "tls.crt"; FlWebhookCertKey := "tls.key";
  FlMetricsCertPath := ""; FlMetricsCertName := "tls.crt"; FlMetricsCertKey := "tls.key"; FlHTTP2 := false |}.

Definition disableHTTP2 (_ : TLSConfig) : TLSConfig := {| NextProtos := ["http/1.1"] |}.

Definition tlsOpts (f : ManagerFlags) : list (TLSConfig → TLSConfig) := if negb (FlHTTP2 f) then [disableHTTP2] else [].

Definition given_cert (dir name key : string) : option (string * string * string) :=
  if dir == "" then None else Some (dir, name, key).

Definition manager_options (f : ManagerFlags) : ManagerOptions := {|
  MgrMetrics := {|
    MetricsBind := FlMetrics f; SecureServing := FlSecureMetrics f; MetricsTLS := tlsOpts f;
    FilterProvider := FlSecureMetrics f;
    MetricsCert := given_cert (FlMetricsCertPath f) (FlMetricsCertName f) (FlMetricsCertKey f) |};
  MgrWebhook := Some {|
    WebhookTLS := tlsOpts f;
    WebhookCert := given_cert (FlWebhookCertPath f) (FlWebhookCertName f) (FlWebhookCertKey f) |};
  HealthProbeBind := FlProbe f;
  LeaderElection := FlLeaderElect f;
  LeaderElectionID := "9ab915d2.opi.nvidia.com";
  UncachedSecrets := true;
  ReleaseOnCancel := true |}.

Section Manager.
Context {M : Type} `{ManagerOS M} `{Files}.

Definition webhookCertificatesPresent (certDir certName certKey : string) : bool :=
  let certDir := if certDir == "" then PathJoin (PathJoin temp_dir "k8s-webhook-server") "serving-certs" else certDir in
  let certName := if certName == "" then "tls.crt" else certName in
  let certKey := if certKey == "" then "tls.key" else certKey in
  bool_decide (os_stat (PathJoin certDir certName) = None) && bool_decide (os_stat (PathJoin certDir certKey) = None).

Definition SetupDpuOperatorConfigWebhook : Setup M unit :=
  if negb has_webhook_server then lift (Err (EFmt "webhook server is not configured" [])) else emit EvWebhook.

Definition complete_controller (c : ControllerSpec) : Setup M unit := call (λ w, complete w c) (EvController c).

Definition setup_mapping (spec : Spec) : Setup M unit :=
  registerUnstructured (Source spec) ;;'
  for_each (SpecEmit spec) (λ e, registerUnstructured (Target e)) ;;'
  c ←' query (translation_SetupWithManager rest_mapping no_kind_match true spec) ;;
  complete_controller c.

Definition manager_main (f : ManagerFlags) : Setup M unit :=
  call (λ w, new_manager w (manager_options f)) (EvManager (manager_options f)) ;;'
  specs ←' lift (LoadDir (FlMappingDir f)) ;;
  registerUnstructured DpuOperatorConfigGVK ;;'
  registerUnstructured crdGVK ;;'
  for_each specs setup_mapping ;;'
  registerUnstructured DpuOperatorConfigGVK ;;'
  query (λ w, let '(w, e) := new_discovery w in (w, match e with Some e => Err e | None => Ok tt end)) ;;'
  complete_controller lifecycle_SetupWithManager ;;'
  (if webhookCertificatesPresent (FlWebhookCertPath f) (FlWebhookCertName f) (FlWebhookCertKey f)
   then SetupDpuOperatorConfigWebhook else setup_ret tt) ;;'
  call add_healthz EvHealthz ;;'
  call add_readyz EvReadyz ;;'
  call start_manager EvStart.

End Manager.

(** ** cmd/vsp/main.go *)

Record VspFlags := {
  VfMetrics : string; VfProbe : string; VfNode : string; VfSerial : string; VfPCI : string;
  VfProduct : string; VfVendor : string; VfPCIVendor : string; VfFirmwareURL : string; VfBFBURL : string;
  VfFlavor : string; VfFirmwareName : string; VfBFBName : string; VfUsePCI : bool; VfSocket : string;
  VfGrpcOnly : bool }.

Definition vsp_flag_defaults (getenv : string → string) : VspFlags := {|
  VfMetrics := "0"; VfProbe := ":8082"; VfNode := getenv "NODE_NAME"; VfSerial := getenv "DPU_SERIAL_NUMBER";
  VfPCI := "0000:03:00.0"; VfProduct := ""; VfVendor := getenv "DPU_VENDOR";
  VfFirmwareURL := getenv "DPU_FIRMWARE_URL"; VfBFBURL := getenv "DPU_BFB_URL"; VfFlavor := "";
  VfFirmwareName := ""; VfBFBName := ""; VfUsePCI := false; VfPCIVendor := ""; VfSocket := DefaultSocket;
  VfGrpcOnly := false |}.

Definition firstNonEmpty (preferred fallback : string) : string := if preferred != "" then preferred else fallback.

(** The enumerator the flags choose. *)
Inductive EnumeratorChoice := ScanPCI (filter : Z) | MockDevices (devices : list Device).

Definition run_enumerator `{Sysfs} (c : EnumeratorChoice) : result (list Device) :=
  match c with ScanPCI filter => Enumerate "" filter | MockDevices ds => mock_enumerate ds end.

(** With the vendor the annotator is restricted to; 0 is every vendor. *)
Definition choose_enumerator (f : VspFlags) : result (EnumeratorChoice * Z) :=
  let! vendorID := (if VfVendor f != "" then ParseVendor (VfVendor f) else Ok NVIDIAVendorID) in
  if VfUsePCI f then
    let! filter := (if VfPCIVendor f != "" then ParseVendor (VfPCIVendor f) else Ok 0%Z) in
    Ok (ScanPCI filter, filter)
  else
    reject_if (VfPCIVendor f != "") (ENew "--pci-vendor requires --pci") ;;!
    reject_if (VfSerial f == "") (ENew "either --serial-number or --pci is required") ;;!
    Ok (MockDevices [StaticDevice vendorID (VfSerial f) (VfPCI f) (VfProduct f)], 0%Z).

Definition vsp_annotator (f : VspFlags) (filter : Z) : Annotator := {|
  NodeName := VfNode f; AnnVendorID := filter;
  FirmwareURL := firstNonEmpty (VfFirmwareURL f) (VfBFBURL f);
  Flavor := VfFlavor f;
  FirmwareName := firstNonEmpty (VfFirmwareName f) (VfBFBName f) |}.

Definition vsp_options (f : VspFlags) : ManagerOptions := {|
  MgrMetrics := {| MetricsBind := VfMetrics f; SecureServing := false; MetricsTLS := []; FilterProvider := false; MetricsCert := None |};
  MgrWebhook := None; HealthProbeBind := VfProbe f; LeaderElection := false; LeaderElectionID := "";
  UncachedSecrets := false; ReleaseOnCancel := false |}.

Section VspMain.
Context {W : Type} `{VspAPI W} `{Sysfs}.

(** The server and, with a cluster, the annotator; they share the enumerator. *)
Record VspPlan := { PlanServer : Server W; PlanAnnotator : option Annotator }.

Definition plan_server (f : VspFlags) (c : EnumeratorChoice) : Server W :=
  let srv := NewServer (Some (λ w, (w, run_enumerator c))) (VfSocket f) in
  if VfGrpcOnly f then srv
  else {| Enumerator := Enumerator srv; SocketPath := SocketPath srv; Handoff := Some (ClusterHandoff true) |}.

Definition vsp_plan (f : VspFlags) : result VspPlan :=
  let! (c, filter) := choose_enumerator f in
  Ok {| PlanServer := plan_server f c;
        PlanAnnotator := if VfGrpcOnly f then None else Some (vsp_annotator f filter) |}.

Context {M : Type} `{ManagerOS M}.

(** [start_server]: the server's [Start], run by the process itself with --grpc-only. *)
Definition vsp_main (start_server : Server W → M → M * option err) (f : VspFlags) : Setup M unit :=
  plan ←' lift (vsp_plan f) ;;
  let srv := PlanServer plan in
  if VfGrpcOnly f then call (start_server srv) (EvServer (SocketPath srv))
  else
    registerUnstructured DataProcessingUnitGVK ;;'
    registerUnstructured DPUServiceGVK ;;'
    call (λ w, new_manager w (vsp_options f)) (EvManager (vsp_options f)) ;;'
    complete_controller annotator_SetupWithManager ;;'
    call add_runnable (EvServer (SocketPath srv)) ;;'
    call add_healthz EvHealthz ;;'
    call add_readyz EvReadyz ;;'
    call start_manager EvStart.

End VspMain.
Arguments VspPlan : clear implicits.

(** ** cmd/opi-daemon/main.go *)

Record DaemonFlags := { DfSocket : string; DfIdentifier : string; DfMode : bool; DfOnce : bool }.

Definition daemon_flag_defaults (getenv : string → string) : DaemonFlags :=
  {| DfSocket := DefaultSocket; DfIdentifier := getenv "DPU_IDENTIFIER"; DfMode := true; DfOnce := false |}.

(** KUBERNETES_SERVICE_HOST, the kubeconfig (an error when there is none), and the
    client made from it. *)
Class DaemonOS := { service_host : string; get_config : option err; client_new : option err }.

Section DaemonMain.
Context {W : Type} `{Wire W} `{VspAPI W} `{ControllerUtil} `{DaemonOS}.

Definition reportReadyIfCluster (w : W) (hs : HandshakeResult) : W * option err :=
  if service_host == "" then (w, None)
  else match get_config with
       | Some _ => (w, None)
       | None =>
           match client_new with
           | Some e => (w, Some e)
           | None => ReportReady true w (Some hs)
           end
       end.

(** [None] while the retry loop still runs; the exit status otherwise. *)
Definition daemon_main (fuel : nat) (f : DaemonFlags) (w : W) : option (W * Z) :=
  '(w, r) ← (if DfOnce f then Some (Handshake w (DfSocket f) (DfMode f) (DfIdentifier f))
             else HandshakeUntil fuel w (DfSocket f) (DfMode f) (DfIdentifier f));
  match r with
  | Err _ => Some (w, 1%Z)
  | Ok got =>
      let '(w, e) := reportReadyIfCluster w got in
      Some (w, match e with Some _ => 1%Z | None => 0%Z end)
  end.

End DaemonMain.
