(* ===== verification/CommandsFacts.v ===== *)
(** * What the commands set up

    A weakest-precondition calculus for the setup monad of [Commands], and with it:
    kinds are in the scheme before they are watched, a manager runs only when every
    mapping has its controller, the plugin's flags reach the parts they are for, and
    the daemon's exit status. *)

From Stdlib Require Import Ascii ZArith Lia.
From stdpp Require Import base gmap strings list fin_maps.
From S2P Require Import Prelude GoStrings Unstructured MappingSpec MappingEngine MappingLoad Version InstallConfig Release HelmInstaller Cleanup Operator Ensure Conditions Controller Translation Discovery PciScan PciScanFacts Vsp VspFacts Watches MappingWitness Commands.

(** ** Weakest preconditions *)

Section WP.
Context {M : Type}.
Implicit Type p : Proc M.

(** [Q] of the answer and the process, or [R] of the process that stopped. *)
Definition wp {A} (m : Setup M A) (Q : A → Proc M → Prop) (R : Proc M → Prop) p : Prop :=
  match m p with (p', Ok a) => Q a p' | (p', Err _) => R p' end.

Lemma wp_ret {A} (a : A) Q R p : Q a p → wp (setup_ret a) Q R p.
Proof. done. Qed.

Lemma wp_bind {A B} (m : Setup M A) (k : A → Setup M B) Q R p :
  wp m (λ a p', wp (k a) Q R p') R p → wp (setup_bind m k) Q R p.
Proof. unfold wp, setup_bind. by destruct (m p) as [p1 [a|e]]. Qed.

Lemma wp_lift {A} (r : result A) Q R p : (∀ a, r = Ok a → Q a p) → R p → wp (lift r) Q R p.
Proof. unfold wp, lift. destruct r; eauto. Qed.

Lemma wp_emit ev (Q : unit → Proc M → Prop) R p : Q tt (mkProc (PWorld p) (PLog p ++ [ev])) → wp (emit ev) Q R p.
Proof. done. Qed.

Lemma wp_call f ev (Q : unit → Proc M → Prop) R p :
  (∀ w, Q tt (mkProc w (PLog p ++ [ev]))) → (∀ w, R (mkProc w (PLog p))) → wp (call f ev) Q R p.
Proof. unfold wp, call. destruct (f (PWorld p)) as [w [e|]]; eauto. Qed.

Lemma wp_query {A} (f : M → M * result A) Q R p :
  (∀ w a, (f (PWorld p)).2 = Ok a → Q a (mkProc w (PLog p))) → (∀ w, R (mkProc w (PLog p))) → wp (query f) Q R p.
Proof. unfold wp, query. destruct (f (PWorld p)) as [w [a|e]]; eauto. Qed.

Lemma wp_mono {A} (m : Setup M A) (Q Q' : A → Proc M → Prop) (R R' : Proc M → Prop) p :
  wp m Q R p → (∀ a p', Q a p' → Q' a p') → (∀ p', R p' → R' p') → wp m Q' R' p.
Proof. unfold wp. destruct (m p) as [p1 [a|e]]; eauto. Qed.

(** A loop: [I] holds of the elements done. *)
Lemma wp_for_each {A} (l : list A) (f : A → Setup M unit) (I : list A → Proc M → Prop) (R : Proc M → Prop) p :
  (∀ seen x q, x ∈ l → I seen q → wp (f x) (λ _, I (seen ++ [x])) R q) → I [] p → wp (for_each l f) (λ _, I l) R p.
Proof.
  intros Hf. assert (Hgen : ∀ rest seen q, seen ++ rest = l → I seen q → wp (for_each rest f) (λ _, I l) R q).
  { induction rest as [|x rest IH]; intros seen q Hl Hq; cbn [for_each].
    - rewrite app_nil_r in Hl. subst. by apply wp_ret.
    - apply wp_bind. eapply wp_mono; [apply (Hf seen x); [set_solver|done]| |done]. intros [] q' Hq'.
      apply (IH (seen ++ [x])); [by rewrite <- app_assoc|done]. }
  apply (Hgen l []). done.
Qed.

Lemma wp_register g (Q : unit → Proc M → Prop) R p :
  (∀ evs : list setup_event, EvKnown g ∈ evs → (∀ ev, ev ∈ evs → ∃ g', ev = EvKnown g' ∨ ev = EvMeta (Group g') (MappingSpec.Version g')) →
     Q tt (mkProc (PWorld p) (PLog p ++ evs))) →
  wp (registerUnstructured g) Q R p.
Proof.
  intros HQ. unfold registerUnstructured. do 2 (apply wp_bind, wp_emit). apply wp_emit. cbn [PWorld PLog].
  rewrite <- !app_assoc. apply HQ; [by left|]. cbn [app]. intros ev Hev.
  rewrite !elem_of_cons in Hev. destruct Hev as [->|[->|[->|?%elem_of_nil]]]; [by eauto..|done].
Qed.

End WP.

Ltac wp_step :=
  match goal with
  | |- wp (setup_bind _ _) _ _ _ => apply wp_bind
  | |- wp (setup_ret _) _ _ _ => apply wp_ret
  | |- wp (emit _) _ _ _ => apply wp_emit
  | |- wp (call _ _) _ _ _ => apply wp_call; intros
  | |- wp (complete_controller _) _ _ _ => apply wp_call; intros
  | |- wp (lift _) _ _ _ => apply wp_lift; [intros ??|]
  | |- wp (query _) _ _ _ => apply wp_query; [intros ???|intros ?]
  | |- wp (registerUnstructured _) _ _ _ => apply wp_register; intros ???
  end; cbn [PLog PWorld].

(** ** The scheme before the watches *)

Definition watched_known (c : ControllerSpec) (log : list setup_event) : Prop :=
  ∀ wt, wt ∈ CtlWatches c → WatchHandler wt ≠ EnqueueConfigs → EvKnown (WatchGVK wt) ∈ log.

(** Every controller of the log was completed when the kinds it watches were known. *)
Definition ordered (log : list setup_event) : Prop :=
  ∀ pre c post, log = pre ++ EvController c :: post → watched_known c pre.

Definition is_controller (ev : setup_event) : bool := match ev with EvController _ => true | _ => false end.

Lemma ordered_nil : ordered [].
Proof. intros [|??] c post; done. Qed.

Lemma ordered_snoc log ev :
  ordered log → (∀ c, ev = EvController c → watched_known c log) → ordered (log ++ [ev]).
Proof.
  intros Hl Hev pre c post Heq. destruct post as [|ev' post] using rev_ind.
  - apply app_inj_tail in Heq as [-> ->]. by apply Hev.
  - rewrite app_comm_cons, app_assoc in Heq. apply app_inj_tail in Heq as [-> _]. by eapply Hl.
Qed.

Lemma ordered_app log evs : ordered log → (∀ ev, ev ∈ evs → is_controller ev = false) → ordered (log ++ evs).
Proof.
  revert log. induction evs as [|ev evs IH]; intros log Hl Hev; [by rewrite app_nil_r|].
  rewrite (app_assoc log [ev] evs : log ++ ev :: evs = _). apply IH; [|set_solver].
  apply ordered_snoc; [done|]. intros c ->. by assert (is_controller (EvController c) = false) by (apply Hev; by left).
Qed.

Lemma registered_plain (evs : list setup_event) :
  (∀ ev, ev ∈ evs → ∃ g, ev = EvKnown g ∨ ev = EvMeta (Group g) (MappingSpec.Version g)) →
  ∀ ev, ev ∈ evs → is_controller ev = false.
Proof. intros Hevs ev (g & [->| ->])%Hevs; done. Qed.

Lemma ownable_sub {M} (RESTMapping : M → ObjectRef → M * option err) no_match m gs out m' :
  ownable_loop RESTMapping no_match m gs = (m', Ok out) → out ⊆ gs.
Proof.
  revert m m' out. induction gs as [|x gs IH]; intros m m' out; cbn [ownable_loop]; [by intros [= _ <-]|].
  destruct (RESTMapping m x) as [m1 [e|]].
  - destruct (no_match e); [|done]. intros Hsub%IH. set_solver.
  - destruct (ownable_loop RESTMapping no_match m1 gs) as [m2 [out'|e]] eqn:Hl; [|done].
    intros [= _ <-]. apply IH in Hl. set_solver.
Qed.

(** The kinds a translator watches. *)
Lemma translation_watched {M} (RESTMapping : M → ObjectRef → M * option err) no_match spec m c wt :
  (translation_SetupWithManager RESTMapping no_match true spec m).2 = Ok c → wt ∈ CtlWatches c →
  WatchGVK wt = Source spec ∨ WatchGVK wt = DpuOperatorConfigGVK ∨ WatchGVK wt = crdGVK ∨
  ∃ e, e ∈ SpecEmit spec ∧ WatchGVK wt = Target e.
Proof.
  unfold translation_SetupWithManager, ownableTargets. cbn [negb].
  destruct (ownable_loop _ _ _ _) as [m1 [owned|e]] eqn:Ho; [|done]. cbn [snd result_bind]. intros [= <-].
  cbn [CtlWatches]. rewrite elem_of_cons, elem_of_app, list_elem_of_fmap, elem_of_cons, list_elem_of_singleton.
  intros [->|[(g & -> & Hg)|[->| ->]]]; [by left| |by right; left|by do 2 right; left].
  apply (ownable_sub _ _ _ _ _ _ Ho), distinct_elem, list_elem_of_fmap in Hg as (e & -> & He). do 3 right. by exists e.
Qed.

Section ManagerFacts.
Context {M : Type} `{ManagerOS M} `{Files}.

(** Known so far: the kinds of every translator. *)
Definition ready_to_watch (log : list setup_event) : Prop :=
  ordered log ∧ EvKnown DpuOperatorConfigGVK ∈ log ∧ EvKnown crdGVK ∈ log.

Lemma ready_app log evs : ready_to_watch log → (∀ ev, ev ∈ evs → is_controller ev = false) → ready_to_watch (log ++ evs).
Proof. intros (Ho & Hc & Hd) Hev. split; [by apply ordered_app|]. rewrite !elem_of_app. auto. Qed.

Lemma ready_snoc log ev :
  ready_to_watch log → (∀ c, ev = EvController c → watched_known c log) → ready_to_watch (log ++ [ev]).
Proof. intros (Ho & Hc & Hd) Hev. split; [by apply ordered_snoc|]. rewrite !elem_of_app. auto. Qed.

Lemma setup_mapping_ready spec (p : Proc M) :
  ready_to_watch (PLog p) →
  wp (setup_mapping spec) (λ _ q, ready_to_watch (PLog q)) (λ q, ordered (PLog q)) p.
Proof.
  intros Hp. unfold setup_mapping. do 2 wp_step. wp_step.
  eapply wp_mono; [apply (wp_for_each _ _ (λ seen q, (ready_to_watch (PLog q) ∧ EvKnown (Source spec) ∈ PLog q) ∧
      ∀ e, e ∈ seen → EvKnown (Target e) ∈ PLog q) (λ q, ordered (PLog q)))| |done].
  - intros seen e q _ [[Hq Hs] Hseen]. wp_step. split; [split; [by eapply ready_app, registered_plain|set_solver]|].
    intros e' [He'| ->%list_elem_of_singleton]%elem_of_app; apply elem_of_app; auto.
  - cbn [PLog]. split; [split; [by eapply ready_app, registered_plain|set_solver]|]. by intros e ?%elem_of_nil.
  - intros [] q [[Hq Hs] Hseen]. wp_step. wp_step; [|apply Hq]. wp_step; [|apply Hq].
    apply ready_snoc; [done|]. intros c [= <-] wt Hwt _.
    match goal with Hc : _ = Ok _ |- _ => destruct (translation_watched _ _ _ _ _ _ Hc Hwt) as [->|[->|[->|(e & He & ->)]]] end;
      [done|apply Hq|apply Hq|by apply Hseen].
Qed.

Lemma manager_ordered f (w : M) :
  wp (manager_main f) (λ _ q, ordered (PLog q)) (λ q, ordered (PLog q)) (mkProc w []).
Proof.
  unfold manager_main. wp_step. wp_step; [|apply ordered_nil].
  assert (Hm : ordered [EvManager (manager_options f)]) by (by apply (ordered_snoc []); [apply ordered_nil|]).
  wp_step. wp_step; [|done]. do 2 wp_step. wp_step. wp_step. wp_step.
  eapply wp_mono; [apply (wp_for_each _ _ (λ _ q, ready_to_watch (PLog q)) (λ q, ordered (PLog q)))| |done].
  { intros _ spec q _ Hq. by apply setup_mapping_ready. }
  { cbn [PLog]. split; [by do 2 (eapply ordered_app; [|by eapply registered_plain])|]. rewrite !elem_of_app. auto. }
  intros [] q Hq. do 2 wp_step.
  match goal with |- wp _ _ _ (mkProc _ ?l) => assert (Hl : ready_to_watch l) by (by eapply ready_app, registered_plain) end.
  wp_step. wp_step; [|apply Hl]. wp_step. wp_step; [|apply Hl].
  match goal with |- wp _ _ _ (mkProc _ ?l) => assert (Hc : ordered l) end.
  { apply ordered_snoc; [apply Hl|]. intros c [= <-] wt Hwt Hh. cbn [CtlWatches lifecycle_SetupWithManager] in Hwt.
    rewrite elem_of_cons, list_elem_of_singleton in Hwt. destruct Hwt as [->| ->]; [apply Hl|done]. }
  wp_step. unfold SetupDpuOperatorConfigWebhook. destruct (webhookCertificatesPresent _ _ _), has_webhook_server; cbn [negb]; repeat (wp_step; try done);
    repeat (apply ordered_snoc; [|done]); done.
Qed.

Definition controllers (log : list setup_event) : list string :=
  omap (λ ev, match ev with EvController c => Some (CtlName c) | _ => None end) log.

Lemma controllers_app l1 l2 : controllers (l1 ++ l2) = controllers l1 ++ controllers l2.
Proof. apply omap_app. Qed.

Lemma controllers_plain evs : (∀ ev, ev ∈ evs → is_controller ev = false) → controllers evs = [].
Proof.
  induction evs as [|ev evs IH]; intros Hev; [done|]. unfold controllers. cbn.
  assert (is_controller ev = false) by (apply Hev; by left). destruct ev; try done; apply IH; set_solver.
Qed.

(** Neither running nor admitting yet, with the controllers of these mappings. *)
Definition setting_up (specs : list Spec) (log : list setup_event) : Prop :=
  controllers log = (λ s, MetaName (SpecMetadata s)) <$> specs ∧ EvWebhook ∉ log ∧ EvStart ∉ log.

Lemma setting_up_app specs log evs :
  setting_up specs log →
  (∀ ev, ev ∈ evs → ∃ g, ev = EvKnown g ∨ ev = EvMeta (Group g) (MappingSpec.Version g)) → setting_up specs (log ++ evs).
Proof.
  intros (Hc & Hw & Hs) Hevs. split; [|rewrite !not_elem_of_app; split; split; [done| |done|]].
  - rewrite controllers_app, Hc, (controllers_plain evs), app_nil_r by by eapply registered_plain. done.
  - intros (g & [?|?])%Hevs; done.
  - intros (g & [?|?])%Hevs; done.
Qed.

Lemma setup_mapping_sets specs spec (p : Proc M) :
  setting_up specs (PLog p) →
  wp (setup_mapping spec) (λ _ q, setting_up (specs ++ [spec]) (PLog q)) (λ q, EvStart ∉ PLog q) p.
Proof.
  intros Hp. unfold setup_mapping. do 2 wp_step. wp_step.
  eapply wp_mono; [apply (wp_for_each _ _ (λ _ q, setting_up specs (PLog q)) (λ q, EvStart ∉ PLog q))| |done].
  - intros _ e q _ Hq. wp_step. by apply setting_up_app.
  - by apply setting_up_app.
  - intros [] q Hq. wp_step. wp_step; [|apply Hq]. wp_step; [|apply Hq]. destruct Hq as (Hc & Hw & Hs).
    match goal with Hctl : (translation_SetupWithManager _ _ _ _ _).2 = Ok ?c |- _ =>
      assert (Hname : CtlName c = MetaName (SpecMetadata spec)); [revert Hctl|] end.
    { unfold translation_SetupWithManager. destruct (ownableTargets _ _ _ _ _) as [? [?|?]]; [|done]. by intros [= <-]. }
    split; [rewrite controllers_app, fmap_app, Hc; cbn; by rewrite Hname|]. set_solver.
Qed.

End ManagerFacts.

(** ** Running *)

(** Membership in a log that grew by single events. *)
Ltac log_events := rewrite ?elem_of_app, ?list_elem_of_singleton; intuition congruence.

Section Commands.
Context {M : Type} `{ManagerOS M} `{Files}.
Context {W : Type} `{VspAPI W} `{Sysfs}.

(** The scheme comes before the watches.  However a run of the manager or of
    the vendor plugin ends, each controller it completed found the kinds it watches
    already registered: the mapping's source, the kinds it owns, the
    DpuOperatorConfigs and the CRDs.  (The lifecycle manager's watch of the vendor's
    DPU kind is the exception.) *)
Theorem commands_register_first (start_server : Server W → M → M * option err) f vf (w : M) :
  ordered (PLog (manager_main f (mkProc w [])).1) ∧ ordered (PLog (vsp_main start_server vf (mkProc w [])).1).
Proof.
  split.
  - pose proof (manager_ordered f w) as Hm. unfold wp in Hm. by destruct (manager_main f (mkProc w [])) as [p [[]|e]].
  - assert (Hv : wp (vsp_main start_server vf) (λ _ q, ordered (PLog q)) (λ q, ordered (PLog q)) (mkProc w [])).
    { unfold vsp_main. wp_step. wp_step; [|apply ordered_nil]. destruct (VfGrpcOnly vf).
      { wp_step; [|apply ordered_nil]. apply (ordered_snoc []); [apply ordered_nil|done]. }
      do 2 wp_step. do 2 wp_step. wp_step.
      match goal with |- wp _ _ _ (mkProc _ ?l) => assert (Hl : ordered l ∧ EvKnown DataProcessingUnitGVK ∈ l) end.
      { split; [do 2 (eapply ordered_app; [|by eapply registered_plain]); apply ordered_nil|]. rewrite !elem_of_app. auto. }
      destruct Hl as [Hl Hk]. wp_step; [|done]. wp_step. wp_step; [|by apply ordered_snoc].
      match goal with |- wp _ _ _ (mkProc _ ?l) => assert (Hc : ordered l) end.
      { apply ordered_snoc; [by apply ordered_snoc|]. intros c [= <-] wt ->%list_elem_of_singleton _. cbn [for_ WatchGVK]. set_solver. }
      repeat (wp_step; try done); repeat (apply ordered_snoc; [|done]); done. }
    unfold wp in Hv. by destruct (vsp_main start_server vf (mkProc w [])) as [p [[]|e]].
Qed.

(** The manager runs all or nothing: it comes to start, and its process exits
    with 0, only when the mapping directory loaded, every document of it has its
    controller, in order, and the lifecycle manager after them; the admission
    handler is registered exactly when both serving certificates are there. *)
Theorem manager_runs_complete f (w : M) :
  let log := PLog (manager_main f (mkProc w [])).1 in
  (exit_code (manager_main f) (mkProc w []) = 0%Z ↔ EvStart ∈ log) ∧
  (EvStart ∈ log → ∃ specs,
     LoadDir (FlMappingDir f) = Ok specs ∧
     controllers log = ((λ s, MetaName (SpecMetadata s)) <$> specs) ++ ["lifecycle-manager"] ∧
     (EvWebhook ∈ log ↔
        webhookCertificatesPresent (FlWebhookCertPath f) (FlWebhookCertName f) (FlWebhookCertKey f) = true)).
Proof.
  cbv zeta.
  assert (Hm : wp (manager_main f)
    (λ _ q, EvStart ∈ PLog q ∧ ∃ specs, LoadDir (FlMappingDir f) = Ok specs ∧
       controllers (PLog q) = ((λ s, MetaName (SpecMetadata s)) <$> specs) ++ ["lifecycle-manager"] ∧
       (EvWebhook ∈ PLog q ↔
          webhookCertificatesPresent (FlWebhookCertPath f) (FlWebhookCertName f) (FlWebhookCertKey f) = true))
    (λ q, EvStart ∉ PLog q) (mkProc w [])).
  { unfold manager_main. wp_step. wp_step; [|apply not_elem_of_nil]. wp_step. wp_step; [|set_solver].
    match goal with Hs : LoadDir _ = Ok ?l |- _ => rename l into specs, Hs into Hload end.
    do 2 wp_step. do 2 wp_step. wp_step.
    eapply wp_mono; [apply (wp_for_each _ _ (λ seen q, setting_up seen (PLog q)) (λ q, EvStart ∉ PLog q))| |done].
    { intros seen spec q _. apply setup_mapping_sets. }
    { do 2 (eapply setting_up_app; [|done]). split; [done|]. set_solver. }
    intros [] q Hq. do 2 wp_step.
    match goal with |- wp _ _ _ (mkProc _ ?l) => assert (Hl : setting_up specs l) by (by eapply setting_up_app) end.
    destruct Hl as (Hc & Hw & Hs). wp_step. wp_step; [|done]. wp_step. wp_step; [|done]. wp_step. rename Hload into Hx.
    unfold SetupDpuOperatorConfigWebhook.
    clear Hq. match type of Hc with controllers ?l = _ => generalize dependent l end. intros l Hc Hw Hs _.
    destruct (webhookCertificatesPresent _ _ _), has_webhook_server; cbn [negb]; repeat (wp_step; try discriminate; lazymatch goal with |- wp _ _ _ _ => idtac | |- _ ∉ _ => log_events | |- _ => idtac end);
      (split; [log_events|]); exists specs; (split; [done|]);
      (split; [rewrite !controllers_app, Hc; cbn; by rewrite ?app_nil_r|]); log_events. }
  unfold wp, exit_code in *. destruct (manager_main f (mkProc w [])) as [p [[]|e]]; cbn [fst snd] in *; [naive_solver|].
  split; [split; done|done].
Qed.

(** The plugin's flags reach its parts.  A process without a cluster refuses
    every network function; with one, the handoff is the cluster's and the annotator
    is restricted to the vendor whose devices are scanned.  In mock mode the daemon's
    handshake answers exactly the flagged card: its PCI address and serial number. *)
Theorem vsp_plan_wiring f (plan : VspPlan W) :
  vsp_plan f = Ok plan →
  (VfGrpcOnly f = true → PlanAnnotator plan = None ∧
     ∀ w req, (CreateNetworkFunction (PlanServer plan) w req).2 ≠ Ok tt ∧ (DeleteNetworkFunction (PlanServer plan) w req).2 ≠ Ok tt) ∧
  (VfGrpcOnly f = false → Handoff (PlanServer plan) = Some (ClusterHandoff true) ∧
     ∃ a, PlanAnnotator plan = Some a ∧
       (VfUsePCI f = true → ∀ enum w, Enumerator (PlanServer plan) = Some enum → enum w = (w, Enumerate "" (AnnVendorID a)))) ∧
  (VfUsePCI f = false → TrimSpace (VfPCI f) ≠ "" → TrimSpace (VfSerial f) ≠ "" →
     ∀ pause w socket mode id,
       Handshake (H := direct_wire (PlanServer plan) pause) w socket mode id =
         (w, Ok {| HrIP := defaultIP; HrPort := defaultPort;
                   HrDevices := {[ VfPCI f := Some {| HdID := VfSerial f; HdHealth := healthOK |} ]} |})).
Proof.
  unfold vsp_plan, choose_enumerator. intros Hp.
  apply result_bind_ok in Hp as ([c filter] & Hc & [= <-]). apply result_bind_ok in Hc as (vendor & _ & Hc).
  unfold plan_server. cbn [PlanServer PlanAnnotator]. split; [|split].
  - intros ->. split; [done|]. intros w req. split; done.
  - intros ->. split; [done|]. eexists. split; [done|]. intros Hpci enum w. cbn [Enumerator NewServer]. intros [= <-].
    rewrite Hpci in Hc. apply result_bind_ok in Hc as (flt & _ & [= <- <-]). done.
  - intros Hpci Haddr Hserial pause w socket mode id. rewrite Hpci in Hc.
    apply result_bind_ok in Hc as (_ & _ & Hc). apply result_bind_ok in Hc as (_ & _ & [= <- <-]).
    set (d := StaticDevice vendor (VfSerial f) (VfPCI f) (VfProduct f)).
    assert (Hd : ValidateIdentity d = Ok tt).
    { unfold ValidateIdentity. cbn. by rewrite !bool_decide_eq_false_2. }
    assert (Hg : ∀ s, Enumerator s = Some (λ w, (w, run_enumerator (MockDevices [d]))) →
      GetDevices s w = (w, Ok {[ VfPCI f := Some {| DevID := VfSerial f; DevHealth := healthOK |} ]})).
    { intros s Hs. unfold GetDevices. rewrite Hs. cbn [run_enumerator mock_enumerate LiveDevices].
      rewrite filter_cons_True, filter_nil by done. done. }
    unfold Handshake. cbn [new_client direct_wire call_Init call_GetDevices]. unfold opi_Init, Init, opi_GetDevices. cbn [result_bind].
    rewrite Hg by (by destruct (VfGrpcOnly f)). cbn [result_bind]. by rewrite !map_fmap_singleton.
Qed.

End Commands.

(** ** Concrete runs *)

Definition mock_flags (grpcOnly : bool) : VspFlags := {|
  VfMetrics := "0"; VfProbe := ":8082"; VfNode := "worker-1"; VfSerial := "MT2333X00001"; VfPCI := "0000:03:00.0";
  VfProduct := ""; VfVendor := "AMD"; VfPCIVendor := ""; VfFirmwareURL := ""; VfBFBURL := "http://bfb"; VfFlavor := "";
  VfFirmwareName := "new"; VfBFBName := "old"; VfUsePCI := false; VfSocket := ""; VfGrpcOnly := grpcOnly |}.

(** The deprecated aliases fill in what the new flags leave empty. *)
Example mock_annotator :
  match vsp_plan (H := vcluster_api) (H0 := demo_sysfs) (mock_flags false) with
  | Ok plan => PlanAnnotator plan
  | Err _ => None
  end = Some {| NodeName := "worker-1"; AnnVendorID := 0; FirmwareURL := "http://bfb"; Flavor := ""; FirmwareName := "new" |}.
Proof. reflexivity. Qed.

(** The daemonset's environment: the serial number and the deprecated firmware URL. *)
Definition daemonset_env (k : string) : string :=
  if k == "DPU_SERIAL_NUMBER" then "MT1" else if k == "DPU_BFB_URL" then "http://bfb" else "".

Example env_annotator :
  match vsp_plan (H := vcluster_api) (H0 := demo_sysfs) (vsp_flag_defaults daemonset_env) with
  | Ok plan => FirmwareURL <$> PlanAnnotator plan
  | Err _ => None
  end = Some "http://bfb".
Proof. reflexivity. Qed.

(** Without a serial number and without --pci the process stops. *)
Example no_hardware :
  is_ok (vsp_plan (H := vcluster_api) (H0 := demo_sysfs) (vsp_flag_defaults (λ _, ""))) = false.
Proof. reflexivity. Qed.

Lemma vsp_plan_wiring_witness :
  ∃ plan : VspPlan VCluster, vsp_plan (H := vcluster_api) (H0 := demo_sysfs) (mock_flags true) = Ok plan ∧
    PlanAnnotator plan = None ∧
    ∀ pause w socket mode id,
      Handshake (H := direct_wire (PlanServer plan) pause) w socket mode id =
        (w, Ok {| HrIP := defaultIP; HrPort := defaultPort;
                  HrDevices := {[ "0000:03:00.0" := Some {| HdID := "MT2333X00001"; HdHealth := healthOK |} ]} |}).
Proof.
  eexists. split; [reflexivity|].
  match goal with |- PlanAnnotator ?p = _ ∧ _ =>
    destruct (vsp_plan_wiring (H1 := vcluster_api) (H2 := demo_sysfs) (mock_flags true) p eq_refl) as (Hgrpc & _ & Hmock) end.
  split; [apply Hgrpc; reflexivity|]. apply Hmock; [reflexivity|vm_compute; discriminate|vm_compute; discriminate].
Defined.

(** The server and the annotator read the bus anew each time. *)
Lemma GetDevices_rereads (s : Server MutableEnumerator) devices m :
  Enumerator s = Some (λ m, (m, mutable_Enumerate m)) →
  (GetDevices s (mutable_Set devices None m)).2 =
    Ok (foldl list_device ∅ (filter (λ d, ValidateIdentity d = Ok tt) devices)) ∧
  ∀ e, is_ok (GetDevices s (mutable_Set devices (Some e) m)).2 = false.
Proof. intros Hs. unfold GetDevices. by rewrite Hs. Qed.

(** A manager whose calls succeed until the budget runs out. *)
Definition spend (n : nat) : nat * option err := match n with O => (O, Some (ENew "refused")) | S n' => (n', None) end.

#[local] Instance counted_manager : ManagerOS nat := {|
  new_manager n _ := spend n; rest_mapping n _ := (n, None); no_kind_match _ := true; complete n _ := spend n;
  new_discovery := spend; has_webhook_server := true; add_runnable := spend; add_healthz := spend; add_readyz := spend;
  start_manager := spend; os_stat _ := None; temp_dir := "/tmp" |}.

#[local] Instance one_document : Files := {|
  ReadDir _ := Ok [("kustomization.yaml", false); ("sfc.yaml", false)]; ReadFile _ := Ok "";
  UnmarshalSpec _ := Ok demo_spec; UnmarshalTable _ := Err (ENew "no table"); PathJoin a b := a +:+ "/" +:+ b |}.

Example manager_run :
  let run n := (exit_code (manager_main manager_flag_defaults) (mkProc n []),
                controllers (PLog (manager_main manager_flag_defaults (mkProc n [])).1)) in
  run 7 = (0%Z, ["sfc"; "lifecycle-manager"]) ∧ run 3 = (1%Z, ["sfc"]).
Proof. vm_compute. done. Qed.

(** Without --enable-http2 neither server negotiates HTTP/2. *)
Lemma http2_off f c :
  FlHTTP2 f = false →
  foldl (λ c o, o c) c (MetricsTLS (MgrMetrics (manager_options f))) = {| NextProtos := ["http/1.1"] |} ∧
  (WebhookTLS <$> MgrWebhook (manager_options f)) = Some (MetricsTLS (MgrMetrics (manager_options f))).
Proof. intros Hf. cbn. unfold tlsOpts. by rewrite Hf. Qed.
