(* ===== verification/StatusTable.v ===== *)
(** * A list of conditions as a table by type

    The writers of status.conditions keep it a list with one condition per type.
    [cond_at] is the condition of a type; each writer's merge is described by
    what it does to the condition of every type: the ones it owns, and the ones
    that belong to somebody else. *)

From Stdlib Require Import Ascii.
From stdpp Require Import base gmap strings list fin_maps.
From S2P Require Import Prelude GoStrings Unstructured MappingSpec MappingEngine Conditions ConditionsFacts.

(** ** Tables *)

Definition cond_type (v : value) : string := match v with VMap m => str_at m "type" | _ => "" end.

Definition well_typed (v : value) : Prop := ∃ m, v = VMap m ∧ str_at m "type" ≠ "".

(** What the CRDs require of [status.conditions]. *)
Definition wf_conds (l : list value) : Prop := Forall well_typed l ∧ NoDup (cond_type <$> l).

Fixpoint cond_at (t : string) (l : list value) : option (gmap string value) :=
  match l with
  | [] => None
  | VMap m :: l' => if str_at m "type" == t then Some m else cond_at t l'
  | _ :: l' => cond_at t l'
  end.

(** The fields of a metav1.Condition that every writer sets; a condition is tidy
    when it has no other. *)
Definition conditionKeys : list string := ["type"; "status"; "reason"; "message"; "lastTransitionTime"].

Definition view (m : gmap string value) : gmap string value := filter (λ kv, kv.1 ∈ conditionKeys) m.

Definition tidy (m : gmap string value) : Prop := view m = m.

#[global] Instance well_typed_dec v : Decision (well_typed v).
Proof.
  destruct v as [| | | | | |m]; try (right; by intros (m' & [=] & _)).
  destruct (decide (str_at m "type" = "")) as [E|E]; [right|left; by exists m].
  by intros (m' & [= ->] & ?).
Defined.

#[global] Instance wf_conds_dec l : Decision (wf_conds l).
Proof. unfold wf_conds. apply _. Defined.

#[global] Instance tidy_dec m : Decision (tidy m).
Proof. unfold tidy. apply _. Defined.

Lemma str_at_type m t : t ≠ "" → str_at m "type" = t ↔ m !! "type" = Some (VString t).
Proof.
  intros Hne. unfold str_at. split; [|by intros ->].
  destruct (m !! "type") as [[]|]; intros <-; done.
Qed.

Lemma cond_at_type t l m : cond_at t l = Some m → VMap m ∈ l ∧ str_at m "type" = t.
Proof.
  induction l as [|v l IH]; [done|]. cbn.
  destruct v as [| | | | | |m']; try (intros H%IH; by split; [right|]; destruct H).
  destruct (bool_decide _) eqn:E; [apply bool_decide_eq_true in E|].
  - intros [= ->]. split; [left|done].
  - intros H%IH. destruct H. split; [by right|done].
Qed.

Lemma cond_at_iff t l m : wf_conds l → cond_at t l = Some m ↔ VMap m ∈ l ∧ str_at m "type" = t.
Proof.
  intros [_ Hnd]. split; [apply cond_at_type|]. intros [Hin <-].
  induction l as [|v l IH]; [by apply elem_of_nil in Hin|]. cbn in Hnd. apply NoDup_cons in Hnd as [Hni Hnd].
  apply elem_of_cons in Hin as [<-|Hin].
  - cbn. by rewrite bool_decide_true.
  - specialize (IH Hnd Hin). destruct v as [| | | | | |m']; cbn; try done.
    rewrite bool_decide_false; [done|]. intros E. apply Hni. cbn. rewrite E.
    by apply (list_elem_of_fmap_2 cond_type) in Hin.
Qed.

Lemma cond_at_none t l : cond_at t l = None → ∀ m, VMap m ∈ l → str_at m "type" ≠ t.
Proof.
  induction l as [|v l IH]; intros H m Hin; [by apply elem_of_nil in Hin|].
  apply elem_of_cons in Hin as [<-|Hin].
  - cbn in H. destruct (bool_decide _) eqn:E in H; [done|]. by apply bool_decide_eq_false in E.
  - apply IH; [|done]. destruct v; try done. cbn in H. by destruct (bool_decide _) in H.
Qed.

(** A filter that keeps every condition of a type keeps the type's entry. *)
Lemma cond_at_filter (P : value → Prop) `{∀ v, Decision (P v)} t l :
  (∀ m, str_at m "type" = t → P (VMap m)) → cond_at t (filter P l) = cond_at t l.
Proof.
  intros HP. induction l as [|v l IH]; [done|].
  destruct (decide (P v)) as [Hv|Hv].
  - rewrite filter_cons_True by done. destruct v; cbn; try done. by rewrite IH.
  - rewrite filter_cons_False by done. rewrite IH. destruct v; cbn; try done.
    rewrite bool_decide_false; [done|]. intros E. by apply Hv, HP.
Qed.

Lemma cond_at_app t l k : cond_at t (l ++ k) = match cond_at t l with Some m => Some m | None => cond_at t k end.
Proof.
  induction l as [|v l IH]; [done|]. destruct v; cbn; try done. by destruct (bool_decide _).
Qed.

Lemma view_lookup m k : view m !! k = if decide (k ∈ conditionKeys) then m !! k else None.
Proof.
  unfold view. rewrite map_lookup_filter. destruct (m !! k); cbn; case_decide; by simplify_option_eq.
Qed.

Lemma view_key m k : k ∈ conditionKeys → view m !! k = m !! k.
Proof. intros Hk. rewrite view_lookup. by rewrite decide_True. Qed.

Lemma view_str_at m k : k ∈ conditionKeys → str_at (view m) k = str_at m k.
Proof. intros Hk. unfold str_at. by rewrite view_key. Qed.

Lemma view_idem m : tidy (view m).
Proof. apply map_eq. intros k. rewrite !view_lookup. by case_decide. Qed.

Lemma tidy_iff m : tidy m ↔ ∀ k, k ∉ conditionKeys → m !! k = None.
Proof.
  split.
  - intros <- k Hk. rewrite view_lookup. by rewrite decide_False.
  - intros H. apply map_eq. intros k. rewrite view_lookup. case_decide; [done|]. by rewrite H.
Qed.

(** *** Replacing and appending *)

Lemma wf_replace pre (c c' : gmap string value) post :
  str_at c' "type" = str_at c "type" → wf_conds (pre ++ VMap c :: post) → wf_conds (pre ++ VMap c' :: post).
Proof.
  intros E [Hf Hnd]. split.
  - apply Forall_app in Hf as [Hp [Hc Hq]%Forall_cons]. apply Forall_app; split; [done|]. constructor; [|done].
    destruct Hc as (m & [= <-] & Hm). exists c'. by rewrite E.
  - rewrite fmap_app, fmap_cons in Hnd |- *. cbn in *. by rewrite E.
Qed.

Lemma cond_at_replace pre (c c' : gmap string value) post t :
  str_at c' "type" = str_at c "type" → t ≠ str_at c "type" →
  cond_at t (pre ++ VMap c' :: post) = cond_at t (pre ++ VMap c :: post).
Proof.
  intros E Ht. rewrite !cond_at_app. cbn. rewrite E. by rewrite bool_decide_false by congruence.
Qed.

Lemma wf_snoc l (c : gmap string value) :
  wf_conds l → str_at c "type" ≠ "" → cond_at (str_at c "type") l = None → wf_conds (l ++ [VMap c]).
Proof.
  intros [Hf Hnd] Hne Hno. split.
  - apply Forall_app; split; [done|]. constructor; [by exists c|constructor].
  - rewrite fmap_app. apply NoDup_app. split_and!; [done| |apply NoDup_singleton].
    intros t (v & -> & Hv)%list_elem_of_fmap Hc. apply list_elem_of_singleton in Hc. cbn in Hc.
    destruct (proj1 (Forall_forall _ _) Hf v Hv) as (m & -> & Hm). cbn in Hc.
    eapply cond_at_none; [exact Hno|exact Hv|done].
Qed.

Lemma cond_at_snoc_ne t l (c : gmap string value) :
  t ≠ str_at c "type" → cond_at t (l ++ [VMap c]) = cond_at t l.
Proof. intros Ht. rewrite cond_at_app. cbn. rewrite bool_decide_false by congruence. by destruct (cond_at t l). Qed.

(** An element in a list with one condition per type is the type's entry. *)
Lemma cond_at_here pre (c : gmap string value) post :
  wf_conds (pre ++ VMap c :: post) → cond_at (str_at c "type") (pre ++ VMap c :: post) = Some c.
Proof. intros Hw. apply cond_at_iff; [done|]. split; [|done]. rewrite elem_of_app. right. left. Qed.

(** ** What a write does to the table *)

(** The condition of a type the daemon owns, in any case. *)
Definition reserved_type (t : string) : Prop := EqualFold t ReservedConditionType = true.

(** [l'] is what a writer that owns the types [own] makes of [l]: it stays a
    table, the conditions of other types stay or lose the fields outside
    [conditionKeys], and a condition that is new is tidy or a Ready. *)
Record wrote (own : string → Prop) (l l' : list value) : Prop := {
  wrote_wf : wf_conds l';
  wrote_frame : ∀ t, ¬ own t → cond_at t l' = cond_at t l ∨ cond_at t l' = view <$> cond_at t l;
  wrote_tidy : ∀ t m, cond_at t l' = Some m → reserved_type t ∨ tidy m ∨ cond_at t l = Some m }.

Lemma wrote_refl own l : wf_conds l → wrote own l l.
Proof. intros Hw. split; auto. Qed.

Lemma wrote_mono (own own' : string → Prop) l l' : (∀ t, own t → own' t) → wrote own l l' → wrote own' l l'.
Proof. intros Hsub [Hw Hf Ht]. split; auto. Qed.

Lemma wrote_trans own l1 l2 l3 : wrote own l1 l2 → wrote own l2 l3 → wrote own l1 l3.
Proof.
  intros H1 H2. split.
  - apply (wrote_wf _ _ _ H2).
  - intros t Ht. destruct (wrote_frame _ _ _ H2 t Ht) as [-> | ->]; [by apply (wrote_frame _ _ _ H1)|].
    right. destruct (wrote_frame _ _ _ H1 t Ht) as [-> | ->]; [done|].
    destruct (cond_at t l1); [|done]. cbn. f_equal. apply view_idem.
  - intros t m Hm. destruct (wrote_tidy _ _ _ H2 t m Hm) as [?|[?|Hm2]]; [auto..|].
    by apply (wrote_tidy _ _ _ H1).
Qed.

(** *** The lifecycle manager *)

Lemma condition_item_tidy next time : tidy (condition_item next time).
Proof.
  apply tidy_iff. intros k Hk. unfold condition_item, conditionKeys in *.
  rewrite !lookup_insert_ne, lookup_singleton_ne by ne_key. done.
Qed.

Lemma condition_item_type next time : str_at (condition_item next time) "type" = OcType next.
Proof. unfold str_at. destruct (condition_item_says next time) as [(-> & _) _]. done. Qed.

Lemma upsert_owned_table now next l :
  wf_conds l → OcType next ≠ "" →
  let l' := (upsert_owned now next l).1 in
  wrote (eq (OcType next)) l l' ∧ ∀ t, t ≠ OcType next → cond_at t l' = cond_at t l.
Proof.
  intros Hw Hne. unfold upsert_owned.
  destruct (replace_owned_spec now next l) as
    [[-> Hf]|(pre & c & post & ch & c' & -> & Hp & Ht & -> & Hc)]; cbn [fst].
  - set (item := condition_item next (VString now)).
    assert (Hty : str_at item "type" = OcType next) by apply condition_item_type.
    assert (Hno : cond_at (str_at item "type") l = None).
    { rewrite Hty. destruct (cond_at (OcType next) l) as [m|] eqn:E; [|done].
      apply cond_at_type in E as [Hin Hm]. apply (str_at_type _ _ Hne) in Hm.
      pose proof (proj1 (Forall_forall _ _) Hf _ Hin) as Hx. cbn in Hx.
      apply field_is_false in Hx. congruence. }
    split; [split|].
    + apply wf_snoc; [done|by rewrite Hty|done].
    + intros t Ht. left. apply cond_at_snoc_ne. rewrite Hty. congruence.
    + intros t m. rewrite cond_at_app. destruct (cond_at t l) as [m0|]; [by auto|]. cbn.
      destruct (bool_decide _); [|done]. intros [= <-]. right; left. apply condition_item_tidy.
    + intros t Ht. apply cond_at_snoc_ne. by rewrite Hty.
  - assert (Hct : str_at c "type" = OcType next).
    { cbn in Ht. apply field_is_true in Ht. unfold str_at. by rewrite Ht. }
    assert (Hty : str_at c' "type" = str_at c "type").
    { destruct Hc as [(_ & -> & _)|(_ & _ & ->)]; [done|]. by rewrite condition_item_type, Hct. }
    pose proof (wf_replace pre c c' post Hty Hw) as Hw'.
    split; [split|]; [done| | |].
    + intros t Hto. left. apply cond_at_replace; [done|]. congruence.
    + intros t m Hm. destruct (decide (t = str_at c "type")) as [->|Hto].
      * rewrite <- Hty, cond_at_here in Hm by done. injection Hm as <-.
        destruct Hc as [(_ & -> & _)|(_ & _ & ->)]; [right; right|right; left; apply condition_item_tidy].
        by apply cond_at_here.
      * right; right. by rewrite (cond_at_replace pre c c') in Hm.
    + intros t Hto. apply cond_at_replace; [done|]. congruence.
Qed.

Definition owned_types (want : list (ownedCondition * string)) : list string := (λ w, OcType w.1) <$> want.

Lemma merge_owned_cons conds next now want :
  (merge_owned conds ((next, now) :: want)).1 = (merge_owned (upsert_owned now next conds).1 want).1.
Proof.
  cbn [merge_owned]. destruct (upsert_owned now next conds) as [c1 ch1]. cbn [fst].
  by destruct (merge_owned c1 want).
Qed.

Lemma merge_owned_table l want :
  wf_conds l → "" ∉ owned_types want → wrote (λ t, t ∈ owned_types want) l (merge_owned l want).1.
Proof.
  revert l. induction want as [|[next now] want IH]; intros l Hw Hne; [by apply wrote_refl|].
  cbn in Hne. apply not_elem_of_cons in Hne as [Hn Hne]. rewrite merge_owned_cons.
  destruct (upsert_owned_table now next l Hw) as [Hu _]; [done|].
  eapply wrote_trans; (eapply wrote_mono; [|done || by apply IH; [apply (wrote_wf _ _ _ Hu)|]]).
  - intros t <-. left.
  - intros t Ht. by right.
Qed.

(** The first condition of a type is the type's entry. *)
Lemma first_says_cond_at next l :
  OcType next ≠ "" → first_says next l ↔ ∃ c, cond_at (OcType next) l = Some c ∧ says next c.
Proof.
  intros Hne. unfold first_says. induction l as [|v l IH].
  { split; [by intros (? & ? & ? & _)|by intros (? & ? & _)]. }
  destruct (is_type (OcType next) v) eqn:Et.
  - rewrite filter_cons_True by done. destruct v as [| | | | | |m]; try discriminate Et. cbn.
    cbn in Et. apply field_is_true in Et. rewrite bool_decide_true by (by apply str_at_type). naive_solver.
  - rewrite filter_cons_False by congruence. rewrite IH. destruct v as [| | | | | |m]; try done. cbn.
    cbn in Et. apply field_is_false in Et. rewrite bool_decide_false by (by rewrite str_at_type). done.
Qed.

(** Every wanted condition is in the table. *)
Definition lcm_settled (want : list ownedCondition) (l : list value) : Prop :=
  ∀ next, next ∈ want → ∃ c, cond_at (OcType next) l = Some c ∧ says next c.

Lemma merge_owned_settles l want :
  NoDup (owned_types want) → "" ∉ owned_types want → lcm_settled want.*1 (merge_owned l want).1.
Proof.
  intros Hnd Hne next ([n now] & -> & Hin)%list_elem_of_fmap. cbn.
  apply first_says_cond_at; [|by eapply merge_first_says].
  intros E. apply Hne. rewrite <- E. by apply (list_elem_of_fmap_2 (λ w, OcType w.1)) in Hin.
Qed.

Lemma merge_owned_quiet l want :
  NoDup (owned_types want) → "" ∉ owned_types want →
  (merge_owned l want).2 = false ↔ lcm_settled want.*1 l.
Proof.
  intros Hnd Hne. split.
  - intros E. pose proof (merge_owned_spec l want Hnd) as Hs. pose proof (merge_owned_settles l want Hnd Hne) as H.
    destruct (merge_owned l want) as [l' ch]. cbn in *. subst ch. destruct Hs as [Hs _]. by rewrite Hs in H.
  - intros Hs. enough (merge_owned l want = (l, false)) as -> by done. apply merge_owned_noop.
    intros [n now] Hin. apply first_says_cond_at.
    + intros E. apply Hne. rewrite <- E. by apply (list_elem_of_fmap_2 (λ w, OcType w.1)) in Hin.
    + apply Hs. by apply (list_elem_of_fmap_2 fst) in Hin.
Qed.

(** *** The daemon *)

Lemma is_ready_type v : is_ready v = true ↔ cond_type v = ReservedConditionType.
Proof.
  destruct v as [| | | | | |m]; cbn; try done. unfold is_ready. cbn. rewrite field_is_true.
  by rewrite (str_at_type m ReservedConditionType).
Qed.

Lemma ready_loop_types healthy now raw :
  let out := (ready_loop healthy now raw).1.1 in
  cond_type <$> out = cond_type <$> raw ∧ (Forall well_typed raw → Forall well_typed out).
Proof.
  induction raw as [|item raw [IHt IHf]]; [done|]. cbn [ready_loop].
  destruct (ready_loop healthy now raw) as [[out found] changed]. cbn in IHt, IHf.
  assert (Hkeep : cond_type <$> item :: out = cond_type <$> item :: raw ∧
    (Forall well_typed (item :: raw) → Forall well_typed (item :: out))).
  { cbn. rewrite IHt. split; [done|]. intros [? ?]%Forall_cons. constructor; auto. }
  destruct item as [| | | | | |m]; try exact Hkeep. destruct (negb _); [exact Hkeep|].
  destruct (refresh_ready healthy now m) as [next ch] eqn:E. cbn.
  apply refresh_ready_spec in E as (_ & Hfr & _).
  assert (Hty : str_at next "type" = str_at m "type").
  { unfold str_at. by rewrite Hfr by (by rewrite !elem_of_cons, elem_of_nil; naive_solver). }
  rewrite Hty, IHt. split; [done|]. intros [(m' & [= <-] & Hm) Hf]%Forall_cons.
  constructor; [|auto]. exists next. by rewrite Hty.
Qed.

Definition daemon_settled (healthy : bool) (l : list value) : Prop :=
  ∃ c, cond_at ReservedConditionType l = Some c ∧ ready_says healthy c.

Lemma cond_at_not_ready t l l' :
  t ≠ ReservedConditionType →
  filter (λ v, is_ready v = false) l' = filter (λ v, is_ready v = false) l → cond_at t l' = cond_at t l.
Proof.
  intros Ht E.
  rewrite <- (cond_at_filter (λ v, is_ready v = false) t l'), E; [apply cond_at_filter|];
    intros m <-; apply not_true_iff_false; rewrite is_ready_type; done.
Qed.

Lemma wf_upsertReady healthy now l l' :
  wf_conds l → upsertReadyCondition healthy now l = Some l' → wf_conds l'.
Proof.
  intros Hw. unfold upsertReadyCondition. pose proof (ready_loop_spec healthy now l) as Hs.
  pose proof (ready_loop_types healthy now l) as [Ht Hf].
  destruct (ready_loop healthy now l) as [[out found] changed]. destruct Hs as (_ & _ & Hfound & _).
  cbn [fst] in *. assert (Hout : wf_conds out) by (destruct Hw as [? ?]; split; [auto|by rewrite Ht]).
  destruct found; [destruct changed; [|done]; by intros [= <-]|].
  destruct (ready_want healthy) as [[st reason] message]. intros [= <-].
  apply wf_snoc; [done|done|]. destruct (cond_at _ out) as [m|] eqn:E; [|done].
  apply cond_at_type in E as [Hin Hm]. destruct Hfound as [_ Hfound]. discriminate Hfound.
  apply Exists_exists. exists (VMap m). split; [done|]. apply is_ready_type. exact Hm.
Qed.

Lemma upsertReady_table healthy now l l' :
  wf_conds l → upsertReadyCondition healthy now l = Some l' →
  wrote (eq ReservedConditionType) l l' ∧ daemon_settled healthy l'.
Proof.
  intros Hw Hu. pose proof (wf_upsertReady _ _ _ _ Hw Hu) as Hw'.
  apply upsertReady_spec in Hu as (Hf & Hex & Hd). split; [split; [done|..]|].
  - intros t Ht. left. by apply cond_at_not_ready.
  - intros t m Hm. destruct (decide (t = ReservedConditionType)) as [->|Ht]; [by left|].
    right; right. rewrite <- Hm. symmetry. by apply cond_at_not_ready.
  - apply Exists_exists in Hex as (v & Hv & Hr). destruct v as [| | | | | |m]; try discriminate Hr.
    exists m. split; [|by apply Hd]. apply cond_at_iff; [done|]. split; [done|]. by apply is_ready_type in Hr.
Qed.

Lemma upsertReady_quiet healthy now l :
  wf_conds l → upsertReadyCondition healthy now l = None ↔ daemon_settled healthy l.
Proof.
  intros Hw. unfold upsertReadyCondition. pose proof (ready_loop_spec healthy now l) as Hs.
  destruct (ready_loop healthy now l) as [[out found] changed]. destruct Hs as (_ & Hd & Hf & Hc & Hid).
  assert (Hone : daemon_settled healthy l ↔ Exists (λ v, is_ready v = true) l ∧ ready_done healthy l).
  { split.
    - intros (c & [Hin Hty]%cond_at_type & Hs). split.
      + apply Exists_exists. exists (VMap c). split; [done|]. by apply is_ready_type.
      + intros m Hm Hr. apply is_ready_type in Hr.
        enough (Some m = Some c) as [= ->] by done.
        rewrite <- (proj2 (cond_at_iff (str_at m "type") l m Hw)) by done. cbn in Hr. rewrite Hr.
        by apply cond_at_iff.
    - intros [(v & Hv & Hr)%Exists_exists Hdone]. destruct v as [| | | | | |m]; try discriminate Hr.
      exists m. split; [|by apply Hdone]. apply cond_at_iff; [done|]. split; [done|]. by apply is_ready_type in Hr. }
  rewrite Hone. destruct found, changed; cbn.
  - split; [done|]. intros [_ H%Hc]. done.
  - split; [|done]. intros _. rewrite (Hid eq_refl) in Hf. split; [by apply Hf|by apply Hc].
  - destruct (ready_want healthy) as [[? ?] ?]. split; [done|]. intros [_ H%Hc]. done.
  - destruct (ready_want healthy) as [[? ?] ?]. split; [done|]. intros [He _].
    rewrite (Hid eq_refl) in Hf. by apply Hf in He.
Qed.
