(* ===== verification/StatusMerge.v ===== *)
(** * The translator's merge, by type
      (pkg/translation/translation_controller.go: mergeConditions) *)

From Stdlib Require Import Ascii.
From stdpp Require Import base gmap strings list fin_maps.
From S2P Require Import Prelude GoStrings Unstructured MappingSpec MappingEngine Conditions ConditionsFacts StatusTable.

(** The condition that a desired one becomes beside the one stored. *)
Definition next_base (dm : gmap string value) (st : value) : gmap string value :=
  copy_key "message" dm (copy_key "reason" dm {[ "type" := VString (str_at dm "type"); "status" := st ]}).

Definition next_condition (now : string) (dm : gmap string value) (st : value) (prev : option (gmap string value))
    : gmap string value :=
  match prev with
  | Some p => if p !! "status" == Some st then copy_key "lastTransitionTime" p (next_base dm st)
              else <["lastTransitionTime" := VString now]> (next_base dm st)
  | None => <["lastTransitionTime" := VString now]> (next_base dm st)
  end.

Lemma upsertable_status dm st : upsertable dm st → dm !! "status" = Some st.
Proof.
  intros (_ & _ & Hst). unfold has_status in Hst.
  destruct (dm !! "status") as [[]|]; try case_bool_decide; by simplify_eq.
Qed.

Lemma next_base_lookup dm st k :
  upsertable dm st → next_base dm st !! k = if decide (k ∈ ["type"; "status"; "reason"; "message"]) then dm !! k else None.
Proof.
  intros Hu. pose proof (upsertable_status dm st Hu) as Hs. destruct Hu as (Hne & _).
  unfold next_base. rewrite !copy_key_lookup.
  assert (Hty : dm !! "type" = Some (VString (str_at dm "type"))) by (by apply str_at_type).
  destruct (decide (k = "message")) as [->|H1]; [by destruct (dm !! "message"); simplify_map_eq|].
  destruct (decide (k = "reason")) as [->|H2]; [by destruct (dm !! "reason"); simplify_map_eq|].
  destruct (decide (k = "type")) as [->|H3]; [by simplify_map_eq|].
  destruct (decide (k = "status")) as [->|H4]; [by simplify_map_eq|].
  rewrite lookup_insert_ne, lookup_singleton_ne by done. by rewrite decide_False by set_solver.
Qed.

Lemma next_condition_tidy now dm st prev : upsertable dm st → tidy (next_condition now dm st prev).
Proof.
  intros Hu. apply tidy_iff. intros k Hk. unfold conditionKeys in Hk.
  assert (Hb : next_base dm st !! k = None).
  { rewrite next_base_lookup by done. by rewrite decide_False by set_solver. }
  unfold next_condition. destruct prev as [p|]; [case_bool_decide|]; cbn;
    rewrite ?copy_key_lookup, ?decide_False, ?lookup_insert_ne by ne_key; done.
Qed.

Lemma next_condition_type now dm st prev :
  upsertable dm st → str_at (next_condition now dm st prev) "type" = str_at dm "type".
Proof.
  intros Hu. unfold str_at at 1.
  assert (E : next_condition now dm st prev !! "type" = dm !! "type").
  { transitivity (next_base dm st !! "type"); [|by rewrite next_base_lookup].
    unfold next_condition. destruct prev as [p|]; [case_bool_decide|]; cbn;
      rewrite ?copy_key_lookup, ?lookup_insert_ne by done; done. }
  by rewrite E.
Qed.

(** A condition carried over as it is keeps the fields of [conditionKeys]. *)
Lemma next_condition_carried now p st : upsertable p st → next_condition now p st (Some p) = view p.
Proof.
  intros Hu. unfold next_condition. rewrite bool_decide_true by (by apply upsertable_status). apply map_eq. intros k. rewrite view_lookup, copy_key_lookup.
  rewrite next_base_lookup by done. unfold conditionKeys.
  destruct (decide (k = "lastTransitionTime")) as [->|Hk]; [by destruct (p !! "lastTransitionTime")|].
  destruct (decide (k ∈ ["type"; "status"; "reason"; "message"])); [rewrite decide_True by set_solver; done|].
  by rewrite decide_False by set_solver.
Qed.

(** ** The loop *)

Lemma merge_step_next now s dm st :
  upsertable dm st →
  let t := str_at dm "type" in
  let next := next_condition now dm st (byType s !! t) in
  merge_step now s (VMap dm) =
  {| byType := <[t := next]> (byType s);
     order := match byType s !! t with Some _ => order s | None => order s ++ [t] end;
     m_changed := match byType s !! t with Some p => if p != next then true else m_changed s | None => true end |}.
Proof.
  intros (E1 & E2 & Es). unfold merge_step. cbv zeta. rewrite bool_decide_false by done. by rewrite E2, Es.
Qed.

(** A desired value that does not count leaves the state as it is. *)
Lemma merge_step_skip now s d :
  (∀ dm st, d = VMap dm → ¬ upsertable dm st) → merge_step now s d = s.
Proof.
  intros Hno. destruct (merge_step_cases now s d) as [->|(dm & st & _ & -> & Hu & _)]; [done|].
  by destruct (Hno dm st).
Qed.

(** [d] is one of the conditions that count. *)
Definition counts (ds : list value) (dm : gmap string value) (st : value) : Prop := VMap dm ∈ ds ∧ upsertable dm st.

Lemma upsertable_dec d : (∃ dm st, d = VMap dm ∧ upsertable dm st) ∨ (∀ dm st, d = VMap dm → ¬ upsertable dm st).
Proof.
  destruct d as [| | | | | |dm]; try (right; done).
  destruct (decide (str_at dm "type" = "")) as [E|Hne]; [right; by intros ? ? [= <-] [? _]|].
  destruct (EqualFold (str_at dm "type") ReservedConditionType) eqn:Er;
    [right; intros ? ? [= <-] (_ & ? & _); congruence|].
  destruct (has_status dm) as [st|] eqn:Es; [left; by exists dm, st|].
  right. intros ? ? [= <-] (_ & _ & ?). congruence.
Qed.

Lemma counts_type ds t :
  (∃ dm st, counts ds dm st ∧ str_at dm "type" = t) ∨ (∀ dm st, counts ds dm st → str_at dm "type" ≠ t).
Proof.
  induction ds as [|d ds [(dm & st & [? ?] & ?)|IH]].
  - right. by intros dm st [?%elem_of_nil _].
  - left. exists dm, st. split; [split; [by right|done]|done].
  - destruct (upsertable_dec d) as [(dm & st & -> & Hu)|Hsk].
    + destruct (decide (str_at dm "type" = t)) as [E|E]; [left; exists dm, st; split; [split; [left|done]|done]|].
      right. intros dm' st' [[[= ->]|?]%elem_of_cons ?]; [done|]. apply (IH dm' st'). by split.
    + right. intros dm' st' [[<-|?]%elem_of_cons ?]; [by destruct (Hsk dm' st')|]. apply (IH dm' st'). by split.
Qed.

Lemma fresh_type t (ds : list value) (dm : gmap string value) : t ∉ cond_type <$> ds → VMap dm ∈ ds → t ≠ str_at dm "type".
Proof. intros Hni Hin ->. apply Hni. by apply (list_elem_of_fmap_2 cond_type) in Hin. Qed.

Lemma merge_steps_other now s ds t :
  (∀ dm st, counts ds dm st → str_at dm "type" ≠ t) →
  byType (foldl (merge_step now) s ds) !! t = byType s !! t.
Proof.
  revert s. induction ds as [|d ds IH]; intros s Hno; [done|]. cbn. rewrite IH.
  2: { intros dm st [Hin Hu]. apply (Hno dm st). split; [by right|done]. }
  destruct (upsertable_dec d) as [(dm & st & -> & Hu)|Hsk]; [|by rewrite merge_step_skip].
  rewrite (merge_step_next _ _ _ _ Hu). cbn. apply lookup_insert_ne. apply (Hno dm st). split; [left|done].
Qed.

Lemma merge_steps_own now s ds dm st :
  NoDup (cond_type <$> ds) → counts ds dm st →
  byType (foldl (merge_step now) s ds) !! str_at dm "type" =
  Some (next_condition now dm st (byType s !! str_at dm "type")).
Proof.
  revert s. induction ds as [|d ds IH]; intros s Hnd [Hin Hu]; [by apply elem_of_nil in Hin|].
  cbn in Hnd |- *. apply NoDup_cons in Hnd as [Hni Hnd]. apply elem_of_cons in Hin as [<-|Hin].
  - rewrite merge_steps_other, (merge_step_next _ _ _ _ Hu); [cbn; by rewrite lookup_insert_eq|].
    intros dm' st' [Hin' _] E. by eapply fresh_type.
  - rewrite IH by done. do 2 f_equal.
    destruct (upsertable_dec d) as [(dm' & st' & -> & Hu')|Hsk]; [|by rewrite merge_step_skip].
    rewrite (merge_step_next _ _ _ _ Hu'). cbn. apply lookup_insert_ne. by eapply fresh_type.
Qed.

Lemma merge_steps_changed now s ds :
  NoDup (cond_type <$> ds) →
  m_changed (foldl (merge_step now) s ds) = false ↔
  m_changed s = false ∧
  ∀ dm st, counts ds dm st →
    byType s !! str_at dm "type" = Some (next_condition now dm st (byType s !! str_at dm "type")).
Proof.
  revert s. induction ds as [|d ds IH]; intros s Hnd; cbn.
  { split; [|by intros [? _]]. intros ?. split; [done|]. intros dm st [Hin _]. by apply elem_of_nil in Hin. }
  apply NoDup_cons in Hnd as [Hni Hnd]. rewrite IH by done.
  destruct (upsertable_dec d) as [(dm & st & -> & Hu)|Hsk].
  - assert (Hother : ∀ dm' st', counts ds dm' st' → str_at dm "type" ≠ str_at dm' "type").
    { intros dm' st' [Hin _]. by eapply fresh_type. }
    rewrite (merge_step_next _ _ _ _ Hu). cbn. split.
    + intros [Hc Hr]. split; [by destruct (byType s !! _); [case_bool_decide|]|].
      intros dm' st' [Hin Hu']. apply elem_of_cons in Hin as [[= ->]|Hin].
      * assert (st' = st) as -> by (destruct Hu as (_ & _ & ?), Hu' as (_ & _ & ?); congruence).
        destruct (byType s !! _) as [p|] eqn:E; [|done]. case_bool_decide; [|done]. by f_equal.
      * pose proof (Hother dm' st' (conj Hin Hu')) as Hne. specialize (Hr dm' st' (conj Hin Hu')).
        by rewrite lookup_insert_ne in Hr by done.
    + intros [Hm Hr]. pose proof (Hr dm st) as Hd. split.
      * destruct (byType s !! _) as [p|]; [|by discriminate Hd; split; [left|]].
        rewrite bool_decide_true; [done|]. assert (Some p = Some (next_condition now dm st (Some p))) as [=] by
          (apply Hd; split; [left|done]). done.
      * intros dm' st' Hc. rewrite lookup_insert_ne by (by eapply Hother). apply Hr.
        destruct Hc. split; [by right|done].
  - rewrite merge_step_skip by done. apply and_iff_compat_l. unfold counts. setoid_rewrite elem_of_cons.
    split; intros Hr dm st; [|intros [? ?]; apply Hr; by split; [right|]].
    intros [[<-|Hin] Hu]; [by destruct (Hsk dm st)|by apply Hr].
Qed.

(** ** The table that comes out *)

(** The order lists the types of the table, each once. *)
Record merge_good (s : merge_state) : Prop := {
  good_order : NoDup (order s);
  good_dom : ∀ t, t ∈ order s ↔ is_Some (byType s !! t);
  good_type : ∀ t m, byType s !! t = Some m → str_at m "type" = t ∧ t ≠ "" }.

Lemma merge_good_init l : wf_conds l → merge_good (merge_init l) ∧ ∀ t, byType (merge_init l) !! t = cond_at t l.
Proof.
  intros Hw. destruct (merge_init_spec l) as (_ & Ho & Hb & Hn).
  assert (Hty : types_of l = cond_type <$> l).
  { destruct Hw as [Hf _]. clear -Hf. unfold types_of. induction Hf as [|v l (m & -> & _) Hf IH]; [done|].
    cbn. f_equal. exact IH. }
  rewrite Hty in Ho, Hn. pose proof Hw as [Hf Hnd].
  assert (Hat : ∀ t, byType (merge_init l) !! t = cond_at t l).
  { intros t. apply option_eq. intros m. rewrite cond_at_iff by done.
    split; [apply Hb|]. intros [Hin <-]. by apply Hn. }
  split; [|done]. split.
  - by rewrite Ho.
  - intros t. rewrite Ho, Hat, list_elem_of_fmap. split.
    + intros (v & -> & Hv). destruct (proj1 (Forall_forall _ _) Hf v Hv) as (m & -> & _). exists m. by apply cond_at_iff.
    + intros [m Hm]. apply cond_at_type in Hm as [Hin <-]. by exists (VMap m).
  - intros t m Hm. destruct (Hb t m Hm) as [Hin Hmt]. split; [done|].
    destruct (proj1 (Forall_forall _ _) Hf _ Hin) as (m' & [= <-] & ?). congruence.
Qed.

Lemma merge_good_step now s d : merge_good s → merge_good (merge_step now s d).
Proof.
  intros [Hnd Hdom Hty]. destruct (upsertable_dec d) as [(dm & st & -> & Hu)|Hsk]; [|by rewrite merge_step_skip].
  rewrite (merge_step_next _ _ _ _ Hu). set (t := str_at dm "type").
  assert (Hin : t ∈ order s ↔ is_Some (byType s !! t)) by apply Hdom. split; cbn.
  - destruct (byType s !! t); [done|]. apply NoDup_app. split_and!; [done| |apply NoDup_singleton].
    intros t' Ht' ->%list_elem_of_singleton. apply Hin in Ht' as [? ?]. done.
  - intros t'. rewrite lookup_insert_is_Some. destruct (byType s !! t) eqn:E;
      rewrite ?elem_of_app, ?list_elem_of_singleton, ?Hdom; destruct (decide (t = t')) as [<-|]; naive_solver.
  - intros t' m. rewrite lookup_insert_Some. intros [[<- <-]|[_ Hm]]; [|by apply Hty].
    rewrite next_condition_type by done. split; [done|]. by destruct Hu.
Qed.

Lemma merge_good_steps now s ds : merge_good s → merge_good (foldl (merge_step now) s ds).
Proof. revert s. induction ds as [|d ds IH]; intros s Hs; [done|]. by apply IH, merge_good_step. Qed.

Lemma merge_out s :
  merge_good s →
  let out := (λ t, VMap (default ∅ (byType s !! t))) <$> order s in
  wf_conds out ∧ ∀ t, cond_at t out = byType s !! t.
Proof.
  intros [Hnd Hdom Hty] out.
  assert (Hel : ∀ t, t ∈ order s → ∃ m, byType s !! t = Some m ∧ str_at m "type" = t ∧ t ≠ "").
  { intros t [m Hm]%Hdom. exists m. by destruct (Hty t m Hm). }
  assert (Hw : wf_conds out).
  { split.
    - apply Forall_fmap, Forall_forall. intros t Ht. destruct (Hel t Ht) as (m & Hm & Hmt & Hne). cbn. rewrite Hm.
      exists m. by rewrite Hmt.
    - replace (cond_type <$> out) with (order s); [done|]. unfold out. rewrite <- list_fmap_compose.
      symmetry. rewrite <- (list_fmap_id (order s)) at 2. apply list_fmap_ext. intros i t Ht. cbn.
      apply list_elem_of_lookup_2 in Ht. destruct (Hel t Ht) as (m & -> & Hmt & _). done. }
  split; [done|]. intros t. apply option_eq. intros m. rewrite cond_at_iff by done. split.
  - intros [(t' & Hv & Ht')%list_elem_of_fmap Hmt]. destruct (Hel t' Ht') as (m' & Hm' & Hmt' & _).
    rewrite Hm' in Hv. cbn in Hv. congruence.
  - intros Hm. destruct (Hty t m Hm) as [Hmt _]. split; [|done]. apply list_elem_of_fmap. exists t.
    rewrite Hm. split; [done|]. apply Hdom. by exists m.
Qed.

(** [mergeConditions], type by type. *)
Lemma mergeConditions_table now l ds :
  wf_conds l → NoDup (cond_type <$> ds) →
  let out := (mergeConditions now l ds).1 in
  wf_conds out ∧
  (∀ dm st, counts ds dm st →
     cond_at (str_at dm "type") out = Some (next_condition now dm st (cond_at (str_at dm "type") l))) ∧
  (∀ t, (∀ dm st, counts ds dm st → str_at dm "type" ≠ t) → cond_at t out = cond_at t l) ∧
  ((mergeConditions now l ds).2 = false ↔
   ∀ dm st, counts ds dm st →
     cond_at (str_at dm "type") l = Some (next_condition now dm st (cond_at (str_at dm "type") l))).
Proof.
  intros Hw Hnd. destruct (merge_good_init l Hw) as [Hg Hat]. unfold mergeConditions. cbn [fst snd].
  pose proof (merge_good_steps now _ ds Hg) as Hg'. destruct (merge_out _ Hg') as [Hwo Hao].
  split_and!; [done|..].
  - intros dm st Hc. by rewrite Hao, (merge_steps_own now _ ds dm st Hnd Hc), Hat.
  - intros t Ht. by rewrite Hao, merge_steps_other, Hat.
  - rewrite merge_steps_changed by done. setoid_rewrite Hat.
    assert (Hinit : m_changed (merge_init l) = false).
    { clear. induction l as [|e l IH] using rev_ind; [done|]. rewrite merge_init_snoc. by destruct e. }
    naive_solver.
Qed.

(** ** A mapping's write *)

(** A condition that the engine builds for a declared type: no time of its own,
    and a type under one of the keys that the mapping writes. *)
Record own_ok (writes : list string) (dm : gmap string value) : Prop := {
  own_upsertable : ∃ st, upsertable dm st;
  own_keys : ∀ k, k ∉ ["type"; "status"; "reason"; "message"] → dm !! k = None;
  own_written : cond_key (str_at dm "type") ∈ writes }.

Definition wf_own (writes : list string) (own : list value) : Prop :=
  NoDup (cond_type <$> own) ∧ ∀ v, v ∈ own → ∃ dm, v = VMap dm ∧ own_ok writes dm.

(** The conditions that a mapping writes under the keys [writes] sends after it
    has read [l] and built [own]; [None] when nothing changed. *)
Definition translator_merge (writes : list string) (own : list value) (now : string) (l : list value)
    : option (list value) :=
  let '(merged, changed) := mergeConditions now l (filter (λ v, foreign_condition writes v = true) l ++ own) in
  if changed then Some merged else None.

Definition translator_settled (writes : list string) (own l : list value) : Prop :=
  (∀ dm, VMap dm ∈ own → ∃ c, cond_at (str_at dm "type") l = Some c ∧ delete "lastTransitionTime" c = dm) ∧
  ∀ c st, VMap c ∈ l → foreign_condition writes (VMap c) = true → upsertable c st → tidy c.

Lemma foreign_not_written writes dm : foreign_condition writes (VMap dm) = true → cond_key (str_at dm "type") ∉ writes.
Proof.
  unfold foreign_condition. cbn. intros H. apply negb_true_iff, orb_false_iff in H as [_ H].
  by apply bool_decide_eq_false in H.
Qed.

Section TranslatorMerge.
Context (writes : list string) (own : list value) (Hown : wf_own writes own).

Lemma desired_types l :
  wf_conds l → NoDup (cond_type <$> filter (λ v, foreign_condition writes v = true) l ++ own).
Proof.
  intros [Hf Hnd]. destruct Hown as [Hno Ho]. rewrite fmap_app. apply NoDup_app. split_and!; [| |done].
  - eapply sublist_NoDup; [exact Hnd|]. apply fmap_sublist, sublist_filter.
  - intros t (v & -> & Hv)%list_elem_of_fmap (v' & E & Hv')%list_elem_of_fmap.
    apply list_elem_of_filter in Hv as [Hfor Hv]. destruct (Ho v' Hv') as (dm' & -> & [_ _ Hw]).
    destruct (proj1 (Forall_forall _ _) Hf v Hv) as (dm & -> & _). cbn in E.
    apply foreign_not_written in Hfor. by rewrite E in Hfor.
Qed.

Lemma own_counts l dm : VMap dm ∈ own → ∃ st, counts (l ++ own) dm st.
Proof.
  intros Hin. destruct Hown as [_ Ho]. destruct (Ho _ Hin) as (dm' & [= <-] & [[st Hu] _ _]).
  exists st. split; [|done]. rewrite elem_of_app. by right.
Qed.

(** The stored condition that an own one leaves alone. *)
Lemma own_next now dm st c :
  own_ok writes dm → upsertable dm st → next_condition now dm st (Some c) = c ↔ delete "lastTransitionTime" c = dm.
Proof.
  intros [_ Hk _] Hu.
  assert (Hb : next_base dm st = dm).
  { apply map_eq. intros k. rewrite next_base_lookup by done. case_decide; [done|]. by rewrite Hk. }
  assert (Hlt : dm !! "lastTransitionTime" = None) by (apply Hk; set_solver).
  pose proof (upsertable_status dm st Hu) as Hst.
  unfold next_condition. rewrite Hb. split.
  - intros <-. case_bool_decide; [|by rewrite delete_insert_eq, delete_id].
    unfold copy_key. destruct (c !! "lastTransitionTime"); [by rewrite delete_insert_eq, delete_id|by apply delete_id].
  - intros <-. rewrite lookup_delete_ne in Hst by done. rewrite bool_decide_true by done.
    unfold copy_key. destruct (c !! "lastTransitionTime") as [v|] eqn:E; [by apply insert_delete_id|by apply delete_id].
Qed.

Lemma own_stored now dm st prev :
  own_ok writes dm → upsertable dm st → delete "lastTransitionTime" (next_condition now dm st prev) = dm.
Proof.
  intros [_ Hk _] Hu.
  assert (Hb : delete "lastTransitionTime" (next_base dm st) = dm).
  { apply map_eq. intros k. rewrite lookup_delete. case_decide; [subst; by rewrite Hk by set_solver|].
    rewrite next_base_lookup by done. case_decide; [done|]. by rewrite Hk. }
  unfold next_condition. destruct prev as [p|]; [case_bool_decide|]; rewrite ?delete_insert_eq; try exact Hb.
  unfold copy_key. destruct (p !! "lastTransitionTime"); rewrite ?delete_insert_eq; exact Hb.
Qed.

(** A condition that counts is an own one, or a foreign one that is stored. *)
Lemma desired_counts l dm st :
  counts (filter (λ v, foreign_condition writes v = true) l ++ own) dm st →
  (VMap dm ∈ own ∧ own_ok writes dm) ∨ (VMap dm ∈ l ∧ foreign_condition writes (VMap dm) = true).
Proof.
  intros [[[? ?]%list_elem_of_filter|Hin]%elem_of_app _]; [by right|left].
  destruct Hown as [_ Ho]. by destruct (Ho _ Hin) as (dm' & [= <-] & ?).
Qed.

Lemma translator_merge_table now l l' :
  wf_conds l → translator_merge writes own now l = Some l' →
  wrote (λ t, t ∈ cond_type <$> own) l l' ∧ translator_settled writes own l'.
Proof.
  intros Hw. unfold translator_merge. set (ds := filter _ l ++ own).
  destruct (mergeConditions_table now l ds Hw (desired_types l Hw)) as (Hwo & Hin & Hout & _).
  destruct (mergeConditions now l ds) as [out ch]. cbn in *. destruct ch; [|done]. intros [= <-].
  assert (Htidy : ∀ t m, cond_at t out = Some m → tidy m ∨ cond_at t l = Some m ∧
                     ∀ dm st, counts ds dm st → str_at dm "type" ≠ t).
  { intros t m Hm. destruct (counts_type ds t) as [(dm & st & Hc & <-)|Hno]; [left|right; by rewrite <- Hout].
    rewrite (Hin dm st Hc) in Hm. injection Hm as <-. apply next_condition_tidy. by destruct Hc. }
  split; [split; [done|..]|split].
  - intros t Ht. destruct (counts_type ds t) as [(dm & st & Hc & <-)|Hno]; [|left; by apply Hout]. right.
    rewrite (Hin dm st Hc). destruct (desired_counts _ _ _ Hc) as [[Hd _]|[Hd _]].
    + destruct Ht. by apply (list_elem_of_fmap_2 cond_type) in Hd.
    + rewrite (proj2 (cond_at_iff _ l dm Hw)) by done. cbn. f_equal. apply next_condition_carried. by destruct Hc.
  - intros t m Hm. destruct (Htidy t m Hm) as [?|[? _]]; auto.
  - intros dm Hd. destruct (own_counts (filter (λ v, foreign_condition writes v = true) l) dm Hd) as [st Hc].
    eexists. split; [apply (Hin dm st Hc)|]. apply own_stored; [|by destruct Hc].
    destruct Hown as [_ Ho]. by destruct (Ho _ Hd) as (dm' & [= <-] & ?).
  - intros c st Hc Hf Hu. destruct (Htidy (str_at c "type") c) as [?|[Hl Hno]]; [by apply cond_at_iff|done|].
    destruct (Hno c st); [|done]. split; [|done]. unfold ds. rewrite elem_of_app, list_elem_of_filter. left.
    split; [done|]. by apply cond_at_type in Hl as [? _].
Qed.

Lemma translator_merge_quiet now l :
  wf_conds l → translator_merge writes own now l = None ↔ translator_settled writes own l.
Proof.
  intros Hw. unfold translator_merge. set (ds := filter _ l ++ own).
  destruct (mergeConditions_table now l ds Hw (desired_types l Hw)) as (_ & _ & _ & Hq).
  destruct (mergeConditions now l ds) as [out ch]. cbn in *.
  trans (ch = false); [by destruct ch|]. rewrite Hq. split.
  - intros H. split.
    + intros dm Hd. destruct (own_counts (filter (λ v, foreign_condition writes v = true) l) dm Hd) as [st Hc].
      pose proof (H dm st Hc) as E. destruct (cond_at _ l) as [c|]; [|done]. exists c. split; [done|].
      injection E as E. apply (own_next now dm st c); [|by destruct Hc|done].
      destruct Hown as [_ Ho]. by destruct (Ho _ Hd) as (dm' & [= <-] & ?).
    + intros c st Hc Hf Hu. assert (Hcc : counts ds c st).
      { split; [|done]. unfold ds. rewrite elem_of_app, list_elem_of_filter. by left. }
      specialize (H c st Hcc). rewrite (proj2 (cond_at_iff _ l c Hw)) in H by done.
      rewrite next_condition_carried in H by done. unfold tidy. congruence.
  - intros [Ho Hf] dm st Hc. destruct (desired_counts _ _ _ Hc) as [[Hd Hok]|[Hd Hfor]].
    + destruct (Ho dm Hd) as (c & -> & E). f_equal. symmetry. apply own_next; [done|by destruct Hc|done].
    + rewrite (proj2 (cond_at_iff _ l dm Hw)) by done. f_equal.
      rewrite next_condition_carried by (by destruct Hc). symmetry. apply (Hf dm st); [done..|]. by destruct Hc.
Qed.

End TranslatorMerge.

(** ** A type declared twice *)

Lemma next_condition_status now dm st prev : upsertable dm st → next_condition now dm st prev !! "status" = Some st.
Proof.
  intros Hu. transitivity (next_base dm st !! "status").
  - unfold next_condition. destruct prev as [p|]; [case_bool_decide|]; cbn;
      rewrite ?copy_key_lookup, ?lookup_insert_ne by done; done.
  - rewrite next_base_lookup by done. by apply upsertable_status.
Qed.

(** When a mapping builds two conditions of one type with different
    statuses, every merge reports a change, whatever is stored: the roll-up is
    written on each reconcile and never settles. *)
Theorem duplicate_type_never_settles now l ds dm1 st1 dm2 st2 :
  upsertable dm1 st1 → upsertable dm2 st2 → str_at dm1 "type" = str_at dm2 "type" → st1 ≠ st2 →
  (mergeConditions now l (ds ++ [VMap dm1; VMap dm2])).2 = true.
Proof.
  intros Hu1 Hu2 Et Hst. unfold mergeConditions. cbn [snd]. rewrite foldl_app. cbn [foldl].
  set (s := foldl (merge_step now) (merge_init l) ds).
  rewrite (merge_step_next now _ dm2 st2 Hu2), (merge_step_next now s dm1 st1 Hu1). cbn [byType m_changed].
  rewrite Et, lookup_insert_eq. rewrite bool_decide_false; [done|]. intros E.
  apply (f_equal (λ m : gmap string value, m !! "status")) in E.
  rewrite !next_condition_status in E by done. congruence.
Qed.

Lemma duplicate_type_never_settles_witness :
  (mergeConditions "t" [] ([] ++ [VMap {[ "type" := VString "DPFReady"; "status" := VString "True" ]};
                                  VMap {[ "type" := VString "DPFReady"; "status" := VString "False" ]}])).2 = true.
Proof.
  apply (duplicate_type_never_settles "t" [] [] _ (VString "True") _ (VString "False"));
    [split_and!; vm_compute; done|split_and!; vm_compute; done|vm_compute; done|done].
Defined.
