(* ===== verification/SharedStatus.v ===== *)
(** * Several writers of one status

    The lifecycle manager, the daemon and the translators of a kind write
    conditions into one list of one stored object, each from its own process:
    they read the object, merge their conditions into what they read, and send
    the whole list back.  The API server accepts an update only of the version
    it stores.  [StatusWriter] is what one writer promises; [sys_step] interleaves
    the reads and the writes of any number of writers.

    A read may return any version that was ever stored (the clients read from
    caches); a touch is a change of the object outside status.conditions, such as
    a finalizer or an annotation. *)

From Stdlib Require Import Ascii.
From stdpp Require Import base gmap strings list fin_maps.
From S2P Require Import Prelude GoStrings Unstructured MappingSpec MappingEngine Conditions ConditionsFacts StatusTable StatusMerge.

(** ** The interface of a writer *)

Class StatusWriter (A : Type) := {
  valid : A → Prop;
  (** the types it writes *)
  owns : A → list string;
  (** the list it sends after having read a list, if it sends one; the argument
      between is the clock's readings *)
  propose : A → (nat → string) → list value → option (list value);
  (** it has nothing to write *)
  settled : A → list value → Prop;
  propose_wrote a now l l' :
    valid a → wf_conds l → propose a now l = Some l' → wrote (λ t, t ∈ owns a) l l' ∧ settled a l';
  propose_quiet a now l : valid a → wf_conds l → propose a now l = None ↔ settled a l;
  settled_stable a own l l' :
    valid a → settled a l → wrote own l l' → (∀ t, t ∈ owns a → ¬ own t) → settled a l' }.

(** ** The three writers *)

Inductive Author :=
| ByLifecycle (want : list ownedCondition)
| ByDaemon (healthy : bool)
| ByTranslator (writes : list string) (own : list value).

Definition stamp_all (now : nat → string) (want : list ownedCondition) : list (ownedCondition * string) :=
  imap (λ i c, (c, now i)) want.

Definition writer_owns (a : Author) : list string :=
  match a with
  | ByLifecycle want => OcType <$> want
  | ByDaemon _ => [ReservedConditionType]
  | ByTranslator _ own => cond_type <$> own
  end.

Definition writer_propose (a : Author) (now : nat → string) (l : list value) : option (list value) :=
  match a with
  | ByLifecycle want =>
      match mergeOwnedConditions (Ok l) (stamp_all now want) with Ok r => r | Err _ => None end
  | ByDaemon healthy => upsertReadyCondition healthy (now 0) l
  | ByTranslator writes own => translator_merge writes own (now 0) l
  end.

Definition writer_valid (a : Author) : Prop :=
  match a with
  | ByLifecycle want => NoDup (OcType <$> want) ∧ "" ∉ OcType <$> want
  | ByDaemon _ => True
  | ByTranslator writes own => wf_own writes own
  end.

Definition writer_settled (a : Author) (l : list value) : Prop :=
  match a with
  | ByLifecycle want => lcm_settled want l
  | ByDaemon healthy => daemon_settled healthy l
  | ByTranslator writes own => translator_settled writes own l
  end.

Lemma stamp_all_fst now want : (stamp_all now want).*1 = want.
Proof. unfold stamp_all. rewrite fmap_imap. etrans; [apply (imap_const id)|apply list_fmap_id]. Qed.

Lemma stamp_all_types now want : owned_types (stamp_all now want) = OcType <$> want.
Proof. unfold owned_types. rewrite <- (stamp_all_fst now want) at 2. by rewrite <- list_fmap_compose. Qed.

Lemma lifecycle_propose want now l :
  writer_propose (ByLifecycle want) now l =
  if (merge_owned l (stamp_all now want)).2 then Some (merge_owned l (stamp_all now want)).1 else None.
Proof. cbn. by destruct (merge_owned l (stamp_all now want)) as [? []]. Qed.

(** The condition of a type that a writer does not own keeps what it says. *)
Lemma wrote_key own l l' t c k :
  wrote own l l' → ¬ own t → cond_at t l = Some c → k ∈ conditionKeys →
  ∃ c', cond_at t l' = Some c' ∧ c' !! k = c !! k ∧ (c' = c ∨ c' = view c).
Proof.
  intros Hw Ht Hc Hk. destruct (wrote_frame _ _ _ Hw t Ht) as [E|E]; rewrite Hc in E; cbn in E; eexists;
    (split; [exact E|]); (split; [by rewrite ?view_key|]); auto.
Qed.

Lemma wrote_says own l l' t c :
  wrote own l l' → ¬ own t → cond_at t l = Some c →
  ∃ c', cond_at t l' = Some c' ∧ (c' = c ∨ c' = view c) ∧ ∀ k, k ∈ conditionKeys → c' !! k = c !! k.
Proof.
  intros Hw Ht Hc. destruct (wrote_key own l l' t c "type" Hw Ht Hc) as (c' & Hc' & _ & Hv); [left|].
  exists c'. split_and!; [done..|]. intros k Hk. destruct Hv as [-> | ->]; [done|]. by apply view_key.
Qed.

Lemma lcm_stable want own l l' :
  lcm_settled want l → wrote own l l' → (∀ t, t ∈ OcType <$> want → ¬ own t) → lcm_settled want l'.
Proof.
  intros Hs Hw Hd next Hin. destruct (Hs next Hin) as (c & Hc & Hsay).
  destruct (wrote_says own l l' (OcType next) c Hw) as (c' & Hc' & _ & Hk); [|done|].
  { apply Hd. by apply list_elem_of_fmap_2. }
  exists c'. split; [done|]. unfold says in *. by rewrite !Hk by (unfold conditionKeys; set_solver).
Qed.

Lemma daemon_stable healthy own l l' :
  daemon_settled healthy l → wrote own l l' → ¬ own ReservedConditionType → daemon_settled healthy l'.
Proof.
  intros (c & Hc & Hsay) Hw Hd. destruct (wrote_says own l l' _ c Hw Hd Hc) as (c' & Hc' & _ & Hk).
  exists c'. split; [done|]. unfold ready_says in *. destruct (ready_want healthy) as [[? ?] ?].
  by rewrite !Hk by (unfold conditionKeys; set_solver).
Qed.

Lemma translator_stable writes own others l l' :
  wf_own writes own → translator_settled writes own l → wrote others l l' →
  (∀ t, t ∈ cond_type <$> own → ¬ others t) → translator_settled writes own l'.
Proof.
  intros [_ Hok] [Ho Hf] Hw Hd. split.
  - intros dm Hin. destruct (Ho dm Hin) as (c & Hc & E).
    destruct (wrote_says others l l' (str_at dm "type") c Hw) as (c' & Hc' & Hv & _); [|done|].
    { apply Hd. by apply (list_elem_of_fmap_2 cond_type) in Hin. }
    exists c'. split; [done|]. destruct Hv as [-> | ->]; [done|].
    enough (tidy c) as -> by done. apply tidy_iff. intros k Hk. unfold conditionKeys in Hk.
    destruct (Hok _ Hin) as (dm' & [= <-] & [_ Hkeys _]).
    rewrite <- (lookup_delete_ne c "lastTransitionTime") by ne_key. rewrite E. apply Hkeys. set_solver.
  - intros c st Hc Hfor Hu. destruct (wrote_tidy _ _ _ Hw (str_at c "type") c) as [Hr|[?|Hl]].
    + apply cond_at_iff; [by apply (wrote_wf _ _ _ Hw)|done].
    + destruct Hu as (_ & Hn & _). unfold reserved_type in Hr. congruence.
    + done.
    + apply cond_at_type in Hl as [Hl _]. by eapply Hf.
Qed.

#[global, refine] Instance writers : StatusWriter Author := {
  valid := writer_valid;
  owns := writer_owns;
  propose := writer_propose;
  settled := writer_settled }.
Proof.
  - intros [want|healthy|writes own] now l l' Hv Hw.
    + rewrite lifecycle_propose. destruct (_ : bool) eqn:E; [|done]. intros [= <-]. destruct Hv as [Hnd Hne].
      cbn. rewrite <- (stamp_all_types now want) in *. split; [by apply merge_owned_table|].
      rewrite <- (stamp_all_fst now want) at 1. by apply merge_owned_settles.
    + intros Hp. destruct (upsertReady_table healthy (now 0) l l' Hw Hp) as [Ht Hs]. split; [|done].
      eapply wrote_mono; [|exact Ht]. intros t <-. left.
    + intros Hp. by eapply translator_merge_table.
  - intros [want|healthy|writes own] now l Hv Hw.
    + rewrite lifecycle_propose. destruct Hv as [Hnd Hne]. cbn. rewrite <- (stamp_all_types now want) in Hnd, Hne.
      rewrite <- (stamp_all_fst now want) at 3. rewrite <- merge_owned_quiet by done. by destruct (merge_owned _ _).2.
    + by apply upsertReady_quiet.
    + by apply translator_merge_quiet.
  - intros [want|healthy|writes own] others l l' Hv Hs Hw Hd.
    + by eapply lcm_stable.
    + eapply daemon_stable; [done..|]. apply Hd. left.
    + by eapply translator_stable.
Defined.

(** ** The interleaved system *)

Section System.
Context {A : Type} `{!StatusWriter A}.

(** [role i a]: process [i] may act as the writer [a]. *)
Context (role : nat → A → Prop).

(** The versions that were stored, the oldest first; the writers that have read
    and not yet answered, with the version they read; the writes accepted. *)
Record Sys := {
  versions : list (list value);
  reading : gmap nat (A * nat * list value);
  writes_done : list (nat * A * list value) }.

Definition sys_start (c : list value) : Sys := {| versions := [c]; reading := ∅; writes_done := [] |}.

Inductive sys_step : Sys → Sys → Prop :=
| step_read vs rd log i a v seen :
    rd !! i = None → role i a → vs !! v = Some seen →
    sys_step {| versions := vs; reading := rd; writes_done := log |}
         {| versions := vs; reading := <[i := (a, v, seen)]> rd; writes_done := log |}
| step_quiet vs rd log i a v seen now :
    rd !! i = Some (a, v, seen) → propose a now seen = None →
    sys_step {| versions := vs; reading := rd; writes_done := log |}
         {| versions := vs; reading := delete i rd; writes_done := log |}
| step_accept vs rd log i a v seen now l' :
    rd !! i = Some (a, v, seen) → propose a now seen = Some l' → S v = length vs →
    sys_step {| versions := vs; reading := rd; writes_done := log |}
         {| versions := vs ++ [l']; reading := delete i rd; writes_done := log ++ [(i, a, l')] |}
| step_conflict vs rd log i a v seen now l' :
    rd !! i = Some (a, v, seen) → propose a now seen = Some l' → S v ≠ length vs →
    sys_step {| versions := vs; reading := rd; writes_done := log |}
         {| versions := vs; reading := delete i rd; writes_done := log |}
| step_touch vs rd log c :
    last vs = Some c →
    sys_step {| versions := vs; reading := rd; writes_done := log |}
         {| versions := vs ++ [c]; reading := rd; writes_done := log |}.

(** The specification: each accepted write is one step that reads and writes at
    once. *)
Inductive atomic_step : list value * list (nat * A * list value) → list value * list (nat * A * list value) → Prop :=
| atomic_write i a now l l' log :
    role i a → propose a now l = Some l' → atomic_step (l, log) (l', log ++ [(i, a, l')]).

(** The list now stored. *)
Definition stored_conds (s : Sys) : list value := default [] (last (versions s)).

Record sys_inv (c0 : list value) (s : Sys) : Prop := {
  inv_nonempty : versions s ≠ [];
  inv_reads : ∀ i a v seen, reading s !! i = Some (a, v, seen) → role i a ∧ versions s !! v = Some seen;
  inv_atomic : rtc atomic_step (c0, []) (stored_conds s, writes_done s) }.

Lemma last_is_newest (vs : list (list value)) v seen : vs !! v = Some seen → S v = length vs → last vs = Some seen.
Proof. intros Hv E. rewrite last_lookup, <- E. done. Qed.

Lemma sys_inv_step c0 s s' : sys_inv c0 s → sys_step s s' → sys_inv c0 s'.
Proof.
  intros [Hne Hr Ha] Hs. destruct Hs as [vs rd log i a v seen Hi Hrole Hv|vs rd log i a v seen now Hi Hp|
    vs rd log i a v seen now l' Hi Hp E|vs rd log i a v seen now l' Hi Hp E|vs rd log c Hc]; cbn in *.
  - split; cbn; [done| |exact Ha]. intros j a' v' seen' [[<- [= <- <- <-]]|[_ Hj]]%lookup_insert_Some; [done|eauto].
  - split; cbn; [done| |exact Ha]. intros j a' v' seen' [_ Hj]%lookup_delete_Some. eauto.
  - destruct (Hr _ _ _ _ Hi) as [Hrole Hv]. split; cbn; [by destruct vs|..].
    + intros j a' v' seen' [_ Hj]%lookup_delete_Some. destruct (Hr _ _ _ _ Hj) as [? Hv'].
      split; [done|]. by apply lookup_app_l_Some.
    + eapply rtc_r; [exact Ha|]. unfold stored_conds. cbn. rewrite last_snoc. cbn.
      rewrite (last_is_newest vs v seen) by done. by econstructor.
  - split; cbn; [done| |exact Ha]. intros j a' v' seen' [_ Hj]%lookup_delete_Some. eauto.
  - split; cbn; [by destruct vs|..].
    + intros j a' v' seen' Hj. destruct (Hr _ _ _ _ Hj) as [? Hv']. split; [done|]. by apply lookup_app_l_Some.
    + unfold stored_conds in *. cbn in *. rewrite last_snoc. by rewrite Hc in Ha.
Qed.

Lemma sys_inv_reachable c0 s : rtc sys_step (sys_start c0) s → sys_inv c0 s.
Proof.
  intros Hr. assert (H0 : sys_inv c0 (sys_start c0)).
  { split; cbn; [done|by intros ? ? ? ? ?%lookup_empty_Some|apply rtc_refl]. }
  revert H0. induction Hr as [|s1 s2 s3 Hs _ IH]; [done|]. intros H. apply IH. by eapply sys_inv_step.
Qed.

(** ** What an accepted write keeps *)

Context (role_valid : ∀ i a, role i a → valid a).

Definition cond_view (t : string) (l : list value) : option (gmap string value) := view <$> cond_at t l.

(** The list of the newest accepted write that owns a type, or the first list. *)
Definition last_owner_list (t : string) (c0 : list value) (log : list (nat * A * list value)) : list value :=
  foldl (λ acc '(_, a, l), if decide (t ∈ owns a) then l else acc) c0 log.

Lemma wrote_view own l l' t : wrote own l l' → ¬ own t → cond_view t l' = cond_view t l.
Proof.
  intros Hw Ht. unfold cond_view. destruct (wrote_frame _ _ _ Hw t Ht) as [-> | ->]; [done|].
  destruct (cond_at t l) as [c|]; [|done]. cbn. f_equal. apply view_idem.
Qed.

(** Induction over the accepted writes. *)
Lemma atomic_ind (P : list value → list (nat * A * list value) → Prop) c0 l log :
  P c0 [] →
  (∀ i a now l l' log, role i a → propose a now l = Some l' → P l log → P l' (log ++ [(i, a, l')])) →
  rtc atomic_step (c0, []) (l, log) → P l log.
Proof.
  intros H0 Hstep Hr. change (P (l, log).1 (l, log).2). revert Hr. generalize (l, log).
  apply (rtc_ind_r (λ p, P p.1 p.2)); [done|].
  intros p1 p2 _ [i a now l1 l2 log1 Hrole Hp] HP. by eapply Hstep.
Qed.

Lemma atomic_keeps c0 l log :
  wf_conds c0 → rtc atomic_step (c0, []) (l, log) →
  wf_conds l ∧ ∀ t, cond_view t l = cond_view t (last_owner_list t c0 log).
Proof.
  intros H0. apply (atomic_ind (λ l log, wf_conds l ∧ ∀ t, cond_view t l = cond_view t (last_owner_list t c0 log)));
    [done|]. intros i a now l1 l2 log1 Hrole Hp [Hw Hv].
  destruct (propose_wrote a now l1 l2 (role_valid i a Hrole) Hw Hp) as [Hwr _].
  split; [by apply (wrote_wf _ _ _ Hwr)|]. intros t. unfold last_owner_list. rewrite foldl_snoc.
  destruct (decide (t ∈ owns a)); [done|]. rewrite (wrote_view _ _ _ _ Hwr) by done. apply Hv.
Qed.

(** ** Fixed writers *)

Lemma atomic_settles c0 l log :
  wf_conds c0 →
  (∀ i a a', role i a → role i a' → a = a') →
  (∀ i j a b t, role i a → role j b → i ≠ j → t ∈ owns a → t ∉ owns b) →
  rtc atomic_step (c0, []) (l, log) →
  wf_conds l ∧ NoDup ((λ e, e.1.1) <$> log) ∧
  ∀ i a, role i a → i ∈ (λ e : nat * A * list value, e.1.1) <$> log → settled a l.
Proof.
  intros H0 Hfun Hdis. apply (atomic_ind (λ l log, wf_conds l ∧ NoDup ((λ e, e.1.1) <$> log) ∧
    ∀ i a, role i a → i ∈ (λ e : nat * A * list value, e.1.1) <$> log → settled a l)).
  { split_and!; [done|constructor|]. by intros i a _ ?%elem_of_nil. }
  intros i a now l1 l2 log1 Hrole Hp (Hw & Hnd & Hs).
  pose proof (role_valid i a Hrole) as Hv.
  destruct (propose_wrote a now l1 l2 Hv Hw Hp) as [Hwr Hset].
  rewrite fmap_app. split_and!; [by apply (wrote_wf _ _ _ Hwr)|..].
  - apply NoDup_app. split_and!; [done| |apply NoDup_singleton]. intros j Hj ->%list_elem_of_singleton.
    specialize (Hs i a Hrole Hj). apply (propose_quiet a now l1 Hv Hw) in Hs. congruence.
  - intros j b Hb Hj. destruct (decide (j = i)) as [->|Hne]; [by rewrite (Hfun i b a)|].
    eapply settled_stable; [by eapply role_valid| |exact Hwr|intros t Ht; by eapply Hdis].
    apply (Hs j b Hb). apply elem_of_app in Hj as [?|?%list_elem_of_singleton]; done.
Qed.

(** A writer that has something to write, and is not in the middle of a write,
    can have it accepted. *)
Lemma can_accept vs rd log c i a now l' :
  rd !! i = None → role i a → last vs = Some c → propose a now c = Some l' →
  rtc sys_step {| versions := vs; reading := rd; writes_done := log |}
           {| versions := vs ++ [l']; reading := rd; writes_done := log ++ [(i, a, l')] |}.
Proof.
  intros Hi Hrole Hc Hp.
  assert (Hv : vs !! pred (length vs) = Some c) by (by rewrite <- last_lookup).
  assert (Hlen : S (pred (length vs)) = length vs) by (destruct vs; [done|cbn; lia]).
  eapply rtc_l; [by eapply step_read|]. eapply rtc_l; [|apply rtc_refl].
  replace rd with (delete i (<[i := (a, pred (length vs), c)]> rd)) at 2 by (by rewrite delete_insert_id).
  eapply step_accept; [apply lookup_insert_eq|done..].
Qed.

End System.
