(* ===== verification/SharedStatusFacts.v ===== *)
(** * Interleaved condition writers: no lost update, no endless writing

    The theorems of [SharedStatus] for the three writers of this repository, and
    the proof that the status updates the components send are the proposals of
    those writers. *)

From Stdlib Require Import Ascii ZArith.
From stdpp Require Import base gmap strings list fin_maps.
From S2P Require Import Prelude GoStrings Unstructured MappingSpec MappingEngine JsonMeta Release HelmInstaller Cleanup Operator Ensure Conditions ConditionsFacts Controller Translation Vsp StatusTable StatusMerge SharedStatus.

(** ** The updates that are sent *)

(** [setOwnedConditions] and [reconcileCleanup] want distinct, named types. *)
Lemma lifecycle_owns out :
  OcType <$> owned_conditions out = [SupportedConditionType; OperatorReadyConditionType; DPUReadyConditionType].
Proof.
  unfold owned_conditions. destruct (skewStatus _ _ _) as [status message].
  destruct (operatorCondition (ResOperator out)) as [[rs rr] rm].
  by destruct (dpuCondition (ResDPU out)) as [[ds dr] dm].
Qed.

Lemma lifecycle_writers_valid out got :
  writer_valid (ByLifecycle (owned_conditions out)) ∧ writer_valid (ByLifecycle [cleanup_condition got]).
Proof.
  unfold writer_valid. rewrite lifecycle_owns. cbn.
  split_and!; apply (bool_decide_unpack _); vm_compute; exact I.
Qed.

Section Lifecycle.
Context {W : Type} `{KubeAPI W} `{ControllerUtil} (now : W → nat → string).

Lemma lifecycle_sends ns name want w cfg w1 fresh l :
  kube_get w ns name = (w1, Ok fresh) → LcConditions fresh = Ok l →
  upsert_attempt now ns name want (w, cfg) =
  match writer_propose (ByLifecycle want) (now w1) l with
  | None => ((w1, fresh), None)
  | Some l' =>
      let '(w2, stored) := kube_update_status w1 (with_conditions l' fresh) in
      match stored with Err e => ((w2, cfg), Some e) | Ok fresh => ((w2, fresh), None) end
  end.
Proof.
  intros Hg Hl. unfold upsert_attempt. rewrite Hg, Hl. cbn [writer_propose].
  change (stamped now w1 want) with (stamp_all (now w1) want).
  cbn. by destruct (merge_owned l (stamp_all (now w1) want)) as [l' []].
Qed.
End Lifecycle.

Lemma daemon_sends healthy now v :
  upsert_ready healthy now v =
  (λ out, with_object (set_status_conditions out (VoObject v)) v) <$>
    writer_propose (ByDaemon healthy) (λ _, now) (status_conditions (VoObject v)).
Proof. unfold upsert_ready. cbn. by destruct (upsertReadyCondition _ _ _). Qed.

(** Text that folds to visible plain text is visible. *)
Lemma lower_visible c : is_visible (lower_ascii c) = true → is_visible c = true.
Proof. destruct c as [[] [] [] [] [] [] [] []]; by vm_compute. Qed.

Lemma fold_visible s t :
  all_chars plain_char t = true → all_chars is_visible t = true → fold_case s = t → all_chars is_visible s = true.
Proof.
  revert s. induction t as [|d t IH]; intros s Hp Hv E.
  - destruct s as [|c s]; [done|].
    destruct (lower_fold_step c s) as [[_ E']|(? & ? & ? & ? & _ & E' & _)]; by rewrite E' in E.
  - simpl in Hp, Hv. apply andb_true_iff in Hp as [Hd Hp]. apply andb_true_iff in Hv as [Hvd Hv].
    destruct s as [|c s]; [done|].
    destruct (lower_fold_step c s) as [[_ E']|(? & ? & ? & ? & _ & E' & _ & Hn)]; rewrite E' in E;
      injection E as E1 E2; [|congruence].
    simpl. rewrite (IH s) by done. rewrite lower_visible; [done|]. by rewrite E1.
Qed.

Lemma reserved_trim t :
  fold_case t = fold_case ReservedConditionType → fold_case (TrimSpace t) = fold_case ReservedConditionType.
Proof. intros E. rewrite visible_TrimSpace; [done|].
  apply (fold_visible t (fold_case ReservedConditionType)); [reflexivity..|exact E].
Qed.

(** The keys under which a mapping compares ownership. *)
Definition mapping_writes (st : StatusMapping) : list string := (λ c, cond_key (CondType c)) <$> Conditions st.

Section Translator.
Context `{CELEngine}.

Lemma build_condition_keys source children c m :
  build_condition source children c = Ok (VMap m) → ∀ k, k ∉ ["type"; "status"; "reason"; "message"] → m !! k = None.
Proof.
  unfold build_condition. intros E k Hk.
  apply result_bind_ok in E as (b & _ & E). apply result_bind_ok in E as (m1 & H1 & E).
  apply result_bind_ok in E as (m2 & H2 & E). simplify_eq.
  destruct (CondReason c != ""); [apply result_bind_ok in H1 as (? & _ & H1)|];
    (destruct (CondMessage c != ""); [apply result_bind_ok in H2 as (? & _ & H2)|]);
    simplify_eq; rewrite ?lookup_insert_ne, lookup_singleton_ne by ne_key; done.
Qed.

(** The conditions that the engine builds make a valid writer. *)
Lemma built_own spec st source children own :
  Validate spec = Ok tt → Status spec = Some st → NoDup (CondType <$> Conditions st) →
  Forall2 (λ c v, build_condition source children c = Ok v) (Conditions st) own →
  writer_valid (ByTranslator (mapping_writes st) own) ∧
  writer_owns (ByTranslator (mapping_writes st) own) = CondType <$> Conditions st.
Proof.
  intros HV%Validate_spec Hst Hnd Hf.
  assert (Hty : cond_type <$> own = CondType <$> Conditions st).
  { clear -Hf. induction Hf as [|c v cs own Hb Hf IH]; [done|]. cbn. f_equal; [|exact IH].
    apply build_condition_shape in Hb as (m & b & -> & Ht & _). cbn. unfold str_at. by rewrite Ht. }
  split; [|done]. split; [by rewrite Hty|]. intros v (i & Hi)%list_elem_of_lookup.
  destruct (Forall2_lookup_r _ _ _ _ _ Hf Hi) as (c & Hc & Hb). pose proof Hb as Hshape.
  apply build_condition_shape in Hshape as (m & b & -> & Ht & _ & Hs). exists m. split; [done|].
  assert (Hmt : str_at m "type" = CondType c) by (unfold str_at; by rewrite Ht).
  destruct (wf_stat _ HV _ Hst) as [_ Hall _]. destruct (proj1 (Forall_lookup _ _) Hall _ _ Hc) as [Hne _ Hres].
  split.
  - exists (VString (if b then "True" else "False")). split; [|split].
    + rewrite Hmt. intros E. apply Hne. rewrite E. reflexivity.
    + rewrite Hmt. destruct (EqualFold _ _) eqn:E; [|done]. destruct Hres. revert E.
      unfold EqualFold. rewrite bool_decide_eq_true. intros E. exact (reserved_trim _ E).
    + unfold has_status. rewrite Hs. by destruct b.
  - by eapply build_condition_keys.
  - rewrite Hmt. apply list_elem_of_lookup_2 in Hc. by apply (list_elem_of_fmap_2 (λ c, cond_key (CondType c))).
Qed.

(** What [applyStatus] makes of a roll-up that has only conditions. *)
Lemma applyStatus_conditions now cur l d ds :
  cur !! "conditions" = Some (VList l) →
  applyStatus now cur {[ "conditions" := VList (d :: ds) ]} =
  let '(merged, ch) := mergeConditions now l (d :: ds) in
  if ch then Some (<["conditions" := VList merged]> cur) else None.
Proof.
  intros Hl. unfold applyStatus. rewrite map_to_list_singleton. cbn [foldl].
  change (bool_decide ("conditions" = "conditions")) with true. cbn [fst].
  rewrite lookup_singleton_eq, Hl. by destruct (mergeConditions now l (d :: ds)) as [merged []].
Qed.

(** The roll-up of a mapping without status fields. *)
Lemma ApplyStatus_conditions spec st source children desired :
  Status spec = Some st → StatusFields st = [] → ApplyStatus spec source children = Ok (Some desired) →
  Validate spec = Ok tt ∧
  ∃ own, Forall2 (λ c v, build_condition source children c = Ok v) (Conditions st) own ∧
    ∃ d ds, preservedStatusConditions source (Conditions st) ++ own = d :: ds ∧
      desired = {[ "conditions" := VList (d :: ds) ]}.
Proof.
  intros Hst Hf. unfold ApplyStatus. rewrite seq_ok, Hst. intros [HV E]. split; [done|].
  apply result_bind_ok in E as ([] & _ & E); cbn [negb] in E; [|done].
  apply result_bind_ok in E as (obj & Hobj & E). rewrite Hf in Hobj. injection Hobj as <-.
  apply result_bind_ok in E as (conds & Hc & E). apply conds_loop in Hc as (own & -> & Hown).
  exists own. split; [done|]. destruct (_ ++ own) as [|d ds]; [done|]. exists d, ds. split; [done|].
  change (Get ∅ "status") with (@None value) in E. cbn [Nat.ltb Nat.leb length] in E.
  destruct (bool_decide _); [discriminate E|]. by apply Ok_Some_inj in E as <-.
Qed.

Lemma translator_sends spec st src children desired now l :
  Status spec = Some st → StatusFields st = [] → NoDup (CondType <$> Conditions st) →
  src_status src !! "conditions" = Some (VList l) →
  ApplyStatus spec (SrcObject src) children = Ok (Some desired) →
  ∃ own, writer_valid (ByTranslator (mapping_writes st) own) ∧
    writer_owns (ByTranslator (mapping_writes st) own) = CondType <$> Conditions st ∧
    applyStatus now (src_status src) desired =
      (λ l', <["conditions" := VList l']> (src_status src)) <$>
        writer_propose (ByTranslator (mapping_writes st) own) (λ _, now) l.
Proof.
  intros Hst Hf Hnd Hl Hap.
  destruct (ApplyStatus_conditions _ _ _ _ _ Hst Hf Hap) as (HV & own & Hown & d & ds & E & ->).
  exists own. destruct (built_own _ _ _ _ _ HV Hst Hnd Hown) as [Hv Ho]. split_and!; [done..|].
  assert (Hg : Get (SrcObject src) "status.conditions" = Some (VList l)).
  { unfold src_status in Hl. destruct (SrcObject src !! "status") as [[]|] eqn:Es; try done.
    change (get_parts (VMap (SrcObject src)) ["status"; "conditions"] = Some (VList l)).
    rewrite get_parts_cons, Es. cbn [mbind option_bind]. by rewrite get_parts_cons, Hl. }
  assert (Hd : filter (λ v, foreign_condition (mapping_writes st) v = true) l ++ own = d :: ds).
  { rewrite <- E. unfold preservedStatusConditions. by rewrite Hg. }
  rewrite (applyStatus_conditions now _ l d ds Hl). unfold writer_propose, translator_merge. rewrite Hd.
  by destruct (mergeConditions now l (d :: ds)) as [? []].
Qed.
End Translator.

(** ** Interleavings *)

(** [C6] No update is lost: under any interleaving of the lifecycle
    manager, the daemon and the translators, with stale reads and refused writes,
    the stored list keeps one condition per type, and the condition of every type
    says (type, status, reason, message, transition time) what the last accepted
    write of a writer that owns the type made it, or what it said at first. *)
Theorem no_lost_update (role : nat → Author → Prop) c0 s :
  (∀ i a, role i a → writer_valid a) → wf_conds c0 → rtc (sys_step role) (sys_start c0) s →
  wf_conds (stored_conds s) ∧
  ∀ t, cond_view t (stored_conds s) = cond_view t (last_owner_list t c0 (writes_done s)).
Proof.
  intros Hrole H0 Hr. apply (atomic_keeps role); [exact Hrole|done|].
  apply (inv_atomic role c0 s). by apply sys_inv_reachable.
Qed.

Section Settling.
Context (ws : list Author).
Context (ws_valid : Forall writer_valid ws).
Context (ws_apart : ∀ i j a b, ws !! i = Some a → ws !! j = Some b → i ≠ j → writer_owns a ## writer_owns b).

Definition plays (i : nat) (a : Author) : Prop := ws !! i = Some a.

Lemma plays_valid i a : plays i a → valid a.
Proof. intros Ha. by eapply Forall_lookup_1. Qed.

Lemma plays_settle c0 s :
  wf_conds c0 → rtc (sys_step plays) (sys_start c0) s →
  wf_conds (stored_conds s) ∧ length (writes_done s) ≤ length ws ∧
  ∀ i a, plays i a → i ∈ (λ e : nat * Author * list value, e.1.1) <$> writes_done s → settled a (stored_conds s).
Proof.
  intros H0 Hr. pose proof (sys_inv_reachable plays c0 s Hr) as [_ _ Hat].
  destruct (atomic_settles plays plays_valid c0 (stored_conds s) (writes_done s)) as (Hw & Hnd & Hs); [done| | |done|].
  - unfold plays. congruence.
  - intros i j a b t Ha Hb Hij Hta Htb. by destruct (ws_apart i j a b Ha Hb Hij t).
  - split_and!; [done| |done].
    assert (Hsub : (λ e : nat * Author * list value, e.1.1) <$> writes_done s ⊆+ seq 0 (length ws)).
    { apply NoDup_submseteq; [done|]. intros i (e & -> & He)%list_elem_of_fmap. apply elem_of_seq.
      assert (He' : ∃ a, plays e.1.1 a).
      { clear -Hat He. revert Hat He. apply (atomic_ind plays (λ _ log, e ∈ log → ∃ a, plays e.1.1 a)).
        - by intros ?%elem_of_nil.
        - intros i a now l l' log Hp _ IH [Hin|Hin]%elem_of_app; [by apply IH|].
          apply list_elem_of_singleton in Hin as ->. by exists a. }
      destruct He' as [a Ha]. apply lookup_lt_Some in Ha. lia. }
    apply submseteq_length in Hsub. by rewrite length_fmap, length_seq in Hsub.
Qed.

(** Every process that is in the middle of a write can end it. *)
Lemma drain s : ∃ s', rtc (sys_step plays) s s' ∧ reading s' = ∅.
Proof.
  destruct s as [vs rd log]. revert vs log. induction rd as [|i [[a v] seen] rd Hi IH] using map_ind; intros vs log.
  { eexists. split; [apply rtc_refl|done]. }
  assert (Hone : ∃ vs' log', sys_step plays {| versions := vs; reading := <[i := (a, v, seen)]> rd; writes_done := log |}
                                  {| versions := vs'; reading := rd; writes_done := log' |}).
  { assert (Hstep : ∃ s', sys_step plays {| versions := vs; reading := <[i := (a, v, seen)]> rd; writes_done := log |} s' ∧
                         reading s' = delete i (<[i := (a, v, seen)]> rd)).
    { destruct (propose a (λ _, "") seen) as [l'|] eqn:Hp; [destruct (decide (S v = length vs))|];
        eexists; split.
      - eapply step_accept; [apply lookup_insert_eq|done..].
      - done.
      - eapply step_conflict; [apply lookup_insert_eq|done..].
      - done.
      - eapply step_quiet; [apply lookup_insert_eq|done..].
      - done. }
    destruct Hstep as ([vs' rd' log'] & Hs & E). cbn in E. rewrite delete_insert_id in E by done. subst rd'.
    by exists vs', log'. }
  destruct Hone as (vs' & log' & Hs). destruct (IH vs' log') as (s' & Hr & He).
  exists s'. split; [by eapply rtc_l|done].
Qed.

Lemma settled_or_proposes l :
  wf_conds l →
  Forall (λ a, settled a l) ws ∨ ∃ i a l', plays i a ∧ propose a (λ _, "") l = Some l'.
Proof.
  intros Hw. destruct (decide (Forall (λ a, propose a (λ _, "") l = None) ws)) as [Hq|Hq].
  - left. rewrite Forall_lookup in Hq |- *. intros i a Ha. apply (propose_quiet a (λ _, "") l); [|done|by eapply Hq].
    by eapply plays_valid.
  - right. apply not_Forall_Exists, Exists_exists in Hq as (a & Hin & Hp); [|apply _].
    apply list_elem_of_lookup in Hin as [i Hi]. destruct (propose a (λ _, "") l) as [l'|] eqn:E; [|done]. eauto.
Qed.

Lemma accept_next s i a l' :
  reading s = ∅ → versions s ≠ [] → plays i a → propose a (λ _, "") (stored_conds s) = Some l' →
  ∃ s', rtc (sys_step plays) s s' ∧ reading s' = ∅ ∧ length (writes_done s') = S (length (writes_done s)).
Proof.
  destruct s as [vs rd log]. cbn [reading versions writes_done]. intros -> Hne Ha. unfold stored_conds. cbn [versions].
  destruct (last vs) as [c|] eqn:Hc; [|by apply last_None in Hc]. intros Hp.
  eexists. split; [by eapply can_accept; [apply lookup_empty|..]|].
  cbn [reading writes_done]. split; [done|]. rewrite length_app. cbn. lia.
Qed.

Lemma settle_from c0 n s :
  wf_conds c0 → rtc (sys_step plays) (sys_start c0) s → reading s = ∅ → length ws - length (writes_done s) ≤ n →
  ∃ s', rtc (sys_step plays) s s' ∧ Forall (λ a, settled a (stored_conds s')) ws.
Proof.
  intros H0. revert s. induction n as [|n IH]; intros s Hr He Hn;
    destruct (plays_settle c0 s H0 Hr) as (Hw & _);
    (destruct (settled_or_proposes (stored_conds s) Hw) as [Hq|(i & a & l' & Ha & Hp)];
      [exists s; split; [apply rtc_refl|done]|]);
    pose proof (sys_inv_reachable plays c0 s Hr) as [Hne _ _];
    destruct (accept_next s i a l' He Hne Ha Hp) as (s1 & Hs1 & He1 & Hlen);
    assert (Hr1 : rtc (sys_step plays) (sys_start c0) s1) by (by etrans);
    pose proof (plays_settle c0 s1 H0 Hr1) as (_ & Hle & _); [lia|].
  destruct (IH s1 Hr1 He1) as (s' & Hs' & Hset); [lia|]. exists s'. split; [by etrans|done].
Qed.

Lemma settling c0 s :
  wf_conds c0 → rtc (sys_step plays) (sys_start c0) s →
  length (writes_done s) ≤ length ws ∧
  ∃ s', rtc (sys_step plays) s s' ∧ Forall (λ a, writer_settled a (stored_conds s')) ws.
Proof.
  intros H0 Hr. split; [by apply (plays_settle c0 s)|]. destruct (drain s) as (s1 & Hs1 & He).
  destruct (settle_from c0 (length ws) s1 H0) as (s' & Hs' & Hset); [by etrans|done|lia|].
  exists s'. split; [by etrans|exact Hset].
Qed.

End Settling.

(** [C11] Writers never fight: when each process keeps wanting the same
    conditions and no two processes own a common type, however their reads and
    writes interleave, each has at most one write accepted, and from every
    reachable state a state is reachable in which every one of them has nothing
    left to write. *)
Theorem writers_settle ws c0 s :
  Forall writer_valid ws →
  (∀ i j a b, ws !! i = Some a → ws !! j = Some b → i ≠ j → writer_owns a ## writer_owns b) →
  wf_conds c0 → rtc (sys_step (plays ws)) (sys_start c0) s →
  length (writes_done s) ≤ length ws ∧
  ∃ s', rtc (sys_step (plays ws)) s s' ∧ Forall (λ a, writer_settled a (stored_conds s')) ws.
Proof.
  intros Hv Hd H0 Hr. exact (settling ws Hv Hd c0 s H0 Hr).
Qed.

(** The link from the code to these writers: an attempt of the lifecycle manager
    sends the list that its writer proposes for the conditions just read, and
    nothing when it proposes nothing; so do an attempt of the daemon, and the
    roll-up of a valid mapping without status fields whose condition types are
    distinct, on a source whose status has a list of conditions. *)
Lemma status_updates_are_proposals `{CELEngine} {W : Type} `{KubeAPI W} `{ControllerUtil} now :
  (∀ ns name want w cfg w1 fresh l,
     kube_get w ns name = (w1, Ok fresh) → LcConditions fresh = Ok l →
     upsert_attempt now ns name want (w, cfg) =
     match writer_propose (ByLifecycle want) (now w1) l with
     | None => ((w1, fresh), None)
     | Some l' =>
         let '(w2, stored) := kube_update_status w1 (with_conditions l' fresh) in
         match stored with Err e => ((w2, cfg), Some e) | Ok fresh => ((w2, fresh), None) end
     end) ∧
  (∀ out got, writer_valid (ByLifecycle (owned_conditions out)) ∧
              writer_valid (ByLifecycle [cleanup_condition got])) ∧
  (∀ healthy at_ v,
     upsert_ready healthy at_ v =
     (λ out, with_object (set_status_conditions out (VoObject v)) v) <$>
       writer_propose (ByDaemon healthy) (λ _, at_) (status_conditions (VoObject v))) ∧
  (∀ spec st src children desired at_ l,
     Status spec = Some st → StatusFields st = [] → NoDup (CondType <$> Conditions st) →
     src_status src !! "conditions" = Some (VList l) →
     ApplyStatus spec (SrcObject src) children = Ok (Some desired) →
     ∃ own, writer_valid (ByTranslator (mapping_writes st) own) ∧
       writer_owns (ByTranslator (mapping_writes st) own) = CondType <$> Conditions st ∧
       applyStatus at_ (src_status src) desired =
         (λ l', <["conditions" := VList l']> (src_status src)) <$>
           writer_propose (ByTranslator (mapping_writes st) own) (λ _, at_) l).
Proof.
  split_and!.
  - intros. by apply lifecycle_sends.
  - apply lifecycle_writers_valid.
  - apply daemon_sends.
  - intros. by eapply translator_sends.
Qed.

(** ** A race on one DataProcessingUnit *)

Definition race_condition (t : string) : value := VMap {[ "type" := VString t; "status" := VString "False" ]}.

(** The daemon and the translators of the two vendors. *)
Definition race_ws : list Author :=
  [ByDaemon true; ByTranslator ["dpfready"] [race_condition "DPFReady"];
   ByTranslator ["dscready"] [race_condition "DSCReady"]].

Definition race_written : list value := default [] (writer_propose (ByDaemon true) (λ _, "t1") []).

(** Both the daemon and the first translator read the empty list; the daemon's
    write is accepted, the translator's is refused. *)
Definition race_end : Sys := {|
  versions := [[]; race_written];
  reading := delete 1 (delete 0 (<[1 := (ByTranslator ["dpfready"] [race_condition "DPFReady"], 0, [])]>
                                (<[0 := (ByDaemon true, 0, [])]> ∅)));
  writes_done := [(0, ByDaemon true, race_written)] |}.

Lemma race_own_ok t :
  t ∈ ["DPFReady"; "DSCReady"] → wf_own [ToLower t] [race_condition t].
Proof.
  intros Ht. split; [apply NoDup_singleton|]. intros v ->%list_elem_of_singleton. eexists. split; [reflexivity|].
  apply elem_of_cons in Ht as [->|Ht]; [|apply list_elem_of_singleton in Ht as ->].
  all: split; [exists (VString "False"); split_and!; vm_compute; done|
    |apply (bool_decide_unpack _); vm_compute; exact I].
  all: intros k Hk; rewrite lookup_insert_ne, lookup_singleton_ne by ne_key; done.
Qed.

Lemma race_valid : Forall writer_valid race_ws.
Proof.
  unfold race_ws. constructor; [exact I|]. constructor; [exact (race_own_ok "DPFReady" ltac:(left))|].
  constructor; [exact (race_own_ok "DSCReady" ltac:(right; left))|constructor].
Qed.

Lemma race_apart i j a b :
  race_ws !! i = Some a → race_ws !! j = Some b → i ≠ j → writer_owns a ## writer_owns b.
Proof.
  destruct i as [|[|[|i]]], j as [|[|[|j]]]; intros Ha Hb Hij; try done; injection Ha as <-; injection Hb as <-;
    intros t Ht Hu; apply list_elem_of_singleton in Ht; apply list_elem_of_singleton in Hu; subst t; discriminate Hu.
Qed.

Lemma race_run : rtc (sys_step (plays race_ws)) (sys_start []) race_end.
Proof.
  eapply rtc_l; [eapply (step_read _ _ ∅ [] 0 (ByDaemon true) 0 []); done|].
  eapply rtc_l; [eapply (step_read _ _ _ _ 1 _ 0 []); done|].
  eapply rtc_l; [eapply (step_accept _ _ _ _ 0 _ 0 [] (λ _, "t1") race_written); done|].
  eapply rtc_l; [|apply rtc_refl].
  eapply (step_conflict _ _ _ _ 1 _ 0 [] (λ _, "t1")); [done|vm_compute; reflexivity|done].
Qed.

Lemma race_wf : wf_conds [].
Proof. split; constructor. Qed.

Lemma no_lost_update_witness :
  wf_conds (stored_conds race_end) ∧
  ∀ t, cond_view t (stored_conds race_end) = cond_view t (last_owner_list t [] (writes_done race_end)).
Proof.
  apply (no_lost_update (plays race_ws) [] race_end); [|exact race_wf|exact race_run].
  intros i a Ha. exact (plays_valid race_ws race_valid i a Ha).
Defined.

Lemma writers_settle_witness :
  length (writes_done race_end) ≤ length race_ws ∧
  ∃ s', rtc (sys_step (plays race_ws)) race_end s' ∧ Forall (λ a, writer_settled a (stored_conds s')) race_ws.
Proof.
  exact (writers_settle race_ws [] race_end race_valid race_apart race_wf race_run).
Defined.
