(* ===== verification/Documents.v ===== *)
(** * The documents of this repository
      (config/mappings, config/condition-writers.yaml, zz_generated_rbac.go)

    The three FieldMapping documents and the condition-writer table, as the typed
    decoders read them, and the file that the RBAC generator wrote.  A document's
    description is free text that no code reads: it is an argument.  A number in
    YAML is decoded through JSON, as a float64. *)

From Stdlib Require Import Ascii ZArith.
From stdpp Require Import base gmap strings list fin_maps.
From S2P Require Import Prelude GoStrings Unstructured MappingSpec MappingLoad Rbac.

(** ** Constructors *)

Definition gvk3 (g v k : string) : ObjectRef := {| Group := g; Version := v; RefKind := k |}.

Definition no_value : ValueExpr := {| VFrom := ""; VCEL := ""; VLit := ""; VDefault := VNil; VRequired := false |}.
Definition from_value (p : string) : ValueExpr :=
  {| VFrom := p; VCEL := ""; VLit := ""; VDefault := VNil; VRequired := false |}.
Definition cel_value (e : string) : ValueExpr :=
  {| VFrom := ""; VCEL := e; VLit := ""; VDefault := VNil; VRequired := false |}.

Definition copy_field (to from : string) (required : bool) : Field :=
  {| To := to; From := from; CEL := ""; FieldValue := VNil; Default := VNil; Required := required |}.
Definition cel_field (to e : string) (required : bool) : Field :=
  {| To := to; From := ""; CEL := e; FieldValue := VNil; Default := VNil; Required := required |}.
Definition lit_field (to : string) (v : value) : Field :=
  {| To := to; From := ""; CEL := ""; FieldValue := v; Default := VNil; Required := false |}.

(** The float64 of a power of two: its bits are the biased exponent. *)
Definition json_number (n : Z) : value := VFloat ((1023 + Z.log2 n) * 2 ^ 52).

Definition quote : string := String "034" "".

(** A block of lines; within a line the pieces stand between double quotes. *)
Definition block_text (ls : list (list string)) : string := Join newline (Join quote <$> ls) +:+ newline.

(** ** config/mappings/dataprocessingunit.yaml *)

Definition bf3_guard : string :=
  "source.spec.?dpuProductName.orValue('') == 'BlueField-3' && source.metadata.?annotations['discovery.opiproject.org/product-name'].orValue('') == 'BlueField-3'".

Definition dataprocessingunit_DPUDevice : Emit :=
  {| Target := gvk3 "provisioning.dpu.nvidia.com" "v1alpha1" "DPUDevice";
     Name := cel_value "source.metadata.?annotations['provisioning.dpu.nvidia.com/serial-number'].orValue(source.metadata.name + '-device').lowerAscii()";
     Namespace := no_value;
     When := bf3_guard;
     EmitForEach := None;
     Fields :=
       [cel_field "spec.serialNumber" "source.metadata.?annotations['provisioning.dpu.nvidia.com/serial-number'].orValue('')" true] |}.

Definition dataprocessingunit_DPUFlavor : Emit :=
  {| Target := gvk3 "provisioning.dpu.nvidia.com" "v1alpha1" "DPUFlavor";
     Name := cel_value "source.metadata.?annotations['dpu.nvidia.com/flavor'].orValue('dpf-default-flavor')";
     Namespace := no_value;
     When := bf3_guard;
     EmitForEach := None;
     Fields :=
       [lit_field "spec.dpuMode" (VString "dpu");
        cel_field "spec.nvconfig" (block_text [
        ["[{"];
        ["  "; "device"; ": "; "*"; ","];
        ["  "; "parameters"; ": ["];
        ["    "; "PF_BAR2_ENABLE="; " + source.metadata.?annotations['dpu.nvidia.com/pf-bar2-enable'].orValue('0'),"];
        ["    "; "PER_PF_NUM_SF="; " + source.metadata.?annotations['dpu.nvidia.com/per-pf-num-sf'].orValue('1'),"];
        ["    "; "PF_TOTAL_SF="; " + (source.metadata.?annotations['dpu.nvidia.com/pf-total-sf'].orValue('20') == '0' ? '20' : source.metadata.?annotations['dpu.nvidia.com/pf-total-sf'].orValue('20')),"];
        ["    "; "PF_SF_BAR_SIZE="; " + (source.metadata.?annotations['dpu.nvidia.com/pf-sf-bar-size'].orValue('10') == '0' ? '10' : source.metadata.?annotations['dpu.nvidia.com/pf-sf-bar-size'].orValue('10')),"];
        ["    "; "NUM_PF_MSIX_VALID="; " + source.metadata.?annotations['dpu.nvidia.com/num-pf-msix-valid'].orValue('0'),"];
        ["    "; "PF_NUM_PF_MSIX_VALID="; " + source.metadata.?annotations['dpu.nvidia.com/pf-num-pf-msix-valid'].orValue('1'),"];
        ["    "; "PF_NUM_PF_MSIX="; " + source.metadata.?annotations['dpu.nvidia.com/pf-num-pf-msix'].orValue('228'),"];
        ["    "; "INTERNAL_CPU_MODEL=1"; ","];
        ["    "; "INTERNAL_CPU_OFFLOAD_ENGINE=0"; ","];
        ["    "; "SRIOV_EN=1"; ","];
        ["    "; "NUM_OF_VFS="; " + source.metadata.?annotations['dpu.nvidia.com/num-of-vfs'].orValue('46'),"];
        ["    "; "LAG_RESOURCE_ALLOCATION="; " + source.metadata.?annotations['dpu.nvidia.com/lag-resource-allocation'].orValue('1')"];
        ["  ]"];
        ["}]"]]) false] |}.

Definition dataprocessingunit_BFB : Emit :=
  {| Target := gvk3 "provisioning.dpu.nvidia.com" "v1alpha1" "BFB";
     Name := cel_value "source.metadata.?annotations['dpu.nvidia.com/bfb'].orValue('bf-bundle')";
     Namespace := no_value;
     When := bf3_guard;
     EmitForEach := None;
     Fields :=
       [cel_field "spec.url" "source.metadata.?annotations['dpu.nvidia.com/bfb-url'].orValue('')" true] |}.

Definition dataprocessingunit_DPU : Emit :=
  {| Target := gvk3 "provisioning.dpu.nvidia.com" "v1alpha1" "DPU";
     Name := from_value "metadata.name";
     Namespace := no_value;
     When := bf3_guard;
     EmitForEach := None;
     Fields :=
       [copy_field "spec.dpuNodeName" "spec.nodeName" true;
        cel_field "metadata.labels" "{'provisioning.dpu.nvidia.com/dpunode-name': source.spec.nodeName}" false;
        cel_field "spec.dpuDeviceName" "source.metadata.?annotations['provisioning.dpu.nvidia.com/serial-number'].orValue(source.metadata.name + '-device').lowerAscii()" false;
        cel_field "spec.dpuFlavor" "source.metadata.?annotations['dpu.nvidia.com/flavor'].orValue('dpf-default-flavor')" false;
        cel_field "spec.bfb" "source.metadata.?annotations['dpu.nvidia.com/bfb'].orValue('bf-bundle')" false;
        cel_field "spec.serialNumber" "source.metadata.?annotations['provisioning.dpu.nvidia.com/serial-number'].orValue('')" true;
        cel_field "spec.pciAddress" "source.metadata.?annotations['provisioning.dpu.nvidia.com/pci-address'].orValue('')" true;
        lit_field "spec.nodeEffect.noEffect" (VBool true)] |}.

Definition dataprocessingunit_status : StatusMapping := {|
  StatusWhen := "(source.spec.?dpuProductName.orValue('').startsWith('BlueField') || source.metadata.?annotations['discovery.opiproject.org/product-name'].orValue('').startsWith('BlueField')) || source.metadata.?annotations['provisioning.dpu.nvidia.com/serial-number'].orValue('') != '' || source.?status.?conditions.orValue([]).exists(c, c.type in ['DPFReady', 'DPFHardwareCompatible'])";
  StatusSchema := "conditions";
  StatusFields := [];
  Conditions :=
    [ {| CondType := "DPFReady";
        CondStatus := "(source.spec.?dpuProductName.orValue('') == 'BlueField-3' && source.metadata.?annotations['discovery.opiproject.org/product-name'].orValue('') == 'BlueField-3') && (children.size() > 0 && children.all(c, c.?status.?conditions.orValue([]).exists(cond, cond.type == 'Ready' && cond.status == 'True') || c.?status.?phase.orValue('') == 'Ready' || c.?kind.orValue('') == 'DPUFlavor'))";
        CondReason := "!(source.spec.?dpuProductName.orValue('') == 'BlueField-3' && source.metadata.?annotations['discovery.opiproject.org/product-name'].orValue('') == 'BlueField-3') ? (source.metadata.?annotations['discovery.opiproject.org/product-name'].orValue('') == '' ? 'HardwareIdentityMissing' : (source.metadata.?annotations['discovery.opiproject.org/product-name'].orValue('') != 'BlueField-3' ? 'UnsupportedHardware' : (source.spec.?dpuProductName.orValue('') != 'BlueField-3' ? 'HardwareIdentityMismatch' : 'SupportedGeneration'))) : (children.exists(c, c.?status.?phase.orValue('') == 'Rebooting') ? 'Rebooting' : ((children.size() > 0 && children.all(c, c.?status.?conditions.orValue([]).exists(cond, cond.type == 'Ready' && cond.status == 'True') || c.?status.?phase.orValue('') == 'Ready' || c.?kind.orValue('') == 'DPUFlavor')) ? 'AllChildrenReady' : 'ChildrenNotReady'))";
        CondMessage := "!(source.spec.?dpuProductName.orValue('') == 'BlueField-3' && source.metadata.?annotations['discovery.opiproject.org/product-name'].orValue('') == 'BlueField-3') ? ((source.spec.?dpuProductName.orValue('') == 'BlueField-3' && source.metadata.?annotations['discovery.opiproject.org/product-name'].orValue('') == 'BlueField-3') ? 'BlueField-3 generation is eligible for the DPF 26.4 profile; verify exact SKU, firmware, host OS and physical dataplane separately' : ('DPF 26.4 profile requires matching declared and observed BlueField-3 hardware; observed=' + source.metadata.?annotations['discovery.opiproject.org/product-name'].orValue(''))) : (children.exists(c, c.?status.?phase.orValue('') == 'Rebooting') ? 'NVIDIA DPU child is Rebooting; the required reset is managed by DPF' : ((children.size() > 0 && children.all(c, c.?status.?conditions.orValue([]).exists(cond, cond.type == 'Ready' && cond.status == 'True') || c.?status.?phase.orValue('') == 'Ready' || c.?kind.orValue('') == 'DPUFlavor')) ? 'All emitted DPF objects report Ready' : 'One or more emitted DPF resources are not Ready'))" |};
      {| CondType := "DPFHardwareCompatible";
        CondStatus := bf3_guard;
        CondReason := "source.metadata.?annotations['discovery.opiproject.org/product-name'].orValue('') == '' ? 'HardwareIdentityMissing' : (source.metadata.?annotations['discovery.opiproject.org/product-name'].orValue('') != 'BlueField-3' ? 'UnsupportedHardware' : (source.spec.?dpuProductName.orValue('') != 'BlueField-3' ? 'HardwareIdentityMismatch' : 'SupportedGeneration'))";
        CondMessage := "(source.spec.?dpuProductName.orValue('') == 'BlueField-3' && source.metadata.?annotations['discovery.opiproject.org/product-name'].orValue('') == 'BlueField-3') ? 'BlueField-3 generation is eligible for the DPF 26.4 profile; verify exact SKU, firmware, host OS and physical dataplane separately' : ('DPF 26.4 profile requires matching declared and observed BlueField-3 hardware; observed=' + source.metadata.?annotations['discovery.opiproject.org/product-name'].orValue(''))" |} ] |}.

Definition dataprocessingunit (description : string) : Spec := {|
  SpecAPIVersion := "translation.opi.nvidia.com/v1alpha1"; SpecKind := "FieldMapping";
  SpecMetadata := {| MetaName := "dataprocessingunit"; Description := description |};
  Source := gvk3 "config.openshift.io" "v1" "DataProcessingUnit";
  SpecDefaults := Some {| DefaultNamespace := cel_value "source.metadata.?namespace.orValue('') != '' ? source.metadata.namespace : 'dpf-operator-system'" |};
  SpecEmit := [dataprocessingunit_DPUDevice; dataprocessingunit_DPUFlavor; dataprocessingunit_BFB; dataprocessingunit_DPU];
  Status := Some dataprocessingunit_status;
  PruneWhen := bf3_guard |}.

(** ** config/mappings/amd-dsc200.yaml *)

Definition dsc_guard : string :=
  "source.spec.?dpuProductName.orValue('').matches('DSC|Pensando') && source.metadata.?annotations['dpu.amd.com/serial-number'].orValue('') != ''".

Definition amd_dsc200_DSCDevice : Emit :=
  {| Target := gvk3 "dpu.amd.com" "v1alpha1" "DSCDevice";
     Name := cel_value "source.metadata.name + '-dsc'";
     Namespace := no_value;
     When := dsc_guard;
     EmitForEach := None;
     Fields :=
       [cel_field "spec.deviceSerial" "source.metadata.?annotations['dpu.amd.com/serial-number'].orValue('')" true;
        cel_field "spec.pciAddress" "source.metadata.?annotations['dpu.amd.com/pci-address'].orValue('')" false;
        copy_field "spec.productName" "spec.dpuProductName" true;
        lit_field "spec.management.driver" (VString "ionic");
        cel_field "spec.management.interface" "source.metadata.?annotations['dpu.amd.com/mgmt-interface'].orValue('oob')" false] |}.

Definition amd_dsc200_DSCProfile : Emit :=
  {| Target := gvk3 "dpu.amd.com" "v1alpha1" "DSCProfile";
     Name := cel_value "source.metadata.?annotations['dpu.amd.com/profile'].orValue('dsc-default-profile')";
     Namespace := no_value;
     When := dsc_guard;
     EmitForEach := None;
     Fields :=
       [cel_field "spec.mode" "source.spec.?isDpuSide.orValue(false) ? 'dpu' : 'smartnic'" false;
        lit_field "spec.hostInterfaces" (json_number 2)] |}.

Definition amd_dsc200_DSCFirmware : Emit :=
  {| Target := gvk3 "dpu.amd.com" "v1alpha1" "DSCFirmware";
     Name := cel_value "source.metadata.?annotations['dpu.amd.com/firmware'].orValue('dsc-fw-bundle')";
     Namespace := no_value;
     When := dsc_guard;
     EmitForEach := None;
     Fields :=
       [cel_field "spec.image.url" "source.metadata.?annotations['dpu.amd.com/firmware-url'].orValue('')" true;
        cel_field "spec.image.version" "source.metadata.?annotations['dpu.amd.com/firmware-version'].orValue('1.46.0-E-28')" false] |}.

Definition amd_dsc200_DSCNodePolicy : Emit :=
  {| Target := gvk3 "dpu.amd.com" "v1alpha1" "DSCNodePolicy";
     Name := from_value "metadata.name";
     Namespace := no_value;
     When := dsc_guard;
     EmitForEach := None;
     Fields :=
       [copy_field "spec.nodeName" "spec.nodeName" true;
        cel_field "spec.deviceRef.name" "source.metadata.name + '-dsc'" false;
        cel_field "spec.profileRef.name" "source.metadata.?annotations['dpu.amd.com/profile'].orValue('dsc-default-profile')" false;
        cel_field "spec.firmwareRef.name" "source.metadata.?annotations['dpu.amd.com/firmware'].orValue('dsc-fw-bundle')" false;
        lit_field "spec.drain.enabled" (VBool false)] |}.

Definition amd_dsc200_status : StatusMapping := {|
  StatusWhen := dsc_guard;
  StatusSchema := "conditions";
  StatusFields := [];
  Conditions :=
    [ {| CondType := "DSCReady";
        CondStatus := "children.size() > 0 && children.all(c, c.?status.?conditions.orValue([]).size() == 0 || c.?status.?conditions.orValue([]).exists(cond, cond.type == 'Ready' && cond.status == 'True'))";
        CondReason := "AllChildrenReady";
        CondMessage := "All emitted AMD DSC objects that publish readiness report Ready" |} ] |}.

Definition amd_dsc200 (description : string) : Spec := {|
  SpecAPIVersion := "translation.opi.nvidia.com/v1alpha1"; SpecKind := "FieldMapping";
  SpecMetadata := {| MetaName := "amd-dsc200"; Description := description |};
  Source := gvk3 "config.openshift.io" "v1" "DataProcessingUnit";
  SpecDefaults := Some {| DefaultNamespace := cel_value "source.metadata.?namespace.orValue('') != '' ? source.metadata.namespace : 'amd-dpu-system'" |};
  SpecEmit := [amd_dsc200_DSCDevice; amd_dsc200_DSCProfile; amd_dsc200_DSCFirmware; amd_dsc200_DSCNodePolicy];
  Status := Some amd_dsc200_status;
  PruneWhen := "" |}.

(** ** config/mappings/servicefunctionchain.yaml *)

Definition servicefunctionchain_DPUService : Emit :=
  {| Target := gvk3 "svc.dpu.nvidia.com" "v1alpha1" "DPUService";
     Name := cel_value "item.name";
     Namespace := no_value;
     When := "'chart' in item";
     EmitForEach := (Some {| In_ := "spec.networkFunctions" |});
     Fields :=
       [copy_field "spec.serviceID" "item.name" true;
        cel_field "spec.helmChart.source.repoURL" "item.chart.repository" true;
        cel_field "spec.helmChart.source.chart" "item.chart.name" true;
        cel_field "spec.helmChart.source.version" "item.chart.version" true;
        cel_field "spec.interfaces" "[item.name + '-ifc']" false;
        lit_field "spec.paused" (VBool false);
        lit_field "spec.security.privileged" (VBool true)] |}.

Definition servicefunctionchain_DPUServiceInterface : Emit :=
  {| Target := gvk3 "svc.dpu.nvidia.com" "v1alpha1" "DPUServiceInterface";
     Name := cel_value "item.name + '-ifc'";
     Namespace := no_value;
     When := "'chart' in item";
     EmitForEach := (Some {| In_ := "spec.networkFunctions" |});
     Fields :=
       [cel_field "spec.template.spec.template.metadata.labels" "{'service': item.name}" false;
        lit_field "spec.template.spec.template.spec.interfaceType" (VString "service");
        copy_field "spec.template.spec.template.spec.service.serviceID" "item.name" true;
        lit_field "spec.template.spec.template.spec.service.interfaceName" (VString "net0");
        lit_field "spec.template.spec.template.spec.service.network" (VString "default")] |}.

Definition servicefunctionchain_DPUServiceChain : Emit :=
  {| Target := gvk3 "svc.dpu.nvidia.com" "v1alpha1" "DPUServiceChain";
     Name := from_value "metadata.name";
     Namespace := no_value;
     When := "source.spec.networkFunctions.exists(nf, 'chart' in nf)";
     EmitForEach := None;
     Fields :=
       [cel_field "spec.template.spec.template.spec.switches" "[{'ports': source.spec.networkFunctions.filter(nf, 'chart' in nf).map(nf, {'serviceInterface': {'matchLabels': {'service': nf.name}}})}]" false] |}.

Definition servicefunctionchain_status : StatusMapping := {|
  StatusWhen := "";
  StatusSchema := "conditions";
  StatusFields := [];
  Conditions :=
    [ {| CondType := "DPFReady";
        CondStatus := "children.size() > 0 && children.all(c, c.?status.?conditions.orValue([]).exists(cond, cond.type == 'Ready' && cond.status == 'True'))";
        CondReason := "(children.size() > 0 && children.all(c, c.?status.?conditions.orValue([]).exists(cond, cond.type == 'Ready' && cond.status == 'True'))) ? 'AllServicesReady' : 'ServicesNotReady'";
        CondMessage := "(children.size() > 0 && children.all(c, c.?status.?conditions.orValue([]).exists(cond, cond.type == 'Ready' && cond.status == 'True'))) ? 'All translated DPUServices, interfaces, and the chain report Ready' : 'One or more translated services, interfaces, or the chain are not Ready'" |} ] |}.

Definition servicefunctionchain (description : string) : Spec := {|
  SpecAPIVersion := "translation.opi.nvidia.com/v1alpha1"; SpecKind := "FieldMapping";
  SpecMetadata := {| MetaName := "servicefunctionchain"; Description := description |};
  Source := gvk3 "config.openshift.io" "v1" "ServiceFunctionChain";
  SpecDefaults := Some {| DefaultNamespace := cel_value "source.metadata.?namespace.orValue('') != '' ? source.metadata.namespace : 'dpf-operator-system'" |};
  SpecEmit := [servicefunctionchain_DPUService; servicefunctionchain_DPUServiceInterface; servicefunctionchain_DPUServiceChain];
  Status := Some servicefunctionchain_status;
  PruneWhen := "" |}.

(** ** config/condition-writers.yaml *)

Definition condition_writers : ConditionWriterTable := {|
  TableAPIVersion := "translation.opi.nvidia.com/v1alpha1"; TableKind := "ConditionWriterTable";
  Writers :=
    [ {| Object_ := gvk3 "config.openshift.io" "v1" "DataProcessingUnit"; WType := "Ready"; MappingLoad.Writer := "vsp-opi-daemon"; WSchema := "conditions" |};
      {| Object_ := gvk3 "config.openshift.io" "v1" "DataProcessingUnit"; WType := "DPFReady"; MappingLoad.Writer := "mapping:dataprocessingunit"; WSchema := "conditions" |};
      {| Object_ := gvk3 "config.openshift.io" "v1" "DataProcessingUnit"; WType := "DPFHardwareCompatible"; MappingLoad.Writer := "mapping:dataprocessingunit"; WSchema := "conditions" |};
      {| Object_ := gvk3 "config.openshift.io" "v1" "DataProcessingUnit"; WType := "DSCReady"; MappingLoad.Writer := "mapping:amd-dsc200"; WSchema := "conditions" |};
      {| Object_ := gvk3 "config.openshift.io" "v1" "ServiceFunctionChain"; WType := "DPFReady"; MappingLoad.Writer := "mapping:servicefunctionchain"; WSchema := "conditions" |};
      {| Object_ := gvk3 "config.openshift.io" "v1" "DpuOperatorConfig"; WType := "Ready"; MappingLoad.Writer := "vsp-opi-daemon"; WSchema := "conditions" |};
      {| Object_ := gvk3 "config.openshift.io" "v1" "DpuOperatorConfig"; WType := "VendorOperatorSupported"; MappingLoad.Writer := "lifecycle"; WSchema := "conditions" |};
      {| Object_ := gvk3 "config.openshift.io" "v1" "DpuOperatorConfig"; WType := "VendorOperatorReady"; MappingLoad.Writer := "lifecycle"; WSchema := "conditions" |};
      {| Object_ := gvk3 "config.openshift.io" "v1" "DpuOperatorConfig"; WType := "VendorOperatorCleanup"; MappingLoad.Writer := "lifecycle"; WSchema := "conditions" |};
      {| Object_ := gvk3 "config.openshift.io" "v1" "DpuOperatorConfig"; WType := "VendorDPUReady"; MappingLoad.Writer := "lifecycle"; WSchema := "conditions" |} ] |}.

(** ** pkg/translation/zz_generated_rbac.go *)

Definition zz_generated_rbac : string :=
  Join newline
    ["// Code generated by hack/gen-rbac from config/mappings. DO NOT EDIT.";
     "//";
     "// Regenerate with: make generate-rbac";
     "//";
     "// These markers are what controller-gen turns into the manager ClusterRole.";
     "// They are derived from the FieldMapping documents, so onboarding a vendor";
     "// needs no Go edit: drop in a mapping and regenerate. The previous hand-written";
     "// markers were the one place a vendor port was not pure data, and a forgotten";
     "// group surfaced only at runtime as an apiserver Forbidden error.";
     "";
     "package translation";
     "";
     "// +kubebuilder:rbac:groups=config.openshift.io,resources=dataprocessingunits/finalizers;servicefunctionchains/finalizers,verbs=update";
     "// +kubebuilder:rbac:groups=config.openshift.io,resources=dataprocessingunits/status;servicefunctionchains/status,verbs=get;update;patch";
     "// +kubebuilder:rbac:groups=config.openshift.io,resources=dataprocessingunits;servicefunctionchains,verbs=get;list;watch;update;patch";
     "// +kubebuilder:rbac:groups=dpu.amd.com,resources=dscdevices;dscfirmwares;dscnodepolicies;dscprofiles,verbs=get;list;watch;create;update;patch;delete";
     "// +kubebuilder:rbac:groups=provisioning.dpu.nvidia.com,resources=bfbs;dpudevices;dpuflavors;dpus,verbs=get;list;watch;create;update;patch;delete";
     "// +kubebuilder:rbac:groups=svc.dpu.nvidia.com,resources=dpuservicechains;dpuserviceinterfaces;dpuservices,verbs=get;list;watch;create;update;patch;delete"] +:+ newline.
