(* ===== verification/DocumentsFacts.v ===== *)
(** * The shipped documents keep the contracts of the code that reads them

    The three mapping documents load and satisfy the side conditions of the
    engine's theorems; the condition-writer table lists exactly the conditions
    that the mappings, the lifecycle manager and the daemon write; the committed
    RBAC markers are the ones the generator derives; and the writers that share a
    DataProcessingUnit or a DpuOperatorConfig never fight. *)

From Stdlib Require Import Ascii ZArith Lia.
From stdpp Require Import base gmap strings list fin_maps sorting.
From S2P Require Import Prelude GoStrings Unstructured MappingSpec MappingEngine JsonMeta MappingLoad Version InstallConfig Release HelmInstaller Cleanup Operator Ensure Conditions ConditionsFacts Controller Translation Discovery Vsp VspFacts StatusTable StatusMerge SharedStatus SharedStatusFacts Rbac Documents.

#[global] Instance ConditionWriter_row_eq_dec : EqDecision MappingLoad.ConditionWriter.
Proof. solve_decision. Defined.

(** ** Side conditions, decided *)

Lemma independent_checked fs :
  Forall (λ jg : nat * Field, Forall (λ ig : nat * Field, ig.1 ≠ jg.1 →
    ¬ field_parts ig.2 `prefix_of` field_parts jg.2) (imap pair fs)) (imap pair fs) →
  independent fs.
Proof.
  intros Hf i j f g Hi Hj Hij. rewrite Forall_lookup in Hf. specialize (Hf j (j, g)).
  rewrite Forall_lookup in Hf. apply (Hf ltac:(by rewrite list_lookup_imap, Hj) i (i, f)); [|done].
  by rewrite list_lookup_imap, Hi.
Qed.

Lemma meta_safe_checked spec :
  Forall (λ e, Forall (λ f, field_parts f ≠ ["metadata"]) (Fields e)) (SpecEmit spec) → meta_safe spec.
Proof. intros Hf e f He. revert f. apply Forall_forall. revert e He. by apply Forall_forall. Qed.

(** The documents in the order that the directory lists them. *)
Definition shipped (d1 d2 d3 : string) : list Spec :=
  [amd_dsc200 d1; dataprocessingunit d2; servicefunctionchain d3].

(** The documents are valid, whatever their descriptions say, no field
    overwrites an emitted object's metadata, and no field of a rule writes into
    another: the guarantees proved for emitted objects hold for each. *)
Theorem shipped_documents_valid d1 d2 d3 :
  Forall (λ s, Validate s = Ok tt ∧ meta_safe s ∧ ∀ e, e ∈ SpecEmit s → independent (Fields e)) (shipped d1 d2 d3).
Proof.
  repeat constructor; try (vm_compute; reflexivity).
  all: try (apply meta_safe_checked; apply (bool_decide_unpack _); vm_compute; exact I).
  all: intros e He; apply independent_checked; revert e He; apply Forall_forall, (bool_decide_unpack _); vm_compute; exact I.
Qed.

(** ** The generated markers *)

Definition rbac_flags : GenFlags :=
  {| mappingDir := "config/mappings"; out := "pkg/translation/zz_generated_rbac.go"; pkg := "translation"; check := true |}.

Lemma shipped_render o d1 d2 d3 :
  render (H := o) (shipped d1 d2 d3) (pkg rbac_flags) (mappingDir rbac_flags) = zz_generated_rbac.
Proof.
  rewrite <- (proj1 (render_deterministic forward o (shipped d1 d2 d3) rbac_flags None
    ltac:(apply untied_Forall, (bool_decide_unpack _); vm_compute; exact I))).
  vm_compute. reflexivity.
Qed.

(** What the repository's directory answers. *)
Record repository `{Files} (d1 d2 d3 : string) : Prop := {
  repo_dir : ReadDir "config/mappings" =
    Ok [("amd-dsc200.yaml", false); ("dataprocessingunit.yaml", false); ("fieldmapping.schema.json", false);
        ("kustomization.yaml", false); ("servicefunctionchain.yaml", false)];
  repo_amd : ∃ b, ReadFile (PathJoin "config/mappings" "amd-dsc200.yaml") = Ok b ∧
               UnmarshalSpec b = Ok (amd_dsc200 d1);
  repo_dpu : ∃ b, ReadFile (PathJoin "config/mappings" "dataprocessingunit.yaml") = Ok b ∧
               UnmarshalSpec b = Ok (dataprocessingunit d2);
  repo_sfc : ∃ b, ReadFile (PathJoin "config/mappings" "servicefunctionchain.yaml") = Ok b ∧
               UnmarshalSpec b = Ok (servicefunctionchain d3);
  repo_table : ∃ b, ReadFile "config/condition-writers.yaml" = Ok b ∧ UnmarshalTable b = Ok condition_writers }.

Lemma shipped_loads `{Files} d1 d2 d3 : repository d1 d2 d3 → LoadDir "config/mappings" = Ok (shipped d1 d2 d3).
Proof.
  intros [Hd H1 H2 H3 _]. apply LoadDir_all_or_nothing. split; [done|]. eexists. split; [exact Hd|].
  pose proof (shipped_documents_valid d1 d2 d3) as Hv. rewrite Forall_forall in Hv.
  assert (Hwf : ∀ s, s ∈ shipped d1 d2 d3 → wf_spec s) by (intros s Hs; by apply Validate_spec, Hv).
  change (filter is_document _) with
    [("amd-dsc200.yaml", false); ("dataprocessingunit.yaml", false); ("servicefunctionchain.yaml", false)].
  constructor; [split; [apply Hwf; left|exact H1]|].
  constructor; [split; [apply Hwf; right; left|exact H2]|].
  constructor; [split; [apply Hwf; right; right; left|exact H3]|constructor].
Qed.

(** [C37] The committed markers are up to date: with the repository's
    documents on disk, the generator's check passes whatever order Go visits its
    maps in and however it sorts; and a run without the check would write the
    same bytes. *)
Theorem shipped_rbac_current `{Files} (o : GoOrder) d1 d2 d3 :
  repository d1 d2 d3 →
  main (H := o) rbac_flags (LoadDir "config/mappings") (Ok zz_generated_rbac) None None =
    Printed ("pkg/translation/zz_generated_rbac.go is up to date" +:+ newline) None ∧
  main (H := o) {| mappingDir := "config/mappings"; out := out rbac_flags; pkg := "translation"; check := false |}
    (LoadDir "config/mappings") (Ok zz_generated_rbac) None None =
    Printed ("wrote pkg/translation/zz_generated_rbac.go" +:+ newline) (Some (out rbac_flags, zz_generated_rbac)).
Proof.
  intros Hr. rewrite (shipped_loads d1 d2 d3 Hr). unfold main. cbn [Rbac.check rbac_flags Rbac.mappingDir Rbac.pkg Rbac.out].
  pose proof (shipped_render o d1 d2 d3) as E. cbn [Rbac.mappingDir Rbac.pkg rbac_flags] in E. rewrite E.
  by rewrite bool_decide_eq_true_2.
Qed.

(** ** The condition-writer table *)

Lemma same_members {A} (P : A → Prop) `{∀ x, Decision (P x)} (l k : list A) :
  filter P l ⊆ k ∧ k ⊆ filter P l → ∀ x, x ∈ l ∧ P x ↔ x ∈ k.
Proof. intros [Hl Hk] x. specialize (Hl x). specialize (Hk x). rewrite list_elem_of_filter in Hl, Hk. naive_solver. Qed.

Definition row_of (object : ObjectRef) (t writer schema : string) : MappingLoad.ConditionWriter :=
  {| Object_ := object; WType := t; MappingLoad.Writer := writer; WSchema := schema |}.

(** A row for a condition type that an install pass or a cleanup pass of the
    lifecycle manager upserts on its DpuOperatorConfig. *)
Definition lifecycle_upserts (r : MappingLoad.ConditionWriter) : Prop :=
  ∃ c, ((∃ out, c ∈ owned_conditions out) ∨ ∃ got, c = cleanup_condition got) ∧
    r = row_of DpuOperatorConfigGVK (OcType c) MappingLoad.LifecycleWriter StatusSchemaConditions.

(** A row for a condition that a mapping document declares on its source. *)
Definition document_declares (s : Spec) (r : MappingLoad.ConditionWriter) : Prop :=
  ∃ st c, Status s = Some st ∧ c ∈ Conditions st ∧
    r = row_of (Source s) (CondType c) (MappingWriter (MetaName (SpecMetadata s))) (StatusSchema st).

Definition no_policy : Result :=
  stop zero_intent (RunPreflight zero_intent) None None zero_install zero_policy zero_status.

Lemma owned_types_fixed out :
  OcType <$> owned_conditions out = OcType <$> owned_conditions no_policy.
Proof.
  unfold owned_conditions. destruct (skewStatus _ _ _), (operatorCondition _) as [[? ?] ?], (dpuCondition _) as [[? ?] ?].
  reflexivity.
Qed.

Lemma lifecycle_upserts_rows r :
  lifecycle_upserts r ↔
  r ∈ (λ t, row_of DpuOperatorConfigGVK t MappingLoad.LifecycleWriter StatusSchemaConditions) <$>
        (OcType <$> owned_conditions no_policy) ++ [CleanupConditionType].
Proof.
  rewrite list_elem_of_fmap. split.
  - intros (c & [[out Hc]|[got ->]] & ->); eexists; (split; [reflexivity|]); apply elem_of_app; [left|by right; left].
    rewrite <- (owned_types_fixed out). by apply list_elem_of_fmap_2.
  - intros (t & -> & [(c & -> & Hc)%list_elem_of_fmap| ->%list_elem_of_singleton]%elem_of_app).
    + exists c. split; [left; by eexists|done].
    + exists (cleanup_condition (result_of CleanupZero None "" "" "" [] OpFailed)). split; [right; by eexists|done].
Qed.

Lemma document_declares_rows s r :
  document_declares s r ↔
  r ∈ match Status s with
      | None => []
      | Some st => (λ c, row_of (Source s) (CondType c) (MappingWriter (MetaName (SpecMetadata s))) (StatusSchema st)) <$> Conditions st
      end.
Proof.
  unfold document_declares. destruct (Status s) as [st|]; [rewrite list_elem_of_fmap|rewrite elem_of_nil]; naive_solver.
Qed.

(** A status update of the Ready report changes conditions of no type but Ready,
    on one of the two kinds that the report lists. *)
Lemma report_changes {W} `{VspAPI W} `{ControllerUtil} hs hasClient (w : W) pre v post :
  (ReportReady hasClient (w, []) (Some hs) : (W * list ReadyEvent) * option err).1.2 = pre ++ RUpdate v :: post →
  ∃ g ns n fresh, RGet g ns n (Ok fresh) ∈ pre ∧ g ∈ [DataProcessingUnitGVK; DpuOperatorConfigGVK] ∧
    ∀ t, cond_at t (Vsp.status_conditions (VoObject v)) ≠ cond_at t (Vsp.status_conditions (VoObject fresh)) →
      t = ReservedConditionType.
Proof.
  intros E. pose proof (report_stamps hs hasClient w) as Hj.
  destruct (Hj pre (RUpdate v) post E) as (g & ns & n & fresh & now & out & Hin & Ha & Hu & -> & _).
  exists g, ns, n, fresh. split; [done|]. split.
  { destruct Ha as (? & ? & _ & _ & _ & _ & [[-> _]| ->]); set_solver. }
  intros t Ht. destruct (decide (t = ReservedConditionType)) as [|Hne]; [done|]. destruct Ht.
  cbn [VoObject with_object]. apply upsertReady_spec in Hu as [Hu _]. unfold Vsp.status_conditions, set_status_conditions in *.
  destruct (VoObject fresh !! "status") as [[]|] eqn:Es; rewrite ?lookup_insert_eq, ?Es; try done.
  all: rewrite ?lookup_insert_eq; by apply cond_at_not_ready.
Qed.

(** A second row for a pair of object and type is refused. *)
Lemma second_row_refused `{Files} path b t extra :
  ReadFile path = Ok b → UnmarshalTable b = Ok t →
  (∃ i j v, i ≠ j ∧ Writers t !! i = Some v ∧ Writers t !! j = Some extra ∧
     Object_ v = Object_ extra ∧ WType v = WType extra) →
  ∃ e, LoadConditionWriterTable path = Err e.
Proof.
  intros Hb Hu (i & j & v & Hij & Hi & Hj & Ho & Ht).
  destruct (LoadConditionWriterTable path) as [t'|e] eqn:E; [|by eexists]. exfalso.
  destruct (ConditionWriterTable_single_writer path t' E) as (_ & _ & Hs).
  unfold LoadConditionWriterTable in E. rewrite Hb in E. cbn [result_bind] in E. rewrite Hu in E. cbn [wrap_err result_bind] in E.
  rewrite !seq_ok in E. destruct E as (_ & _ & _ & [= <-]). by apply Hij, (Hs i j v extra).
Qed.

(** [C38] The condition-writer table is the code's.  It loads; its lifecycle
    rows are exactly the condition types that the install and cleanup passes
    upsert on a DpuOperatorConfig; its rows under a mapping document's name are
    exactly the conditions that the document declares on its source; whatever
    the API server answers, a condition that a status update of the daemon's
    Ready report changes has a row of the daemon, and the daemon has no row but
    Ready; and the table with a second row for one of its pairs of object and
    type does not load. *)
Theorem shipped_table_is_the_code `{Files} d1 d2 d3 :
  repository d1 d2 d3 →
  let table := Writers condition_writers in
  LoadConditionWriterTable "config/condition-writers.yaml" = Ok condition_writers ∧
  (∀ r, r ∈ table ∧ MappingLoad.Writer r = MappingLoad.LifecycleWriter ↔ lifecycle_upserts r) ∧
  (∀ s r, s ∈ shipped d1 d2 d3 →
     r ∈ table ∧ MappingLoad.Writer r = MappingWriter (MetaName (SpecMetadata s)) ↔ document_declares s r) ∧
  (∀ W (A : VspAPI W) (U : ControllerUtil) hs hasClient (w : W) pre v post,
     (ReportReady hasClient (w, []) (Some hs) : (W * list ReadyEvent) * option err).1.2 = pre ++ RUpdate v :: post →
     ∃ g ns n fresh, RGet g ns n (Ok fresh) ∈ pre ∧
       ∀ t, cond_at t (Vsp.status_conditions (VoObject v)) ≠ cond_at t (Vsp.status_conditions (VoObject fresh)) →
         row_of g t MappingLoad.DaemonWriter StatusSchemaConditions ∈ table) ∧
  (∀ r, r ∈ table → MappingLoad.Writer r = MappingLoad.DaemonWriter → WType r = ReservedConditionType) ∧
  (∀ path b t r extra, ReadFile path = Ok b → UnmarshalTable b = Ok t → Writers t = table ++ [extra] →
     r ∈ table → Object_ r = Object_ extra → WType r = WType extra → ∃ e, LoadConditionWriterTable path = Err e).
Proof.
  intros [_ _ _ _ (b & Hb & Hu)]. cbv zeta. split_and!.
  - unfold LoadConditionWriterTable. rewrite Hb. cbn [result_bind]. rewrite Hu. vm_compute. reflexivity.
  - intros r. rewrite lifecycle_upserts_rows.
    revert r. apply (same_members (λ r, MappingLoad.Writer r = _)), (bool_decide_unpack _). vm_compute. exact I.
  - intros s r Hs. rewrite document_declares_rows. revert r. apply (same_members (λ r, MappingLoad.Writer r = _)).
    revert s Hs. apply Forall_forall, (bool_decide_unpack _). vm_compute. exact I.
  - intros W A U hs hasClient w pre v post E.
    destruct (report_changes hs hasClient w pre v post E) as (g & ns & n & fresh & Hin & Hg & Ht).
    exists g, ns, n, fresh. split; [done|]. intros t ->%Ht. revert g Hin Hg. clear. intros g _. revert g.
    apply Forall_forall, (bool_decide_unpack _). vm_compute. exact I.
  - apply (proj1 (Forall_forall (λ r, MappingLoad.Writer r = MappingLoad.DaemonWriter → WType r = ReservedConditionType) _)), (bool_decide_unpack _). vm_compute. exact I.
  - intros path b' t r extra Hb' Hu' Et (i & Hi)%list_elem_of_lookup Ho Ht.
    apply (second_row_refused path b' t extra Hb' Hu'). exists i, (length (Writers condition_writers)), r.
    rewrite Et. pose proof (lookup_lt_Some _ _ _ Hi). split; [lia|]. rewrite lookup_app_l by done.
    by rewrite list_lookup_middle by done.
Qed.

(** ** The writers of one object *)

Section Units.
Context `{CELEngine}.

(** The conditions that a document's status block builds. *)
Definition built (st : StatusMapping) (own : list value) : Prop :=
  ∃ source children, Forall2 (λ c v, build_condition source children c = Ok v) (Conditions st) own.

(** The writers of a DataProcessingUnit: the daemon and the two translators. *)
Definition unit_writers (healthy : bool) (own_dpu own_amd : list value) : list Author :=
  [ByDaemon healthy; ByTranslator (mapping_writes dataprocessingunit_status) own_dpu;
   ByTranslator (mapping_writes amd_dsc200_status) own_amd].

(** The writers of a DpuOperatorConfig. *)
Definition config_writers (out : Result) (healthy : bool) : list Author :=
  [ByLifecycle (owned_conditions out); ByDaemon healthy].

Lemma built_dpu (d : string) own :
  built dataprocessingunit_status own →
  writer_valid (ByTranslator (mapping_writes dataprocessingunit_status) own) ∧
  writer_owns (ByTranslator (mapping_writes dataprocessingunit_status) own) = ["DPFReady"; "DPFHardwareCompatible"].
Proof.
  intros (source & children & Hf).
  apply (built_own (dataprocessingunit d) dataprocessingunit_status source children own); [| | |exact Hf].
  - vm_compute. reflexivity.
  - reflexivity.
  - apply (bool_decide_unpack _). vm_compute. exact I.
Qed.

Lemma built_amd (d : string) own :
  built amd_dsc200_status own →
  writer_valid (ByTranslator (mapping_writes amd_dsc200_status) own) ∧
  writer_owns (ByTranslator (mapping_writes amd_dsc200_status) own) = ["DSCReady"].
Proof.
  intros (source & children & Hf).
  apply (built_own (amd_dsc200 d) amd_dsc200_status source children own); [| | |exact Hf].
  - vm_compute. reflexivity.
  - reflexivity.
  - apply NoDup_singleton.
Qed.

Lemma unit_writers_ok healthy own_dpu own_amd :
  built dataprocessingunit_status own_dpu → built amd_dsc200_status own_amd →
  let ws := unit_writers healthy own_dpu own_amd in
  Forall writer_valid ws ∧
  ∀ i j a b, ws !! i = Some a → ws !! j = Some b → i ≠ j → writer_owns a ## writer_owns b.
Proof.
  intros [Hv1 Ho1]%(built_dpu "") [Hv2 Ho2]%(built_amd ""). cbv zeta. split.
  { constructor; [exact I|]. constructor; [exact Hv1|]. constructor; [exact Hv2|constructor]. }
  intros i j a b. destruct i as [|[|[|i]]], j as [|[|[|j]]]; intros Ha Hb Hij; try done;
    injection Ha as <-; injection Hb as <-; rewrite ?Ho1, ?Ho2; cbn [writer_owns];
    intros t Ht Hu; set_unfold; naive_solver.
Qed.

Lemma config_writers_ok out healthy :
  Forall writer_valid (config_writers out healthy) ∧
  ∀ i j a b, config_writers out healthy !! i = Some a → config_writers out healthy !! j = Some b → i ≠ j →
    writer_owns a ## writer_owns b.
Proof.
  assert (Hv : writer_valid (ByLifecycle (owned_conditions out))).
  { unfold writer_valid. rewrite lifecycle_owns. split; apply (bool_decide_unpack _); vm_compute; exact I. }
  split; [constructor; [exact Hv|]; constructor; [exact I|constructor]|]. intros i j a b.
  destruct i as [|[|i]], j as [|[|j]]; intros Ha Hb Hij; try done; injection Ha as <-; injection Hb as <-;
    cbn [writer_owns]; rewrite lifecycle_owns; intros t Ht Hu; set_unfold; naive_solver.
Qed.

End Units.

(** The writers that share an object of a deployment with the shipped
    documents never fight.  On a DataProcessingUnit the daemon and the translators
    of both vendors, on a DpuOperatorConfig the lifecycle manager and the daemon:
    whatever the mappings compute, as long as each keeps wanting the same, each
    has at most one status update accepted under any interleaving, and they can
    all come to rest. *)
Theorem shipped_writers_settle `{CELEngine} healthy own_dpu own_amd out c0 s t :
  built dataprocessingunit_status own_dpu → built amd_dsc200_status own_amd → wf_conds c0 →
  rtc (sys_step (plays (unit_writers healthy own_dpu own_amd))) (sys_start c0) s →
  rtc (sys_step (plays (config_writers out healthy))) (sys_start c0) t →
  (length (writes_done s) ≤ 3 ∧ ∃ s', rtc (sys_step (plays (unit_writers healthy own_dpu own_amd))) s s' ∧
     Forall (λ a, writer_settled a (stored_conds s')) (unit_writers healthy own_dpu own_amd)) ∧
  (length (writes_done t) ≤ 2 ∧ ∃ t', rtc (sys_step (plays (config_writers out healthy))) t t' ∧
     Forall (λ a, writer_settled a (stored_conds t')) (config_writers out healthy)).
Proof.
  intros H1 H2 H0 Hs Ht. destruct (unit_writers_ok healthy _ _ H1 H2) as [Hv Hd].
  destruct (config_writers_ok out healthy) as [Hv' Hd']. split.
  - exact (settling _ Hv Hd c0 s H0 Hs).
  - exact (settling _ Hv' Hd' c0 t H0 Ht).
Qed.

(** The AMD document gives the same reason whatever the status is: a
    DSCReady that is False says AllChildrenReady too, since a reason without a
    question mark is taken as text. *)
Theorem dsc_reason_ignores_status `{CELEngine} source children own :
  Forall2 (λ c v, build_condition source children c = Ok v) (Conditions amd_dsc200_status) own →
  ∃ m b, own = [VMap m] ∧ m !! "status" = Some (VString (if b : bool then "True" else "False")) ∧
    evalBool (CondStatus (default {| CondType := ""; CondStatus := ""; CondReason := ""; CondMessage := "" |}
      (head (Conditions amd_dsc200_status)))) (celVars source VNil children) = Ok b ∧
    m !! "reason" = Some (VString "AllChildrenReady").
Proof.
  intros Hf. inversion Hf as [|c v cs l Hb Hnil]; subst. inversion Hnil; subst. clear Hf Hnil.
  unfold build_condition in Hb. apply result_bind_ok in Hb as (b & Hok%wrap_err_ok & Hb).
  apply result_bind_ok in Hb as (m1 & H1 & Hb). apply result_bind_ok in Hb as (m2 & H2 & Hb). injection Hb as <-.
  exists m2, b. split; [done|].
  assert (Hm1 : m1 = <["reason" := VString "AllChildrenReady"]> (<["status" := VString (if b then "True" else "False")]>
    {["type" := VString "DSCReady"]})) by (by injection H1 as <-).
  assert (Hm2 : m2 = <["message" := VString (CondMessage (default {| CondType := ""; CondStatus := ""; CondReason := "";
    CondMessage := "" |} (head (Conditions amd_dsc200_status))))]> m1) by (by injection H2 as <-).
  subst m2 m1. by simplify_map_eq.
Qed.

(** ** The repository as a directory *)

Definition repo_files : Files := {|
  ReadDir _ := Ok [("amd-dsc200.yaml", false); ("dataprocessingunit.yaml", false); ("fieldmapping.schema.json", false);
                   ("kustomization.yaml", false); ("servicefunctionchain.yaml", false)];
  ReadFile p := Ok p;
  UnmarshalSpec b := if b == "config/mappings/amd-dsc200.yaml" then Ok (amd_dsc200 "")
                     else if b == "config/mappings/dataprocessingunit.yaml" then Ok (dataprocessingunit "")
                     else if b == "config/mappings/servicefunctionchain.yaml" then Ok (servicefunctionchain "")
                     else Err (ENew "not a FieldMapping");
  UnmarshalTable _ := Ok condition_writers;
  PathJoin d n := d +:+ "/" +:+ n |}.

Lemma repo_files_ok : @repository repo_files "" "" "".
Proof. split; [reflexivity|..]; eexists; split; reflexivity. Qed.

Lemma shipped_rbac_current_witness :
  (@main backward rbac_flags (@LoadDir repo_files "config/mappings") (Ok zz_generated_rbac) None None =
    Printed ("pkg/translation/zz_generated_rbac.go is up to date" +:+ newline) None).
Proof. exact (proj1 (@shipped_rbac_current repo_files backward "" "" "" repo_files_ok)). Defined.

Lemma shipped_table_is_the_code_witness :
  @LoadConditionWriterTable repo_files "config/condition-writers.yaml" = Ok condition_writers ∧
  (∀ r, r ∈ Writers condition_writers ∧ MappingLoad.Writer r = MappingLoad.LifecycleWriter ↔ lifecycle_upserts r) ∧
  ∀ r, r ∈ Writers condition_writers ∧ MappingLoad.Writer r = MappingWriter "dataprocessingunit" ↔
    document_declares (dataprocessingunit "") r.
Proof.
  destruct (@shipped_table_is_the_code repo_files "" "" "" repo_files_ok) as (H1 & H2 & H3 & _).
  split; [exact H1|]. split; [exact H2|]. intros r. apply (H3 (dataprocessingunit "") r). right. left.
Defined.

(** A CEL engine that says no to every question. *)
Definition no_cel : CELEngine := {|
  cel_ast := string; cel_prg := string; cel_val := value; cel_env := Ok tt; cel_compile s := Ok s; cel_plan s := Ok s;
  cel_run s _ := Ok (if HasPrefix s "!" || HasPrefix s "source.metadata" || HasPrefix s "(source.spec.?dpuProductName.orValue('') == 'BlueField-3' && source.metadata.?annotations['discovery.opiproject.org/product-name'].orValue('') == 'BlueField-3') ? "
                     then VString "no" else VBool false);
  cel_native v := v |}.

Definition built_by (st : StatusMapping) : list value :=
  match mapM (λ c, match @build_condition no_cel ∅ [] c with Ok v => Some v | Err _ => None end) (Conditions st) with
  | Some l => l
  | None => []
  end.

Lemma built_by_dpu : @built no_cel dataprocessingunit_status (built_by dataprocessingunit_status).
Proof. exists ∅, []. repeat (constructor; [vm_compute; reflexivity|]). constructor. Qed.

Lemma built_by_amd : @built no_cel amd_dsc200_status (built_by amd_dsc200_status).
Proof. exists ∅, []. repeat (constructor; [vm_compute; reflexivity|]). constructor. Qed.

Lemma shipped_writers_settle_witness :
  (∃ s', rtc (sys_step (plays (unit_writers true (built_by dataprocessingunit_status) (built_by amd_dsc200_status))))
           (sys_start []) s' ∧
     Forall (λ a, writer_settled a (stored_conds s'))
       (unit_writers true (built_by dataprocessingunit_status) (built_by amd_dsc200_status))) ∧
  (∃ t', rtc (sys_step (plays (config_writers no_policy true))) (sys_start []) t' ∧
     Forall (λ a, writer_settled a (stored_conds t')) (config_writers no_policy true)).
Proof.
  destruct (@shipped_writers_settle no_cel true _ _ no_policy [] (sys_start []) (sys_start [])
    built_by_dpu built_by_amd race_wf (rtc_refl _ _) (rtc_refl _ _)) as [[_ H1] [_ H2]].
  split; [exact H1|exact H2].
Defined.
