(* ===== verification/Translators.v ===== *)
(** * Two translators of one source kind
      (pkg/translation/translation_controller.go)

    cmd/main.go starts one translator per FieldMapping.  Two mappings may name
    the same source kind (config/mappings/dataprocessingunit.yaml and
    amd-dsc200.yaml both watch DataProcessingUnit); each translator lists its
    children under its own mapping label, and all of them hold the source with
    the one finalizer [cleanupFinalizer].  [Shelf] is a small API
    server for the deletion path: it keeps sources, ends one that is deleted when
    its last finalizer goes, lists children by kind and labels and deletes them.
    It has no garbage collector, so what it says is about children without an owner
    reference, the ones that the finalizer is there for; the calls that a deletion
    does not make are left open. *)

From Stdlib Require Import Ascii ZArith.
From stdpp Require Import base gmap strings list fin_maps.
From S2P Require Import Prelude GoStrings Unstructured MappingSpec MappingEngine JsonMeta Conditions Controller ControllerFacts Translation TranslationFacts TranslationWitness MappingLoad Rbac Documents.

Record Stored := { StKind : ObjectRef; StLabels : gmap string string; StChild : Child }.

#[global] Instance OwnerReference_eq_dec : EqDecision OwnerReference.
Proof. solve_decision. Defined.

#[global] Instance Child_eq_dec : EqDecision Child.
Proof. solve_decision. Defined.

Record Shelf := { ShSources : gmap (string * string) OPISource; ShChildren : list Stored }.

Definition shelf_not_found : err := ENew "not found".

Definition with_children (cs : list Stored) (w : Shelf) : Shelf := {| ShSources := ShSources w; ShChildren := cs |}.

Definition with_sources (ss : gmap (string * string) OPISource) (w : Shelf) : Shelf :=
  {| ShSources := ss; ShChildren := ShChildren w |}.

Definition key_of (s : OPISource) : string * string := (SrcNamespace s, SrcName s).

(** A label selector, on the objects of one kind. *)
Definition selected (g : ObjectRef) (sel : gmap string string) (x : Stored) : Prop :=
  StKind x = g ∧ sel ⊆ StLabels x.

#[global] Instance selected_dec g sel x : Decision (selected g sel x).
Proof. unfold selected. apply _. Defined.

Section Shelf.
Context `{CELEngine} `{MetaAPI} `{EmittedAPI} `{ControllerUtil}.

(** The calls of the translation proper. *)
Context (status : Shelf → OPISource → Shelf * option err) (apply : Shelf → gmap string value → Shelf * option err).
Context (configs : option (Shelf → Shelf * result (list (gmap string value)))).
Context (installed : option (Shelf → list ObjectRef → Shelf * result bool)).
Context (resource : Shelf → ObjectRef → Shelf * result string) (crd : Shelf → string → Shelf * result (gmap string value)).
Context (cached : Shelf → ObjectRef → option (option (gmap string value))).
Context (put : Shelf → ObjectRef → option (gmap string value) → Shelf) (clock : Shelf → string).

(** An update that leaves a deleted object without finalizers ends it. *)
Definition shelf_update (w : Shelf) (s : OPISource) : Shelf * result OPISource :=
  match ShSources w !! key_of s with
  | None => (w, Err shelf_not_found)
  | Some _ =>
      if SrcDeleting s && bool_decide (SrcFinalizers s = [])
      then (with_sources (delete (key_of s) (ShSources w)) w, Ok s)
      else (with_sources (<[key_of s := s]> (ShSources w)) w, Ok s)
  end.

#[local] Instance shelf_api : TranslationAPI Shelf := {|
  src_get w ns n :=
    (w, match ShSources w !! (ns, n) with Some s => Ok s | None => Err shelf_not_found end);
  src_update := shelf_update;
  src_update_status := status;
  list_labelled w g sel := (w, Ok (StChild <$> filter (selected g sel) (ShChildren w)));
  delete_child w c := (with_children (filter (λ x, StChild x ≠ c) (ShChildren w)) w, None);
  apply_object := apply;
  list_configs := configs;
  targets_installed := installed;
  rest_resource := resource;
  crd_get := crd;
  schema_cached := cached;
  schema_put := put;
  wall_clock := clock;
  TIsNotFound e := bool_decide (e = shelf_not_found);
  IsNoMatchError _ := false |}.

(** ** One deletion *)

Lemma list_kinds_shelf w sel gs :
  ∃ cs, list_kinds w sel gs = (w, Ok cs) ∧
    ∀ c, c ∈ cs ↔ ∃ x, x ∈ ShChildren w ∧ StChild x = c ∧ StKind x ∈ gs ∧ sel ⊆ StLabels x.
Proof.
  induction gs as [|g gs (cs & IH & Hin)].
  { exists []. split; [done|]. intros c. rewrite elem_of_nil. set_solver. }
  cbn. rewrite IH. eexists. split; [reflexivity|]. intros c. rewrite elem_of_app, Hin, list_elem_of_fmap.
  setoid_rewrite list_elem_of_filter. unfold selected. set_solver.
Qed.

Lemma delete_loop_shelf what doomed cs w :
  ∃ left, delete_loop w what doomed cs = (with_children left w, None) ∧
    ∀ x, x ∈ left ↔ x ∈ ShChildren w ∧ ¬ (StChild x ∈ cs ∧ doomed (StChild x) = true).
Proof.
  revert w. induction cs as [|c cs IH]; intros w; cbn [delete_loop].
  { exists (ShChildren w). split; [by destruct w|]. set_solver. }
  destruct (doomed c) eqn:Hd; cbn [negb].
  - cbn. destruct (IH (with_children (filter (λ x, StChild x ≠ c) (ShChildren w)) w)) as (left & E & Hl).
    exists left. split; [by rewrite E; destruct w|]. intros x. rewrite Hl. cbn. rewrite list_elem_of_filter.
    set_solver.
  - destruct (IH w) as (left & E & Hl). exists left. split; [done|]. intros x. rewrite Hl.
    rewrite elem_of_cons. naive_solver congruence.
Qed.

(** A child that the translator of [spec] deletes when it cleans up after [src]. *)
Definition cleans_up (spec : Spec) (src : OPISource) (x : Stored) : Prop :=
  source_selector spec src ⊆ StLabels x ∧ StKind x ∈ distinct (Target <$> SpecEmit spec) ∧
  ChSource (StChild x) = annSourceValue src.

Lemma cleanup_shelf spec w src :
  ∃ left, cleanupAnnotatedChildren spec w src = (with_children left w, None) ∧
    (∀ x, x ∈ left → x ∈ ShChildren w) ∧
    (∀ x, x ∈ ShChildren w → cleans_up spec src x → x ∉ left) ∧
    (∀ x, x ∈ ShChildren w → (∀ y, y ∈ ShChildren w → cleans_up spec src y → StChild y ≠ StChild x) → x ∈ left).
Proof.
  unfold cleanupAnnotatedChildren, listChildObjects.
  destruct (list_kinds_shelf w (source_selector spec src) (distinct (Target <$> SpecEmit spec))) as (cs & -> & Hcs).
  destruct (delete_loop_shelf "delete annotated child %s/%s: %w" (annotated src) cs w) as (left & -> & Hl).
  exists left. split; [done|]. unfold annotated, cleans_up in *. setoid_rewrite Hcs in Hl.
  setoid_rewrite bool_decide_eq_true in Hl. split_and!; [set_solver|naive_solver|].
  intros x Hx Hno. apply Hl. split; [done|]. intros [(y & Hy & Ey & Hk & Hsel) Hann].
  apply (Hno y); [done| |done]. by rewrite Ey.
Qed.

(** The source that a translator finds when it is asked to reconcile. *)
Definition held (w : Shelf) (ns name : string) : bool :=
  match ShSources w !! (ns, name) with
  | Some s => has_finalizer s
  | None => false
  end.

Definition gone_or_deleting (w : Shelf) (ns name : string) : bool :=
  match ShSources w !! (ns, name) with
  | Some s => SrcDeleting s
  | None => true
  end.

(** Without the finalizer no translator does anything for a source that is gone
    or on its way out. *)
Lemma released_noop spec w ns name :
  held w ns name = false → gone_or_deleting w ns name = true →
  Translation_Reconcile spec w ns name = (w, (0%Z, None)).
Proof.
  unfold held, gone_or_deleting, Translation_Reconcile. cbn.
  destruct (ShSources w !! (ns, name)) as [s|]; [|done]. intros Hf Hd. rewrite Hd.
  unfold reconcileDelete. by rewrite Hf.
Qed.

(** The whole reconcile of a source under deletion. *)
Lemma delete_reconcile_shelf spec w ns name src :
  ShSources w !! (ns, name) = Some src → key_of src = (ns, name) → SrcDeleting src = true →
  has_finalizer src = true →
  ∃ w' left, Translation_Reconcile spec w ns name = (w', (0%Z, None)) ∧ ShChildren w' = left ∧
    cleanupAnnotatedChildren spec w src = (with_children left w, None) ∧
    held w' ns name = false ∧ gone_or_deleting w' ns name = true.
Proof.
  intros Hs Hk Hd Hf. destruct (cleanup_shelf spec w src) as (left & Hc & _).
  unfold Translation_Reconcile. cbn [src_get shelf_api]. rewrite Hs, Hd. unfold reconcileDelete. rewrite Hf, Hc.
  cbn [negb src_update shelf_api]. unfold shelf_update.
  set (fs := RemoveFinalizer cleanupFinalizer (SrcFinalizers src)).
  assert (Hfs : bool_decide (cleanupFinalizer ∈ fs) = false).
  { apply bool_decide_eq_false. unfold fs. rewrite RemoveFinalizer_spec. naive_solver. }
  change (key_of (src_with_finalizers fs src)) with (key_of src). rewrite Hk.
  cbn [ShSources with_children SrcDeleting SrcFinalizers src_with_finalizers]. rewrite Hs, Hd.
  unfold held, gone_or_deleting.
  destruct (true && bool_decide (fs = [])) eqn:E; eexists _, left; (split; [reflexivity|]); (split; [done|]);
    (split; [done|]); cbn [ShSources with_sources with_children].
  - by rewrite lookup_delete_eq.
  - rewrite lookup_insert_eq. split; [exact Hfs|exact Hd].
Qed.

(** Any number of reconciles of a source, by any of the translators. *)
Fixpoint reconciles (specs : list Spec) (w : Shelf) (ns name : string) : Shelf :=
  match specs with
  | [] => w
  | spec :: specs' => reconciles specs' (Translation_Reconcile spec w ns name).1 ns name
  end.

Lemma released_forever specs w ns name :
  held w ns name = false → gone_or_deleting w ns name = true → reconciles specs w ns name = w.
Proof.
  intros Hh Hg. induction specs as [|spec specs IH]; [done|].
  cbn [reconciles]. by rewrite released_noop.
Qed.

(** [C40] The translators of one source kind share one finalizer, and the
    first to finish takes it off for all: when a source under deletion is
    reconciled by the translator of one mapping, a child of another mapping that
    only the finalizer protects (it has the provenance annotation in place of an
    owner reference) is still there, and stays there whatever translator
    reconciles the source afterwards, the one that made it included. *)
Theorem shared_finalizer_leaks spec later w ns name src x :
  ShSources w !! (ns, name) = Some src → key_of src = (ns, name) → SrcDeleting src = true →
  has_finalizer src = true → NoDup (StChild <$> ShChildren w) →
  x ∈ ShChildren w → StLabels x !! labelMapping ≠ Some (MetaName (SpecMetadata spec)) →
  x ∈ ShChildren (reconciles (spec :: later) w ns name).
Proof.
  intros Hs Hk Hd Hf Hnd Hx Hl.
  destruct (delete_reconcile_shelf spec w ns name src Hs Hk Hd Hf) as (w' & left & Hr & Hw & Hc & Hh & Hg).
  cbn [reconciles]. rewrite Hr. cbn [fst]. rewrite released_forever by done. rewrite Hw.
  destruct (cleanup_shelf spec w src) as (left' & Hc' & _ & _ & Hkeep). rewrite Hc in Hc'.
  injection Hc' as Hleft. subst left'. apply Hkeep; [done|]. intros y Hy (Hsel & _) E.
  assert (y = x) as ->.
  { apply list_elem_of_lookup in Hx as [i Hi], Hy as [j Hj].
    enough (i = j) by congruence. apply (NoDup_lookup _ i j (StChild x) Hnd); rewrite list_lookup_fmap.
    - by rewrite Hi.
    - rewrite Hj. cbn. by rewrite E. }
  apply Hl. eapply lookup_weaken; [|exact Hsel]. unfold source_selector.
  rewrite lookup_insert_eq. done.
Qed.

End Shelf.

(** ** A child of a second mapping for service chains *)

#[local] Existing Instance demo_util.
#[local] Existing Instance demo_emitted_api.

(** Another vendor's mapping of ServiceFunctionChain, dropped in beside the shipped
    one: the same rules under its own name, into a namespace of its own. *)
Definition second_chain_mapping : Spec :=
  let s := servicefunctionchain "" in
  {| SpecAPIVersion := SpecAPIVersion s; SpecKind := SpecKind s;
     SpecMetadata := {| MetaName := "other-servicefunctionchain"; Description := "" |};
     Source := Source s;
     SpecDefaults := Some {| DefaultNamespace :=
       {| VFrom := ""; VCEL := ""; VLit := "other-dpu-system"; VDefault := VNil; VRequired := false |} |};
     SpecEmit := SpecEmit s; Status := None; PruneWhen := PruneWhen s |}.

(** A chain (a namespaced kind) under deletion, and the service that the second
    translator made for it in another namespace, where no owner reference is
    legal. *)
Definition leaving_chain : OPISource :=
  {| SrcObject := ∅; SrcKind := "ServiceFunctionChain"; SrcNamespace := "tenant"; SrcName := "chain"; SrcUID := "u7";
     SrcDeleting := true; SrcFinalizers := [cleanupFinalizer] |}.

Definition chain_child : Stored := {|
  StKind := gvk3 "svc.dpu.nvidia.com" "v1alpha1" "DPUService";
  StLabels := {[ labelMapping := "other-servicefunctionchain"; labelSourceKind := "ServiceFunctionChain"; labelSourceName := "chain" ]};
  StChild := {| ChKind := "DPUService"; ChNamespace := "other-dpu-system"; ChName := "fw"; ChOwners := [];
                ChSource := "ServiceFunctionChain:tenant/chain"; ChObject := ∅ |} |}.

Definition leaving_shelf : Shelf :=
  {| ShSources := {[ ("tenant", "chain") := leaving_chain ]}; ShChildren := [chain_child] |}.

(** The calls that a deletion does not make. *)
Definition unused_api (w : Shelf) : Shelf * option err := (w, Some (ENew "unused")).

(** The shipped translator first, then both of them again. *)
Definition leaked_children : list Stored :=
  ShChildren (reconciles (λ w _, unused_api w) (λ w _, unused_api w) None None
    (λ w _, (w, Err (ENew "unused"))) (λ w _, (w, Err (ENew "unused"))) (λ _ _, None) (λ w _ _, w) (λ _, "")
    [servicefunctionchain ""; second_chain_mapping; servicefunctionchain ""] leaving_shelf "tenant" "chain").

Lemma shared_finalizer_leaks_witness : chain_child ∈ leaked_children.
Proof.
  unfold leaked_children.
  apply (shared_finalizer_leaks _ _ _ _ _ _ _ _ _ (servicefunctionchain "") _ leaving_shelf "tenant" "chain"
           leaving_chain chain_child); try reflexivity.
  - apply NoDup_singleton.
  - left.
  - apply (bool_decide_unpack _). vm_compute. exact I.
Defined.

(** In the other order the child is cleaned up. *)
Example second_first_cleans :
  ShChildren (reconciles (λ w _, unused_api w) (λ w _, unused_api w) None None
    (λ w _, (w, Err (ENew "unused"))) (λ w _, (w, Err (ENew "unused"))) (λ _ _, None) (λ w _ _, w) (λ _, "")
    [second_chain_mapping; servicefunctionchain ""] leaving_shelf "tenant" "chain") = [].
Proof. vm_compute. reflexivity. Qed.
