(* ===== verification/Handoff.v ===== *)
(** * From the lifecycle manager to the translator

    The translator's gate (readiness.go: lcmBlocks) reads the condition
    VendorOperatorReady of the DpuOperatorConfigs, which the lifecycle manager
    writes after an install pass and which shares its list with the daemon's
    Ready.  The two processes have nothing else in common: the gate is as good as
    the condition, under every interleaving of the writers. *)

From Stdlib Require Import Ascii ZArith.
From stdpp Require Import base gmap strings list fin_maps.
From S2P Require Import Prelude GoStrings Unstructured MappingSpec MappingEngine Version InstallConfig Release HelmInstaller Cleanup Operator Ensure EnsureFacts Conditions ConditionsFacts Controller Translation StatusTable StatusMerge SharedStatus SharedStatusFacts.

(** The pass observed the operator ready. *)
Definition operator_up (st : OperatorStatus) : bool := OsReady st && (OsPhase st == OperatorReady).

Lemma operatorCondition_up st : (operatorCondition st).1.1 = "True" ↔ operator_up st = true.
Proof. unfold operatorCondition, operator_up. by destruct (OsReady st && (OsPhase st == OperatorReady)). Qed.

(** The gate's reading of a list with one condition per type. *)
Lemma lcmConditionReady_table obj st l :
  obj !! "status" = Some (VMap st) → st !! "conditions" = Some (VList l) → wf_conds l →
  lcmConditionReady obj = true ↔
  ∃ c, cond_at OperatorReadyConditionType l = Some c ∧ c !! "status" = Some (VString "True").
Proof.
  intros Ho Hs Hw. unfold lcmConditionReady. rewrite Ho, Hs, existsb_exists. split.
  - intros (v & Hin & Hv). destruct v as [| | | | | |c]; try done. apply andb_true_iff in Hv as [Ht Hst].
    rewrite field_is_true in Ht, Hst. exists c. split; [|done]. apply cond_at_iff; [done|].
    split; [by apply list_elem_of_In|]. unfold str_at. by rewrite Ht.
  - intros (c & [Hin Ht]%cond_at_type & Hst). exists (VMap c). split; [by apply list_elem_of_In|].
    apply andb_true_iff. rewrite !field_is_true. split; [|done]. by apply str_at_type.
Qed.

(** What an accepted write says stays said until its owner writes again. *)
Section Written.
Context {A : Type} `{!StatusWriter A} (role : nat → A → Prop) (role_valid : ∀ i a, role i a → valid a).

Lemma atomic_written c0 l log :
  wf_conds c0 → rtc (atomic_step role) (c0, []) (l, log) →
  wf_conds l ∧ ∀ e, e ∈ log → role e.1.1 e.1.2 ∧ wf_conds e.2 ∧ settled e.1.2 e.2.
Proof.
  intros H0. apply (atomic_ind role (λ l log, wf_conds l ∧
    ∀ e, e ∈ log → role e.1.1 e.1.2 ∧ wf_conds e.2 ∧ settled e.1.2 e.2)).
  { split; [done|]. by intros e ?%elem_of_nil. }
  intros i a now l1 l2 log1 Hrole Hp [Hw He].
  destruct (propose_wrote a now l1 l2 (role_valid i a Hrole) Hw Hp) as [Hwr Hset].
  pose proof (wrote_wf _ _ _ Hwr) as Hw2. split; [done|].
  intros e [Hin|Hin]%elem_of_app; [by apply He|]. apply list_elem_of_singleton in Hin as ->. done.
Qed.

Lemma last_owner_split t (c0 : list value) pre i a (l : list value) post :
  t ∈ owns a → (∀ e, e ∈ post → t ∉ owns e.1.2) →
  last_owner_list t c0 (pre ++ (i, a, l) :: post) = l.
Proof.
  intros Ht Hpost. unfold last_owner_list. rewrite foldl_app. cbn. rewrite decide_True by done.
  generalize l. clear l. induction post as [|[[j b] l'] post IH]; intros l; [done|]. cbn.
  rewrite decide_False; [|apply (Hpost (j, b, l')); left]. apply IH. intros e He. apply Hpost. by right.
Qed.
End Written.

(** The processes that write to a DpuOperatorConfig. *)
Definition config_writer (a : Author) : Prop :=
  (∃ out, a = ByLifecycle (owned_conditions out)) ∨ (∃ got, a = ByLifecycle [cleanup_condition got]) ∨
  (∃ healthy, a = ByDaemon healthy).

Lemma config_writer_valid a : config_writer a → writer_valid a.
Proof.
  intros [[out ->]|[[got ->]|[h ->]]]; [| |done].
  - unfold writer_valid. rewrite lifecycle_owns. split; apply (bool_decide_unpack _); vm_compute; exact I.
  - split; [apply NoDup_singleton|]. cbn. set_solver.
Qed.

Lemma config_writer_owns a :
  config_writer a → OperatorReadyConditionType ∈ writer_owns a → ∃ out, a = ByLifecycle (owned_conditions out).
Proof. intros [?|[[got ->]|[h ->]]]; [done|set_solver..]. Qed.

Lemma owned_operator_ready out :
  ∃ next, next ∈ owned_conditions out ∧ OcType next = OperatorReadyConditionType ∧
    OcStatus next = (operatorCondition (ResOperator out)).1.1.
Proof.
  unfold owned_conditions. destruct (skewStatus _ _ _) as [status message].
  destruct (operatorCondition (ResOperator out)) as [[rs rr] rm]. destruct (dpuCondition (ResDPU out)) as [[ds dr] dm].
  eexists. split; [right; left|]. done.
Qed.

(** A pass whose outcome says that the operator is up has come through every gate
    and its installer, and observed it after the install. *)
Lemma pass_operator_up {W} ctxErr probe dpus (install : Installer W) w cfg :
  let x := EnsureInstalled ctxErr probe dpus install w cfg in
  operator_up (ResOperator x.2.1) = true →
  gates ctxErr probe w cfg ∧ (install w (ParseIntent cfg)).2.2 = None ∧
  operator_up (ObserveOperator (ctxErr x.1) (probe x.1) (IVendor (ParseIntent cfg))) = true.
Proof.
  cbv zeta. unfold EnsureInstalled, stop. set (i := ParseIntent cfg). cbv zeta.
  unfold RunPreflight. destruct (bool_decide_reflect (IVendor i = "")) as [Hv|Hv]; [done|].
  destruct (Known i) eqn:Hk; cbn [negb PfSkip PfOK]; [|done].
  destruct (RejectInstallOverrides cfg) as [[]|] eqn:Ho; [|done].
  destruct (DefaultInstallConfig (IVendor i)); [|done]. destruct (ApplyVersionPolicy i _) as [settings pol].
  destruct (bool_decide _); [done|]. destruct (DepOK _) eqn:Hd; cbn [negb]; [|done].
  destruct (install w i) as [w' [inst [e|]]]; [done|]. cbn [fst snd ResOperator]. intros Hup.
  split_and!; [by split|done|done].
Qed.

(** [C10] The gate follows the lifecycle manager: however the lifecycle
    manager, its cleanup and the daemon interleave on a DpuOperatorConfig, once a
    pass has had its conditions accepted and until the next pass has, the stored
    object opens the translator's gate exactly when that pass observed the
    operator up; and a pass that observed it up came through every gate of the
    install and an installer without an error. *)
Theorem gate_follows_lifecycle (role : nat → Author → Prop) c0 s pre i out l post :
  (∀ i a, role i a → config_writer a) → wf_conds c0 → rtc (sys_step role) (sys_start c0) s →
  writes_done s = pre ++ (i, ByLifecycle (owned_conditions out), l) :: post →
  (∀ e, e ∈ post → ∀ out', e.1.2 ≠ ByLifecycle (owned_conditions out')) →
  (∀ obj st, obj !! "status" = Some (VMap st) → st !! "conditions" = Some (VList (stored_conds s)) →
     lcmConditionReady obj = operator_up (ResOperator out)) ∧
  (∀ W ctxErr probe dpus (install : Installer W) w cfg,
     out = (EnsureInstalled ctxErr probe dpus install w cfg).2.1 → operator_up (ResOperator out) = true →
     gates ctxErr probe w cfg ∧ (install w (ParseIntent cfg)).2.2 = None).
Proof.
  intros Hrole H0 Hr Hacc Hpost.
  assert (Hval : ∀ i a, role i a → valid a) by (intros; apply config_writer_valid; by eapply Hrole).
  pose proof (inv_atomic role c0 s (sys_inv_reachable role c0 s Hr)) as Hat.
  destruct (atomic_keeps role Hval c0 _ _ H0 Hat) as [Hw Hview].
  destruct (atomic_written role Hval c0 _ _ H0 Hat) as [_ Hwr]. split.
  - intros obj st Ho Hc. apply Bool.eq_iff_eq_true. rewrite (lcmConditionReady_table obj st _ Ho Hc Hw).
    rewrite <- operatorCondition_up.
    destruct (owned_operator_ready out) as (next & Hin & Ht & Hs). rewrite <- Hs.
    assert (Hlast : last_owner_list OperatorReadyConditionType c0 (writes_done s) = l).
    { rewrite Hacc. apply last_owner_split.
      - cbn. rewrite lifecycle_owns. right. left.
      - intros e He Hown. assert (Hcw : config_writer e.1.2).
        { apply (Hrole e.1.1). apply Hwr. rewrite Hacc. apply elem_of_app. right. by right. }
        destruct (config_writer_owns _ Hcw Hown) as [out' E]. by eapply Hpost. }
    destruct (Hwr (i, ByLifecycle (owned_conditions out), l)) as (_ & _ & Hset);
      [rewrite Hacc; apply elem_of_app; right; left|]. cbn in Hset.
    destruct (Hset next Hin) as (c & Hcl & Hsay). rewrite Ht in Hcl.
    specialize (Hview OperatorReadyConditionType). rewrite Hlast in Hview. unfold cond_view in Hview.
    rewrite Hcl in Hview. destruct Hsay as (_ & Hst & _).
    destruct (cond_at OperatorReadyConditionType (stored_conds s)) as [c'|]; [|done].
    injection Hview as Hv. assert (Hst' : c' !! "status" = Some (VString (OcStatus next))).
    { rewrite <- Hst, <- (view_key c' "status"), <- (view_key c "status"), Hv by (unfold conditionKeys; set_solver). done. }
    split; [intros (c2 & [= <-] & E); congruence|]. intros E. exists c'. split; [done|]. congruence.
  - intros W ctxErr probe dpus install w cfg -> Hup.
    destruct (pass_operator_up ctxErr probe dpus install w cfg Hup) as (? & ? & _). done.
Qed.

(** ** A pass, then the daemon *)

Definition up_result : Result :=
  stop zero_intent (RunPreflight zero_intent) None None zero_install zero_policy
    {| OsPhase := OperatorReady; OsReady := true; CRDs := []; Controllers := []; Prerequisites := []; OsMessage := "" |}.

Definition handoff_role (i : nat) (a : Author) : Prop :=
  a = ByLifecycle (owned_conditions up_result) ∨ a = ByDaemon true.

Definition after_pass : list value :=
  default [] (writer_propose (ByLifecycle (owned_conditions up_result)) (λ _, "t1") []).
Definition after_daemon : list value := default [] (writer_propose (ByDaemon true) (λ _, "t2") after_pass).

Definition handoff_end : Sys := {|
  versions := [[]; after_pass; after_daemon]; reading := ∅;
  writes_done := [(0, ByLifecycle (owned_conditions up_result), after_pass); (1, ByDaemon true, after_daemon)] |}.

Lemma handoff_run : rtc (sys_step handoff_role) (sys_start []) handoff_end.
Proof.
  etrans.
  - apply (can_accept handoff_role [[]] ∅ [] [] 0 (ByLifecycle (owned_conditions up_result)) (λ _, "t1") after_pass);
      [done|by left|done|vm_compute; reflexivity].
  - apply (can_accept handoff_role [[]; after_pass] ∅ [_] after_pass 1 (ByDaemon true) (λ _, "t2") after_daemon);
      [done|by right|done|vm_compute; reflexivity].
Qed.

Definition handoff_status : gmap string value := {[ "conditions" := VList (stored_conds handoff_end) ]}.
Definition handoff_object : gmap string value := {[ "status" := VMap handoff_status ]}.

Lemma gate_follows_lifecycle_witness : lcmConditionReady handoff_object = operator_up (ResOperator up_result).
Proof.
  assert (Hrole : ∀ i a, handoff_role i a → config_writer a).
  { intros i a [->| ->]; [left; by eexists|right; right; by eexists]. }
  apply (proj1 (gate_follows_lifecycle handoff_role [] handoff_end [] 0 up_result after_pass
    [(1, ByDaemon true, after_daemon)] Hrole race_wf handoff_run eq_refl
    ltac:(intros e He out'; apply list_elem_of_singleton in He as ->; done)) handoff_object handoff_status).
  - apply lookup_singleton_eq.
  - apply lookup_singleton_eq.
Defined.
