(* ===== verification/Wiring.v ===== *)
(** * How the manager is wired
      (pkg/lifecycle/lifecycle_controller.go, ensure.go, helm_client.go,
       cluster_helm_client.go, cleanup.go; cmd/main.go)

    [LifecycleManager] is a struct of handles, most of which may be nil and then
    have a default.  The locks are the delicate ones: the controller, the Helm
    installer, the cleanup and the cluster Helm client each choose a table of
    locks on their own, and mutual exclusion holds only within one table.  A
    handle that is used elsewhere through an interface is a type argument here. *)

From Stdlib Require Import Ascii ZArith.
From stdpp Require Import base gmap strings list.
From S2P Require Import Prelude GoStrings InstallConfig Release HelmInstaller Cleanup CleanupFacts Locks HelmInstallerFacts HelmCluster LocksFacts.

(** A [*ReleaseLocks] that may be nil. *)
Definition locks_or_default (l : option LockTable) : LockTable := default DefaultLocks l.

Section Wiring.
Context {Client Scheme Clock Inst OLM Probe Disc Idx : Type}.

Record SecretHelmClient := { ShClient : option Client }.

Definition NewSecretHelmClient (c : option Client) : SecretHelmClient := {| ShClient := c |}.

Record ClusterHelmClient := { ChSecrets : SecretHelmClient; ChChartRoot : string; ChLocks : option LockTable }.

Definition NewClusterHelmClient (c : option Client) : ClusterHelmClient :=
  {| ChSecrets := NewSecretHelmClient c; ChChartRoot := ""; ChLocks := None |}.

(** The receiver may be nil. *)
Definition mutationLocks (c : option ClusterHelmClient) : LockTable :=
  match c with Some c => locks_or_default (ChLocks c) | None => DefaultLocks end.

(** The Helm client in use: the cluster's. *)
Record HelmInstaller := {
  HiClient : option ClusterHelmClient;
  HiLocks : option LockTable;
  HiAllowDowngrade : bool;
  HiMaxAttempts : Z }.

Definition HelmInstaller_locks (h : HelmInstaller) : LockTable := locks_or_default (HiLocks h).

Record LifecycleManager := {
  LmClient : option Client;
  LmScheme : option Scheme;
  LmNow : option Clock;
  LmInstaller : option Inst;
  LmHelm : option ClusterHelmClient;
  LmOLM : option OLM;
  LmProbe : option Probe;
  LmDiscovery : option Disc;
  LmIndex : option Idx;
  LmLocks : option LockTable;
  LmAllowCRDDeletion : bool }.

(** [time.Now] unless a clock was injected. *)
Definition LifecycleManager_now (real : Clock) (r : LifecycleManager) : Clock := default real (LmNow r).

Definition allowCRDDeletion (r : LifecycleManager) : bool := LmAllowCRDDeletion r.

Definition cleanupLocks (r : LifecycleManager) : LockTable := locks_or_default (LmLocks r).

(** The receiver may be nil. *)
Definition configLocks (r : option LifecycleManager) : LockTable :=
  match r with Some r => locks_or_default (LmLocks r) | None => DefaultLocks end.

(** The Helm installer that [installer] puts in front, when it does. *)
Definition helm_installer_of (r : LifecycleManager) : option HelmInstaller :=
  match LmInstaller r, LmHelm r with
  | None, Some h => Some {| HiClient := Some h; HiLocks := LmLocks r; HiAllowDowngrade := false; HiMaxAttempts := 0 |}
  | _, _ => None
  end.

(** The manager of cmd/main.go. *)
Definition main_manager (c : Client) (s : Scheme) (dc : Disc) (olm : OLM) : LifecycleManager := {|
  LmClient := Some c; LmScheme := Some s; LmNow := None; LmInstaller := None;
  LmHelm := Some (NewClusterHelmClient (Some c)); LmOLM := Some olm; LmProbe := None; LmDiscovery := Some dc;
  LmIndex := None; LmLocks := None; LmAllowCRDDeletion := false |}.

(** The controller, the installer and the cleanup of one manager take
    their locks in one table, and so does its client when it was given the
    manager's; in the manager that the command builds all four take them in the
    process-wide table that the deadlock freedom of the reconciles is proved for,
    and it neither installs from a chart directory nor deletes CRDs. *)
Theorem manager_locks_one_table (r : LifecycleManager) c s dc olm :
  (∀ h i, LmHelm r = Some h → ChLocks h = LmLocks r → helm_installer_of r = Some i →
     HelmInstaller_locks i = configLocks (Some r) ∧ cleanupLocks r = configLocks (Some r) ∧
     mutationLocks (HiClient i) = configLocks (Some r)) ∧
  let m := main_manager c s dc olm in
  ∃ i h, helm_installer_of m = Some i ∧ HiClient i = Some h ∧ ChChartRoot h = "" ∧ allowCRDDeletion m = false ∧
    (∀ ns name, config_lock ns name = (configLocks (Some m), configLockKey ns name)) ∧
    (∀ cfg, release_lock cfg = (HelmInstaller_locks i, releaseKey (IcNamespace cfg) (ReleaseName cfg)) ∧
            release_lock cfg = (cleanupLocks m, releaseKey (IcNamespace cfg) (ReleaseName cfg)) ∧
            release_lock cfg = (mutationLocks (Some h), releaseKey (IcNamespace cfg) (ReleaseName cfg))).
Proof.
  split.
  - intros h i Hh Hl. unfold helm_installer_of. rewrite Hh. destruct (LmInstaller r); [done|]. intros [= <-].
    unfold HelmInstaller_locks, cleanupLocks, mutationLocks, configLocks. cbn. by rewrite Hl.
  - eexists _, _. split; [reflexivity|]. split; [reflexivity|]. done.
Qed.

End Wiring.
