(* ===== verification/TestUtils.v ===== *)
(** * The helpers of the end-to-end tests (test/utils/utils.go)

    Running commands from the project directory, installing cert-manager and
    loading images, and the text helpers.  The process, its files and its
    environment are the interface [Shell]; what is printed on the test writer goes
    to its log.  [bufio.Scanner] yields the lines of a text without their line ends
    and stops at a line that does not fit its buffer. *)

From Stdlib Require Import Ascii ZArith Lia.
From stdpp Require Import base gmap strings list.
From S2P Require Import Prelude GoStrings HelmCluster Rbac.

Definition certmanagerVersion : string := "v1.20.2".
Definition certmanagerURLTmpl : string :=
  "https://github.com/cert-manager/cert-manager/releases/download/%s/cert-manager.yaml".
Definition defaultKindBinary : string := "kind".
Definition defaultKindCluster : string := "kind".

(** ** Strings *)

(** [strings.Index], as the text before the first occurrence and the text after
    it. *)
Fixpoint cut_at (s sub : string) : option (string * string) :=
  match strip_prefix sub s with
  | Some rest => Some ("", rest)
  | None =>
      match s with
      | EmptyString => None
      | String c s' =>
          match cut_at s' sub with
          | Some (pre, rest) => Some (String c pre, rest)
          | None => None
          end
      end
  end.

(** [strings.ReplaceAll] of a text that is not empty. *)
Definition ReplaceAll (s old new : string) : string := Replace [(old, new)] s.

Definition GetNonEmptyLines (output : string) : list string := filter (λ e, e ≠ "") (Split "010" output).

(** [bufio.ScanLines] drops one carriage return before the newline. *)
Definition drop_cr (line : string) : string := TrimSuffix line (String "013" "").

(** The scanner's buffer, [bufio.MaxScanTokenSize]. *)
Definition MaxScanTokenSize : nat := 64 * 1024.

(** The lines up to the first that does not fit. *)
Fixpoint fitting (lines : list string) : list string :=
  match lines with
  | [] => []
  | l :: ls => if String.length l <? MaxScanTokenSize then drop_cr l :: fitting ls else []
  end.

(** What [Scan] yields: an empty text after the last newline is not a line. *)
Definition scan_lines (s : string) : list string :=
  let lines := Split "010" s in
  fitting (match last lines with Some "" => take (length lines - 1) lines | _ => lines end).

(** ** The process *)

Class Shell (W : Type) := {
  getwd : W → W * result string;
  chdir : W → string → W * option err;
  environ : W → list string;
  LookupEnv : W → string → option string;
  (** the directory, the environment and the arguments: the combined output *)
  combined_output : W → string → list string → list string → W * (string * option err);
  read_file : W → string → W * result string;
  write_file : W → string → string → W * option err;
  ginkgo_print : W → string → W }.

Section Helpers.
Context {W : Type} `{Shell W}.

Definition warnError (w : W) (e : err) : W := ginkgo_print w ("warning: " +:+ Error e +:+ newline).

Definition GetProjectDir (w : W) : W * (string * option err) :=
  let '(w, r) := getwd w in
  (w, match r with
      | Err e => ("", Some (EWrap "failed to get current working directory: %w" [] e))
      | Ok wd => (ReplaceAll wd "/test/e2e" "", None)
      end).

Definition Run (w : W) (args : list string) : W * (string * option err) :=
  let '(w, (dir, _)) := GetProjectDir w in
  let '(w, e) := chdir w dir in
  let w := match e with
           | Some e => ginkgo_print w ("chdir dir: " +:+ Quote (Error e) +:+ newline)
           | None => w
           end in
  let command := Join " " args in
  let w := ginkgo_print w ("running: " +:+ Quote command +:+ newline) in
  let '(w, (output, e)) := combined_output w dir (environ w ++ ["GO111MODULE=on"]) args in
  (w, (output, match e with
               | Some e => Some (EWrap "%q failed with error %q: %w" [command; output] e)
               | None => None
               end)).

(** A command whose failure is only reported. *)
Definition run_or_warn (w : W) (args : list string) : W :=
  let '(w, (_, e)) := Run w args in
  match e with Some e => warnError w e | None => w end.

Definition certmanagerURL : string := Sprintf certmanagerURLTmpl [certmanagerVersion] "".

Definition kubeSystemLeases : list string :=
  ["cert-manager-cainjector-leader-election"; "cert-manager-controller"].

Definition UninstallCertManager (w : W) : W :=
  let w := run_or_warn w ["kubectl"; "delete"; "-f"; certmanagerURL] in
  foldl (λ w lease, run_or_warn w ["kubectl"; "delete"; "lease"; lease; "-n"; "kube-system"; "--ignore-not-found";
                                   "--force"; "--grace-period=0"]) w kubeSystemLeases.

Definition InstallCertManager (w : W) : W * option err :=
  let '(w, (_, e)) := Run w ["kubectl"; "apply"; "-f"; certmanagerURL] in
  match e with
  | Some e => (w, Some e)
  | None =>
      let '(w, (_, e)) := Run w ["kubectl"; "wait"; "deployment.apps/cert-manager-webhook"; "--for";
                                 "condition=Available"; "--namespace"; "cert-manager"; "--timeout"; "5m"] in
      (w, e)
  end.

Definition certManagerCRDs : list string :=
  ["certificates.cert-manager.io"; "issuers.cert-manager.io"; "clusterissuers.cert-manager.io";
   "certificaterequests.cert-manager.io"; "orders.acme.cert-manager.io"; "challenges.acme.cert-manager.io"].

Definition IsCertManagerCRDsInstalled (w : W) : W * bool :=
  let '(w, (output, e)) := Run w ["kubectl"; "get"; "crds"] in
  (w, match e with
      | Some _ => false
      | None => existsb (λ crd, existsb (λ line, Contains line crd) (GetNonEmptyLines output)) certManagerCRDs
      end).

Definition LoadImageToKindClusterWithName (w : W) (name : string) : W * option err :=
  let cluster := default defaultKindCluster (LookupEnv w "KIND_CLUSTER") in
  let kindBinary := default defaultKindBinary (LookupEnv w "KIND") in
  let '(w, (_, e)) := Run w [kindBinary; "load"; "docker-image"; name; "--name"; cluster] in
  (w, e).

(** Writing to a [bytes.Buffer] never fails. *)
Definition UncommentCode (w : W) (filename target prefix : string) : W * option err :=
  let '(w, r) := read_file w filename in
  match r with
  | Err e => (w, Some (EWrap "failed to read file %q: %w" [filename] e))
  | Ok content =>
      match cut_at content target with
      | None => (w, Some (EFmt "unable to find the code %q to be uncommented" [target]))
      | Some (before, after) =>
          match scan_lines target with
          | [] => (w, None)
          | ls =>
              let '(w, e) := write_file w filename
                               (before +:+ Join newline ((λ l, TrimPrefix l prefix) <$> ls) +:+ after) in
              (w, match e with Some e => Some (EWrap "failed to write file %q: %w" [filename] e) | None => None end)
          end
      end
  end.

End Helpers.

(** ** Lines *)

Definition one_line (s : string) : Prop := all_chars (λ c, c != "010"%char) s = true.

Lemma Split_Join (ls : list string) : ls ≠ [] → Forall one_line ls → Split "010" (Join newline ls) = ls.
Proof.
  intros Hne Hf. induction Hf as [|l ls Hl Hf IH]; [done|].
  destruct ls as [|l' ls]; [by apply Split_none|].
  change (Join newline (l :: l' :: ls)) with (l +:+ String "010" (Join newline (l' :: ls))).
  rewrite Split_app by done. by rewrite IH.
Qed.

(** Lines that the scanner hands over as they are. *)
Definition plain_line (l : string) : Prop :=
  one_line l ∧ HasSuffix l (String "013" "") = false ∧ String.length l < MaxScanTokenSize.

Lemma fitting_plain ls : Forall plain_line ls → fitting ls = ls.
Proof.
  induction 1 as [|l ls (_ & Hcr & Hlen) Hf IH]; [done|]. cbn [fitting].
  rewrite (proj2 (Nat.ltb_lt _ _) Hlen), IH. f_equal. unfold drop_cr, TrimSuffix. revert Hcr. unfold HasSuffix.
  destruct (strip_suffix _ l) as [t|]; [|done]. by rewrite bool_decide_eq_true_2 by eauto.
Qed.

Lemma scan_lines_plain ls : ls ≠ [] → Forall plain_line ls → last ls ≠ Some "" → scan_lines (Join newline ls) = ls.
Proof.
  intros Hne Hf Hlast. unfold scan_lines.
  rewrite Split_Join; [|done|]; [|by eapply Forall_impl; [exact Hf|]; intros l (? & _)].
  destruct (last ls) as [[|c t]|]; [done|by apply fitting_plain..].
Qed.

Lemma strip_prefix_here p s : strip_prefix p (p +:+ s) = Some s.
Proof. by apply strip_prefix_Some. Qed.

Lemma TrimPrefix_here p s : TrimPrefix (p +:+ s) p = s.
Proof. unfold TrimPrefix. by rewrite strip_prefix_here. Qed.

Section UncommentFacts.
Context {W : Type} `{Shell W}.

(** Uncommenting undoes commenting: where the commented lines occur
    first in a file, the file is rewritten once, with those lines freed of the
    comment prefix and every byte before and after them unchanged. *)
Theorem UncommentCode_restores w w1 filename prefix ls content before after :
  prefix ≠ "" → ls ≠ [] → Forall (λ l, plain_line (prefix +:+ l)) ls →
  read_file w filename = (w1, Ok content) →
  cut_at content (Join newline ((λ l, prefix +:+ l) <$> ls)) = Some (before, after) →
  UncommentCode w filename (Join newline ((λ l, prefix +:+ l) <$> ls)) prefix =
  let '(w2, e) := write_file w1 filename (before +:+ Join newline ls +:+ after) in
  (w2, match e with Some e => Some (EWrap "failed to write file %q: %w" [filename] e) | None => None end).
Proof.
  intros Hp Hne Hf Hr Hc. unfold UncommentCode. rewrite Hr, Hc.
  rewrite (scan_lines_plain ((λ l, prefix +:+ l) <$> ls)).
  - assert (E : (λ l, TrimPrefix l prefix) <$> ((λ l, prefix +:+ l) <$> ls) = ls).
    { rewrite <- list_fmap_compose. etrans; [|apply list_fmap_id]. apply list_fmap_ext.
      intros i l _. cbn. apply TrimPrefix_here. }
    rewrite <- E at 2. by destruct ls.
  - by destruct ls.
  - by apply Forall_fmap.
  - destruct ls as [|l ls _] using rev_ind; [done|]. rewrite fmap_app. cbn. rewrite last_snoc.
    destruct prefix as [|c prefix]; [done|]. by rewrite str_app_cons.
Qed.

End UncommentFacts.

(** ** A kustomization with a commented line *)

(** Files by name; the rest of the process does nothing. *)
#[local] Instance files_shell : Shell (gmap string string) := {|
  getwd w := (w, Ok "/repo/test/e2e");
  chdir w _ := (w, None);
  environ _ := [];
  LookupEnv _ _ := None;
  combined_output w _ _ _ := (w, ("", None));
  read_file w f := (w, match w !! f with Some c => Ok c | None => Err (ENew "no such file") end);
  write_file w f c := (<[f := c]> w, None);
  ginkgo_print w _ := w |}.

Definition demo_lines : list string := ["- ../webhook"; "- ../certmanager"].
Definition demo_target : string := Join newline ((λ l, "#" +:+ l) <$> demo_lines).
Definition demo_before : string := Join newline ["resources:"; "- ../crd"; ""].
Definition demo_after : string := Join newline [""; "- ../prometheus"; ""].
Definition demo_kustomization : gmap string string := {[ "k.yaml" := demo_before +:+ demo_target +:+ demo_after ]}.

Lemma UncommentCode_restores_witness :
  UncommentCode demo_kustomization "k.yaml" demo_target "#" =
  (<["k.yaml" := demo_before +:+ Join newline demo_lines +:+ demo_after]> demo_kustomization, None).
Proof.
  assert (Hlen : Forall (λ l, String.length ("#" +:+ l) < 20) demo_lines)
    by (apply (bool_decide_unpack _); vm_compute; exact I).
  assert (Hmax : 20 < MaxScanTokenSize) by (apply Nat.ltb_lt; vm_compute; reflexivity).
  assert (Hplain : Forall (λ l, plain_line ("#" +:+ l)) demo_lines).
  { repeat (apply Forall_cons in Hlen as [? Hlen]; constructor; [split_and!; [vm_compute; done|vm_compute; done|lia]|]).
    constructor. }
  etrans; [apply (UncommentCode_restores demo_kustomization demo_kustomization "k.yaml" "#" demo_lines
    (demo_before +:+ demo_target +:+ demo_after) demo_before demo_after); [done|done|exact Hplain|done|]|reflexivity].
  vm_compute. reflexivity.
Defined.

(** A target that ends with a newline loses it: the line after the uncommented one
    is joined to it. *)
Example UncommentCode_joins_lines :
  (UncommentCode {[ "k.yaml" := Join newline ["#a"; "b"] ]} "k.yaml" ("#a" +:+ newline) "#").1 !! "k.yaml" = Some "ab".
Proof. vm_compute. reflexivity. Qed.

Example project_dir : (GetProjectDir (∅ : gmap string string)).2 = ("/repo", None).
Proof. vm_compute. reflexivity. Qed.
