(* ===== verification/Flags.v ===== *)
(** * The command lines (Go's [flag] package, as the commands use it)

    [flag.StringVar] and [flag.BoolVar] bind a variable of [main] to a name and
    give it its default; [flag.Parse] reads the command line into the variables.
    The variables of each [main] are the fields of its record in Commands.v.  The
    flags that the linked libraries bind on the same [flag.CommandLine] (the
    logger's and --kubeconfig) are a parameter: a list of flags over a state of
    their own.  What [Usage] prints is left out. *)

From Stdlib Require Import Ascii ZArith.
From stdpp Require Import base strings list.
From S2P Require Import Prelude GoStrings MappingLoad Controller PciScan Vsp Commands.

(** ** Variables

    [&x]: the variable a flag writes, as a field of the record of variables.  The
    writer of a field is found by abstracting its projection in [eta]. *)

Class Eta (R : Type) := eta : R → R.
Class Field {R T : Type} (x : R → T) := write : T → R → R.
#[global] Hint Mode Eta ! : typeclass_instances.

Ltac field_writer x :=
  match type of x with
  | ?R → ?T =>
      let e := constr:(_ : Eta R) in
      let e := eval cbv [eta] in (eta (Eta := e)) in
      let e := eval hnf in e in
      match eval pattern x in e with
      | ?k _ => let w := constr:(λ (v : T) (r : R), k (λ _, v) r) in
                let w := eval cbv beta in w in exact w
      end
  end.

#[global] Hint Extern 1 (Field ?x) => field_writer x : typeclass_instances.

(** ** Flags *)

(** A [flag.Flag]: its name, the methods of its [Value], and [DefValue] stored. *)
Record Flag (S : Type) := mkFlag {
  FlagName : string;
  IsBoolFlag : bool;
  ValueString : S → string;
  ValueSet : string → S → result S;
  SetDefault : S → S }.
Arguments mkFlag {S}. Arguments FlagName {S}. Arguments IsBoolFlag {S}.
Arguments ValueString {S}. Arguments ValueSet {S}. Arguments SetDefault {S}.

(** [strconv.ParseBool] and [strconv.FormatBool]. *)
Definition ParseBool (s : string) : option bool :=
  if bool_decide (s ∈ ["1"; "t"; "T"; "true"; "TRUE"; "True"]) then Some true
  else if bool_decide (s ∈ ["0"; "f"; "F"; "false"; "FALSE"; "False"]) then Some false
  else None.

Definition FormatBool (b : bool) : string := if b then "true" else "false".

Definition errParse : err := ENew "parse error".

Section Declaring.
Context {S : Type}.

Definition StringVar (x : S → string) `{!Field x} (name value : string) : Flag S :=
  mkFlag name false x (λ v s, Ok (write (x := x) v s)) (write (x := x) value).

Definition BoolVar (x : S → bool) `{!Field x} (name : string) (value : bool) : Flag S :=
  mkFlag name true (λ s, FormatBool (x s))
    (λ v s, match ParseBool v with Some b => Ok (write (x := x) b s) | None => Err errParse end)
    (write (x := x) value).

(** Declaring the flags, in order, gives the variables their defaults. *)
Definition declare (fs : list (Flag S)) (s : S) : S := foldl (λ s f, SetDefault f s) s fs.

Fixpoint Lookup (fs : list (Flag S)) (name : string) : option (Flag S) :=
  match fs with
  | [] => None
  | f :: fs' => if FlagName f == name then Some f else Lookup fs' name
  end.

End Declaring.

(** ** Reading one argument *)

Inductive Token := Positional | Terminator | BadSyntax | Named (name : string) (value : option string).

(** Up to the first [=], and what follows it. *)
Fixpoint cut_equals (s : string) : string * option string :=
  match s with
  | EmptyString => ("", None)
  | String c s' => if c == "="%char then ("", Some s') else let '(n, v) := cut_equals s' in (String c n, v)
  end.

Definition read_name (name : string) : Token :=
  match name with
  | EmptyString => BadSyntax
  | String c rest =>
      if (c == "-"%char) || (c == "="%char) then BadSyntax
      else let '(n, v) := cut_equals rest in Named (String c n) v
  end.

Definition read_arg (arg : string) : Token :=
  match arg with
  | String a (String b rest) =>
      if a != "-"%char then Positional
      else if b == "-"%char then (if rest == "" then Terminator else read_name rest)
      else read_name (String b rest)
  | _ => Positional
  end.

(** ** flag.Parse *)

(** [Parsed] keeps the arguments left over, [flag.Args]. *)
Inductive Outcome (S : Type) :=
  | Parsed (s : S) (rest : list string)
  | HelpAsked
  | BadUsage (e : err)
  | Panicked.
Arguments Parsed {S}. Arguments HelpAsked {S}. Arguments BadUsage {S}. Arguments Panicked {S}.

(** The name of a flag that is set, with the value that its [Set] refused. *)
Definition refused (boolean : bool) (given : option string) (name value : string) (e : err) : err :=
  match boolean, given with
  | false, _ => EFmt "invalid value %q for flag -%s: %v" [value; name; Error e]
  | true, Some _ => EFmt "invalid boolean value %q for -%s: %v" [value; name; Error e]
  | true, None => EFmt "invalid boolean flag %s: %v" [name; Error e]
  end.

Section Parsing.
Context {S : Type} (fs : list (Flag S)).

(** [parseOne] until it sees no flag. *)
Fixpoint Parse (args : list string) (s : S) : Outcome S :=
  match args with
  | [] => Parsed s []
  | arg :: args' =>
      match read_arg arg with
      | Positional => Parsed s args
      | Terminator => Parsed s args'
      | BadSyntax => BadUsage (EFmt "bad flag syntax: %s" [arg])
      | Named name given =>
          match Lookup fs name with
          | None =>
              if (name == "help") || (name == "h") then HelpAsked
              else BadUsage (EFmt "flag provided but not defined: -%s" [name])
          | Some f =>
              let set v args := match ValueSet f v s with
                                | Ok s' => Parse args s'
                                | Err e => BadUsage (refused (IsBoolFlag f) given name v e)
                                end in
              if IsBoolFlag f then set (default "true" given) args'
              else match given, args' with
                   | Some v, _ => set v args'
                   | None, v :: args'' => set v args''
                   | None, [] => BadUsage (EFmt "flag needs an argument: -%s" [name])
                   end
          end
      end
  end.

(** [FlagSet.Var] panics on a name that is bound already, that begins with a dash
    or that contains an equals sign. *)
Definition bindable (name : string) : bool := negb (HasPrefix name "-") && negb (Contains name "=").

Definition CommandLine (args : list string) (s : S) : Outcome S :=
  if bool_decide (NoDup (FlagName <$> fs)) && forallb (λ f, bindable (FlagName f)) fs
  then Parse args (declare fs s) else Panicked.

(** The command line that says every flag's value. *)
Definition spell (f : Flag S) (s : S) : string := "--" +:+ FlagName f +:+ "=" +:+ ValueString f s.
Definition spell_all (s : S) : list string := (λ f, spell f s) <$> fs.

End Parsing.

(** [flag.ExitOnError]; a panic exits with 2 as well. *)
Definition usage_status {S} (o : Outcome S) : option Z :=
  match o with
  | Parsed _ _ => None
  | HelpAsked => Some 0%Z
  | BadUsage _ | Panicked => Some 2%Z
  end.

(** The flags of the program and those of the libraries, on one command line. *)
Definition on_fst {S X} (f : Flag S) : Flag (S * X) :=
  mkFlag (FlagName f) (IsBoolFlag f) (λ s, ValueString f s.1)
    (λ v s, let! s1 := ValueSet f v s.1 in Ok (s1, s.2)) (λ s, (SetDefault f s.1, s.2)).
Definition on_snd {S X} (f : Flag X) : Flag (S * X) :=
  mkFlag (FlagName f) (IsBoolFlag f) (λ s, ValueString f s.2)
    (λ v s, let! s2 := ValueSet f v s.2 in Ok (s.1, s2)) (λ s, (s.1, SetDefault f s.2)).

Definition with_libraries {S X} (own : list (Flag S)) (libs : list (Flag X)) : list (Flag (S * X)) :=
  (on_fst <$> own) ++ (on_snd <$> libs).

(** ** The flags of the commands *)

(** The variables of a [main] before its flags are bound hold the zero values. *)

#[global] Instance manager_eta : Eta ManagerFlags := λ f, {|
  FlMetrics := FlMetrics f;
  FlMetricsCertPath := FlMetricsCertPath f; FlMetricsCertName := FlMetricsCertName f; FlMetricsCertKey := FlMetricsCertKey f;
  FlWebhookCertPath := FlWebhookCertPath f; FlWebhookCertName := FlWebhookCertName f; FlWebhookCertKey := FlWebhookCertKey f;
  FlLeaderElect := FlLeaderElect f; FlProbe := FlProbe f; FlSecureMetrics := FlSecureMetrics f; FlHTTP2 := FlHTTP2 f;
  FlMappingDir := FlMappingDir f |}.

Definition manager_zero : ManagerFlags := {|
  FlMetrics := ""; FlMetricsCertPath := ""; FlMetricsCertName := ""; FlMetricsCertKey := "";
  FlWebhookCertPath := ""; FlWebhookCertName := ""; FlWebhookCertKey := "";
  FlLeaderElect := false; FlProbe := ""; FlSecureMetrics := false; FlHTTP2 := false; FlMappingDir := "" |}.

Definition manager_flags : list (Flag ManagerFlags) := [
  StringVar FlMetrics "metrics-bind-address" "0";
  StringVar FlProbe "health-probe-bind-address" ":8081";
  StringVar FlMappingDir "mapping-dir" "config/mappings";
  BoolVar FlLeaderElect "leader-elect" false;
  BoolVar FlSecureMetrics "metrics-secure" true;
  StringVar FlWebhookCertPath "webhook-cert-path" "";
  StringVar FlWebhookCertName "webhook-cert-name" "tls.crt";
  StringVar FlWebhookCertKey "webhook-cert-key" "tls.key";
  StringVar FlMetricsCertPath "metrics-cert-path" "";
  StringVar FlMetricsCertName "metrics-cert-name" "tls.crt";
  StringVar FlMetricsCertKey "metrics-cert-key" "tls.key";
  BoolVar FlHTTP2 "enable-http2" false ].

#[global] Instance vsp_eta : Eta VspFlags := λ f, {|
  VfMetrics := VfMetrics f; VfProbe := VfProbe f; VfNode := VfNode f; VfSerial := VfSerial f; VfPCI := VfPCI f;
  VfProduct := VfProduct f; VfVendor := VfVendor f; VfPCIVendor := VfPCIVendor f; VfFirmwareURL := VfFirmwareURL f;
  VfBFBURL := VfBFBURL f; VfFlavor := VfFlavor f; VfFirmwareName := VfFirmwareName f; VfBFBName := VfBFBName f;
  VfUsePCI := VfUsePCI f; VfSocket := VfSocket f; VfGrpcOnly := VfGrpcOnly f |}.

Definition vsp_zero : VspFlags := {|
  VfMetrics := ""; VfProbe := ""; VfNode := ""; VfSerial := ""; VfPCI := ""; VfProduct := ""; VfVendor := "";
  VfPCIVendor := ""; VfFirmwareURL := ""; VfBFBURL := ""; VfFlavor := ""; VfFirmwareName := ""; VfBFBName := "";
  VfUsePCI := false; VfSocket := ""; VfGrpcOnly := false |}.

Definition vsp_flags (getenv : string → string) : list (Flag VspFlags) := [
  StringVar VfMetrics "metrics-bind-address" "0";
  StringVar VfProbe "health-probe-bind-address" ":8082";
  StringVar VfNode "node-name" (getenv "NODE_NAME");
  StringVar VfSerial "serial-number" (getenv "DPU_SERIAL_NUMBER");
  StringVar VfPCI "pci-address" "0000:03:00.0";
  StringVar VfProduct "product-name" "";
  StringVar VfVendor "vendor" (getenv "DPU_VENDOR");
  StringVar VfFirmwareURL "firmware-url" (getenv "DPU_FIRMWARE_URL");
  StringVar VfBFBURL "bfb-url" (getenv "DPU_BFB_URL");
  StringVar VfFlavor "flavor" "";
  StringVar VfFirmwareName "firmware-name" "";
  StringVar VfBFBName "bfb-name" "";
  BoolVar VfUsePCI "pci" false;
  StringVar VfPCIVendor "pci-vendor" "";
  StringVar VfSocket "grpc-socket" DefaultSocket;
  BoolVar VfGrpcOnly "grpc-only" false ].

#[global] Instance daemon_eta : Eta DaemonFlags := λ f,
  {| DfSocket := DfSocket f; DfIdentifier := DfIdentifier f; DfMode := DfMode f; DfOnce := DfOnce f |}.

Definition daemon_zero : DaemonFlags := {| DfSocket := ""; DfIdentifier := ""; DfMode := false; DfOnce := false |}.

Definition daemon_flags (getenv : string → string) : list (Flag DaemonFlags) := [
  StringVar DfSocket "grpc-socket" DefaultSocket;
  StringVar DfIdentifier "dpu-identifier" (getenv "DPU_IDENTIFIER");
  BoolVar DfMode "dpu-mode" true;
  BoolVar DfOnce "once" false ].

(** ** The processes

    [main] from its command line to its exit status: a command line that does not
    parse ends the process before anything else happens. *)

Definition run_setup {M S X A} (o : Outcome (S * X)) (main : S → Setup M A) (p : Proc M) : Proc M * Z :=
  match o with
  | Parsed s _ => ((main s.1 p).1, exit_code (main s.1) p)
  | o => (p, default 0%Z (usage_status o))
  end.

Section Processes.
Context {X : Type} (libs : list (Flag X)) (x : X) (getenv : string → string).

Definition manager_process {M} `{ManagerOS M} `{Files} (args : list string) : Proc M → Proc M * Z :=
  run_setup (CommandLine (with_libraries manager_flags libs) args (manager_zero, x)) manager_main.

Definition vsp_process {W M} `{VspAPI W} `{Sysfs} `{ManagerOS M}
    (start_server : Server W → M → M * option err) (args : list string) : Proc M → Proc M * Z :=
  run_setup (CommandLine (with_libraries (vsp_flags getenv) libs) args (vsp_zero, x)) (vsp_main start_server).

Definition daemon_process {W} `{Wire W} `{VspAPI W} `{ControllerUtil} `{DaemonOS}
    (fuel : nat) (args : list string) (w : W) : option (W * Z) :=
  match CommandLine (with_libraries (daemon_flags getenv) libs) args (daemon_zero, x) with
  | Parsed s _ => daemon_main fuel s.1 w
  | o => Some (w, default 0%Z (usage_status o))
  end.

End Processes.
