(* ===== verification/FlagsFacts.v ===== *)
(** * What a command line means

    The parser of Flags.v against a grammar of command lines: what is accepted, the
    assignments it stands for, and the value each variable ends with. *)

From Stdlib Require Import Ascii ZArith Lia.
From stdpp Require Import base strings list sets.
From S2P Require Import Prelude GoStrings MappingLoad Controller ControllerFacts Discovery PciScan PciScanFacts Vsp VspFacts Commands CommandsFacts Flags.

(** ** Names *)

(** A name that can be written on a command line. *)
Definition writable (name : string) : Prop :=
  ∃ c rest, name = String c rest ∧ c ≠ "-"%char ∧ c ≠ "="%char ∧ cut_equals rest = (rest, None).

Lemma cut_equals_app n v : cut_equals n = (n, None) → cut_equals (n +:+ String "=" v) = (n, Some v).
Proof.
  induction n as [|c n IH]; [done|]. rewrite str_app_cons. cbn. case_bool_decide; [done|].
  destruct (cut_equals n) as [n' v'] eqn:E. intros [= -> ->]. by rewrite IH.
Qed.

Lemma cut_equals_inv s n v :
  cut_equals s = (n, v) → cut_equals n = (n, None) ∧ s = match v with Some w => n +:+ String "=" w | None => n end.
Proof.
  revert n v. induction s as [|c s IH]; cbn; intros n v; [intros [= <- <-]; done|].
  case_bool_decide as Hc; [subst; intros [= <- <-]; done|].
  destruct (cut_equals s) as [n' v'] eqn:E. intros [= <- <-]. destruct (IH _ _ eq_refl) as [Hn Hs].
  split; [cbn; rewrite bool_decide_false by done; by rewrite Hn|]. rewrite Hs. by destruct v'.
Qed.

(** How a flag is written: the name after one dash or two, and the value when it is
    given in the same argument. *)
Definition written (dashes name : string) (given : option string) : string :=
  dashes +:+ name +:+ match given with Some v => String "=" v | None => "" end.

Lemma read_name_written name given :
  writable name → read_name (name +:+ match given with Some v => String "=" v | None => "" end) = Named name given.
Proof.
  intros (c & rest & -> & Hd & He & Hcut). rewrite str_app_cons. cbn. rewrite !bool_decide_false by done. cbn.
  destruct given as [v|]; [by rewrite cut_equals_app|]. by rewrite str_app_nil_r, Hcut.
Qed.

Lemma read_name_inv s name given :
  read_name s = Named name given → writable name ∧ s = name +:+ match given with Some v => String "=" v | None => "" end.
Proof.
  destruct s as [|c s]; [done|]. cbn. do 2 case_bool_decide; cbn; try done.
  destruct (cut_equals s) as [n v] eqn:E. intros [= <- <-]. destruct (cut_equals_inv _ _ _ E) as [Hn ->].
  split; [by exists c, n|]. rewrite str_app_cons. destruct v; [done|]. by rewrite str_app_nil_r.
Qed.

Lemma read_written dashes name given :
  dashes ∈ ["-"; "--"] → writable name → read_arg (written dashes name given) = Named name given.
Proof.
  intros Hd Hw. pose proof (read_name_written name given Hw) as Hr. destruct Hw as (c & rest & -> & Hc & _).
  unfold written. rewrite str_app_cons in Hr |- *. set_unfold in Hd. destruct Hd as [->| [->|[]]]; rewrite !(str_app_cons "-"), str_app_nil_l; cbn -[read_name].
  - rewrite (bool_decide_false (c = "-"%char)) by done. exact Hr.
  - exact Hr.
Qed.

Lemma read_arg_inv arg name given :
  read_arg arg = Named name given → writable name ∧ ∃ dashes, dashes ∈ ["-"; "--"] ∧ arg = written dashes name given.
Proof.
  destruct arg as [|a [|b rest]]; [done..|]. cbn -[read_name]. case_bool_decide as Ha; cbn -[read_name]; [|done].
  case_bool_decide as Hb; [case_bool_decide; [done|]|]; intros [Hw E]%read_name_inv; split; try done.
  - exists "--". split; [set_solver|]. by subst.
  - exists "-". split; [set_solver|]. unfold written. rewrite <- E. by subst.
Qed.

Definition positional (a : string) : Prop := ∀ c rest, a ≠ String "-" (String c rest).

Lemma read_name_flag s : read_name s ≠ Positional ∧ read_name s ≠ Terminator.
Proof. destruct s as [|c s]; [done|]. cbn. destruct (_ || _); [done|]. by destruct (cut_equals s). Qed.

Lemma read_positional a : positional a ↔ read_arg a = Positional.
Proof.
  unfold positional. destruct a as [|a [|b rest]]; [by split..|]. cbn -[read_name].
  case_bool_decide as Ha; cbn -[read_name]; [subst|split; [done|congruence]].
  split; [intros H; by destruct (H b rest)|].
  case_bool_decide; [case_bool_decide; [done|]|]; intros []%read_name_flag.
Qed.

Lemma read_terminator a : read_arg a = Terminator ↔ a = "--".
Proof.
  split; [|by intros ->]. destruct a as [|a [|b rest]]; [done..|]. cbn -[read_name].
  do 2 (case_bool_decide; cbn -[read_name]; [subst|try done; intros []%read_name_flag]).
  case_bool_decide; [by subst|intros []%read_name_flag].
Qed.

(** ** The grammar

    The arguments, the assignments they stand for, and the arguments left over. *)

Section Grammar.
Context {S : Type} (fs : list (Flag S)).

Inductive denotes : list string → list (string * string) → list string → Prop :=
  | denotes_nil : denotes [] [] []
  | denotes_positional a args : positional a → denotes (a :: args) [] (a :: args)
  | denotes_terminator args : denotes ("--" :: args) [] args
  | denotes_given dashes name f v args asg rest :
      dashes ∈ ["-"; "--"] → writable name → Lookup fs name = Some f →
      denotes args asg rest → denotes (written dashes name (Some v) :: args) ((name, v) :: asg) rest
  | denotes_switch dashes name f args asg rest :
      dashes ∈ ["-"; "--"] → writable name → Lookup fs name = Some f → IsBoolFlag f = true →
      denotes args asg rest → denotes (written dashes name None :: args) ((name, "true") :: asg) rest
  | denotes_next dashes name f v args asg rest :
      dashes ∈ ["-"; "--"] → writable name → Lookup fs name = Some f → IsBoolFlag f = false →
      denotes args asg rest → denotes (written dashes name None :: v :: args) ((name, v) :: asg) rest.

Fixpoint assign (asg : list (string * string)) (s : S) : result S :=
  match asg with
  | [] => Ok s
  | (name, v) :: asg' =>
      match Lookup fs name with
      | Some f => let! s' := ValueSet f v s in assign asg' s'
      | None => Err (EFmt "flag provided but not defined: -%s" [name])
      end
  end.

Lemma Parse_complete args asg rest s s' :
  denotes args asg rest → assign asg s = Ok s' → Parse fs args s = Parsed s' rest.
Proof.
  intros Hd. revert s. induction Hd as [|a args Ha| |? ? f v ? ? ? Hw Hn Hl _ IH|? ? f ? ? ? Hw Hn Hl Hb _ IH|? ? f v ? ? ? Hw Hn Hl Hb _ IH];
    intros s; cbn [Parse assign].
  - by intros [= ->].
  - apply read_positional in Ha as ->. by intros [= ->].
  - by intros [= ->].
  - rewrite read_written, Hl by done. intros (s1 & Hs & E)%result_bind_ok. cbn. rewrite Hs. destruct (IsBoolFlag f); by apply IH.
  - rewrite read_written, Hl, Hb by done. intros (s1 & Hs & E)%result_bind_ok. cbn. rewrite Hs. by apply IH.
  - rewrite read_written, Hl, Hb by done. intros (s1 & -> & E)%result_bind_ok. by apply IH.
Qed.

Lemma Parse_sound n args s s' rest :
  length args ≤ n → Parse fs args s = Parsed s' rest → ∃ asg, denotes args asg rest ∧ assign asg s = Ok s'.
Proof.
  revert args s. induction n as [|n IH]; intros [|a args] s Hn; cbn in Hn; try lia; cbn [Parse];
    try (intros [= <- <-]; exists []; split; [constructor|done]).
  destruct (read_arg a) as [| | |name given] eqn:Ea; [| |done|].
  - intros [= <- <-]. exists []. split; [|done]. constructor. by apply read_positional.
  - intros [= <- <-]. apply read_terminator in Ea as ->. exists []. split; [constructor|done].
  - apply read_arg_inv in Ea as (Hw & dashes & Hd & ->).
    destruct (Lookup fs name) as [f|] eqn:El; [|by destruct (_ || _)].
    assert (Hset : ∀ v args1, length args1 ≤ n → ∀ e,
      match ValueSet f v s with Ok s1 => Parse fs args1 s1 | Err e' => BadUsage (e e') end = Parsed s' rest →
      ∃ asg, denotes args1 asg rest ∧ assign ((name, v) :: asg) s = Ok s').
    { intros v args1 Hlen e. destruct (ValueSet f v s) as [s1|e1] eqn:Es; [|done].
      intros (asg & Hden & Has)%IH; [|done]. exists asg. split; [done|]. cbn. by rewrite El, Es. }
    destruct (IsBoolFlag f) eqn:Hb, given as [v|]; cbn [default].
    + intros (asg & ? & ?)%Hset; [|lia]. eexists. split; [by eapply denotes_given|done].
    + intros (asg & ? & ?)%Hset; [|lia]. eexists. split; [by eapply denotes_switch|done].
    + intros (asg & ? & ?)%Hset; [|lia]. eexists. split; [by eapply denotes_given|done].
    + destruct args as [|v args]; [done|]. cbn in Hn. intros (asg & ? & ?)%Hset; [|lia].
      eexists. split; [by eapply denotes_next|done].
Qed.

(** The names that [FlagSet.Var] takes. *)
Definition bound : Prop := NoDup (FlagName <$> fs) ∧ Forall (λ f, bindable (FlagName f) = true) fs.

Lemma bound_spec : bool_decide (NoDup (FlagName <$> fs)) && forallb (λ f, bindable (FlagName f)) fs = true ↔ bound.
Proof.
  unfold bound. rewrite andb_true_iff, bool_decide_eq_true, forallb_forall, Forall_forall.
  by setoid_rewrite list_elem_of_In.
Qed.

(** The parser accepts the lines of the grammar and makes their assignments in order. *)
Theorem CommandLine_denotes args s s' rest :
  CommandLine fs args s = Parsed s' rest ↔
  bound ∧ ∃ asg, denotes args asg rest ∧ assign asg (declare fs s) = Ok s'.
Proof.
  unfold CommandLine. rewrite <- bound_spec. destruct (_ && _); [|split; [done|by intros []]]. split.
  - intros H. split; [done|]. by eapply Parse_sound.
  - intros (_ & asg & Hd & Ha). by eapply Parse_complete.
Qed.

End Grammar.

(** ** The value of a variable *)

(** The value the last assignment to a name gives. *)
Fixpoint last_value (name : string) (asg : list (string * string)) : option string :=
  match asg with
  | [] => None
  | (m, v) :: asg' =>
      match last_value name asg' with
      | Some w => Some w
      | None => if m == name then Some v else None
      end
  end.

(** The flag [name] writes [x], what [conv] reads, and no other flag does. *)
Record binds {S T} (fs : list (Flag S)) (x : S → T) (name : string) (conv : string → option T) : Prop := {
  binds_own f v s s' : Lookup fs name = Some f → ValueSet f v s = Ok s' → conv v = Some (x s');
  binds_frame f v s s' : f ∈ fs → FlagName f ≠ name → ValueSet f v s = Ok s' → x s' = x s }.

Lemma Lookup_Some {S} (fs : list (Flag S)) name f : Lookup fs name = Some f → f ∈ fs ∧ FlagName f = name.
Proof.
  induction fs as [|g fs IH]; cbn; [done|]. case_bool_decide as Hg.
  - intros [= ->]. split; [left|done].
  - intros [? ?]%IH. split; [by right|done].
Qed.

Lemma assign_last {S T} (fs : list (Flag S)) (x : S → T) name conv asg s s' :
  binds fs x name conv → assign fs asg s = Ok s' →
  match last_value name asg with Some v => conv v = Some (x s') | None => x s' = x s end.
Proof.
  intros Hb. revert s. induction asg as [|[m v] asg IH]; intros s; cbn; [by intros [= ->]|].
  destruct (Lookup fs m) as [f|] eqn:El; [|done]. intros (s1 & Hs & Ha)%result_bind_ok.
  specialize (IH _ Ha). destruct (last_value name asg) as [w|]; [done|].
  case_bool_decide as Hm; [subst m|].
  - rewrite IH. by eapply binds_own.
  - apply Lookup_Some in El as [Hin Hn]. rewrite IH. eapply binds_frame; [done..|by rewrite Hn|done].
Qed.

Lemma assign_value {S T} (fs : list (Flag S)) (x : S → T) name conv asg s s' :
  binds fs x name conv → assign fs asg s = Ok s' → x s' = default (x s) (last_value name asg ≫= conv).
Proof.
  intros Hb Ha. pose proof (assign_last _ _ _ _ _ _ _ Hb Ha) as H. destruct (last_value name asg) as [v|]; cbn; [|done].
  by rewrite H.
Qed.

(** *** Beside the flags of the libraries *)

Lemma Lookup_libraries {S X} (own : list (Flag S)) (libs : list (Flag X)) name :
  Lookup (with_libraries own libs) name =
    match Lookup own name with Some f => Some (on_fst f) | None => on_snd <$> Lookup libs name end.
Proof.
  unfold with_libraries. induction own as [|f own IH]; cbn; [|by destruct (_ == _)].
  induction libs as [|f libs IH]; cbn; [done|]. by destruct (_ == _).
Qed.

Lemma declare_libraries {S X} (own : list (Flag S)) (libs : list (Flag X)) s x :
  declare (with_libraries own libs) (s, x) = (declare own s, declare libs x).
Proof.
  unfold declare, with_libraries. revert s. induction own as [|f own IH]; intros s; cbn; [|by rewrite IH].
  revert x. induction libs as [|f libs IH]; intros x; cbn; [done|]. by rewrite IH.
Qed.

Lemma binds_libraries {S X T} (own : list (Flag S)) (libs : list (Flag X)) (x : S → T) name conv :
  is_Some (Lookup own name) → binds own x name conv → binds (with_libraries own libs) (λ s, x s.1) name conv.
Proof.
  intros [g Hg] Hb. split.
  - intros f v s s'. rewrite Lookup_libraries, Hg. intros [= <-] (s1 & Hs & [= <-])%result_bind_ok. by eapply binds_own.
  - intros f v s s' Hin Hn. unfold with_libraries in Hin. apply elem_of_app in Hin as [Hin|Hin];
      apply list_elem_of_fmap in Hin as (h & -> & Hin); intros (s1 & Hs & [= <-])%result_bind_ok; [|done].
    by eapply binds_frame.
Qed.

(** *** The variables of the commands *)

Definition keeps {S T} (x : S → T) (f : Flag S) : Prop := ∀ v s s', ValueSet f v s = Ok s' → x s' = x s.

Lemma binds_string {S} (fs : list (Flag S)) (x : S → string) `{!Field x} name d :
  (∀ v s, x (write (x := x) v s) = v) → Lookup fs name = Some (StringVar x name d) →
  Forall (λ f, FlagName f = name ∨ keeps x f) fs → binds fs x name Some.
Proof.
  intros Hw Hl Hf. split.
  - intros f v s s'. rewrite Hl. intros [= <-] [= <-]. by rewrite Hw.
  - intros f v s s' Hin Hn. rewrite Forall_forall in Hf. destruct (Hf _ Hin); [done|eauto].
Qed.

Lemma binds_bool {S} (fs : list (Flag S)) (x : S → bool) `{!Field x} name d :
  (∀ v s, x (write (x := x) v s) = v) → Lookup fs name = Some (BoolVar x name d) →
  Forall (λ f, FlagName f = name ∨ keeps x f) fs → binds fs x name ParseBool.
Proof.
  intros Hw Hl Hf. split.
  - intros f v s s'. rewrite Hl. intros [= <-]. cbn. destruct (ParseBool v); intros [= <-]. by rewrite Hw.
  - intros f v s s' Hin Hn. rewrite Forall_forall in Hf. destruct (Hf _ Hin); [done|eauto].
Qed.

Lemma keeps_string {S T} (x : S → T) (y : S → string) `{!Field y} name d :
  (∀ v s, x (write (x := y) v s) = x s) → keeps x (StringVar y name d).
Proof. intros H v s s' [= <-]. apply H. Qed.
Lemma keeps_bool {S T} (x : S → T) (y : S → bool) `{!Field y} name d :
  (∀ v s, x (write (x := y) v s) = x s) → keeps x (BoolVar y name d).
Proof. intros H v s s'. cbn. destruct (ParseBool v); intros [= <-]. apply H. Qed.

Ltac solve_binds :=
  first [eapply binds_string | eapply binds_bool]; [reflexivity|reflexivity|];
  repeat (apply Forall_cons; split); try apply Forall_nil;
  first [exact I | left; reflexivity | right; first [apply keeps_string | apply keeps_bool]; reflexivity].

Definition string_value (name d : string) (asg : list (string * string)) : string := default d (last_value name asg).
Definition bool_value (name : string) (d : bool) (asg : list (string * string)) : bool :=
  default d (last_value name asg ≫= ParseBool).

(** What a command line says of the manager's variables. *)
Definition manager_reading (asg : list (string * string)) : ManagerFlags := {|
  FlMetrics := string_value "metrics-bind-address" "0" asg;
  FlProbe := string_value "health-probe-bind-address" ":8081" asg;
  FlMappingDir := string_value "mapping-dir" "config/mappings" asg;
  FlLeaderElect := bool_value "leader-elect" false asg;
  FlSecureMetrics := bool_value "metrics-secure" true asg;
  FlWebhookCertPath := string_value "webhook-cert-path" "" asg;
  FlWebhookCertName := string_value "webhook-cert-name" "tls.crt" asg;
  FlWebhookCertKey := string_value "webhook-cert-key" "tls.key" asg;
  FlMetricsCertPath := string_value "metrics-cert-path" "" asg;
  FlMetricsCertName := string_value "metrics-cert-name" "tls.crt" asg;
  FlMetricsCertKey := string_value "metrics-cert-key" "tls.key" asg;
  FlHTTP2 := bool_value "enable-http2" false asg |}.

Lemma assign_reading {S X} (own : list (Flag S)) (libs : list (Flag X)) z x asg s :
  assign (with_libraries own libs) asg (declare (with_libraries own libs) (z, x)) = Ok s →
  (∀ (y : S → string) name, is_Some (Lookup own name) → binds own y name Some →
     y s.1 = string_value name (y (declare own z)) asg) ∧
  (∀ (y : S → bool) name, is_Some (Lookup own name) → binds own y name ParseBool →
     y s.1 = bool_value name (y (declare own z)) asg).
Proof.
  rewrite declare_libraries. intros Ha.
  split; intros y name Hs Hb; apply (binds_libraries own libs) in Hb; try done; rewrite (assign_value _ _ _ _ _ _ _ Hb Ha).
  - unfold string_value. by destruct (last_value name asg).
  - done.
Qed.

Ltac reading Hstr Hbool :=
  match goal with
  | |- ?x _ = string_value ?n _ _ => rewrite (Hstr x n); [reflexivity|by eexists|solve_binds]
  | |- ?x _ = bool_value ?n _ _ => rewrite (Hbool x n); [reflexivity|by eexists|solve_binds]
  end.

Lemma manager_reads {X} (libs : list (Flag X)) asg x s :
  assign (with_libraries manager_flags libs) asg (declare (with_libraries manager_flags libs) (manager_zero, x)) = Ok s →
  s.1 = manager_reading asg.
Proof.
  intros [Hstr Hbool]%assign_reading. destruct s as [f y]. cbn [fst] in *.
  transitivity (eta f); [by destruct f|]. unfold eta, manager_eta, manager_reading. f_equal; reading Hstr Hbool.
Qed.

(** The same of the vendor plugin's and the daemon's, where the environment gives
    some of the defaults. *)
Definition vsp_reading (getenv : string → string) (asg : list (string * string)) : VspFlags := {|
  VfMetrics := string_value "metrics-bind-address" "0" asg;
  VfProbe := string_value "health-probe-bind-address" ":8082" asg;
  VfNode := string_value "node-name" (getenv "NODE_NAME") asg;
  VfSerial := string_value "serial-number" (getenv "DPU_SERIAL_NUMBER") asg;
  VfPCI := string_value "pci-address" "0000:03:00.0" asg;
  VfProduct := string_value "product-name" "" asg;
  VfVendor := string_value "vendor" (getenv "DPU_VENDOR") asg;
  VfFirmwareURL := string_value "firmware-url" (getenv "DPU_FIRMWARE_URL") asg;
  VfBFBURL := string_value "bfb-url" (getenv "DPU_BFB_URL") asg;
  VfFlavor := string_value "flavor" "" asg;
  VfFirmwareName := string_value "firmware-name" "" asg;
  VfBFBName := string_value "bfb-name" "" asg;
  VfUsePCI := bool_value "pci" false asg;
  VfPCIVendor := string_value "pci-vendor" "" asg;
  VfSocket := string_value "grpc-socket" DefaultSocket asg;
  VfGrpcOnly := bool_value "grpc-only" false asg |}.

Definition daemon_reading (getenv : string → string) (asg : list (string * string)) : DaemonFlags := {|
  DfSocket := string_value "grpc-socket" DefaultSocket asg;
  DfIdentifier := string_value "dpu-identifier" (getenv "DPU_IDENTIFIER") asg;
  DfMode := bool_value "dpu-mode" true asg;
  DfOnce := bool_value "once" false asg |}.

Lemma vsp_reads {X} (libs : list (Flag X)) getenv asg x s :
  assign (with_libraries (vsp_flags getenv) libs) asg (declare (with_libraries (vsp_flags getenv) libs) (vsp_zero, x)) = Ok s →
  s.1 = vsp_reading getenv asg.
Proof.
  intros [Hstr Hbool]%assign_reading. destruct s as [f y]. cbn [fst] in *.
  transitivity (eta f); [by destruct f|]. unfold eta, vsp_eta, vsp_reading. f_equal; reading Hstr Hbool.
Qed.

Lemma daemon_reads {X} (libs : list (Flag X)) getenv asg x s :
  assign (with_libraries (daemon_flags getenv) libs) asg (declare (with_libraries (daemon_flags getenv) libs) (daemon_zero, x)) = Ok s →
  s.1 = daemon_reading getenv asg.
Proof.
  intros [Hstr Hbool]%assign_reading. destruct s as [f y]. cbn [fst] in *.
  transitivity (eta f); [by destruct f|]. unfold eta, daemon_eta, daemon_reading. f_equal; reading Hstr Hbool.
Qed.

(** The defaults are the ones of Commands.v. *)
Lemma readings_of_nothing getenv :
  manager_reading [] = manager_flag_defaults ∧ vsp_reading getenv [] = vsp_flag_defaults getenv ∧
  daemon_reading getenv [] = daemon_flag_defaults getenv.
Proof. done. Qed.

(** ** The processes *)

(** A command line that stands for [asg], every value of which its flag takes. *)
Definition accepts {S} (fs : list (Flag S)) (s : S) (args : list string) (asg : list (string * string)) : Prop :=
  (∃ rest, denotes fs args asg rest) ∧ is_ok (assign fs asg (declare fs s)) = true.

Lemma CommandLine_accepts {S} (fs : list (Flag S)) s args :
  bound fs →
  (∀ asg, accepts fs s args asg →
     ∃ s' rest, CommandLine fs args s = Parsed s' rest ∧ assign fs asg (declare fs s) = Ok s') ∧
  ((∀ asg, ¬ accepts fs s args asg) →
     ∃ status, usage_status (CommandLine fs args s) = Some status ∧ status ∈ [0%Z; 2%Z]).
Proof.
  intros Hb. split.
  - intros asg [[rest Hd] Ha]. destruct (assign fs asg _) as [s'|] eqn:E; [|done].
    exists s', rest. split; [|done]. apply CommandLine_denotes. eauto.
  - intros Hno. destruct (CommandLine fs args s) as [s' rest| | |] eqn:E; cbn; try (eexists; split; [done|set_solver]).
    apply CommandLine_denotes in E as (_ & asg & Hd & Ha). destruct (Hno asg). split; [by exists rest|by rewrite Ha].
Qed.

(** The process: [main] on what the command line says, or nothing and a usage status. *)
Definition follows {S} (fs : list (Flag S)) (s : S) (args : list string) {T R}
    (reading : list (string * string) → T) (main : T → R) (stopped : Z → R) (process : R) : Prop :=
  (∀ asg, accepts fs s args asg → process = main (reading asg)) ∧
  ((∀ asg, ¬ accepts fs s args asg) → ∃ status, process = stopped status ∧ status ∈ [0%Z; 2%Z]).

Lemma run_follows {S X M A} (fs : list (Flag (S * X))) s args (reading : list (string * string) → S)
    (main : S → Setup M A) p :
  bound fs → (∀ asg s', assign fs asg (declare fs s) = Ok s' → s'.1 = reading asg) →
  follows fs s args reading (λ f, ((main f p).1, exit_code (main f) p)) (λ status, (p, status))
    (run_setup (CommandLine fs args s) main p).
Proof.
  intros Hb Hr. destruct (CommandLine_accepts fs s args Hb) as [Hyes Hno]. split.
  - intros asg (s' & rest & -> & Ha)%Hyes. cbn. by rewrite (Hr _ _ Ha).
  - intros (status & Hs & Hin)%Hno. exists status. split; [|done]. unfold run_setup. rewrite Hs.
    by destruct (CommandLine fs args s).
Qed.

(** The libraries bind names that none of the commands binds. *)
Definition linkable {X} (libs : list (Flag X)) : Prop :=
  bound (with_libraries manager_flags libs) ∧
  ∀ getenv, bound (with_libraries (vsp_flags getenv) libs) ∧ bound (with_libraries (daemon_flags getenv) libs).

(** *** Round trip *)

Lemma denotes_spelled {S R} (fs : list (Flag R)) (own : list (Flag S)) s :
  Forall (λ f, writable (FlagName f) ∧ is_Some (Lookup fs (FlagName f))) own →
  denotes fs (spell_all own s) ((λ f, (FlagName f, ValueString f s)) <$> own) [].
Proof.
  intros Hall. induction Hall as [|f own [Hw [g Hg]] _ IH]; [constructor|].
  apply (denotes_given fs "--" (FlagName f) g (ValueString f s)); [set_solver|done..].
Qed.

Ltac spelled := repeat (apply Forall_cons; split); try apply Forall_nil; try exact I; (split; [by eexists _, _|by eexists]).

Lemma CommandLine_spelled {S X} (own : list (Flag S)) (libs : list (Flag X)) z x f y :
  bound (with_libraries own libs) →
  Forall (λ g, writable (FlagName g) ∧ is_Some (Lookup (with_libraries own libs) (FlagName g))) own →
  assign (with_libraries own libs) ((λ g, (FlagName g, ValueString g f)) <$> own) (declare own z, y) = Ok (f, y) →
  y = declare libs x →
  CommandLine (with_libraries own libs) (spell_all own f) (z, x) = Parsed (f, y) [].
Proof.
  intros Hb Hw Ha ->. apply CommandLine_denotes. split; [done|]. eexists. split; [by apply denotes_spelled|].
  by rewrite declare_libraries.
Qed.

(** Every setting of the variables is reached by the command line that spells it. *)
Theorem command_lines_roundtrip {X} (libs : list (Flag X)) x getenv mf vf df :
  linkable libs →
  CommandLine (with_libraries manager_flags libs) (spell_all manager_flags mf) (manager_zero, x) =
    Parsed (mf, declare libs x) [] ∧
  CommandLine (with_libraries (vsp_flags getenv) libs) (spell_all (vsp_flags getenv) vf) (vsp_zero, x) =
    Parsed (vf, declare libs x) [] ∧
  CommandLine (with_libraries (daemon_flags getenv) libs) (spell_all (daemon_flags getenv) df) (daemon_zero, x) =
    Parsed (df, declare libs x) [].
Proof.
  intros [Hm Hvd]. destruct (Hvd getenv) as [Hv Hd]. split_and!; (apply CommandLine_spelled; [done|spelled| |done]).
  - by destruct mf as [? ? ? ? ? ? ? [] ? [] []].
  - by destruct vf as [? ? ? ? ? ? ? ? ? ? ? ? ? [] ? []].
  - by destruct df as [? ? [] []].
Qed.

Section Commands.
Context {X : Type} (libs : list (Flag X)) (x : X) (getenv : string → string).
Context {M W : Type} `{ManagerOS M} `{Files} `{VspAPI W} `{Sysfs} `{Wire W} `{ControllerUtil} `{DaemonOS}.

(** [C33] Each of the three commands runs its [main] on what the command line says.  A line
    of the grammar sets every variable to the last value the line gives its flag,
    and to the environment or the declared default otherwise; any other line stops
    the process with status 0 (help) or 2 before it has done anything. *)
Theorem processes_follow_command_line (start_server : Server W → M → M * option err) args (p : Proc M) fuel (w : W) :
  linkable libs →
  follows (with_libraries manager_flags libs) (manager_zero, x) args manager_reading
    (λ f, ((manager_main f p).1, exit_code (manager_main f) p)) (λ status, (p, status))
    (manager_process libs x args p) ∧
  follows (with_libraries (vsp_flags getenv) libs) (vsp_zero, x) args (vsp_reading getenv)
    (λ f, ((vsp_main start_server f p).1, exit_code (vsp_main start_server f) p)) (λ status, (p, status))
    (vsp_process libs x getenv start_server args p) ∧
  follows (with_libraries (daemon_flags getenv) libs) (daemon_zero, x) args (daemon_reading getenv)
    (λ f, daemon_main fuel f w) (λ status, Some (w, status))
    (daemon_process libs x getenv fuel args w).
Proof.
  intros [Hm Hvd]. destruct (Hvd getenv) as [Hv Hd]. split_and!.
  - apply run_follows; [done|]. intros asg s'. apply manager_reads.
  - apply run_follows; [done|]. intros asg s'. apply vsp_reads.
  - destruct (CommandLine_accepts _ (daemon_zero, x) args Hd) as [Hyes Hno]. unfold daemon_process. split.
    + intros asg (s' & rest & -> & Ha)%Hyes. by rewrite (daemon_reads _ _ _ _ _ Ha).
    + intros (status & Hs & Hin)%Hno. exists status. split; [|done].
      destruct (CommandLine _ _ _); cbn in Hs |- *; by simplify_eq.
Qed.

End Commands.

(** ** Concrete command lines *)

(** Library flags that keep what they are given. *)
Definition kept_flag (boolean : bool) (name : string) : Flag (list (string * string)) :=
  mkFlag name boolean (λ kept, default "" (last_value name kept)) (λ v kept, Ok (kept ++ [(name, v)])) (λ kept, kept).
Definition demo_libs : list (Flag (list (string * string))) :=
  kept_flag true "zap-devel" ::
  (kept_flag false <$> ["kubeconfig"; "zap-encoder"; "zap-log-level"; "zap-stacktrace-level"; "zap-time-encoding"]).

Lemma demo_linkable : linkable demo_libs.
Proof.
  split; [apply bound_spec; reflexivity|]. intros getenv. split; apply bound_spec; reflexivity.
Qed.

Lemma command_lines_roundtrip_witness :
  CommandLine (with_libraries manager_flags demo_libs) (spell_all manager_flags manager_flag_defaults) (manager_zero, []) =
    Parsed (manager_flag_defaults, []) [].
Proof.
  apply (command_lines_roundtrip demo_libs [] (λ _, "") manager_flag_defaults vsp_zero daemon_zero).
  exact demo_linkable.
Defined.

(** The ways of writing a flag, and the last value winning; a word ends the flags. *)
Example written_ways :
  CommandLine (with_libraries (daemon_flags (λ _, "")) demo_libs)
    ["-grpc-socket"; "/a"; "--zap-devel"; "--grpc-socket=/b=c"; "-dpu-mode=F"; "--once"; "false"; "--once=no"] (daemon_zero, []) =
  Parsed ({| DfSocket := "/b=c"; DfIdentifier := ""; DfMode := false; DfOnce := true |}, [("zap-devel", "true")])
    ["false"; "--once=no"].
Proof. reflexivity. Qed.

(** Help, and what is refused. *)
Example refused_lines :
  let status args := usage_status (CommandLine (with_libraries (daemon_flags (λ _, "")) demo_libs) args (daemon_zero, [])) in
  status ["-h"] = Some 0%Z ∧ status ["--once=yes"] = Some 2%Z ∧ status ["--grpc-socket"] = Some 2%Z ∧
  status ["---once"] = Some 2%Z ∧ status ["--twice"] = Some 2%Z ∧ status ["--"; "--twice"] = None.
Proof. by vm_compute. Qed.

#[local] Definition lone_daemon : DaemonOS := {| service_host := ""; get_config := None; client_new := None |}.

(** A manager with a leader election and its own mappings, and one that is refused. *)
Lemma processes_follow_command_line_witness :
  let line := ["--leader-elect"; "-mapping-dir"; "/mappings"; "--zap-devel=true"; "--metrics-secure=f"] in
  let asg := [("leader-elect", "true"); ("mapping-dir", "/mappings"); ("zap-devel", "true"); ("metrics-secure", "f")] in
  accepts (with_libraries manager_flags demo_libs) (manager_zero, []) line asg ∧
  manager_process (H := counted_manager) (H0 := one_document) demo_libs [] line (mkProc 7 []) =
    ((manager_main (H := counted_manager) (H0 := one_document) (manager_reading asg) (mkProc 7 [])).1, 0%Z) ∧
  FlLeaderElect (manager_reading asg) = true ∧ FlSecureMetrics (manager_reading asg) = false.
Proof.
  intros line asg.
  assert (Ha : accepts (with_libraries manager_flags demo_libs) (manager_zero, []) line asg).
  { split; [|reflexivity]. exists [].
    eapply (denotes_switch _ "--" "leader-elect" _ _ _ _); [set_solver|by eexists _, _|reflexivity..|].
    eapply (denotes_next _ "-" "mapping-dir" _ _ _ _ _); [set_solver|by eexists _, _|reflexivity..|].
    eapply (denotes_given _ "--" "zap-devel" _ _ _ _ _); [set_solver|by eexists _, _|reflexivity..|].
    eapply (denotes_given _ "--" "metrics-secure" _ _ _ _ _); [set_solver|by eexists _, _|reflexivity..|]. constructor. }
  split; [exact Ha|]. split; [|by split].
  destruct (processes_follow_command_line demo_libs [] (λ _, "") (H := counted_manager) (H0 := one_document) (H1 := vcluster_api)
    (H2 := demo_sysfs) (H3 := direct_wire (NewServer None "") (λ w _, (w, false))) (H4 := demo_util) (H5 := lone_daemon)
    (λ _ m, (m, None)) line (mkProc 7 []) 1 inhabitant demo_linkable) as [[Hm _] _].
  exact (Hm asg Ha).
Defined.
