(* ===== verification/Deployments.v ===== *)
(** * The shipped deployments

    The pods that the manifests under config/ and their patches make, as far as the
    three commands see them: arguments, environment, probe ports, users, volumes
    and mounts.  Read by the flags of Flags.v they say which manager is started,
    which hardware the vendor plugin serves, and where the daemon finds it. *)

From Stdlib Require Import Ascii ZArith.
From stdpp Require Import base strings list sets pretty gmap.
From S2P Require Import Prelude GoStrings MappingLoad Controller Discovery PciScan PciScanFacts Vsp VspFacts Commands CommandsFacts Flags FlagsFacts.

(** ** The manifests *)

(** A container: its arguments, its environment, the port its probes ask, the user
    it runs as (the image's own otherwise) and the volumes it mounts, by name. *)
Record Container := {
  Args : list string;
  Env : list (string * string);
  HealthPort : option Z;
  RunAsUser : option Z;
  Mounts : list (string * string) }.

Inductive VolumeSource := ConfigMap (name : string) | EmptyDir | HostPath (path : string) | SecretVolume (name : string).

Record Pod := { Containers : list Container; Volumes : list (string * VolumeSource) }.

(** [os.Getenv] in a container. *)
Definition getenv_of (c : Container) (name : string) : string := default "" (last_value name (Env c)).

Definition manager_pod : Pod := {|
  Containers := [ {|
    Args := ["--leader-elect=true"; "--health-probe-bind-address=:8081"; "--mapping-dir=/mappings"];
    Env := []; HealthPort := Some 8081%Z; RunAsUser := None; Mounts := [("mappings", "/mappings")] |} ];
  Volumes := [("mappings", ConfigMap "mappings")] |}.

Definition manager_replicas : nat := 2.

(** *** The JSON patches *)

(** A patch of [/spec/template/spec/containers/0]. *)
Definition patch_first (f : Container → Container) (p : Pod) : Pod :=
  {| Containers := match Containers p with c :: cs => f c :: cs | [] => [] end; Volumes := Volumes p |}.

Definition with_args (f : list string → list string) (c : Container) : Container :=
  {| Args := f (Args c); Env := Env c; HealthPort := HealthPort c; RunAsUser := RunAsUser c; Mounts := Mounts c |}.

Definition add_mount (m : string * string) (c : Container) : Container :=
  {| Args := Args c; Env := Env c; HealthPort := HealthPort c; RunAsUser := RunAsUser c; Mounts := Mounts c ++ [m] |}.

Definition add_volume (v : string * VolumeSource) (p : Pod) : Pod :=
  {| Containers := Containers p; Volumes := Volumes p ++ [v] |}.

Definition manager_metrics_patch : Pod → Pod := patch_first (with_args (cons "--metrics-bind-address=:8443")).

Definition cert_metrics_manager_patch (p : Pod) : Pod :=
  let p := patch_first (add_mount ("metrics-certs", "/tmp/k8s-metrics-server/metrics-certs")) p in
  let p := patch_first (with_args (λ args, args ++ ["--metrics-cert-path=/tmp/k8s-metrics-server/metrics-certs"])) p in
  add_volume ("metrics-certs", SecretVolume "metrics-server-cert") p.

Definition manager_webhook_patch : Pod → Pod :=
  patch_first (with_args (λ args, args ++ ["--webhook-cert-path=/tmp/k8s-webhook-server/serving-certs"])).

(** *** The node's pods

    The node's name is filled in where the pod runs. *)
Definition vsp_container (node : string) : Container := {|
  Args := ["--metrics-bind-address=0"; "--health-probe-bind-address=:8082"];
  Env := [("NODE_NAME", node); ("DPU_SERIAL_NUMBER", "MTEXAMPLE0001"); ("DPU_BFB_URL", "https://example.invalid/fw.bfb")];
  HealthPort := Some 8082%Z; RunAsUser := Some 65532%Z; Mounts := [("grpc-socket", "/var/run/dpu-daemon")] |}.

Definition sidecar_daemon_container : Container := {|
  Args := ["--grpc-socket=/var/run/dpu-daemon/vendor-plugin/vendor-plugin.sock"]; Env := []; HealthPort := None;
  RunAsUser := Some 65532%Z; Mounts := [("grpc-socket", "/var/run/dpu-daemon")] |}.

Definition vsp_pod (node : string) : Pod := {|
  Containers := [vsp_container node; sidecar_daemon_container]; Volumes := [("grpc-socket", EmptyDir)] |}.

Definition hardware_bfb_url : string :=
  "https://content.mellanox.com/BlueField/BFBs/Ubuntu24.04/bf-bundle-3.4.0-92_26.04_ubuntu-24.04_prod.bfb".

(** Scans the bus, shares the host's directory, and drops the sidecar. *)
Definition pci_patch (node : string) (p : Pod) : Pod :=
  let p := patch_first (λ c, {|
    Args := ["--pci"; "--pci-vendor=nvidia"; "--metrics-bind-address=0"; "--health-probe-bind-address=:8082"];
    Env := [("NODE_NAME", node); ("DPU_BFB_URL", hardware_bfb_url)];
    HealthPort := HealthPort c; RunAsUser := Some 0%Z;
    Mounts := [("grpc-socket", "/var/run/dpu-daemon"); ("sys", "/sys")] |}) p in
  {| Containers := delete 1 (Containers p);
     Volumes := [("grpc-socket", HostPath "/var/run/dpu-daemon"); ("sys", HostPath "/sys")] |}.

Definition opi_daemon_container : Container := {|
  Args := ["--grpc-socket=/var/run/dpu-daemon/vendor-plugin/vendor-plugin.sock"]; Env := []; HealthPort := None;
  RunAsUser := Some 0%Z; Mounts := [("dpu-daemon-mount", "/var/run/dpu-daemon")] |}.

Definition opi_daemon_pod : Pod := {|
  Containers := [opi_daemon_container]; Volumes := [("dpu-daemon-mount", HostPath "/var/run/dpu-daemon")] |}.

(** ** Where a path leads *)

(** A place on a node: in a volume of the pod itself, on the host, in an object of
    the cluster; [None] is the container's own image. *)
Inductive Place := OfPod (pod volume rest : string) | OfHost (path rest : string) | OfObject (kind name rest : string).

Definition place_of (pod : string) (volume : string) (src : VolumeSource) (rest : string) : Place :=
  match src with
  | EmptyDir => OfPod pod volume rest
  | HostPath path => OfHost path rest
  | ConfigMap name => OfObject "ConfigMap" name rest
  | SecretVolume name => OfObject "Secret" name rest
  end.

(** The mount whose path holds the file; the shipped mount paths do not nest. *)
Fixpoint locate_in (pod : string) (volumes : list (string * VolumeSource)) (mounts : list (string * string))
    (path : string) : option Place :=
  match mounts with
  | [] => None
  | (volume, at_) :: mounts' =>
      match strip_prefix (at_ +:+ "/") path with
      | Some rest => (λ v, place_of pod volume v.2 rest) <$> find (λ v, v.1 == volume) volumes
      | None => locate_in pod volumes mounts' path
      end
  end.

Definition locate (uid : string) (p : Pod) (c : Container) (path : string) : option Place :=
  locate_in uid (Volumes p) (Mounts c) path.

(** The plugin makes the socket's directory with the bits of [SocketDirPerm]: root
    gets through, its own user with the owner's search bit, anyone with that of the
    others. *)
Definition may_enter (owner user : option Z) : bool :=
  (user == Some 0%Z) || ((user == owner) && (owner != None) && Z.testbit SocketDirPerm 6) || Z.testbit SocketDirPerm 0.

(** One container dials the socket that another serves. *)
Definition meets (uid1 : string) (p1 : Pod) (c1 : Container) (path1 : string)
    (uid2 : string) (p2 : Pod) (c2 : Container) (path2 : string) : Prop :=
  is_Some (locate uid1 p1 c1 path1) ∧ locate uid1 p1 c1 path1 = locate uid2 p2 c2 path2 ∧
  may_enter (RunAsUser c1) (RunAsUser c2) = true.

(** ** What they start *)

Definition probed (c : Container) (address : string) : Prop := ∀ port, HealthPort c = Some port → address = ":" +:+ Itoa port.

Section Started.
Context {X : Type} (libs : list (Flag X)) (x : X).

Definition starts_manager (c : Container) (f : ManagerFlags) : Prop :=
  CommandLine (with_libraries manager_flags libs) (Args c) (manager_zero, x) = Parsed (f, declare libs x) [].
Definition starts_vsp (c : Container) (f : VspFlags) : Prop :=
  CommandLine (with_libraries (vsp_flags (getenv_of c)) libs) (Args c) (vsp_zero, x) = Parsed (f, declare libs x) [].
Definition starts_daemon (c : Container) (f : DaemonFlags) : Prop :=
  CommandLine (with_libraries (daemon_flags (getenv_of c)) libs) (Args c) (daemon_zero, x) = Parsed (f, declare libs x) [].

(** config/default, with the patches that can be uncommented. *)
Definition optional_patch (on : bool) (patch : Pod → Pod) (p : Pod) : Pod := if on then patch p else p.

Definition deployed_manager (certs webhook : bool) : Pod :=
  optional_patch webhook manager_webhook_patch (optional_patch certs cert_metrics_manager_patch
    (manager_metrics_patch manager_pod)).

Lemma CommandLine_bound {S} (fs : list (Flag S)) args s : bound fs → CommandLine fs args s = Parse fs args (declare fs s).
Proof. intros Hb%bound_spec. unfold CommandLine. by rewrite Hb. Qed.

(** A manager behind authentication and HTTP/1.1, one writer of several, with the
    certificates it was given. *)
Definition guarded_manager (certs webhook : bool) (c : Container) (f : ManagerFlags) : Prop :=
  let o := manager_options f in
  (1 < manager_replicas → LeaderElection o = true) ∧
  probed c (HealthProbeBind o) ∧
  SecureServing (MgrMetrics o) = true ∧ FilterProvider (MgrMetrics o) = true ∧
  MetricsTLS (MgrMetrics o) = [disableHTTP2] ∧
  MetricsCert (MgrMetrics o) =
    (if certs then Some ("/tmp/k8s-metrics-server/metrics-certs", "tls.crt", "tls.key") else None) ∧
  (WebhookCert <$> MgrWebhook o) =
    Some (if webhook then Some ("/tmp/k8s-webhook-server/serving-certs", "tls.crt", "tls.key") else None) ∧
  FlMappingDir f = "/mappings".

Lemma shipped_manager certs webhook :
  linkable libs → ∃ c f, Containers (deployed_manager certs webhook) = [c] ∧ starts_manager c f ∧
    guarded_manager certs webhook c f.
Proof.
  intros [Hb _]. unfold starts_manager. setoid_rewrite CommandLine_bound; [|done]. setoid_rewrite declare_libraries.
  destruct certs, webhook; (eexists _, _; split; [reflexivity|]; split; [reflexivity|]);
    (split_and!; try reflexivity; by intros port [= <-]).
Qed.

(** The plugin's variables as its container sets them. *)
Definition vsp_container_flags (node : string) : VspFlags := {|
  VfMetrics := "0"; VfProbe := ":8082"; VfNode := node; VfSerial := "MTEXAMPLE0001"; VfPCI := "0000:03:00.0";
  VfProduct := ""; VfVendor := ""; VfPCIVendor := ""; VfFirmwareURL := ""; VfBFBURL := "https://example.invalid/fw.bfb";
  VfFlavor := ""; VfFirmwareName := ""; VfBFBName := ""; VfUsePCI := false; VfSocket := DefaultSocket; VfGrpcOnly := false |}.

Definition hardware_flags (node : string) : VspFlags := {|
  VfMetrics := "0"; VfProbe := ":8082"; VfNode := node; VfSerial := ""; VfPCI := "0000:03:00.0";
  VfProduct := ""; VfVendor := ""; VfPCIVendor := "nvidia"; VfFirmwareURL := ""; VfBFBURL := hardware_bfb_url;
  VfFlavor := ""; VfFirmwareName := ""; VfBFBName := ""; VfUsePCI := true; VfSocket := DefaultSocket; VfGrpcOnly := false |}.

Definition daemon_container_flags : DaemonFlags := {|
  DfSocket := DefaultSocket; DfIdentifier := ""; DfMode := true; DfOnce := false |}.

Definition hardware_pod (node : string) : Pod := pci_patch node (vsp_pod node).

(** The plugin of a pod is its first container. *)
Lemma shipped_vsp node :
  linkable libs →
  (∃ c, head (Containers (vsp_pod node)) = Some c ∧ starts_vsp c (vsp_container_flags node) ∧
     probed c (VfProbe (vsp_container_flags node))) ∧
  (∃ c, Containers (hardware_pod node) = [c] ∧ starts_vsp c (hardware_flags node) ∧ probed c (VfProbe (hardware_flags node))).
Proof.
  intros [_ Hb]. unfold starts_vsp. split; (eexists; split; [reflexivity|]);
    (split; [|by intros port [= <-]]); rewrite CommandLine_bound, declare_libraries by apply Hb; reflexivity.
Qed.

Lemma shipped_daemon c :
  linkable libs → c ∈ [sidecar_daemon_container; opi_daemon_container] → starts_daemon c daemon_container_flags.
Proof.
  intros [_ Hb] Hc. unfold starts_daemon. rewrite CommandLine_bound, declare_libraries by apply Hb.
  set_unfold in Hc. by destruct Hc as [->| [->|[]]].
Qed.

(** The shipped manifests start what they mean to.  The managers, with any of the
    optional patches, elect a leader and serve their metrics with authentication
    over HTTP/1.1.  The sidecar daemon meets the mock plugin of its own pod and its
    handshake finds the flagged card; the separate daemon meets the plugin of the
    hardware overlay, which scans for NVIDIA cards, and never the one of a default
    pod. *)
Theorem shipped_deployments_start {W} `{VspAPI W} `{Sysfs} certs webhook node :
  linkable libs →
  (∃ c f, Containers (deployed_manager certs webhook) = [c] ∧ starts_manager c f ∧ guarded_manager certs webhook c f) ∧
  ∃ v d h o vf df hf odf (vplan hplan : VspPlan W),
    (Containers (vsp_pod node) = [v; d] ∧ Containers (hardware_pod node) = [h] ∧ Containers opi_daemon_pod = [o]) ∧
    (starts_vsp v vf ∧ starts_daemon d df ∧ starts_vsp h hf ∧ starts_daemon o odf) ∧
    (probed v (VfProbe vf) ∧ probed h (VfProbe hf)) ∧
    (vsp_plan vf = Ok vplan ∧ vsp_plan hf = Ok hplan) ∧
    (∀ uid uid', meets uid (vsp_pod node) v (SocketPath (PlanServer vplan)) uid (vsp_pod node) d (DfSocket df) ∧
       meets uid (hardware_pod node) h (SocketPath (PlanServer hplan)) uid' opi_daemon_pod o (DfSocket odf) ∧
       ¬ meets uid (vsp_pod node) v (SocketPath (PlanServer vplan)) uid' opi_daemon_pod o (DfSocket odf)) ∧
    (∀ pause w, Handshake (H := direct_wire (PlanServer vplan) pause) w (DfSocket df) (DfMode df) (DfIdentifier df) =
       (w, Ok {| HrIP := defaultIP; HrPort := defaultPort;
                 HrDevices := {[ "0000:03:00.0" := Some {| HdID := "MTEXAMPLE0001"; HdHealth := healthOK |} ]} |})) ∧
    PlanAnnotator vplan = Some {| NodeName := node; AnnVendorID := 0; FirmwareURL := "https://example.invalid/fw.bfb";
                                  Flavor := ""; FirmwareName := "" |} ∧
    PlanAnnotator hplan = Some {| NodeName := node; AnnVendorID := NVIDIAVendorID; FirmwareURL := hardware_bfb_url;
                                  Flavor := ""; FirmwareName := "" |} ∧
    Enumerator (PlanServer hplan) = Some (λ w, (w, Enumerate "" NVIDIAVendorID)).
Proof.
  intros Hl. split; [by apply shipped_manager|].
  assert (Hv : ∃ vplan : VspPlan W, vsp_plan (vsp_container_flags node) = Ok vplan) by (by eexists). destruct Hv as [vplan Hv].
  destruct (shipped_vsp node Hl) as [(v & [= <-] & Hvs & Hvp) (h & [= <-] & Hhs & Hhp)].
  do 4 eexists. exists (vsp_container_flags node), daemon_container_flags, (hardware_flags node), daemon_container_flags, vplan.
  eexists. split; [split_and!; reflexivity|].
  split; [split_and!; [done|apply shipped_daemon; [done|set_solver]|done|apply shipped_daemon; [done|set_solver]]|].
  split; [done|]. split; [split; [done|reflexivity]|].
  injection Hv as <-. split.
  - intros uid uid'. split; [|split]; [split_and!; [by eexists|reflexivity..]|split_and!; [by eexists|reflexivity..]|].
    intros (_ & Hp & _). discriminate Hp.
  - split_and!; reflexivity.
Qed.

End Started.

Lemma shipped_deployments_start_witness :
  ∃ c f, Containers (deployed_manager true false) = [c] ∧ starts_manager demo_libs [] c f ∧ guarded_manager true false c f.
Proof.
  apply (shipped_deployments_start demo_libs [] (H := vcluster_api) (H0 := demo_sysfs) true false "worker-1").
  exact demo_linkable.
Defined.
