(* ===== verification/DeployedManager.v ===== *)
(** * The deployed manager

    From the manifests under config/ to the controllers of the running manager: the
    command line of its container, the ConfigMap it reads its mappings from, the
    files its image and its volumes hold. *)

From Stdlib Require Import Ascii ZArith.
From stdpp Require Import base gmap strings list sets.
From S2P Require Import Prelude GoStrings MappingSpec MappingLoad Translation Watches Documents DocumentsFacts Commands CommandsFacts Flags FlagsFacts Deployments.

(** ** The ConfigMap *)

(** The files that config/mappings/kustomization.yaml packs. *)
Definition mappings_configmap : list string := ["dataprocessingunit.yaml"; "servicefunctionchain.yaml"].

(** What a mount of a ConfigMap lists: a directory with a time stamp, the link to
    it, and a link for each key. *)
Definition mount_entries (stamp : string) (keys : list string) : list (string * bool) :=
  (".." +:+ stamp, true) :: ("..data", false) :: ((λ k, (k, false)) <$> keys).

Record mounted_mappings `{Files} (stamp d1 d2 : string) : Prop := {
  mounted_dir : ReadDir "/mappings" = Ok (mount_entries stamp mappings_configmap);
  mounted_dpu : ∃ b, ReadFile (PathJoin "/mappings" "dataprocessingunit.yaml") = Ok b ∧
                  UnmarshalSpec b = Ok (dataprocessingunit d1);
  mounted_sfc : ∃ b, ReadFile (PathJoin "/mappings" "servicefunctionchain.yaml") = Ok b ∧
                  UnmarshalSpec b = Ok (servicefunctionchain d2) }.

Definition deployed_specs (d1 d2 : string) : list Spec := [dataprocessingunit d1; servicefunctionchain d2].

Lemma deployed_loads `{Files} stamp d1 d2 :
  mounted_mappings stamp d1 d2 → LoadDir "/mappings" = Ok (deployed_specs d1 d2).
Proof.
  intros [Hd H1 H2]. apply LoadDir_all_or_nothing. split; [done|]. eexists. split; [exact Hd|].
  pose proof (shipped_documents_valid "" d1 d2) as Hv. rewrite Forall_forall in Hv.
  assert (Hwf : ∀ s, s ∈ shipped "" d1 d2 → wf_spec s) by (intros s Hs; by apply Validate_spec, Hv).
  change (filter is_document _) with [("dataprocessingunit.yaml", false); ("servicefunctionchain.yaml", false)].
  constructor; [split; [apply Hwf; right; left|exact H1]|].
  constructor; [split; [apply Hwf; right; right; left|exact H2]|constructor].
Qed.

(** ** A manager that is let run *)

Section Obliging.
Context {M : Type} `{ManagerOS M} `{Files}.

(** The manager and the API server take every call; a kind that is not served is
    reported as such. *)
Record obliging : Prop := {
  takes_options w o : (new_manager w o).2 = None;
  takes_controller w c : (complete w c).2 = None;
  takes_discovery w : (new_discovery w).2 = None;
  takes_healthz w : (add_healthz w).2 = None;
  takes_readyz w : (add_readyz w).2 = None;
  takes_start w : (start_manager w).2 = None;
  maps_kinds w g e : (rest_mapping w g).2 = Some e → no_kind_match e = true;
  has_server : has_webhook_server = true }.

Definition succeeds {A} (m : Setup M A) : Prop := ∀ p, wp m (λ _ _, True) (λ _, False) p.

Lemma succeeds_bind {A B} (m : Setup M A) (k : A → Setup M B) :
  succeeds m → (∀ a, succeeds (k a)) → succeeds (setup_bind m k).
Proof. intros Hm Hk p. apply wp_bind. eapply wp_mono; [apply Hm| |done]. intros a p' _. apply Hk. Qed.

Lemma succeeds_emit ev : succeeds (emit ev : Setup M unit).
Proof. done. Qed.

Lemma succeeds_register g : succeeds (registerUnstructured (M := M) g).
Proof. intros p. apply wp_register. done. Qed.

Lemma succeeds_call (f : M → M * option err) ev : (∀ w, (f w).2 = None) → succeeds (call f ev).
Proof. intros Hf p. unfold wp, call. specialize (Hf (PWorld p)). destruct (f _) as [w [e|]]; done. Qed.

Lemma succeeds_query {A} (f : M → M * result A) : (∀ w, is_ok (f w).2 = true) → succeeds (query f).
Proof. intros Hf p. unfold wp, query. specialize (Hf (PWorld p)). by destruct (f _) as [w [a|e]]. Qed.

Lemma succeeds_for_each {A} (l : list A) (f : A → Setup M unit) : (∀ x, succeeds (f x)) → succeeds (for_each l f).
Proof. intros Hf. induction l as [|x l IH]; [done|]. cbn [for_each]. by apply succeeds_bind. Qed.

Lemma obliging_owns gs (w : M) : obliging → is_ok (ownable_loop rest_mapping no_kind_match w gs).2 = true.
Proof.
  intros Ho. revert w. induction gs as [|g gs IH]; intros w; cbn; [done|].
  pose proof (maps_kinds Ho w g) as Hg. destruct (rest_mapping w g) as [w1 [e|]]; cbn in Hg.
  - rewrite (Hg e eq_refl). apply IH.
  - specialize (IH w1). destruct (ownable_loop _ _ w1 gs) as [w2 [out|e]]; done.
Qed.

Ltac succeed_by lem :=
  repeat first [by apply lem | apply succeeds_bind; [|intros] | apply succeeds_register | apply succeeds_emit | apply succeeds_for_each; intros
               | apply succeeds_call; intros; by auto using takes_options, takes_controller, takes_healthz, takes_readyz, takes_start].

Lemma setup_mapping_succeeds spec : obliging → succeeds (setup_mapping spec).
Proof.
  intros Ho. unfold setup_mapping, complete_controller. succeed_by succeeds_emit. apply succeeds_query. intros w.
  unfold translation_SetupWithManager, ownableTargets. cbn [negb].
  pose proof (obliging_owns (distinct ((λ e, Target e) <$> SpecEmit spec)) w Ho) as Hok.
  by destruct (ownable_loop _ _ _ _) as [w' [out|e]].
Qed.

(** A manager whose mappings load comes to run. *)
Lemma obliging_starts f specs (w : M) :
  obliging → LoadDir (FlMappingDir f) = Ok specs → exit_code (manager_main f) (mkProc w []) = 0%Z.
Proof.
  intros Ho Hl. assert (Hs : succeeds (manager_main f)).
  { unfold manager_main. rewrite Hl. unfold complete_controller. succeed_by setup_mapping_succeeds; try done.
    - apply succeeds_query. intros w1. pose proof (takes_discovery Ho w1) as Hd. by destruct (new_discovery w1) as [w2 [e|]].
    - unfold SetupDpuOperatorConfigWebhook. rewrite (has_server Ho). by destruct (webhookCertificatesPresent _ _ _). }
  specialize (Hs (mkProc w [])). unfold wp, exit_code in *. by destruct (manager_main f _) as [p [[]|e]].
Qed.

End Obliging.
Arguments obliging M {_}.

(** ** From the manifests to the controllers *)

Section Deployed.
Context {X : Type} (libs : list (Flag X)) (x : X) {M : Type} `{ManagerOS M} `{Files}.

Definition webhook_cert_dir : string := "/tmp/k8s-webhook-server/serving-certs".

(** The files a container sees under /tmp are those of its volumes: the image holds
    the three binaries.  [os.TempDir] and [filepath.Join] on the paths used here. *)
Record container_files (uid : string) (p : Pod) (c : Container) : Prop := {
  tmp : temp_dir = "/tmp";
  join_default : PathJoin (PathJoin "/tmp" "k8s-webhook-server") "serving-certs" = webhook_cert_dir;
  join_crt : PathJoin webhook_cert_dir "tls.crt" = webhook_cert_dir +:+ "/tls.crt";
  in_volumes path : HasPrefix path "/tmp/" = true → os_stat path = None → is_Some (locate uid p c path) }.

(** No volume of the manager holds serving certificates, with or without the patch
    that names their directory. *)
Lemma no_serving_certificates uid certs webhook c f :
  linkable libs → Containers (deployed_manager certs webhook) = [c] → starts_manager libs x c f →
  container_files uid (deployed_manager certs webhook) c →
  webhookCertificatesPresent (FlWebhookCertPath f) (FlWebhookCertName f) (FlWebhookCertKey f) = false.
Proof.
  intros [Hb _] Hc Hs Hf. unfold starts_manager in Hs. rewrite CommandLine_bound, declare_libraries in Hs by done.
  assert (Hno : os_stat (PathJoin webhook_cert_dir "tls.crt") ≠ None).
  { rewrite (join_crt _ _ _ Hf). intros Hex%(in_volumes _ _ _ Hf); [|reflexivity].
    destruct certs, webhook; injection Hc as <-; by destruct Hex. }
  assert (Hd : (FlWebhookCertPath f = "" ∨ FlWebhookCertPath f = webhook_cert_dir) ∧ FlWebhookCertName f = "tls.crt").
  { destruct certs, webhook; injection Hc as <-; vm_compute in Hs; injection Hs as <-; cbn; auto. }
  destruct Hd as [Hd Hn]. unfold webhookCertificatesPresent. rewrite Hn, (tmp _ _ _ Hf), (join_default _ _ _ Hf).
  destruct Hd as [-> | ->]; cbn; by rewrite bool_decide_eq_false_2.
Qed.

(** The process of the deployed container is [main] on flags whose mappings load. *)
Lemma deployed_process stamp d1 d2 certs webhook c (w : M) :
  linkable libs → mounted_mappings stamp d1 d2 → Containers (deployed_manager certs webhook) = [c] →
  ∃ f, starts_manager libs x c f ∧ LoadDir (FlMappingDir f) = Ok (deployed_specs d1 d2) ∧
    manager_process libs x (Args c) (mkProc w []) =
      ((manager_main f (mkProc w [])).1, exit_code (manager_main f) (mkProc w [])).
Proof.
  intros Hl Hm Hc. destruct (shipped_manager libs x certs webhook Hl) as (c' & f & Hc' & Hs & Hg).
  rewrite Hc in Hc'. injection Hc' as <-. exists f. split; [done|]. split.
  - replace (FlMappingDir f) with "/mappings" by (symmetry; apply Hg). by eapply deployed_loads.
  - unfold manager_process. unfold starts_manager in Hs. by rewrite Hs.
Qed.

(** [C32] The deployed manager comes to run whenever nothing refuses its calls, and then
    it has a translator for each document of its ConfigMap, in order, and the
    lifecycle manager: none for the third document, amd-dsc200.yaml, which the
    ConfigMap leaves out. *)
Theorem deployed_manager_runs stamp d1 d2 certs webhook c (w : M) :
  linkable libs → mounted_mappings stamp d1 d2 → Containers (deployed_manager certs webhook) = [c] →
  let run := manager_process libs x (Args c) (mkProc w []) in
  (obliging M → run.2 = 0%Z) ∧
  (run.2 = 0%Z ↔ EvStart ∈ PLog run.1) ∧
  (EvStart ∈ PLog run.1 →
     controllers (PLog run.1) = ((λ s, MetaName (SpecMetadata s)) <$> deployed_specs d1 d2) ++ ["lifecycle-manager"] ∧
     MetaName (SpecMetadata (amd_dsc200 d1)) ∉ controllers (PLog run.1)).
Proof.
  intros Hl Hm Hc. destruct (deployed_process stamp d1 d2 certs webhook c w Hl Hm Hc) as (f & _ & Hload & ->). cbn [fst snd].
  destruct (manager_runs_complete f w) as [Hexit Hrun]. split; [|split; [exact Hexit|]].
  - intros Ho. by eapply obliging_starts.
  - intros Hst. destruct (Hrun Hst) as (specs & Hl' & Hctl & _). rewrite Hload in Hl'. injection Hl' as <-.
    rewrite Hctl. split; [done|]. cbn. set_solver.
Qed.

Lemma deployed_without_webhook stamp d1 d2 uid certs webhook c (w : M) :
  linkable libs → mounted_mappings stamp d1 d2 → Containers (deployed_manager certs webhook) = [c] →
  container_files uid (deployed_manager certs webhook) c → obliging M →
  let run := manager_process libs x (Args c) (mkProc w []) in run.2 = 0%Z ∧ EvWebhook ∉ PLog run.1.
Proof.
  intros Hl Hm Hc Hf Ho. destruct (deployed_process stamp d1 d2 certs webhook c w Hl Hm Hc) as (f & Hs & Hload & ->). cbn.
  pose proof (obliging_starts f _ w Ho Hload) as H0'. split; [done|]. destruct (manager_runs_complete f w) as [Hexit Hrun].
  destruct (Hrun (proj1 Hexit H0')) as (_ & _ & _ & Hweb). intros Hin%Hweb.
  by rewrite (no_serving_certificates uid certs webhook c f) in Hin.
Qed.

End Deployed.

(** ** The webhook that can be uncommented *)

(** A rule of a ValidatingWebhookConfiguration. *)
Record ValidatingWebhook := {
  FailurePolicy : string;
  HookGroups : list string; HookVersions : list string; HookOperations : list string; HookResources : list string }.

Definition vdpuoperatorconfig : ValidatingWebhook := {|
  FailurePolicy := "Fail";
  HookGroups := ["config.openshift.io"]; HookVersions := ["v1"]; HookOperations := ["CREATE"; "UPDATE"];
  HookResources := ["dpuoperatorconfigs"] |}.

(** A request to the API server; [HandlerAnswer] is what the handler says of it. *)
Record AdmissionRequest := {
  AdmGroup : string; AdmVersion : string; AdmOperation : string; AdmResource : string; HandlerAnswer : bool }.

(** A request that matches is put to the handler; when nothing serves it, the
    failure policy decides. *)
Definition admits (h : ValidatingWebhook) (served : bool) (r : AdmissionRequest) : bool :=
  if bool_decide (AdmGroup r ∈ HookGroups h) && bool_decide (AdmVersion r ∈ HookVersions h) &&
     bool_decide (AdmOperation r ∈ HookOperations h) && bool_decide (AdmResource r ∈ HookResources h)
  then if served then HandlerAnswer r else FailurePolicy h != "Fail"
  else true.

Definition config_request (operation : string) (answer : bool) : AdmissionRequest :=
  {| AdmGroup := "config.openshift.io"; AdmVersion := "v1"; AdmOperation := operation; AdmResource := "dpuoperatorconfigs";
     HandlerAnswer := answer |}.

Definition serves_webhook (log : list setup_event) : bool :=
  existsb (λ ev, match ev with EvWebhook => true | _ => false end) log.

Lemma serves_webhook_spec log : serves_webhook log = true ↔ EvWebhook ∈ log.
Proof.
  unfold serves_webhook. rewrite existsb_exists. setoid_rewrite <- list_elem_of_In. split.
  - intros (ev & Hin & Hev). by destruct ev.
  - intros Hin. by exists EvWebhook.
Qed.

(** With the webhook sections of config/default uncommented the manager runs
    without its admission handler, and the API server refuses to create or update
    any DpuOperatorConfig, the finalizer updates of the manager itself included. *)
Theorem enabled_webhook_refuses_configs {X} (libs : list (Flag X)) (x : X) {M} `{ManagerOS M} `{Files}
    stamp d1 d2 uid certs c (w : M) :
  linkable libs → mounted_mappings stamp d1 d2 → Containers (deployed_manager certs true) = [c] →
  container_files uid (deployed_manager certs true) c → obliging M →
  let run := manager_process libs x (Args c) (mkProc w []) in
  run.2 = 0%Z ∧
  ∀ operation answer, operation ∈ ["CREATE"; "UPDATE"] →
    admits vdpuoperatorconfig (serves_webhook (PLog run.1)) (config_request operation answer) = false.
Proof.
  intros Hl Hm Hc Hf Ho run. destruct (deployed_without_webhook libs x stamp d1 d2 uid certs true c w Hl Hm Hc Hf Ho) as [Hok Hno].
  split; [done|]. intros operation answer Hop. destruct (serves_webhook _) eqn:Es; [by apply serves_webhook_spec in Es|].
  set_unfold in Hop. by destruct Hop as [->| [->|[]]].
Qed.

(** ** A cluster that runs it *)

Definition mounted_files : Files := {|
  ReadDir d := if d == "/mappings" then Ok (mount_entries "2026_10_20_09_00_00.1" mappings_configmap) else Err (ENew "no such directory");
  ReadFile p := Ok p;
  UnmarshalSpec b := if b == "/mappings/dataprocessingunit.yaml" then Ok (dataprocessingunit "")
                     else if b == "/mappings/servicefunctionchain.yaml" then Ok (servicefunctionchain "")
                     else Err (ENew "not a FieldMapping");
  UnmarshalTable _ := Err (ENew "no table");
  PathJoin d n := d +:+ "/" +:+ n |}.

Lemma mounted_files_ok : @mounted_mappings mounted_files "2026_10_20_09_00_00.1" "" "".
Proof. split; [reflexivity|..]; eexists; split; reflexivity. Qed.

(** The certificates of the metrics are there when their volume is. *)
Definition calm_manager (certs : bool) : ManagerOS unit := {|
  new_manager w _ := (w, None); rest_mapping w _ := (w, None); no_kind_match _ := false; complete w _ := (w, None);
  new_discovery w := (w, None); has_webhook_server := true; add_runnable w := (w, None); add_healthz w := (w, None);
  add_readyz w := (w, None); start_manager w := (w, None);
  os_stat p := if certs && HasPrefix p "/tmp/k8s-metrics-server/metrics-certs/" then None else Some (ENew "no such file");
  temp_dir := "/tmp" |}.

Lemma calm_obliging certs : @obliging unit (calm_manager certs).
Proof. by split. Qed.

Lemma deployed_manager_runs_witness :
  ∃ c, Containers (deployed_manager true false) = [c] ∧
    let run := manager_process (H := calm_manager true) (H0 := mounted_files) demo_libs [] (Args c) (mkProc tt []) in
    run.2 = 0%Z ∧ controllers (PLog run.1) = ["dataprocessingunit"; "servicefunctionchain"; "lifecycle-manager"].
Proof.
  eexists. split; [reflexivity|].
  edestruct (deployed_manager_runs demo_libs [] (H := calm_manager true) (H0 := mounted_files) "2026_10_20_09_00_00.1" "" ""
    true false _ tt demo_linkable mounted_files_ok eq_refl) as (Hok & Hst & Hctl).
  specialize (Hok (calm_obliging true)). split; [exact Hok|]. apply Hctl, Hst, Hok.
Defined.

Lemma enabled_webhook_refuses_configs_witness :
  ∃ c, Containers (deployed_manager false true) = [c] ∧
    let run := manager_process (H := calm_manager false) (H0 := mounted_files) demo_libs [] (Args c) (mkProc tt []) in
    admits vdpuoperatorconfig (serves_webhook (PLog run.1)) (config_request "CREATE" true) = false.
Proof.
  eexists. split; [reflexivity|].
  edestruct (enabled_webhook_refuses_configs demo_libs [] (H := calm_manager false) (H0 := mounted_files) "2026_10_20_09_00_00.1"
    "" "" "pod-1" false _ tt demo_linkable mounted_files_ok eq_refl) as [_ Href];
    [by split|exact (calm_obliging false)|].
  apply Href. left.
Defined.
