(* ===== verification/Isolation.v ===== *)
(** * Install passes that share a process and a release

    [Ensure] holds the release's lock from its first call to its last
    ([acquire_mutual_exclusion]); between its calls everybody else goes on with
    the other releases of the same Helm storage.  A pass among such steps gives
    the result that it gives alone and leaves the pinned release as it does alone,
    whatever errors the client injects; passes of several configs are passes one
    after the other; and the first that reaches a healthy client does the work of
    all. *)

From Stdlib Require Import Ascii.
From stdpp Require Import base gmap strings list fin_maps.
From S2P Require Import Prelude GoStrings Unstructured Version InstallConfig Release HelmInstaller HelmInstallerFacts HelmMemory.

(** ** Clients that answer alike *)

Section Simulation.
Context {W1 W2 : Type} (C1 : HelmClient W1) (C2 : HelmClient W2) (R : W1 → W2 → Prop).

(** The configurations whose release the relation is about. *)
Context (about : InstallConfig → Prop).

Definition alike {A} (x : W1 * A) (y : W2 * A) : Prop := R x.1 y.1 ∧ x.2 = y.2.

(** From related worlds every call about the release gives the same answer and
    related worlds. *)
Record helm_sim : Prop := {
  sim_ctx w1 w2 : R w1 w2 → CtxErr w1 = CtxErr w2;
  sim_get w1 w2 cfg : about cfg → R w1 w2 →
    alike (GetRelease w1 (IcNamespace cfg) (ReleaseName cfg)) (GetRelease w2 (IcNamespace cfg) (ReleaseName cfg));
  sim_install w1 w2 cfg v : about cfg → R w1 w2 → alike (Install w1 cfg v) (Install w2 cfg v);
  sim_upgrade w1 w2 cfg v : about cfg → R w1 w2 → alike (Upgrade w1 cfg v) (Upgrade w2 cfg v);
  sim_rollback w1 w2 cfg to : about cfg → R w1 w2 → alike (Rollback w1 cfg to) (Rollback w2 cfg to);
  sim_store w1 w2 cfg : about cfg → R w1 w2 →
    alike (remembered w1 (IcNamespace cfg) (ReleaseName cfg)) (remembered w2 (IcNamespace cfg) (ReleaseName cfg)) ∧
    ∀ rel, R (remember w1 (IcNamespace cfg) (ReleaseName cfg) rel) (remember w2 (IcNamespace cfg) (ReleaseName cfg) rel);
  sim_claimer : match claimer (HelmClient := C1), claimer (HelmClient := C2) with
                | Some cl1, Some cl2 => ∀ w1 w2 cfg, about cfg → R w1 w2 → alike (cl1 w1 cfg) (cl2 w2 cfg)
                | None, None => True
                | _, _ => False
                end }.

Context (HS : helm_sim) (HasClient AllowDowngrade : bool) (MaxAttempts : Z).

(** One call on each side, with the answers identified. *)
Ltac both H :=
  let HH := fresh "HH" in
  pose proof H as HH;
  match type of HH with
  | alike ?x ?y =>
      let w1 := fresh "w" in let w2 := fresh "w" in let a := fresh "a" in let b := fresh "a" in
      let HR := fresh "HR" in
      destruct x as [w1 a], y as [w2 b]; destruct HH as [HR HH]; cbn [fst snd] in HR, HH; subst b;
      try (destruct a as [? ?])
  end.

(** The next call, in the worlds the last one left. *)
Ltac again lem :=
  match goal with
  | H : R ?u ?v |- alike (match _ ?u _ _ with _ => _ end) _ => both (lem u v H)
  end.

Ltac same := solve [done | split; [eassumption|reflexivity]].

Lemma reconcile_sim w1 w2 cfg actual lastGood e status :
  R w1 w2 → alike (reconcileAfterFailure w1 cfg actual lastGood e status) (reconcileAfterFailure w2 cfg actual lastGood e status).
Proof. intros HR. unfold reconcileAfterFailure. destruct (_ && _); same. Qed.

Lemma rollback_sim w1 w2 cfg actual before lastGood lastErr :
  about cfg → R w1 w2 →
  alike (rollbackAfterFailure w1 cfg actual before lastGood lastErr) (rollbackAfterFailure w2 cfg actual before lastGood lastErr).
Proof.
  intros Hcfg HR. unfold rollbackAfterFailure. cbv zeta. destruct (_ || _); [same|].
  both (sim_rollback HS w1 w2 cfg (if lastGood == "" then RelChartVersion before else lastGood) Hcfg HR).
  case_match; [|destruct (_ || _); same].
  again (λ u v, sim_get HS u v cfg Hcfg). same.
Qed.

Lemma upgrade_loop_sim n w1 w2 cfg values before lastGood lastErr :
  about cfg → R w1 w2 →
  alike (upgrade_loop n w1 cfg values before lastGood lastErr) (upgrade_loop n w2 cfg values before lastGood lastErr).
Proof.
  intros Hcfg. revert w1 w2 lastErr. induction n as [|n IH]; intros w1 w2 lastErr HR; cbn [upgrade_loop].
  - both (sim_get HS w1 w2 cfg Hcfg HR). by apply rollback_sim.
  - rewrite (sim_ctx HS w1 w2 HR). destruct (CtxErr w2) as [e|].
    + both (sim_get HS w1 w2 cfg Hcfg HR). by apply reconcile_sim.
    + both (sim_upgrade HS w1 w2 cfg values Hcfg HR). case_match; [|destruct (_ || _); [by apply IH|same]].
      again (λ u v, sim_get HS u v cfg Hcfg). cbv zeta.
      repeat first [destruct (_ && _) | destruct (errors_is _ ErrReleaseUnknown) | destruct (_ || _) | case_match];
        first [by apply reconcile_sim | by apply IH | same].
Qed.

Lemma claim_sim w1 w2 i cfg rel :
  about cfg → R w1 w2 → alike (claimOrLeaveUnmanaged w1 i cfg rel) (claimOrLeaveUnmanaged w2 i cfg rel).
Proof.
  intros Hcfg HR. unfold claimOrLeaveUnmanaged. destruct (_ || _); [same|]. pose proof (sim_claimer HS) as Hc.
  destruct (claimer (HelmClient := C1)) as [cl1|], (claimer (HelmClient := C2)) as [cl2|]; try same.
  both (Hc w1 w2 cfg Hcfg HR). case_match; [same|]. destruct (_ || _); same.
Qed.

Lemma ensure_locked_sim w1 w2 i cfg :
  about cfg → R w1 w2 →
  alike (ensure_locked AllowDowngrade MaxAttempts w1 i cfg) (ensure_locked AllowDowngrade MaxAttempts w2 i cfg).
Proof.
  intros Hcfg HR. unfold ensure_locked. cbv zeta. both (sim_get HS w1 w2 cfg Hcfg HR).
  destruct (is_err _ _).
  - again (λ u v, sim_install HS u v cfg (SafeHelmValues cfg) Hcfg). case_match; same.
  - case_match; [same|]. destruct (negb _); [by apply claim_sim|].
    match goal with H : R ?u ?v |- _ => destruct (sim_store HS u v cfg Hcfg H) as [Hl _] end.
    both Hl; case_match; try same; (apply upgrade_loop_sim; [done|]; by apply sim_store).
Qed.

(** From related worlds an install pass gives the same result and related worlds. *)
Lemma Ensure_sim w1 w2 i :
  (∀ vendor, about (pinned vendor)) → R w1 w2 →
  alike (Ensure HasClient AllowDowngrade MaxAttempts w1 i) (Ensure HasClient AllowDowngrade MaxAttempts w2 i).
Proof.
  intros Hpin HR. unfold Ensure. rewrite (sim_ctx HS w1 w2 HR). destruct (CtxErr w2); [same|].
  destruct (negb HasClient); [same|]. case_bool_decide; [same|].
  destruct (DefaultInstallConfig _) as [cfg|]; [|same]. destruct (ApplyVersionPolicy i cfg) as [cfg' pol].
  case_bool_decide; [same|]. destruct (ValidateArtifactRef cfg') as [[]|] eqn:Ev; [|same].
  apply ensure_locked_sim; [|done]. apply ValidateArtifactRef_ok in Ev as [-> _]. apply Hpin.
Qed.

End Simulation.

(** ** The others *)

(** What everybody else does to the client between two calls: install or change a
    release, remove one, remember a version to roll back to. *)
Inductive other_step :=
| PutRelease (key : string) (rel : HelmRelease)
| DropRelease (key : string)
| RememberRelease (key : string) (rel : HelmRelease).

Definition step_key (st : other_step) : string :=
  match st with PutRelease k _ | DropRelease k | RememberRelease k _ => k end.

Definition meddle (m : MemoryHelmClient) (st : other_step) : MemoryHelmClient :=
  match st with
  | PutRelease k rel => put k rel m
  | DropRelease k => with_rels (delete k (rels m)) m
  | RememberRelease k rel => with_lastGood (<[k := rel]> (lastGood m)) m
  end.

(** The lock of the pinned release is held: the others work on other releases. *)
Definition off_pin (st : other_step) : Prop := step_key st ≠ pin_key.

(** The client without what it keeps per release. *)
Definition bare (m : MemoryHelmClient) : MemoryHelmClient :=
  {| rels := ∅; history := ∅; lastGood := ∅; inflight := inflight m; MaxInflight := MaxInflight m; Upgrades := Upgrades m;
     Uninstalls := Uninstalls m; Rollbacks := Rollbacks m; UpgradeErr := UpgradeErr m; FailNUpgrades := FailNUpgrades m;
     failed := failed m; InstallErr := InstallErr m; FailNInstalls := FailNInstalls m; installFailed := installFailed m;
     UninstallErr := UninstallErr m; Timeout := Timeout m; Unknown := Unknown m; RollbackErr := RollbackErr m; ctx := ctx m |}.

(** The same client, as far as the pinned release goes. *)
Record same_slot (m m' : MemoryHelmClient) : Prop := {
  slot_rel : rels m !! pin_key = rels m' !! pin_key;
  slot_history : history m !! pin_key = history m' !! pin_key;
  slot_good : lastGood m !! pin_key = lastGood m' !! pin_key;
  slot_bare : bare m = bare m' }.

#[export] Instance same_slot_equiv : Equivalence same_slot.
Proof.
  split.
  - by intros m.
  - by intros m m' [].
  - intros m1 m2 m3 [] []. split; congruence.
Qed.

(** The same releases apart from the pinned one. *)
Definition same_others (m m' : MemoryHelmClient) : Prop := ∀ k, k ≠ pin_key → rels m !! k = rels m' !! k.

#[export] Instance same_others_equiv : Equivalence same_others.
Proof.
  split.
  - by intros m k.
  - intros m m' Hm k Hk. by rewrite Hm.
  - intros m1 m2 m3 H1 H2 k Hk. by rewrite H1, H2.
Qed.

Lemma meddle_slot m st : off_pin st → same_slot (meddle m st) m.
Proof.
  unfold off_pin. destruct st as [k rel|k|k rel]; cbn; intros Hk; split; cbn; try done;
    by rewrite ?lookup_insert_ne, ?lookup_delete_ne by done.
Qed.

Lemma meddle_others st m m' : same_others m m' → same_others (meddle m st) (meddle m' st).
Proof.
  intros Hm k Hk. destruct st as [k' rel|k'|k' rel]; cbn.
  - destruct (decide (k' = k)) as [->|]; [by rewrite !lookup_insert_eq|]. rewrite !lookup_insert_ne by done. by apply Hm.
  - destruct (decide (k' = k)) as [->|]; [by rewrite !lookup_delete_eq|]. rewrite !lookup_delete_ne by done. by apply Hm.
  - by apply Hm.
Qed.

Lemma meddles_slot sts m : Forall off_pin sts → same_slot (foldl meddle m sts) m.
Proof.
  revert m. induction sts as [|st sts IH]; intros m Hf; [done|]. apply Forall_cons in Hf as [Hst Hf]. cbn.
  etrans; [by apply IH|by apply meddle_slot].
Qed.

Lemma meddles_others sts m m' : same_others m m' → same_others (foldl meddle m sts) (foldl meddle m' sts).
Proof. revert m m'. induction sts as [|st sts IH]; intros m m' Hm; [done|]. by apply IH, meddle_others. Qed.

(** ** The calls of a pass *)

(** A call about the pinned release sees and changes nothing else. *)
Definition pin_local {A} (call : MemoryHelmClient → MemoryHelmClient * A) : Prop :=
  ∀ m m', same_slot m m' →
    same_slot (call m).1 (call m').1 ∧ (call m).2 = (call m').2 ∧ same_others (call m).1 m.

Ltac open_slot :=
  intros m m' [Hr Hh Hg Hb]; destruct m as [r h l], m' as [r' h' l']; cbn in Hr, Hh, Hg, Hb; simplify_eq.

Ltac close_slot :=
  split; [split; cbn; rewrite ?lookup_insert_eq, ?lookup_delete_eq; first [reflexivity|congruence]|]; split; [cbn; first [reflexivity|congruence]|];
  intros k Hk; cbn; by rewrite ?lookup_insert_ne, ?lookup_delete_ne by done.

Lemma get_local : pin_local (λ m, mem_get m DefaultNamespace NVIDIAReleaseName).
Proof. open_slot. unfold mem_get. cbn [rels]. fold pin_key. rewrite Hr. destruct (r' !! pin_key) eqn:E; close_slot. Qed.

Lemma install_local cfg v :
  releaseKey (IcNamespace cfg) (ReleaseName cfg) = pin_key → pin_local (λ m, mem_install m cfg v).
Proof.
  intros Hkey. open_slot. unfold mem_install. destruct (requirePinnedConfig cfg); [|close_slot].
  rewrite Hkey. cbn [rels]. rewrite Hr. destruct (r' !! pin_key) eqn:E; [close_slot|].
  cbn [InstallErr FailNInstalls installFailed]. destruct (injected _ _ _); [close_slot|].
  unfold put, appendHistory. cbv zeta. close_slot.
Qed.

Lemma rollback_local cfg to :
  releaseKey (IcNamespace cfg) (ReleaseName cfg) = pin_key → pin_local (λ m, mem_rollback m cfg to).
Proof.
  intros Hkey. open_slot. unfold mem_rollback. destruct (requirePinnedConfig cfg); [|close_slot].
  destruct (ValidateReleaseVersion to); [|close_slot]. rewrite Hkey. cbv zeta. cbn [rels lastGood RollbackErr count_rollback with_counts].
  rewrite Hr, Hg. destruct (r' !! pin_key) as [ex|] eqn:E; [|close_slot]. destruct (negb _); [close_slot|].
  case_match; [close_slot|]. destruct (l' !! pin_key) as [prev|] eqn:El; [|close_slot]. destruct (negb _); close_slot.
Qed.

Lemma remember_local rel :
  pin_local (λ m, (mem_remember m DefaultNamespace NVIDIAReleaseName rel, ())).
Proof. open_slot. unfold mem_remember. fold pin_key. close_slot. Qed.

Lemma lookup_local : pin_local (λ m, mem_lastKnownGood m DefaultNamespace NVIDIAReleaseName).
Proof. open_slot. unfold mem_lastKnownGood. cbn [lastGood]. fold pin_key. close_slot. Qed.

Lemma claim_local cfg :
  releaseKey (IcNamespace cfg) (ReleaseName cfg) = pin_key → pin_local (λ m, mem_claim m cfg).
Proof.
  intros Hkey. open_slot. unfold mem_claim. destruct (requirePinnedConfig cfg); [|close_slot].
  rewrite Hkey. cbn [rels]. rewrite Hr. destruct (r' !! pin_key) as [ex|] eqn:E; [|close_slot].
  destruct (negb _); close_slot.
Qed.

Lemma upgrade_local cfg v :
  releaseKey (IcNamespace cfg) (ReleaseName cfg) = pin_key → pin_local (λ m, mem_upgrade m cfg v).
Proof.
  intros Hkey. open_slot. unfold mem_upgrade. destruct (requirePinnedConfig cfg); [|close_slot].
  rewrite Hkey. cbv zeta. cbn [rels lastGood count_upgrade begin_ with_counts with_inflight].
  rewrite Hr, Hg. destruct (r' !! pin_key) as [ex|] eqn:E; [|close_slot]. destruct (negb _); [close_slot|].
  destruct (l' !! pin_key) as [prev|] eqn:El;
    cbn [ctx Timeout Unknown UpgradeErr FailNUpgrades failed with_lastGood count_upgrade begin_ with_counts with_inflight];
    repeat (case_match; [close_slot|]); close_slot.
Qed.

(** ** A pass among the steps of others *)

(** The client, and what the others will do to it: one list for each time they
    get to run. *)
Record Shared := mkShared { client : MemoryHelmClient; pending : list (list other_step) }.

Definition let_others (s : Shared) : Shared :=
  match pending s with
  | [] => s
  | sts :: rest => mkShared (foldl meddle (client s) sts) rest
  end.

(** The others run before each call. *)
Definition among {A} (call : MemoryHelmClient → MemoryHelmClient * A) (s : Shared) : Shared * A :=
  let s := let_others s in
  let '(m, a) := call (client s) in (mkShared m (pending s), a).

#[local] Instance interleaved : HelmClient Shared := {|
  CtxErr s := ctx (client s);
  GetRelease s ns n := among (λ m, mem_get m ns n) s;
  Install s cfg v := among (λ m, mem_install m cfg v) s;
  Upgrade s cfg v := among (λ m, mem_upgrade m cfg v) s;
  Rollback s cfg to := among (λ m, mem_rollback m cfg to) s;
  Uninstall s cfg := among (λ m, mem_uninstall m cfg) s;
  store := Some {|
    RememberLastKnownGood s ns n rel := (among (λ m, (mem_remember m ns n rel, ())) s).1;
    LookupLastKnownGood s ns n := among (λ m, mem_lastKnownGood m ns n) s |};
  claimer := Some (λ s cfg, among (λ m, mem_claim m cfg) s) |}.

(** The pinned release is as it is without the others; the other releases are what
    the steps taken so far made of them. *)
Record abreast (m0 : MemoryHelmClient) (all : list (list other_step)) (s : Shared) (m : MemoryHelmClient) : Prop := {
  ab_slot : same_slot (client s) m;
  ab_off : Forall off_pin (concat (pending s));
  ab_others : ∃ taken, all = taken ++ pending s ∧ same_others (client s) (foldl meddle m0 (concat taken)) }.

Lemma let_others_abreast m0 all s m : abreast m0 all s m → abreast m0 all (let_others s) m.
Proof.
  intros [Hs Hf (taken & Ht & Ho)]. unfold let_others. destruct (pending s) as [|sts rest] eqn:Ep.
  { split; [done|by rewrite Ep|]. exists taken. by rewrite Ep. }
  cbn in Hf. apply Forall_app in Hf as [Hf Hrest]. split; cbn [client pending].
  - etrans; [by apply meddles_slot|done].
  - done.
  - exists (taken ++ [sts]). rewrite <- app_assoc, concat_app, foldl_app. cbn. rewrite app_nil_r.
    split; [done|by apply meddles_others].
Qed.

Lemma among_alike m0 all {A} (call : MemoryHelmClient → MemoryHelmClient * A) s m :
  pin_local call → abreast m0 all s m → alike (abreast m0 all) (among call s) (call m).
Proof.
  intros Hl Ha%let_others_abreast. unfold among. cbv zeta. destruct Ha as [Hs Hf (taken & Ht & Ho)].
  destruct (Hl _ _ Hs) as (Hs' & Ha & Hk). destruct (call (client (let_others s))) as [m' a]. split; [|done].
  split; [done|done|]. exists taken. split; [done|]. by etrans.
Qed.

Definition about_pin (cfg : InstallConfig) : Prop := IcNamespace cfg = DefaultNamespace ∧ ReleaseName cfg = NVIDIAReleaseName.

Lemma about_pin_key cfg : about_pin cfg → releaseKey (IcNamespace cfg) (ReleaseName cfg) = pin_key.
Proof. by intros [-> ->]. Qed.

Lemma interleaved_sim m0 all : helm_sim interleaved memory_client (abreast m0 all) about_pin.
Proof.
  split.
  - intros s m [Hs _ _]. cbn. exact (f_equal ctx (slot_bare _ _ Hs)).
  - intros s m cfg [-> ->]. apply among_alike, get_local.
  - intros s m cfg v Hk. by apply among_alike, install_local, about_pin_key.
  - intros s m cfg v Hk. by apply among_alike, upgrade_local, about_pin_key.
  - intros s m cfg to Hk. by apply among_alike, rollback_local, about_pin_key.
  - intros s m cfg [-> ->] Ha. split; [exact (among_alike m0 all _ s m lookup_local Ha)|]. intros rel.
    exact (proj1 (among_alike m0 all _ s m (remember_local rel) Ha)).
  - cbn. intros s m cfg Hk. by apply among_alike, claim_local, about_pin_key.
Qed.

Section Passes.
Context (HasClient AllowDowngrade : bool) (MaxAttempts : Z).

Lemma Ensure_among m m0 all i :
  same_slot m0 m → Forall off_pin (concat all) →
  let x := Ensure HasClient AllowDowngrade MaxAttempts (mkShared m0 all) i in
  let y := Ensure HasClient AllowDowngrade MaxAttempts m i in
  x.2 = y.2 ∧ abreast m0 all x.1 y.1.
Proof.
  intros Hs Hf. cbv zeta.
  destruct (Ensure_sim _ _ _ _ (interleaved_sim m0 all) HasClient AllowDowngrade MaxAttempts (mkShared m0 all) m i)
    as [Ha Hr]; [|split; [done|done|by exists []]|done].
  by intros vendor.
Qed.

(** Passes that take the lock in turn, each with what the others do until the next
    takes it. *)
Fixpoint run_passes (ps : list (Intent * list (list other_step))) (m : MemoryHelmClient)
    : MemoryHelmClient * list (InstallResult * option err) :=
  match ps with
  | [] => (m, [])
  | (i, sts) :: ps' =>
      let x := Ensure HasClient AllowDowngrade MaxAttempts (mkShared m sts) i in
      let '(m', rs) := run_passes ps' (foldl meddle (client x.1) (concat (pending x.1))) in
      (m', x.2 :: rs)
  end.

(** The passes one after the other, with nobody else. *)
Fixpoint passes_alone (is_ : list Intent) (m : MemoryHelmClient) : MemoryHelmClient * list (InstallResult * option err) :=
  match is_ with
  | [] => (m, [])
  | i :: is' =>
      let x := Ensure HasClient AllowDowngrade MaxAttempts m i in
      let '(m', rs) := passes_alone is' x.1 in (m', x.2 :: rs)
  end.

(** Whatever errors the client injects, passes among the steps of others give the
    results of the passes alone and leave the pinned release as they do; the other
    releases are what the others made of them. *)
Theorem passes_serialize ps m m1 :
  same_slot m m1 → Forall off_pin (concat (concat (snd <$> ps))) →
  let x := run_passes ps m in let y := passes_alone (fst <$> ps) m1 in
  x.2 = y.2 ∧ same_slot x.1 y.1 ∧ same_others x.1 (foldl meddle m (concat (concat (snd <$> ps)))).
Proof.
  cbv zeta. revert m m1. induction ps as [|[i sts] ps IH]; intros m m1 Hs Hf; [done|].
  cbn [fmap list_fmap fst snd concat] in Hf |- *. rewrite concat_app in Hf |- *. apply Forall_app in Hf as [Hf Hrest].
  cbn [run_passes passes_alone]. destruct (Ensure_among m1 m sts i Hs Hf) as (Hr & [Hs' Hp (taken & Ht & Ho)]).
  set (x := Ensure _ _ _ (mkShared m sts) i) in *. set (y := Ensure _ _ _ m1 i) in *.
  destruct (IH (foldl meddle (client x.1) (concat (pending x.1))) y.1) as (IHr & IHs & IHo);
    [by etrans; [apply meddles_slot|]|done|].
  destruct (run_passes ps _) as [m' rs], (passes_alone _ _) as [m1' rs1]. cbn in *. rewrite Hr, IHr.
  split_and!; [done|done|]. etrans; [exact IHo|]. rewrite Ht, concat_app, !foldl_app. by do 2 apply meddles_others.
Qed.

End Passes.

(** ** One pass does the work of all *)

Lemma converged_alone ad ma m is_ :
  ctx m = None → Forall wants_nvidia is_ → converged m →
  (passes_alone true ad ma is_ m).1 = m ∧ length (passes_alone true ad ma is_ m).2 = length is_ ∧
  Forall (λ r, RAction r.1 = InstallNoop ∧ r.2 = None) (passes_alone true ad ma is_ m).2.
Proof.
  intros Hc Hall Hm. induction Hall as [|i is_ Hi _ IH]; [done|]. cbn [passes_alone].
  destruct (Ensure_converged ad ma m i Hc Hi Hm) as (Hw & Ha & He). rewrite Hw.
  destruct (passes_alone _ _ _ is_ m) as [w rs]. destruct IH as (IHw & IHl & IHr). cbn in *.
  split_and!; [done|by rewrite IHl|by constructor].
Qed.

(** [C17] Over the in-memory Helm client without injected faults, when there is no
    pinned release yet or an owned one strictly older than the pin: however many
    configs ask for the NVIDIA operator, in whatever order their passes take the
    release's lock, and whatever others install, change, remove or remember of other
    releases in the same storage between any two calls, the first pass installs or
    upgrades the pinned release without error, every later one is a no-op without
    error, the release ends owned at the pinned version, and every other release is
    exactly what the others made of it. *)
Theorem passes_converge ad ma m i sts (ps : list (Intent * list (list other_step))) :
  healthy m → Forall wants_nvidia (i :: (fst <$> ps)) → Forall off_pin (concat (concat (sts :: (snd <$> ps)))) →
  (∀ rel, rels m !! pin_key = Some rel → ManagedByAdapter rel = true ∧ upgradable rel) →
  ∃ m' r rs,
    run_passes true ad ma ((i, sts) :: ps) m = (m', r :: rs) ∧ converged m' ∧
    (∀ k, k ≠ pin_key → rels m' !! k = rels (foldl meddle m (concat (concat (sts :: (snd <$> ps))))) !! k) ∧
    r.2 = None ∧ length rs = length ps ∧ Forall (λ r, RAction r.1 = InstallNoop ∧ r.2 = None) rs.
Proof.
  intros Hh [Hi Hall]%Forall_cons Hf Hrel. destruct (Ensure_reaches_pin ad ma m i Hh Hi Hrel) as (He & Hc & _ & Hctx).
  destruct (converged_alone ad ma _ _ Hctx Hall Hc) as (Hw & Hlen & Hr). rewrite length_fmap in Hlen.
  destruct (passes_serialize true ad ma ((i, sts) :: ps) m m (reflexivity m) Hf) as (Hrs & Hs & Ho).
  destruct (run_passes true ad ma ((i, sts) :: ps) m) as [m' rs']. cbn [fst snd fmap list_fmap passes_alone] in *.
  destruct (passes_alone _ _ _ (fst <$> ps) _) as [w rs]. cbn [fst snd] in *. subst rs' w.
  exists m', (Ensure true ad ma m i).2, rs. split; [done|]. split; [|by split_and!].
  unfold converged. by rewrite (slot_rel _ _ Hs).
Qed.

(** A release of somebody else. *)
Definition foreign_release : HelmRelease :=
  {| RelName := "prometheus"; RelNamespace := "monitoring"; RelChartName := "prometheus"; RelChartVersion := "25.0.0";
     RelStatus := HelmStatusDeployed; Revision := 1; LastKnownGood := ""; Labels := None |}.

(** Three configs, while others install and remove two releases. *)
Definition demo_passes : list (Intent * list (list other_step)) :=
  [(demo_intent, []); (demo_intent, [[DropRelease "monitoring/loki"]])].

Lemma passes_converge_witness :
  ∃ m' r rs, run_passes true false 0
      ((demo_intent, [[PutRelease "monitoring/prometheus" foreign_release]; [PutRelease "monitoring/loki" foreign_release]]) :: demo_passes)
      (memory_with old_release) = (m', r :: rs) ∧ converged m' ∧
    rels m' !! "monitoring/prometheus" = Some foreign_release ∧ rels m' !! "monitoring/loki" = None ∧
    Forall (λ r, RAction r.1 = InstallNoop ∧ r.2 = None) rs.
Proof.
  destruct (passes_converge false 0 (memory_with old_release) demo_intent
      [[PutRelease "monitoring/prometheus" foreign_release]; [PutRelease "monitoring/loki" foreign_release]] demo_passes)
    as (m' & r & rs & Hrun & Hc & Ho & _ & _ & Hr).
  - by split.
  - repeat constructor; exact demo_wants.
  - repeat constructor; vm_compute; discriminate.
  - intros rel Hk. assert (rel = old_release) as -> by (vm_compute in Hk; vm_compute; congruence).
    split; [vm_compute; reflexivity|exact old_upgradable].
  - exists m', r, rs. split; [exact Hrun|]. split; [exact Hc|].
    rewrite !Ho by (vm_compute; discriminate). split; [vm_compute; reflexivity|]. split; [vm_compute; reflexivity|exact Hr].
Defined.
