(* ===== verification/SharedRelease.v ===== *)
(** * One release for several configs: install and cleanup passes in turn

    Cleanup counts the other configs, and uses the count to keep CRDs only: the
    release that another config still asks for is uninstalled, and that config's
    next pass installs it again. *)

From Stdlib Require Import Ascii.
From stdpp Require Import base gmap strings list fin_maps sets.
From S2P Require Import Prelude GoStrings Unstructured Version InstallConfig Release HelmInstaller HelmInstallerFacts HelmMemory Cleanup CleanupFacts Isolation.

(** ** What decides about the release *)

(** Ownership and policy alone: no count of other configs, OPI objects or
    dependents, and no dataplane object, keeps a release. *)
Lemma DecideCleanup_ignores_refs rel removal adoption refs refs' allow allow' :
  let p := DecideCleanup rel removal adoption refs allow in
  let p' := DecideCleanup rel removal adoption refs' allow' in
  DeleteRelease p = DeleteRelease p' ∧ PlanOwnership p = PlanOwnership p' ∧ PlanAction p = PlanAction p'.
Proof.
  cbv zeta. unfold DecideCleanup. cbv zeta. do 3 (case_bool_decide; [done|]). destruct (negb (policy_allows _ _ _)); [done|].
  by destruct (plan_dataplane _ _ (Dataplane refs) _), (plan_dataplane _ _ (Dataplane refs') _).
Qed.

Lemma DecideCleanup_deletes rel removal adoption refs allow :
  AllowsDelete (ClassifyReleaseOwnership rel) = true →
  policy_allows (OKind (ClassifyReleaseOwnership rel)) removal adoption = true →
  let p := DecideCleanup rel removal adoption refs allow in
  DeleteRelease p = true ∧ PlanOwnership p = ClassifyReleaseOwnership rel.
Proof.
  intros Ha Hp. cbv zeta. unfold DecideCleanup. cbv zeta.
  pose proof (proj1 (ownership_delete rel) Ha) as (Hn & _). rewrite (bool_decide_false (RelName rel = "")) by done.
  assert (Hi : ∀ k, k ∈ [OwnershipInvalid; OwnershipExternal] → OKind (ClassifyReleaseOwnership rel) ≠ k).
  { intros k Hin E. unfold AllowsDelete in Ha. rewrite E in Ha. set_unfold in Hin. by destruct Hin as [->| [->|[]]]. }
  rewrite !bool_decide_false by (apply Hi; set_solver). rewrite Hp. cbn [negb].
  by destruct (plan_dataplane _ _ (Dataplane refs) _).
Qed.

(** ** Cleanup, then the pass of the other config *)

Lemma delete_plane_helm live ds c deleted skipped :
  helm_part (delete_plane (H0 := cluster_index) c live ds deleted skipped).1 = helm_part c.
Proof.
  revert c deleted skipped. induction ds as [|d ds IH]; intros c deleted skipped; cbn [delete_plane]; [done|].
  destruct (stillProtected d live); [apply IH|]. cbn. by rewrite IH.
Qed.

Lemma cleanup_uninstalls c cfg allow rel :
  rels (helm_part c) !! pin_key = Some rel → AllowsDelete (ClassifyReleaseOwnership rel) = true →
  UninstallErr (helm_part c) = None →
  policy_allows (OKind (ClassifyReleaseOwnership rel)) (policiesFrom (Some cfg)).1.1 (policiesFrom (Some cfg)).1.2 = true →
  let x := CleanupInstallations (H0 := cluster_index) true allow c (Some cfg) in
  CrAction x.2 = CleanupDeleted ∧
  helm_part x.1 = with_rels (delete pin_key (rels (helm_part c))) (count_uninstall (helm_part c)).
Proof.
  intros Hk Ha Hu Hp. cbv zeta. unfold CleanupInstallations.
  destruct (policiesFrom (Some cfg)) as [[removal adoption] note]. cbn [fst snd] in Hp. cbn [negb].
  change (DefaultInstallConfig VendorNVIDIA) with (Ok pin).
  cbn [GetRelease cluster_helm]. unfold mem_get. rewrite pin_cfg_key, Hk. cbn [on_helm fst snd is_err Refs cluster_index on_index mem_refs].
  match goal with |- context [DecideCleanup rel removal adoption ?r allow] =>
    destruct (DecideCleanup_deletes rel removal adoption r allow Ha Hp) as [Hd Ho]; set (plan := DecideCleanup _ _ _ r _) in * end.
  rewrite Hd. cbn [negb]. unfold execute_plan. cbv zeta. cbn [GetRelease cluster_helm on_helm]. unfold mem_get.
  cbn [helm_part]. rewrite pin_cfg_key, Hk. cbn [fst snd is_err]. rewrite Ho, bool_decide_true, Ha by done. cbn [negb orb].
  cbn [Uninstall cluster_helm on_helm helm_part]. unfold mem_uninstall. rewrite pin_required, pin_cfg_key. cbv zeta.
  change (rels (count_uninstall (helm_part c))) with (rels (helm_part c)). rewrite Hk, Ha. cbn [negb].
  change (UninstallErr (count_uninstall (helm_part c))) with (UninstallErr (helm_part c)). rewrite Hu.
  cbn [fst snd Refs cluster_index on_index mem_refs helm_part index_part].
  match goal with |- context [delete_plane ?cc ?l ?ds ?a ?b] =>
    pose proof (delete_plane_helm l ds cc a b) as Hh; destruct (delete_plane cc l ds a b) as [c' [del sk]] end.
  by split.
Qed.

(** Whatever the index says of other configs, objects and dependents: a config that
    allows it and is deleted takes the owned release with it, and the next pass of
    a config that asks for the operator installs it anew. *)
Theorem shared_release_flaps c cfg allow rel i ad ma :
  healthy (helm_part c) → UninstallErr (helm_part c) = None →
  rels (helm_part c) !! pin_key = Some rel → AllowsDelete (ClassifyReleaseOwnership rel) = true →
  policy_allows (OKind (ClassifyReleaseOwnership rel)) (policiesFrom (Some cfg)).1.1 (policiesFrom (Some cfg)).1.2 = true →
  wants_nvidia i →
  let x := CleanupInstallations (H0 := cluster_index) true allow c (Some cfg) in
  let y := Ensure true ad ma (helm_part x.1) i in
  CrAction x.2 = CleanupDeleted ∧ rels (helm_part x.1) !! pin_key = None ∧ y.2.2 = None ∧ converged y.1.
Proof.
  intros Hh Hu Hk Ha Hp Hi. cbv zeta. destruct (cleanup_uninstalls c cfg allow rel Hk Ha Hu Hp) as [Hact Hhelm].
  rewrite Hhelm. split; [done|]. split; [apply lookup_delete_eq|].
  destruct (Ensure_reaches_pin ad ma (with_rels (delete pin_key (rels (helm_part c))) (count_uninstall (helm_part c))) i)
    as (He & Hc & _); [by destruct Hh|done| |by split].
  intros r Hr. change (delete pin_key (rels (helm_part c)) !! pin_key = Some r) in Hr. by rewrite lookup_delete_eq in Hr.
Qed.

(** Two configs; the first is deleted. *)
Definition two_tenants : Cluster :=
  {| helm_part := memory_with old_release;
     index_part := {| Tenants := ["cfg"; "other"]; MOPI := []; MDataplane := []; MCRDDependents := 2; Deleted := [];
                      FlipReferenced := false; looks := 0 |} |}.

Lemma shared_release_flaps_witness :
  OtherTenants (mem_refs (index_part two_tenants) "cfg" DefaultNamespace).2.1 = 1 ∧
  let x := CleanupInstallations (H0 := cluster_index) true false two_tenants (Some demo_config) in
  CrAction x.2 = CleanupDeleted ∧ rels (helm_part x.1) !! pin_key = None.
Proof.
  split; [reflexivity|].
  destruct (shared_release_flaps two_tenants demo_config false old_release demo_intent false 0) as (Ha & Hn & _);
    [by split|reflexivity|reflexivity|vm_compute; reflexivity|vm_compute; reflexivity|exact demo_wants|].
  by split.
Defined.
